(** * dev-browser: workspace manager, Chrome launcher and page registry

    A shallow embedding of [chrome-launcher] (the second half of
    [packages/dev-browser/src/client.ts]), of the direct client of the first
    half of that file, and of [skills/dev-browser/src/workspace-server.ts].

    JavaScript values are modelled as follows.
    - strings are [string]; a string is truthy when it is not empty;
    - numbers that the code only prints or compares (ports, coordinates,
      HTTP statuses, delays) are [Z];
    - a [Map] is an insertion-ordered association list ([JSMap]): the code
      iterates over [entries()], [values()] and [keys()], so order matters;
    - objects shared by reference (child processes, browsers, contexts,
      pages) live in a store inside the state and are named by their index;
    - an exception is the [Throw] result of the monad [M], carrying the
      message of the thrown [Error]; [try]/[catch] is [try_catch];
    - everything outside the program (the operating system, the browser
      processes, the automation protocol) answers through the oracles of
      [Env], indexed by the number of outside calls made so far. *)

From Stdlib Require Import String Ascii List ZArith Bool Lia Arith DecimalString.
Import ListNotations.
Local Open Scope string_scope.

Set Implicit Arguments.

(* ------------------------------------------------------------------ *)
(** ** JavaScript strings *)

Definition truthy (s : string) : bool := negb (String.eqb s "").

Definition opt_truthy (o : option string) : bool :=
  match o with Some s => truthy s | None => false end.

(** [String(n)] for an integer [n]. *)
Definition show_Z (z : Z) : string := NilZero.string_of_int (Z.to_int z).

Definition startsWith (s p : string) : bool := String.prefix p s.

(** [decodeURIComponent], ECMAScript's [Decode] with nothing reserved; a
    string stands for its UTF-8 encoding.  Every [%] must begin an escape
    [%XX] of two hexadecimal digits.  An escaped octet below 128 is that
    character; one from 128 on must begin a well-formed UTF-8 sequence all
    of whose octets are escaped, which gives the character it encodes;
    what is not escaped is copied.  [None] is the [URIError] that is thrown
    otherwise. *)
Definition hex_value (c : ascii) : option nat :=
  let n := nat_of_ascii c in
  if ((48 <=? n) && (n <=? 57))%nat then Some (n - 48)
  else if ((65 <=? n) && (n <=? 70))%nat then Some (n - 55)
  else if ((97 <=? n) && (n <=? 102))%nat then Some (n - 87)
  else None.

Inductive UriUnit := Plain (c : ascii) | Escaped (octet : nat).

Fixpoint uri_units (s : string) : option (list UriUnit) :=
  match s with
  | EmptyString => Some []
  | String c r =>
      if Ascii.eqb c "%" then
        match r with
        | String a (String b r') =>
            match hex_value a, hex_value b, uri_units r' with
            | Some h, Some l, Some us => Some (Escaped (16 * h + l) :: us)
            | _, _, _ => None
            end
        | _ => None
        end
      else option_map (cons (Plain c)) (uri_units r)
  end.

Definition between (lo hi n : nat) : bool := ((lo <=? n) && (n <=? hi))%nat.

Definition octets (l : list nat) (s : string) : string :=
  fold_right (fun o r => String (ascii_of_nat o) r) s l.

(** The second octet of a well-formed sequence of three or of four. *)
Definition second_of_three (o o1 : nat) : bool :=
  if (o =? 224)%nat then between 160 191 o1
  else if (o =? 237)%nat then between 128 159 o1
  else between 128 191 o1.

Definition second_of_four (o o1 : nat) : bool :=
  if (o =? 240)%nat then between 144 191 o1
  else if (o =? 244)%nat then between 128 143 o1
  else between 128 191 o1.

Fixpoint utf8_units (us : list UriUnit) : option string :=
  match us with
  | [] => Some EmptyString
  | Plain c :: r => option_map (String c) (utf8_units r)
  | Escaped o :: r =>
      if (o <? 128)%nat then option_map (octets [o]) (utf8_units r)
      else if between 194 223 o then
        match r with
        | Escaped o1 :: r1 =>
            if between 128 191 o1
            then option_map (octets [o; o1]) (utf8_units r1)
            else None
        | _ => None
        end
      else if between 224 239 o then
        match r with
        | Escaped o1 :: Escaped o2 :: r2 =>
            if second_of_three o o1 && between 128 191 o2
            then option_map (octets [o; o1; o2]) (utf8_units r2)
            else None
        | _ => None
        end
      else if between 240 244 o then
        match r with
        | Escaped o1 :: Escaped o2 :: Escaped o3 :: r3 =>
            if second_of_four o o1 && between 128 191 o2 && between 128 191 o3
            then option_map (octets [o; o1; o2; o3]) (utf8_units r3)
            else None
        | _ => None
        end
      else None
  end.

Definition decodeURIComponent (s : string) : option string :=
  match uri_units s with
  | Some us => utf8_units us
  | None => None
  end.

Fixpoint drop (n : nat) (s : string) : string :=
  match n, s with
  | O, _ => s
  | S n', String _ r => drop n' r
  | S _, EmptyString => EmptyString
  end.

(** [line.replace(p, "")] at a line known to start with [p]. *)
Definition strip_prefix (p s : string) : string := drop (String.length p) s.

Fixpoint split_on (c : ascii) (s : string) : list string :=
  match s with
  | EmptyString => [EmptyString]
  | String a r =>
      if Ascii.eqb a c then EmptyString :: split_on c r
      else match split_on c r with
           | h :: t => String a h :: t
           | [] => [String a EmptyString]
           end
  end.

(** ASCII white space, the part of [String.prototype.trim]'s set that a
    one-byte character can hold. *)
Definition is_space (a : ascii) : bool :=
  let n := nat_of_ascii a in
  Nat.eqb n 32 || (Nat.leb 9 n && Nat.leb n 13).

Fixpoint trimStart (s : string) : string :=
  match s with
  | String a r => if is_space a then trimStart r else s
  | EmptyString => EmptyString
  end.

Fixpoint trimEnd (s : string) : string :=
  match s with
  | EmptyString => EmptyString
  | String a r =>
      match trimEnd r with
      | EmptyString => if is_space a then EmptyString else String a EmptyString
      | r' => String a r'
      end
  end.

Definition trim (s : string) : string := trimEnd (trimStart s).

Definition join_with (sep : string) (l : list string) : string :=
  String.concat sep l.

(* ------------------------------------------------------------------ *)
(** ** [Map]: insertion-ordered, keyed by strings *)

Module JSMap.
Section Ops.
Variable V : Type.

Definition t := list (string * V).

Definition empty : t := [].

Fixpoint get (k : string) (m : t) : option V :=
  match m with
  | [] => None
  | (k', v) :: r => if String.eqb k k' then Some v else get k r
  end.

Definition has (k : string) (m : t) : bool :=
  match get k m with Some _ => true | None => false end.

(** [set] keeps the position of a key that is already there. *)
Fixpoint set (k : string) (v : V) (m : t) : t :=
  match m with
  | [] => [(k, v)]
  | (k', v') :: r =>
      if String.eqb k k' then (k, v) :: r else (k', v') :: set k v r
  end.

Definition delete (k : string) (m : t) : t :=
  filter (fun kv => negb (String.eqb k (fst kv))) m.

Definition keys (m : t) : list string := map fst m.
Definition values (m : t) : list V := map snd m.
Definition entries (m : t) : list (string * V) := m.
End Ops.

Arguments empty {V}.
Arguments get {V} k m.
Arguments has {V} k m.
Arguments set {V} k v m.
Arguments delete {V} k m.
Arguments keys {V} m.
Arguments values {V} m.
Arguments entries {V} m.
End JSMap.

(* ------------------------------------------------------------------ *)
(** ** [getVirtualDisplayPosition]: reading the output of [displayplacer] *)

Record Point := { px : Z; py : Z }.
Record Size := { width : Z; height : Z }.

Record DisplayInfo := { origin : Point; resolution : Size }.

Record Screen := { scr_type : string; scr_origin : string; scr_resolution : string }.

(** [currentScreen]: each field is [undefined] until a line sets it. *)
Record CurrentScreen := {
  cs_type : option string;
  cs_origin : option string;
  cs_resolution : option string
}.

Definition no_screen : CurrentScreen :=
  {| cs_type := None; cs_origin := None; cs_resolution := None |}.

(** The screen pushed when all three fields are truthy. *)
Definition complete (cs : CurrentScreen) : list Screen :=
  match cs_type cs, cs_origin cs, cs_resolution cs with
  | Some t, Some o, Some r =>
      if truthy t && truthy o && truthy r
      then [{| scr_type := t; scr_origin := o; scr_resolution := r |}]
      else []
  | _, _, _ => []
  end.

Definition first_word (s : string) : string :=
  match split_on " "%char s with h :: _ => h | [] => EmptyString end.

Definition scan_line (acc : list Screen * CurrentScreen) (line : string)
  : list Screen * CurrentScreen :=
  let (screens, cur) := acc in
  if startsWith line "Type:" then
    (screens, {| cs_type := Some (trim (strip_prefix "Type:" line));
                 cs_origin := cs_origin cur;
                 cs_resolution := cs_resolution cur |})
  else if startsWith line "Origin:" then
    (screens, {| cs_type := cs_type cur;
                 cs_origin := Some (first_word (trim (strip_prefix "Origin:" line)));
                 cs_resolution := cs_resolution cur |})
  else if startsWith line "Resolution:" then
    (screens, {| cs_type := cs_type cur;
                 cs_origin := cs_origin cur;
                 cs_resolution := Some (trim (strip_prefix "Resolution:" line)) |})
  else if startsWith line "Persistent screen id:" && opt_truthy (cs_type cur) then
    ((screens ++ complete cur)%list, no_screen)
  else (screens, cur).

Definition collect_screens (stdout : string) : list Screen :=
  let (screens, cur) :=
    fold_left scan_line (split_on "010"%char stdout) ([], no_screen) in
  (screens ++ complete cur)%list.

Definition is_digit (a : ascii) : bool :=
  let n := nat_of_ascii a in Nat.leb 48 n && Nat.leb n 57.

Fixpoint span_digits (s : string) : string * string :=
  match s with
  | String a r =>
      if is_digit a
      then let (d, rest) := span_digits r in (String a d, rest)
      else (EmptyString, s)
  | EmptyString => (EmptyString, EmptyString)
  end.

Fixpoint digits_value (acc : Z) (s : string) : Z :=
  match s with
  | EmptyString => acc
  | String a r => digits_value (10 * acc + Z.of_nat (nat_of_ascii a - 48))%Z r
  end.

(** [(\d+)] at the head of [s]: the number and what follows it. *)
Definition match_nat (s : string) : option (Z * string) :=
  let (d, rest) := span_digits s in
  if truthy d then Some (digits_value 0%Z d, rest) else None.

(** [(-?\d+)] at the head of [s]. *)
Definition match_int (s : string) : option (Z * string) :=
  match s with
  | String "-"%char r =>
      match match_nat r with
      | Some (v, rest) => Some ((- v)%Z, rest)
      | None => None
      end
  | _ => match_nat s
  end.

Definition match_origin_here (s : string) : option (Z * Z) :=
  match s with
  | String "("%char r =>
      match match_int r with
      | Some (x, String ","%char r2) =>
          match match_int r2 with
          | Some (y, String ")"%char _) => Some (x, y)
          | _ => None
          end
      | _ => None
      end
  | _ => None
  end.

(** [s.match(/\((-?\d+),(-?\d+)\)/)]: the leftmost match. *)
Fixpoint match_origin (s : string) : option (Z * Z) :=
  match match_origin_here s with
  | Some r => Some r
  | None => match s with
            | EmptyString => None
            | String _ r => match_origin r
            end
  end.

Definition match_res_here (s : string) : option (Z * Z) :=
  match match_nat s with
  | Some (w, String "x"%char r) =>
      match match_nat r with
      | Some (h, _) => Some (w, h)
      | None => None
      end
  | _ => None
  end.

(** [s.match(/(\d+)x(\d+)/)]: the leftmost match. *)
Fixpoint match_res (s : string) : option (Z * Z) :=
  match match_res_here s with
  | Some r => Some r
  | None => match s with
            | EmptyString => None
            | String _ r => match_res r
            end
  end.

Fixpoint pick_display (screens : list Screen) : option DisplayInfo :=
  match screens with
  | [] => None
  | s :: rest =>
      if String.eqb (scr_type s) "MacBook built in screen" then pick_display rest
      else match match_origin (scr_origin s), match_res (scr_resolution s) with
           | Some (x, y), Some (w, h) =>
               if (0 <? x)%Z
               then Some {| origin := {| px := x; py := y |};
                            resolution := {| width := w; height := h |} |}
               else pick_display rest
           | _, _ => pick_display rest
           end
  end.

(** Lines 168-230 of the launcher: from the text printed by
    [displayplacer list] to the placement, or [null]. *)
Definition parse_displays (stdout : string) : option DisplayInfo :=
  pick_display (collect_screens stdout).

Definition nl : string := String "010"%char EmptyString.
Definition dquote : string := String "034"%char EmptyString.

(* ------------------------------------------------------------------ *)
(** ** Objects of the outside world *)

Inductive Signal := SIGTERM | SIGKILL.

(** Node's [ChildProcess].  [cp_pid] is its [pid] property, [undefined]
    ([None]) when the child could not be spawned; [cp_handle] says that the
    child still exists (its handle is not yet released); [killed] is the
    property the launcher reads: Node sets it when [kill()] has delivered a
    signal, whatever the child does with the signal afterwards. *)
Record ChildProcess := {
  cp_pid : option nat;
  cp_handle : bool;
  killed : bool;
  cp_signals : list Signal
}.

Inductive JSValue := JSUndefined | JSString (s : string) | JSOther.

(** A page; [pg_marker] is what evaluating [globalThis.__devBrowserPageName]
    in it gives now, [None] when the evaluation throws. *)
Record PageObj := {
  pg_targetId : string;
  pg_marker : option JSValue;
  pg_closed : bool;
  pg_viewport : option Size;
  pg_on_close : list string
}.

Record ContextObj := {
  cx_init : option string;
  cx_pages : list PageObj;
  cx_closed : bool
}.

Record BrowserObj := {
  br_endpoint : string;
  br_contexts : list ContextObj;
  br_closed : bool
}.

Record PageRef := { pr_browser : nat; pr_context : nat; pr_page : nat }.

Inductive Event :=
| EvExec (cmd : string)
| EvSleep (ms : Z)
| EvMkdir (path : string)
| EvSpawn (path : string) (args : list string)
| EvFetch (url : string)
| EvKill (pid : nat) (sig : Signal)
| EvSetTimeout (ms : Z)
| EvConnectOverCDP (endpoint : string)
| EvConnect (endpoint : string)
| EvNewContext (b : nat)
| EvAddInitScript (b c : nat) (name : string)
| EvNewPage (b c : nat)
| EvEvaluate (p : PageRef)
| EvSetViewportSize (p : PageRef) (v : Size)
| EvNewCDPSession (p : PageRef)
| EvGetTargetInfo (p : PageRef)
| EvDetach (p : PageRef)
| EvPageClose (p : PageRef)
| EvContextClose (b c : nat)
| EvBrowserClose (b : nat)
| EvSocketDestroy (sock : nat)
| EvServerClose
| EvExit (code : Z).

Inductive JsonBody :=
| JsonThrows (msg : string)
| JsonVersion (webSocketDebuggerUrl : option string).

Inductive FetchResult :=
| FetchRejects (msg : string)
| FetchResponse (status : Z) (body : JsonBody).

(** The answers of the outside world.  The [nat] is the number of outside
    calls made before this one (the length of the trace). *)
Record Env := {
  platform : string;
  LOCALAPPDATA : string;
  data_dir : string -> string;
  exec_result : nat -> string -> option string;
  spawn_ok : nat -> bool;
  fetch_result : nat -> string -> FetchResult;
  throws : nat -> option string;
  live_contexts : nat -> string -> list ContextObj;
  new_target : nat -> string;
  exits_on_SIGTERM : nat -> bool
}.

(* ------------------------------------------------------------------ *)
(** ** Data of the program *)

Record WorkspaceConfig := { cfg_profileDirectory : string; cfg_port : Z }.

Record WorkspacesConfig := {
  cfg_workspaces : JSMap.t WorkspaceConfig;
  defaultWorkspace : string
}.

Record ChromeInstance := {
  process : nat;
  port : Z;
  profileDirectory : string;
  wsEndpoint : option string
}.

Inductive Status := stopped | starting | running.

Record WorkspaceState := {
  ws_name : string;
  ws_profileDirectory : string;
  ws_port : Z;
  ws_status : Status;
  ws_wsEndpoint : option string;
  ws_pid : option nat
}.

Record PageEntry := {
  page : PageRef;
  targetId : string;
  workspace : option string
}.

Record ChromeLaunchOptions := {
  workspaceName : string;
  opt_profileDirectory : string;
  opt_port : Z;
  headless : option bool;
  windowSize : option Size
}.

Record BuildChromeArgsOptions := {
  launch : ChromeLaunchOptions;
  windowPosition : option Point
}.

(** What a handler sends back: [res.status(n).json(body)]. *)
Inductive Body :=
| BError (error : string)
| BUnknown (error : string) (available : list string)
| BWorkspaces (states : list WorkspaceState) (current : option string)
| BCurrent (current : option string) (endpoint : option string)
| BSwitch (name : string) (endpoint : option string)
| BStop (name : string)
| BPages (names : list string)
| BPage (endpoint : string) (name : string) (target : string)
| BSuccess.

Record Response := { status : Z; body : Body }.

Definition json (b : Body) : Response := {| status := 200; body := b |}.

(** All mutable state: the outside world ([st_trace] to [st_browsers]), the
    module variable of the launcher, the fields of [WorkspaceManager], the
    variables closed over by [serveWorkspaces], and the registry closed over
    by [connect]. *)
Record St := {
  st_trace : list Event;
  st_procs : list ChildProcess;
  st_timers : list nat;
  st_browsers : list BrowserObj;
  cachedVirtualDisplay : option (option DisplayInfo);
  workspaces : JSMap.t ChromeInstance;
  currentWorkspace : option string;
  pageRegistry : JSMap.t PageEntry;
  browserConnections : JSMap.t nat;
  connections : list nat;
  cleaningUp : bool;
  registry : JSMap.t (nat * nat)
}.

Definition with_trace (x : list Event) (s : St) : St :=
  {| st_trace := x; st_procs := st_procs s; st_timers := st_timers s;
     st_browsers := st_browsers s;
     cachedVirtualDisplay := cachedVirtualDisplay s;
     workspaces := workspaces s; currentWorkspace := currentWorkspace s;
     pageRegistry := pageRegistry s; browserConnections := browserConnections s;
     connections := connections s; cleaningUp := cleaningUp s;
     registry := registry s |}.

Definition with_procs (x : list ChildProcess) (s : St) : St :=
  {| st_trace := st_trace s; st_procs := x; st_timers := st_timers s;
     st_browsers := st_browsers s;
     cachedVirtualDisplay := cachedVirtualDisplay s;
     workspaces := workspaces s; currentWorkspace := currentWorkspace s;
     pageRegistry := pageRegistry s; browserConnections := browserConnections s;
     connections := connections s; cleaningUp := cleaningUp s;
     registry := registry s |}.

Definition with_timers (x : list nat) (s : St) : St :=
  {| st_trace := st_trace s; st_procs := st_procs s; st_timers := x;
     st_browsers := st_browsers s;
     cachedVirtualDisplay := cachedVirtualDisplay s;
     workspaces := workspaces s; currentWorkspace := currentWorkspace s;
     pageRegistry := pageRegistry s; browserConnections := browserConnections s;
     connections := connections s; cleaningUp := cleaningUp s;
     registry := registry s |}.

Definition with_browsers (x : list BrowserObj) (s : St) : St :=
  {| st_trace := st_trace s; st_procs := st_procs s; st_timers := st_timers s;
     st_browsers := x;
     cachedVirtualDisplay := cachedVirtualDisplay s;
     workspaces := workspaces s; currentWorkspace := currentWorkspace s;
     pageRegistry := pageRegistry s; browserConnections := browserConnections s;
     connections := connections s; cleaningUp := cleaningUp s;
     registry := registry s |}.

Definition with_cachedVirtualDisplay (x : option (option DisplayInfo)) (s : St) : St :=
  {| st_trace := st_trace s; st_procs := st_procs s; st_timers := st_timers s;
     st_browsers := st_browsers s;
     cachedVirtualDisplay := x;
     workspaces := workspaces s; currentWorkspace := currentWorkspace s;
     pageRegistry := pageRegistry s; browserConnections := browserConnections s;
     connections := connections s; cleaningUp := cleaningUp s;
     registry := registry s |}.

Definition with_workspaces (x : JSMap.t ChromeInstance) (s : St) : St :=
  {| st_trace := st_trace s; st_procs := st_procs s; st_timers := st_timers s;
     st_browsers := st_browsers s;
     cachedVirtualDisplay := cachedVirtualDisplay s;
     workspaces := x; currentWorkspace := currentWorkspace s;
     pageRegistry := pageRegistry s; browserConnections := browserConnections s;
     connections := connections s; cleaningUp := cleaningUp s;
     registry := registry s |}.

Definition with_currentWorkspace (x : option string) (s : St) : St :=
  {| st_trace := st_trace s; st_procs := st_procs s; st_timers := st_timers s;
     st_browsers := st_browsers s;
     cachedVirtualDisplay := cachedVirtualDisplay s;
     workspaces := workspaces s; currentWorkspace := x;
     pageRegistry := pageRegistry s; browserConnections := browserConnections s;
     connections := connections s; cleaningUp := cleaningUp s;
     registry := registry s |}.

Definition with_pageRegistry (x : JSMap.t PageEntry) (s : St) : St :=
  {| st_trace := st_trace s; st_procs := st_procs s; st_timers := st_timers s;
     st_browsers := st_browsers s;
     cachedVirtualDisplay := cachedVirtualDisplay s;
     workspaces := workspaces s; currentWorkspace := currentWorkspace s;
     pageRegistry := x; browserConnections := browserConnections s;
     connections := connections s; cleaningUp := cleaningUp s;
     registry := registry s |}.

Definition with_browserConnections (x : JSMap.t nat) (s : St) : St :=
  {| st_trace := st_trace s; st_procs := st_procs s; st_timers := st_timers s;
     st_browsers := st_browsers s;
     cachedVirtualDisplay := cachedVirtualDisplay s;
     workspaces := workspaces s; currentWorkspace := currentWorkspace s;
     pageRegistry := pageRegistry s; browserConnections := x;
     connections := connections s; cleaningUp := cleaningUp s;
     registry := registry s |}.

Definition with_connections (x : list nat) (s : St) : St :=
  {| st_trace := st_trace s; st_procs := st_procs s; st_timers := st_timers s;
     st_browsers := st_browsers s;
     cachedVirtualDisplay := cachedVirtualDisplay s;
     workspaces := workspaces s; currentWorkspace := currentWorkspace s;
     pageRegistry := pageRegistry s; browserConnections := browserConnections s;
     connections := x; cleaningUp := cleaningUp s;
     registry := registry s |}.

Definition with_cleaningUp (x : bool) (s : St) : St :=
  {| st_trace := st_trace s; st_procs := st_procs s; st_timers := st_timers s;
     st_browsers := st_browsers s;
     cachedVirtualDisplay := cachedVirtualDisplay s;
     workspaces := workspaces s; currentWorkspace := currentWorkspace s;
     pageRegistry := pageRegistry s; browserConnections := browserConnections s;
     connections := connections s; cleaningUp := x;
     registry := registry s |}.

Definition with_registry (x : JSMap.t (nat * nat)) (s : St) : St :=
  {| st_trace := st_trace s; st_procs := st_procs s; st_timers := st_timers s;
     st_browsers := st_browsers s;
     cachedVirtualDisplay := cachedVirtualDisplay s;
     workspaces := workspaces s; currentWorkspace := currentWorkspace s;
     pageRegistry := pageRegistry s; browserConnections := browserConnections s;
     connections := connections s; cleaningUp := cleaningUp s;
     registry := x |}.

(** The state of a fresh server process. *)
Definition initial : St :=
  {| st_trace := []; st_procs := []; st_timers := []; st_browsers := [];
     cachedVirtualDisplay := None;
     workspaces := JSMap.empty; currentWorkspace := None;
     pageRegistry := JSMap.empty; browserConnections := JSMap.empty;
     connections := []; cleaningUp := false; registry := JSMap.empty |}.

(* ------------------------------------------------------------------ *)
(** ** The monad: state and exceptions *)

Inductive Result (A : Type) :=
| Ok (a : A)
| Throw (msg : string).

Arguments Ok {A} a.
Arguments Throw {A} msg.

Definition M (A : Type) : Type := St -> Result A * St.

Definition ret {A} (a : A) : M A := fun s => (Ok a, s).

Definition bind {A B} (c : M A) (k : A -> M B) : M B :=
  fun s => match c s with
           | (Ok a, s') => k a s'
           | (Throw m, s') => (Throw m, s')
           end.

Definition throw {A} (msg : string) : M A := fun s => (Throw msg, s).

(** [try { c } catch (err) { h err.message }] *)
Definition try_catch {A} (c : M A) (h : string -> M A) : M A :=
  fun s => match c s with
           | (Ok a, s') => (Ok a, s')
           | (Throw m, s') => h m s'
           end.

Definition gets {A} (f : St -> A) : M A := fun s => (Ok (f s), s).
Definition modify (f : St -> St) : M unit := fun s => (Ok tt, f s).

Declare Scope m_scope.
Delimit Scope m_scope with m.
Notation "x <- c ;; k" := (bind c (fun x => k))
  (at level 61, c at next level, right associativity) : m_scope.
Notation "c ;;; k" := (bind c (fun _ => k))
  (at level 61, right associativity) : m_scope.
Local Open Scope m_scope.

Fixpoint for_each {A} (l : list A) (body : A -> M unit) : M unit :=
  match l with
  | [] => ret tt
  | a :: r => body a ;;; for_each r body
  end.

(** [arr[i] = f(arr[i])] on a store. *)
Fixpoint update_at {A} (i : nat) (f : A -> A) (l : list A) : list A :=
  match l, i with
  | [], _ => []
  | a :: r, O => f a :: r
  | a :: r, S i' => a :: update_at i' f r
  end.

(* ------------------------------------------------------------------ *)
(** ** The launcher *)

Section Program.

Variable E : Env.
Variable cfg : WorkspacesConfig.

Definition emit (e : Event) : M unit :=
  modify (fun s => with_trace (st_trace s ++ [e])%list s).

Definition now : M nat := gets (fun s => length (st_trace s)).

(** An outside call that may throw: it is recorded, then the world answers. *)
Definition outside (e : Event) : M unit :=
  t <- now ;;
  emit e ;;;
  match throws E t with
  | Some m => throw m
  | None => ret tt
  end.

Definition execAsync (cmd : string) : M string :=
  t <- now ;;
  emit (EvExec cmd) ;;;
  match exec_result E t cmd with
  | Some stdout => ret stdout
  | None => throw ("Command failed: " ++ cmd)
  end.

(** [await new Promise((resolve) => setTimeout(resolve, ms))] *)
Definition sleep (ms : Z) : M unit := emit (EvSleep ms).

Definition DEFAULT_WINDOW_SIZE : Size := {| width := 1920; height := 1080 |}.
Definition VIRTUAL_DISPLAY_NAME : string := "DevBrowser".

Definition CHROME_PATHS (p : string) : list string :=
  if String.eqb p "darwin" then
    ["/Applications/Google Chrome.app/Contents/MacOS/Google Chrome";
     "/Applications/Google Chrome Canary.app/Contents/MacOS/Google Chrome Canary"]
  else if String.eqb p "win32" then
    ["C:\Program Files\Google\Chrome\Application\chrome.exe";
     "C:\Program Files (x86)\Google\Chrome\Application\chrome.exe";
     LOCALAPPDATA E ++ "\Google\Chrome\Application\chrome.exe"]
  else if String.eqb p "linux" then
    ["/usr/bin/google-chrome"; "/usr/bin/google-chrome-stable";
     "/usr/bin/chromium"; "/usr/bin/chromium-browser"]
  else [].

Definition display_query : string := "displayplacer list 2>/dev/null".

Definition display_create : string :=
  "betterdisplaycli create -type=VirtualScreen -virtualScreenName=" ++ dquote
  ++ VIRTUAL_DISPLAY_NAME ++ dquote
  ++ " -aspectWidth=1920 -aspectHeight=1080 -connected=on 2>/dev/null".

Definition getVirtualDisplayPosition : M (option DisplayInfo) :=
  if negb (String.eqb (platform E) "darwin") then ret None
  else
    try_catch
      (stdout <- execAsync display_query ;;
       ret (parse_displays stdout))
      (fun _ => ret None).

(** The [try] block returns the display of the second detection when there
    is one; every other way out of it ends at the final [return null]. *)
Definition ensureVirtualDisplay : M (option DisplayInfo) :=
  if negb (String.eqb (platform E) "darwin") then ret None
  else
    display <- getVirtualDisplayPosition ;;
    match display with
    | Some d => ret (Some d)
    | None =>
        try_catch
          (_ <- execAsync display_create ;;
           sleep 1000 ;;;
           getVirtualDisplayPosition)
          (fun _ => ret None)
    end.

(** [paths[0] || null] *)
Definition findChromeExecutable : option string :=
  match CHROME_PATHS (platform E) with
  | p :: _ => if truthy p then Some p else None
  | [] => None
  end.

Definition mkdirSync (path : string) : M unit := outside (EvMkdir path).

Definition is_true (o : option bool) : bool :=
  match o with Some b => b | None => false end.

Definition buildChromeArgs (options : BuildChromeArgsOptions) : M (list string) :=
  let o := launch options in
  let headless_ := match headless o with Some b => b | None => false end in
  let windowSize_ :=
    match windowSize o with Some w => w | None => DEFAULT_WINDOW_SIZE end in
  let userDataDir := data_dir E (workspaceName o) in
  mkdirSync userDataDir ;;;
  let args :=
    ["--user-data-dir=" ++ userDataDir;
     "--remote-debugging-port=" ++ show_Z (opt_port o);
     "--window-size=" ++ show_Z (width windowSize_) ++ ","
                      ++ show_Z (height windowSize_);
     "--no-first-run";
     "--no-default-browser-check";
     "--disable-background-timer-throttling";
     "--disable-backgrounding-occluded-windows";
     "--disable-renderer-backgrounding"] in
  let args :=
    match windowPosition options with
    | Some wp =>
        app args ["--window-position=" ++ show_Z (px wp) ++ "," ++ show_Z (py wp)]
    | None => args
    end in
  let args := if headless_ then app args ["--headless=new"] else args in
  ret (app args ["about:blank"]).

Definition http_ok (status : Z) : bool := (200 <=? status)%Z && (status <=? 299)%Z.

Definition version_url (port_ : Z) : string :=
  "http://127.0.0.1:" ++ show_Z port_ ++ "/json/version".

(** One turn of the loop of [waitForCDP]: the [try] block gives the
    endpoint, the [catch] block sleeps and gives the message kept in
    [lastError]. *)
Definition cdp_attempt (port_ delayMs : Z) : M (option string + string) :=
  try_catch
    (t <- now ;;
     emit (EvFetch (version_url port_)) ;;;
     match fetch_result E t (version_url port_) with
     | FetchRejects m => throw m
     | FetchResponse status body =>
         if http_ok status then
           match body with
           | JsonVersion url => ret (inl url)
           | JsonThrows m => throw m
           end
         else throw ("HTTP " ++ show_Z status)
     end)
    (fun m => sleep delayMs ;;; ret (inr m)).

Fixpoint waitForCDP_from (port_ delayMs : Z) (maxRetries left : nat)
    (lastError : option string) : M (option string) :=
  match left with
  | O => throw ("Chrome CDP not available after " ++ show_Z (Z.of_nat maxRetries)
                ++ " retries: "
                ++ match lastError with Some m => m | None => "undefined" end)
  | S left' =>
      r <- cdp_attempt port_ delayMs ;;
      match r with
      | inl url => ret url
      | inr m => waitForCDP_from port_ delayMs maxRetries left' (Some m)
      end
  end.

Definition waitForCDP (port_ : Z) (maxRetries : nat) (delayMs : Z) : M (option string) :=
  waitForCDP_from port_ delayMs maxRetries maxRetries None.

Definition spawn (path : string) (args : list string) : M nat :=
  t <- now ;;
  emit (EvSpawn path args) ;;;
  pid <- gets (fun s => length (st_procs s)) ;;
  modify (fun s => with_procs
            (st_procs s ++ [{| cp_pid := if spawn_ok E t then Some pid else None;
                               cp_handle := spawn_ok E t; killed := false;
                               cp_signals := [] |}])%list s) ;;;
  ret pid.

Definition launchChrome (options : ChromeLaunchOptions) : M ChromeInstance :=
  match findChromeExecutable with
  | None => throw ("Chrome executable not found for platform: " ++ platform E)
  | Some chromePath =>
      cached <- gets cachedVirtualDisplay ;;
      match cached with
      | None =>
          d <- ensureVirtualDisplay ;;
          modify (with_cachedVirtualDisplay (Some d))
      | Some _ => ret tt
      end ;;;
      cached' <- gets cachedVirtualDisplay ;;
      let windowPosition_ :=
        match cached' with Some (Some d) => Some (origin d) | _ => None end in
      let useHeadless :=
        match windowPosition_ with Some _ => false | None => true end
        && negb (is_true (headless options)) in
      args <- buildChromeArgs
                {| launch := {| workspaceName := workspaceName options;
                                opt_profileDirectory := opt_profileDirectory options;
                                opt_port := opt_port options;
                                headless := if useHeadless then Some true
                                            else headless options;
                                windowSize := windowSize options |};
                   windowPosition := windowPosition_ |} ;;
      chromeProcess <- spawn chromePath args ;;
      wsEndpoint_ <- waitForCDP (opt_port options) 30 500 ;;
      ret {| process := chromeProcess;
             port := opt_port options;
             profileDirectory := opt_profileDirectory options;
             wsEndpoint := wsEndpoint_ |}
  end.

(** *** A launch suspended at its first [await]

    [launchChrome] is an [async] function: while one call of it is
    suspended, another can begin.  A launch that finds
    [cachedVirtualDisplay] undefined calls [ensureVirtualDisplay], which on
    macOS calls [getVirtualDisplayPosition], which starts the display query
    and is suspended at the [await] of its output; the launch writes
    [cachedVirtualDisplay] only after it is resumed.  [launch_begin] is the
    launch up to that [await], [launch_resume] the launch from there on.
    A launch that does not get to that [await] has done nothing yet when
    [launch_begin] returns, and [launch_resume] is then all of it. *)
Inductive LaunchPoint :=
| awaiting_query (t : nat)
| not_begun.

Definition launch_begin : M LaunchPoint :=
  match findChromeExecutable with
  | None => ret not_begun
  | Some _ =>
      cached <- gets cachedVirtualDisplay ;;
      match cached with
      | None =>
          if negb (String.eqb (platform E) "darwin") then ret not_begun
          else
            t <- now ;;
            emit (EvExec display_query) ;;;
            ret (awaiting_query t)
      | Some _ => ret not_begun
      end
  end.

(** [launchChrome] from the line after the [if] on. *)
Definition launch_after_display (chromePath : string) (options : ChromeLaunchOptions)
  : M ChromeInstance :=
  cached' <- gets cachedVirtualDisplay ;;
  let windowPosition_ :=
    match cached' with Some (Some d) => Some (origin d) | _ => None end in
  let useHeadless :=
    match windowPosition_ with Some _ => false | None => true end
    && negb (is_true (headless options)) in
  args <- buildChromeArgs
            {| launch := {| workspaceName := workspaceName options;
                            opt_profileDirectory := opt_profileDirectory options;
                            opt_port := opt_port options;
                            headless := if useHeadless then Some true
                                        else headless options;
                            windowSize := windowSize options |};
               windowPosition := windowPosition_ |} ;;
  chromeProcess <- spawn chromePath args ;;
  wsEndpoint_ <- waitForCDP (opt_port options) 30 500 ;;
  ret {| process := chromeProcess;
         port := opt_port options;
         profileDirectory := opt_profileDirectory options;
         wsEndpoint := wsEndpoint_ |}.

(** The query started after [t] outside calls has ended: the rest of
    [getVirtualDisplayPosition] (a failed query is caught there), then the
    rest of [ensureVirtualDisplay], the assignment to
    [cachedVirtualDisplay], and the rest of [launchChrome]. *)
Definition launch_resume (point : LaunchPoint) (options : ChromeLaunchOptions)
  : M ChromeInstance :=
  match point with
  | not_begun => launchChrome options
  | awaiting_query t =>
      match findChromeExecutable with
      | None => throw ("Chrome executable not found for platform: " ++ platform E)
      | Some chromePath =>
          d <- match match exec_result E t display_query with
                     | Some stdout => parse_displays stdout
                     | None => None
                     end with
               | Some d => ret (Some d)
               | None =>
                   try_catch
                     (_ <- execAsync display_create ;;
                      sleep 1000 ;;;
                      getVirtualDisplayPosition)
                     (fun _ => ret None)
               end ;;
          modify (with_cachedVirtualDisplay (Some d)) ;;;
          launch_after_display chromePath options
      end
  end.

(** Two launches, the second begun while the first is suspended at its
    first [await]; the first is resumed, and runs to its end, before the
    second. *)
Definition overlapping_launches (o1 o2 : ChromeLaunchOptions)
  : M (Result ChromeInstance * Result ChromeInstance) :=
  p1 <- launch_begin ;;
  p2 <- launch_begin ;;
  r1 <- try_catch (i <- launch_resume p1 o1 ;; ret (Ok i)) (fun m => ret (Throw m)) ;;
  r2 <- try_catch (i <- launch_resume p2 o2 ;; ret (Ok i)) (fun m => ret (Throw m)) ;;
  ret (r1, r2).

(** [subprocess.kill(sig)]: delivered when the child still exists; Node then
    sets [killed] and returns [true]. *)
Definition proc_kill (pid : nat) (sig : Signal) : M bool :=
  p <- gets (fun s => nth_error (st_procs s) pid) ;;
  match p with
  | Some p =>
      if cp_handle p then
        emit (EvKill pid sig) ;;;
        modify (fun s => with_procs
                  (update_at pid
                     (fun q => {| cp_pid := cp_pid q; cp_handle := cp_handle q;
                                  killed := true;
                                  cp_signals := (cp_signals q ++ [sig])%list |})
                     (st_procs s)) s) ;;;
        ret true
      else ret false
  | None => ret false
  end.

Definition proc_killed (pid : nat) : M bool :=
  gets (fun s => match nth_error (st_procs s) pid with
                 | Some p => killed p
                 | None => false
                 end).

(** The callback [killChrome] hands to [setTimeout]. *)
Definition force_kill (pid : nat) : M unit :=
  k <- proc_killed pid ;;
  if negb k then (_ <- proc_kill pid SIGKILL ;; ret tt) else ret tt.

Definition killChrome (instance : ChromeInstance) : M unit :=
  k <- proc_killed (process instance) ;;
  if negb k then
    _ <- proc_kill (process instance) SIGTERM ;;
    emit (EvSetTimeout 3000) ;;;
    modify (fun s => with_timers (st_timers s ++ [process instance])%list s)
  else ret tt.

Definition is_sig (a b : Signal) : bool :=
  match a, b with
  | SIGTERM, SIGTERM | SIGKILL, SIGKILL => true
  | _, _ => false
  end.

(** What a child has done by the time the grace period is over: it is gone
    when it was sent SIGKILL, or SIGTERM and it honours SIGTERM. *)
Definition settle_proc (pid : nat) (p : ChildProcess) : ChildProcess :=
  if existsb (is_sig SIGKILL) (cp_signals p)
     || (existsb (is_sig SIGTERM) (cp_signals p) && exits_on_SIGTERM E pid)
  then {| cp_pid := cp_pid p; cp_handle := false; killed := killed p;
          cp_signals := cp_signals p |}
  else p.

Fixpoint settle_from (pid : nat) (ps : list ChildProcess) : list ChildProcess :=
  match ps with
  | [] => []
  | p :: r => settle_proc pid p :: settle_from (S pid) r
  end.

(** The 3000 ms pass: the children react, then the pending callbacks run. *)
Definition grace_period_elapses : M unit :=
  modify (fun s => with_procs (settle_from 0 (st_procs s)) s) ;;;
  pending <- gets st_timers ;;
  modify (with_timers []) ;;;
  for_each pending force_kill.

(* ------------------------------------------------------------------ *)
(** ** [WorkspaceManager] *)

Definition getCurrentWorkspace : M (option string) := gets currentWorkspace.

(** [pid] is [instance?.process.pid], read from the child the instance
    refers to. *)
Definition getWorkspaceStates : M (list WorkspaceState) :=
  tracked <- gets workspaces ;;
  procs <- gets st_procs ;;
  ret (map (fun nc : string * WorkspaceConfig =>
              let instance := JSMap.get (fst nc) tracked in
              {| ws_name := fst nc;
                 ws_profileDirectory := cfg_profileDirectory (snd nc);
                 ws_port := cfg_port (snd nc);
                 ws_status := match instance with
                              | Some _ => running
                              | None => stopped
                              end;
                 ws_wsEndpoint := match instance with
                                  | Some i => wsEndpoint i
                                  | None => None
                                  end;
                 ws_pid := match instance with
                           | Some i => match nth_error procs (process i) with
                                       | Some p => cp_pid p
                                       | None => None
                                       end
                           | None => None
                           end |})
           (JSMap.entries (cfg_workspaces cfg))).

Definition switchWorkspace (name : string) : M ChromeInstance :=
  match JSMap.get name (cfg_workspaces cfg) with
  | None =>
      throw ("Unknown workspace: " ++ name ++ ". Available: "
             ++ join_with ", " (JSMap.keys (cfg_workspaces cfg)))
  | Some config =>
      tracked <- gets (fun s => JSMap.get name (workspaces s)) ;;
      instance <-
        match tracked with
        | Some i => ret i
        | None =>
            i <- launchChrome {| workspaceName := name;
                                 opt_profileDirectory := cfg_profileDirectory config;
                                 opt_port := cfg_port config;
                                 headless := Some false;
                                 windowSize := None |} ;;
            modify (fun s => with_workspaces (JSMap.set name i (workspaces s)) s) ;;;
            ret i
        end ;;
      modify (with_currentWorkspace (Some name)) ;;;
      ret instance
  end.

Definition getCurrentInstance : M (option ChromeInstance) :=
  gets (fun s => match currentWorkspace s with
                 | Some c => if truthy c then JSMap.get c (workspaces s) else None
                 | None => None
                 end).

Definition same_name (o : option string) (name : string) : bool :=
  match o with Some c => String.eqb c name | None => false end.

Definition stopWorkspace (name : string) : M unit :=
  instance <- gets (fun s => JSMap.get name (workspaces s)) ;;
  match instance with
  | Some i =>
      killChrome i ;;;
      modify (fun s => with_workspaces (JSMap.delete name (workspaces s)) s) ;;;
      cur <- gets currentWorkspace ;;
      if same_name cur name then modify (with_currentWorkspace None) else ret tt
  | None => ret tt
  end.

Definition stopAll : M unit :=
  instances <- gets (fun s => JSMap.values (workspaces s)) ;;
  for_each instances killChrome ;;;
  modify (with_workspaces JSMap.empty) ;;;
  modify (with_currentWorkspace None).

Definition hasWorkspace (name : string) : bool :=
  JSMap.has name (cfg_workspaces cfg).

(* ------------------------------------------------------------------ *)
(** ** The automation library, as far as the program uses it *)

Definition contexts_of (b : nat) (s : St) : list ContextObj :=
  match nth_error (st_browsers s) b with
  | Some x => br_contexts x
  | None => []
  end.

Definition pages_of (b c : nat) (s : St) : list PageObj :=
  match nth_error (contexts_of b s) c with
  | Some x => cx_pages x
  | None => []
  end.

Definition lookup_page (p : PageRef) (s : St) : option PageObj :=
  nth_error (pages_of (pr_browser p) (pr_context p) s) (pr_page p).

Definition update_browser (b : nat) (f : BrowserObj -> BrowserObj) (s : St) : St :=
  with_browsers (update_at b f (st_browsers s)) s.

Definition update_context (b c : nat) (f : ContextObj -> ContextObj) : St -> St :=
  update_browser b (fun x => {| br_endpoint := br_endpoint x;
                                br_contexts := update_at c f (br_contexts x);
                                br_closed := br_closed x |}).

Definition update_page (p : PageRef) (f : PageObj -> PageObj) : St -> St :=
  update_context (pr_browser p) (pr_context p)
    (fun x => {| cx_init := cx_init x;
                 cx_pages := update_at (pr_page p) f (cx_pages x);
                 cx_closed := cx_closed x |}).

(** [chromium.connectOverCDP(endpoint)] and [chromium.connect(endpoint)]:
    a new [Browser] object showing what is live behind the endpoint. *)
Definition open_browser (e : Event) (endpoint : string) : M nat :=
  t <- now ;;
  outside e ;;;
  b <- gets (fun s => length (st_browsers s)) ;;
  modify (fun s => with_browsers
            (st_browsers s ++ [{| br_endpoint := endpoint;
                                  br_contexts := live_contexts E t endpoint;
                                  br_closed := false |}])%list s) ;;;
  ret b.

Definition connectOverCDP (endpoint : string) : M nat :=
  open_browser (EvConnectOverCDP endpoint) endpoint.

(** [browser.newContext()] *)
Definition newContext (b : nat) : M nat :=
  outside (EvNewContext b) ;;;
  c <- gets (fun s => length (contexts_of b s)) ;;
  modify (update_browser b
            (fun x => {| br_endpoint := br_endpoint x;
                         br_contexts := (br_contexts x
                                         ++ [{| cx_init := None; cx_pages := [];
                                                cx_closed := false |}])%list;
                         br_closed := br_closed x |})) ;;;
  ret c.

(** [context.addInitScript(fn, name)] with the function of the client, which
    writes [name] to [globalThis.__devBrowserPageName]. *)
Definition addInitScript (b c : nat) (name : string) : M unit :=
  outside (EvAddInitScript b c name) ;;;
  modify (update_context b c
            (fun x => {| cx_init := Some name; cx_pages := cx_pages x;
                         cx_closed := cx_closed x |})).

(** [context.newPage()]: the new page carries the marker of the init script
    of its context, when the context has one. *)
Definition newPage (b c : nat) : M PageRef :=
  t <- now ;;
  outside (EvNewPage b c) ;;;
  cx <- gets (fun s => nth_error (contexts_of b s) c) ;;
  match cx with
  | None => throw "Target page, context or browser has been closed"
  | Some x =>
      modify (update_context b c
                (fun y => {| cx_init := cx_init y;
                             cx_pages :=
                               (cx_pages y
                                ++ [{| pg_targetId := new_target E t;
                                       pg_marker :=
                                         Some match cx_init x with
                                              | Some n => JSString n
                                              | None => JSUndefined
                                              end;
                                       pg_closed := false;
                                       pg_viewport := None;
                                       pg_on_close := [] |}])%list;
                             cx_closed := cx_closed y |})) ;;;
      ret {| pr_browser := b; pr_context := c; pr_page := length (cx_pages x) |}
  end.

(** [page.evaluate(() => globalThis.__devBrowserPageName)] *)
Definition evaluate_marker (p : PageRef) : M JSValue :=
  outside (EvEvaluate p) ;;;
  pg <- gets (lookup_page p) ;;
  match pg with
  | Some q =>
      if pg_closed q then throw "Target page, context or browser has been closed"
      else match pg_marker q with
           | Some v => ret v
           | None => throw "Execution context was destroyed"
           end
  | None => throw "Target page, context or browser has been closed"
  end.

Definition setViewportSize (p : PageRef) (v : Size) : M unit :=
  outside (EvSetViewportSize p v) ;;;
  modify (update_page p
            (fun q => {| pg_targetId := pg_targetId q; pg_marker := pg_marker q;
                         pg_closed := pg_closed q; pg_viewport := Some v;
                         pg_on_close := pg_on_close q |})).

(** [cdpSession.send("Target.getTargetInfo")], its [targetInfo.targetId]. *)
Definition getTargetInfo (p : PageRef) : M string :=
  outside (EvGetTargetInfo p) ;;;
  pg <- gets (lookup_page p) ;;
  match pg with
  | Some q => ret (pg_targetId q)
  | None => throw "Target page, context or browser has been closed"
  end.

(** [page.on("close", () => pageRegistry.delete(name))] *)
Definition on_close (p : PageRef) (name : string) : M unit :=
  modify (update_page p
            (fun q => {| pg_targetId := pg_targetId q; pg_marker := pg_marker q;
                         pg_closed := pg_closed q; pg_viewport := pg_viewport q;
                         pg_on_close := (pg_on_close q ++ [name])%list |})).

Definition mark_closed (q : PageObj) : PageObj :=
  {| pg_targetId := pg_targetId q; pg_marker := pg_marker q;
     pg_closed := true; pg_viewport := pg_viewport q; pg_on_close := [] |}.

(** [await page.close()]: when the page closes, its close listeners run
    before the caller goes on. *)
Definition page_close (p : PageRef) : M unit :=
  outside (EvPageClose p) ;;;
  pg <- gets (lookup_page p) ;;
  match pg with
  | Some q =>
      if pg_closed q then ret tt
      else
        modify (update_page p mark_closed) ;;;
        for_each (pg_on_close q)
          (fun name =>
             modify (fun s => with_pageRegistry
                                (JSMap.delete name (pageRegistry s)) s))
  | None => ret tt
  end.

(** [page.close().catch(() => {})], not awaited: the request is sent and a
    rejection is dropped.  The close listener of the page runs only after
    the handler has returned, so it is not run here. *)
Definition page_close_detached (p : PageRef) : M unit :=
  try_catch (outside (EvPageClose p)) (fun _ => ret tt).

Definition mark_browser_closed (x : BrowserObj) : BrowserObj :=
  {| br_endpoint := br_endpoint x; br_contexts := br_contexts x;
     br_closed := true |}.

(** [await browser.close()] *)
Definition browser_close (b : nat) : M unit :=
  outside (EvBrowserClose b) ;;;
  modify (update_browser b mark_browser_closed).

(** [browser.close().catch(() => {})], not awaited. *)
Definition browser_close_detached (b : nat) : M unit :=
  try_catch (outside (EvBrowserClose b)) (fun _ => ret tt).

(** [await context.close()] *)
Definition context_close (b c : nat) : M unit :=
  outside (EvContextClose b c) ;;;
  modify (update_context b c
            (fun x => {| cx_init := cx_init x;
                         cx_pages := map mark_closed (cx_pages x);
                         cx_closed := true |})).

(* ------------------------------------------------------------------ *)
(** ** The handlers of [serveWorkspaces]

    A body field that must be a string is an [option string]: [None] when
    the field is missing or is not a string. *)

Definition get_workspaces : M Response :=
  states <- getWorkspaceStates ;;
  current <- getCurrentWorkspace ;;
  ret (json (BWorkspaces states current)).

(** [x || null] on an endpoint *)
Definition or_null (o : option string) : option string :=
  if opt_truthy o then o else None.

Definition get_workspace_current : M Response :=
  current <- getCurrentWorkspace ;;
  instance <- getCurrentInstance ;;
  ret (json (BCurrent current
               (match instance with
                | Some i => or_null (wsEndpoint i)
                | None => None
                end))).

Definition connect_if_needed (name : string) (instance : ChromeInstance) : M unit :=
  known <- gets (fun s => JSMap.has name (browserConnections s)) ;;
  match wsEndpoint instance with
  | Some endpoint =>
      if negb known && truthy endpoint then
        browser <- connectOverCDP endpoint ;;
        modify (fun s => with_browserConnections
                           (JSMap.set name browser (browserConnections s)) s)
      else ret tt
  | None => ret tt
  end.

Definition post_workspace_switch (workspace_ : option string) : M Response :=
  match workspace_ with
  | Some w =>
      if negb (truthy w) then
        ret {| status := 400;
               body := BError "workspace is required and must be a string" |}
      else if negb (hasWorkspace w) then
        states <- getWorkspaceStates ;;
        ret {| status := 404;
               body := BUnknown ("Unknown workspace: " ++ w) (map ws_name states) |}
      else
        try_catch
          (instance <- switchWorkspace w ;;
           connect_if_needed w instance ;;;
           ret (json (BSwitch w (wsEndpoint instance))))
          (fun m => ret {| status := 500;
                           body := BError ("Failed to switch workspace: " ++ m) |})
  | None =>
      ret {| status := 400;
             body := BError "workspace is required and must be a string" |}
  end.

Definition owned_by (w : string) (entry : PageEntry) : bool :=
  same_name (workspace entry) w.

(** The handler is synchronous: the closes are requested and not awaited, so
    no listener runs inside the loop, and the loop deletes only the entry it
    is visiting, which the iterator of a Map allows.  It therefore visits
    the entries that were there when it started, in their order. *)
Definition post_workspace_stop (workspace_ : option string) : M Response :=
  match workspace_ with
  | Some w =>
      if negb (truthy w) then
        ret {| status := 400; body := BError "workspace is required" |}
      else
        entries <- gets (fun s => JSMap.entries (pageRegistry s)) ;;
        for_each entries
          (fun ne : string * PageEntry =>
             if owned_by w (snd ne) then
               page_close_detached (page (snd ne)) ;;;
               modify (fun s => with_pageRegistry
                                  (JSMap.delete (fst ne) (pageRegistry s)) s)
             else ret tt) ;;;
        browser <- gets (fun s => JSMap.get w (browserConnections s)) ;;
        match browser with
        | Some b =>
            browser_close_detached b ;;;
            modify (fun s => with_browserConnections
                               (JSMap.delete w (browserConnections s)) s)
        | None => ret tt
        end ;;;
        stopWorkspace w ;;;
        ret (json (BStop w))
  | None => ret {| status := 400; body := BError "workspace is required" |}
  end.

(** The result is [undefined] ([None]) when the default workspace came up
    without an endpoint: [browserConnections.get(defaultWs)!] checks nothing. *)
Definition getCurrentBrowser : M (option nat) :=
  current <- getCurrentWorkspace ;;
  match current with
  | Some c =>
      if truthy c then
        browser <- gets (fun s => JSMap.get c (browserConnections s)) ;;
        match browser with
        | Some b => ret (Some b)
        | None => throw ("No browser connection for workspace: " ++ c)
        end
      else
        instance <- switchWorkspace (defaultWorkspace cfg) ;;
        connect_if_needed (defaultWorkspace cfg) instance ;;;
        gets (fun s => JSMap.get (defaultWorkspace cfg) (browserConnections s))
  | None =>
      instance <- switchWorkspace (defaultWorkspace cfg) ;;
      connect_if_needed (defaultWorkspace cfg) instance ;;;
      gets (fun s => JSMap.get (defaultWorkspace cfg) (browserConnections s))
  end.

Definition get_root : M Response :=
  instance <- getCurrentInstance ;;
  current <- getCurrentWorkspace ;;
  ret (json (BCurrent current
               (match instance with
                | Some i => or_null (wsEndpoint i)
                | None => None
                end))).

Definition get_pages : M Response :=
  names <- gets (fun s => JSMap.keys (pageRegistry s)) ;;
  ret (json (BPages names)).

(** The new entry of [POST /pages], or the response sent instead of it. *)
Definition create_entry (name : string) (viewport : option Size)
  : M (PageEntry + Response) :=
  browser <- getCurrentBrowser ;;
  match browser with
  | None => throw "Cannot read properties of undefined (reading 'contexts')"
  | Some b =>
      ctxs <- gets (contexts_of b) ;;
      match ctxs with
      | [] => ret (inr {| status := 500;
                          body := BError "No browser context available" |})
      | _ :: _ =>
          p <- newPage b 0 ;;
          match viewport with
          | Some v => setViewportSize p v
          | None => ret tt
          end ;;;
          outside (EvNewCDPSession p) ;;;
          target <- getTargetInfo p ;;
          outside (EvDetach p) ;;;
          currentWorkspace_ <- getCurrentWorkspace ;;
          let entry := {| page := p; targetId := target;
                          workspace := currentWorkspace_ |} in
          modify (fun s => with_pageRegistry
                             (JSMap.set name entry (pageRegistry s)) s) ;;;
          on_close p name ;;;
          ret (inl entry)
      end
  end.

Definition post_pages (name_ : option string) (viewport : option Size) : M Response :=
  match name_ with
  | Some name =>
      if negb (truthy name) then
        ret {| status := 400; body := BError "name is required and must be a string" |}
      else
        try_catch
          (found <- gets (fun s => JSMap.get name (pageRegistry s)) ;;
           r <- match found with
                | Some entry => ret (inl entry)
                | None => create_entry name viewport
                end ;;
           match r with
           | inr response => ret response
           | inl entry =>
               instance <- getCurrentInstance ;;
               ret (json (BPage
                            (match instance with
                             | Some i => match or_null (wsEndpoint i) with
                                         | Some e => e
                                         | None => ""
                                         end
                             | None => ""
                             end)
                            name (targetId entry)))
           end)
          (fun m => ret {| status := 500;
                           body := BError ("Failed to create page: " ++ m) |})
  | None =>
      ret {| status := 400; body := BError "name is required and must be a string" |}
  end.

(** [param] is [req.params.name], the path parameter as the router hands
    it over; the handler decodes it, outside any [try], so a [URIError]
    rejects the handler and no answer is sent. *)
Definition delete_pages (param : string) : M Response :=
  match decodeURIComponent param with
  | None => throw "URI malformed"
  | Some name =>
      entry <- gets (fun s => JSMap.get name (pageRegistry s)) ;;
      match entry with
      | Some e =>
          page_close (page e) ;;;
          modify (fun s => with_pageRegistry
                             (JSMap.delete name (pageRegistry s)) s) ;;;
          ret (json BSuccess)
      | None => ret {| status := 404; body := BError "page not found" |}
      end
  end.

(** ** Shutdown

    [others] is what the event loop runs while [cleanup] is suspended at an
    [await]: it runs after the awaited call, whatever its outcome, and the
    outcome is then handed back.  The loop over [pageRegistry.values()]
    walks the live map: an entry that a close listener has deleted before
    the loop reaches it is not visited. *)
Section Cleanup.
Variable others : M unit.

Definition await {A} (c : M A) : M A :=
  fun s => let (r, s1) := c s in
           let (_, s2) := others s1 in
           (r, s2).

Definition cleanup_with : M unit :=
  busy <- gets cleaningUp ;;
  if busy then ret tt
  else
    modify (with_cleaningUp true) ;;;
    sockets <- gets connections ;;
    for_each sockets (fun sock => emit (EvSocketDestroy sock)) ;;;
    modify (with_connections []) ;;;
    entries <- gets (fun s => JSMap.entries (pageRegistry s)) ;;
    for_each entries
      (fun ne : string * PageEntry =>
         live <- gets (fun s => JSMap.has (fst ne) (pageRegistry s)) ;;
         if live
         then try_catch (await (page_close (page (snd ne)))) (fun _ => ret tt)
         else ret tt) ;;;
    modify (with_pageRegistry JSMap.empty) ;;;
    browsers <- gets (fun s => JSMap.values (browserConnections s)) ;;
    for_each browsers
      (fun b => try_catch (await (browser_close b)) (fun _ => ret tt)) ;;;
    modify (with_browserConnections JSMap.empty) ;;;
    stopAll ;;;
    emit EvServerClose.
End Cleanup.

Definition cleanup : M unit := cleanup_with (ret tt).

(** *** A shutdown that the end of the process can cut short

    What the event loop runs while [cleanup] is suspended may call
    [process.exit]; the suspended [cleanup] is then never resumed.
    [interrupt] is what runs at a suspension; it gives [true] when it has
    ended the process.  [cleanup_under] is [cleanup] with its
    continuations written out, so that they can be dropped: it gives
    [true] when the process was ended while it was suspended. *)
Definition process_exit (code : Z) : M unit := emit (EvExit code).

Section Interrupted.
Variable interrupt : M bool.

(** [try { await c } catch {}] followed by [k] *)
Definition await_then {A} (c : M A) (k : M bool) : M bool :=
  fun s => let (_, s1) := c s in
           let (ended, s2) := interrupt s1 in
           match ended with
           | Ok true => (Ok true, s2)
           | _ => k s2
           end.

Fixpoint close_pages (entries : list (string * PageEntry)) (k : M bool) : M bool :=
  match entries with
  | [] => k
  | ne :: rest =>
      live <- gets (fun s => JSMap.has (fst ne) (pageRegistry s)) ;;
      if live
      then await_then (page_close (page (snd ne))) (close_pages rest k)
      else close_pages rest k
  end.

Fixpoint close_browsers (browsers : list nat) (k : M bool) : M bool :=
  match browsers with
  | [] => k
  | b :: rest => await_then (browser_close b) (close_browsers rest k)
  end.

Definition cleanup_under : M bool :=
  busy <- gets cleaningUp ;;
  if busy then ret false
  else
    modify (with_cleaningUp true) ;;;
    sockets <- gets connections ;;
    for_each sockets (fun sock => emit (EvSocketDestroy sock)) ;;;
    modify (with_connections []) ;;;
    entries <- gets (fun s => JSMap.entries (pageRegistry s)) ;;
    close_pages entries
      (modify (with_pageRegistry JSMap.empty) ;;;
       browsers <- gets (fun s => JSMap.values (browserConnections s)) ;;
       close_browsers browsers
         (modify (with_browserConnections JSMap.empty) ;;;
          stopAll ;;;
          emit EvServerClose ;;;
          ret false)).

(** [signalHandler]: [await cleanup(); process.exit(0)] *)
Definition signalHandler_under : M bool :=
  ended <- cleanup_under ;;
  if ended then ret true
  else process_exit 0 ;;; ret true.
End Interrupted.

(** A task that runs at a suspension and leaves the process alive. *)
Definition never_ends (others : M unit) : M bool :=
  fun s => let (_, s1) := others s in (Ok false, s1).

(** The handler of a termination signal, nothing else being triggered
    while its own [cleanup] is suspended. *)
Definition signalHandler : M bool := signalHandler_under (ret false).

(* ------------------------------------------------------------------ *)
(** ** The direct client: [connect] and the object it returns *)

Definition context_refs (b : nat) (s : St) : list (nat * nat) :=
  map (fun c => (b, c)) (seq 0 (length (contexts_of b s))).

Definition page_refs (bc : nat * nat) (s : St) : list PageRef :=
  map (fun i => {| pr_browser := fst bc; pr_context := snd bc; pr_page := i |})
      (seq 0 (length (pages_of (fst bc) (snd bc) s))).

Definition adopt (bc : nat * nat) (p : PageRef) : M unit :=
  try_catch
    (pageName <- evaluate_marker p ;;
     match pageName with
     | JSString n =>
         if truthy n
         then modify (fun s => with_registry (JSMap.set n bc (registry s)) s)
         else ret tt
     | _ => ret tt
     end)
    (fun _ => ret tt).

Definition connect (wsEndpoint_ : string) : M nat :=
  browser <- open_browser (EvConnect wsEndpoint_) wsEndpoint_ ;;
  modify (with_registry JSMap.empty) ;;;
  ctxs <- gets (context_refs browser) ;;
  for_each ctxs
    (fun bc => pages <- gets (page_refs bc) ;;
               for_each pages (adopt bc)) ;;;
  ret browser.

Fixpoint find_in (name : string) (pages : list PageRef) : M (option PageRef) :=
  match pages with
  | [] => ret None
  | p :: rest =>
      hit <- try_catch
               (pageName <- evaluate_marker p ;;
                match pageName with
                | JSString n => ret (String.eqb n name)
                | _ => ret false
                end)
               (fun _ => ret false) ;;
      if hit then ret (Some p) else find_in name rest
  end.

Definition findPage (name : string) : M (option PageRef) :=
  context <- gets (fun s => JSMap.get name (registry s)) ;;
  match context with
  | None => ret None
  | Some bc =>
      pages <- gets (page_refs bc) ;;
      find_in name pages
  end.

Definition client_page (browser : nat) (name : string) : M PageRef :=
  existing <- findPage name ;;
  match existing with
  | Some p => ret p
  | None =>
      c <- newContext browser ;;
      addInitScript browser c name ;;;
      p <- newPage browser c ;;
      modify (fun s => with_registry (JSMap.set name (browser, c) (registry s)) s) ;;;
      ret p
  end.

Definition client_list : M (list string) :=
  gets (fun s => JSMap.keys (registry s)).

Definition client_close (name : string) : M unit :=
  context <- gets (fun s => JSMap.get name (registry s)) ;;
  match context with
  | Some bc =>
      context_close (fst bc) (snd bc) ;;;
      modify (fun s => with_registry (JSMap.delete name (registry s)) s)
  | None => ret tt
  end.

End Program.

(* ------------------------------------------------------------------ *)
(** ** Drivers: sequences of launches and of page requests *)

Section Drivers.

Variable E : Env.
Variable cfg : WorkspacesConfig.

Local Open Scope m_scope.

(** Launches made one after the other; a failed launch is reported to its
    caller and the next one goes on. *)
Definition launch_sequence (l : list ChromeLaunchOptions) : M unit :=
  for_each l (fun o => try_catch (_ <- launchChrome E o ;; ret tt)
                                 (fun _ => ret tt)).

(** The page endpoints of the router. *)
Inductive PageRequest :=
| GET_pages
| POST_pages (name : option string) (viewport : option Size)
| DELETE_pages (param : string).

Definition serve_page_request (r : PageRequest) : M Response :=
  match r with
  | GET_pages => get_pages
  | POST_pages name viewport => post_pages E cfg name viewport
  | DELETE_pages param => delete_pages E param
  end.

(** Requests served one after the other; a handler that throws leaves its
    request unanswered and the server goes on. *)
Definition serve_page_requests (l : list PageRequest) : M unit :=
  for_each l (fun r => try_catch (_ <- serve_page_request r ;; ret tt)
                                 (fun _ => ret tt)).

End Drivers.

(* ------------------------------------------------------------------ *)
(** ** Concrete worlds and states *)

Definition sample_displayplacer : string :=
  "Persistent screen id: A" ++ nl ++
  "Type: MacBook built in screen" ++ nl ++
  "Resolution: 1512x982" ++ nl ++
  "Origin: (0,0) - main display" ++ nl ++
  nl ++
  "Persistent screen id: B" ++ nl ++
  "Type: 24 inch external screen" ++ nl ++
  "Resolution: 1920x1080" ++ nl ++
  "Origin: (1512,0)" ++ nl.

Definition DEFAULT_CONFIG : WorkspacesConfig :=
  {| cfg_workspaces :=
       [("personal", {| cfg_profileDirectory := "Default"; cfg_port := 9230 |});
        ("work", {| cfg_profileDirectory := "James-Work"; cfg_port := 9231 |})];
     defaultWorkspace := "personal" |}.

Definition blank_context : ContextObj :=
  {| cx_init := None; cx_pages := []; cx_closed := false |}.

(** A Mac with a virtual display to the right of the built-in screen, and
    browsers that come up at once. *)
Definition mac_env : Env :=
  {| platform := "darwin";
     LOCALAPPDATA := "undefined";
     data_dir := fun n => "/Users/dev/.dev-browser/workspaces/" ++ n;
     exec_result := fun _ cmd =>
       if String.eqb cmd display_query then Some sample_displayplacer
       else Some EmptyString;
     spawn_ok := fun _ => true;
     fetch_result := fun _ url =>
       FetchResponse 200 (JsonVersion (Some ("ws://127.0.0.1/devtools/" ++ url)));
     throws := fun _ => None;
     live_contexts := fun _ _ => [blank_context];
     new_target := fun t => "target-" ++ show_Z (Z.of_nat t);
     exits_on_SIGTERM := fun _ => true |}.

(** The same Mac, where no display can be queried. *)
Definition no_display_env : Env :=
  {| platform := platform mac_env;
     LOCALAPPDATA := LOCALAPPDATA mac_env;
     data_dir := data_dir mac_env;
     exec_result := fun _ _ => None;
     spawn_ok := spawn_ok mac_env;
     fetch_result := fetch_result mac_env;
     throws := throws mac_env;
     live_contexts := live_contexts mac_env;
     new_target := new_target mac_env;
     exits_on_SIGTERM := exits_on_SIGTERM mac_env |}.

(** The same Mac, where the browsers never open their debugging port: each
    attempt is refused, with a message that tells the attempts apart. *)
Definition dead_port_env : Env :=
  {| platform := platform mac_env;
     LOCALAPPDATA := LOCALAPPDATA mac_env;
     data_dir := data_dir mac_env;
     exec_result := exec_result mac_env;
     spawn_ok := spawn_ok mac_env;
     fetch_result := fun t _ =>
       FetchRejects ("connect ECONNREFUSED, outside call " ++ show_Z (Z.of_nat t));
     throws := throws mac_env;
     live_contexts := live_contexts mac_env;
     new_target := new_target mac_env;
     exits_on_SIGTERM := exits_on_SIGTERM mac_env |}.

(** The same Mac, where a browser does not exit on SIGTERM. *)
Definition hung_env : Env :=
  {| platform := platform mac_env;
     LOCALAPPDATA := LOCALAPPDATA mac_env;
     data_dir := data_dir mac_env;
     exec_result := exec_result mac_env;
     spawn_ok := spawn_ok mac_env;
     fetch_result := fetch_result mac_env;
     throws := throws mac_env;
     live_contexts := live_contexts mac_env;
     new_target := new_target mac_env;
     exits_on_SIGTERM := fun _ => false |}.

(** A page left by an earlier run, carrying the marker [home]. *)
Definition marked_page : PageObj :=
  {| pg_targetId := "target-of-an-earlier-run";
     pg_marker := Some (JSString "home");
     pg_closed := false;
     pg_viewport := None;
     pg_on_close := [] |}.

(** The same Mac, where the browser that is connected to already shows that
    page in its first context. *)
Definition marked_env : Env :=
  {| platform := platform mac_env;
     LOCALAPPDATA := LOCALAPPDATA mac_env;
     data_dir := data_dir mac_env;
     exec_result := exec_result mac_env;
     spawn_ok := spawn_ok mac_env;
     fetch_result := fetch_result mac_env;
     throws := throws mac_env;
     live_contexts := fun _ _ =>
       [{| cx_init := None; cx_pages := [marked_page]; cx_closed := false |}];
     new_target := new_target mac_env;
     exits_on_SIGTERM := exits_on_SIGTERM mac_env |}.

Definition personal_config : WorkspaceConfig :=
  {| cfg_profileDirectory := "Default"; cfg_port := 9230 |}.

Definition launch_personal : ChromeLaunchOptions :=
  {| workspaceName := "personal"; opt_profileDirectory := "Default";
     opt_port := 9230; headless := Some false; windowSize := None |}.

Definition launch_work : ChromeLaunchOptions :=
  {| workspaceName := "work"; opt_profileDirectory := "James-Work";
     opt_port := 9231; headless := None; windowSize := None |}.

(** After [personal] has been switched to, on a fresh server. *)
Definition personal_running (E : Env) : St :=
  snd (switchWorkspace E DEFAULT_CONFIG "personal" initial).

(** Both workspaces running, [work] current: the page [home] belongs to
    [personal], the page [inbox] to [work]. *)
Definition two_workspaces : St :=
  snd (bind (post_pages mac_env DEFAULT_CONFIG (Some "home") None)
         (fun _ =>
            bind (post_workspace_switch mac_env DEFAULT_CONFIG (Some "work"))
              (fun _ => post_pages mac_env DEFAULT_CONFIG (Some "inbox") None))
         initial).

(* ------------------------------------------------------------------ *)
(** ** The order of the steps of a shutdown *)

(** The steps in the order the handler has them. *)
Definition shutdown_phase (e : Event) : nat :=
  match e with
  | EvSocketDestroy _ => 0
  | EvPageClose _ => 1
  | EvBrowserClose _ => 2
  | EvKill _ _ | EvSetTimeout _ => 3
  | EvServerClose => 4
  | _ => 5
  end.

(** The steps in the order pages, connections, processes, server, sockets. *)
Definition sockets_last_phase (e : Event) : nat :=
  match e with
  | EvPageClose _ => 0
  | EvBrowserClose _ => 1
  | EvKill _ _ | EvSetTimeout _ => 2
  | EvServerClose => 3
  | EvSocketDestroy _ => 4
  | _ => 5
  end.

Fixpoint nondecreasing (l : list nat) : bool :=
  match l with
  | a :: (b :: _) as r => Nat.leb a b && nondecreasing r
  | _ => true
  end.

Definition in_order (phase : Event -> nat) (tr : list Event) : bool :=
  nondecreasing (map phase tr).

(** A server with one page named [home] in the default workspace and one
    client socket open. *)
Definition serving : St :=
  with_connections [7]
    (snd (post_pages mac_env DEFAULT_CONFIG (Some "home") None initial)).

(* ------------------------------------------------------------------ *)
(** ** The router of [serveWorkspaces]: every endpoint *)

Section Router.

Variable E : Env.
Variable cfg : WorkspacesConfig.

Local Open Scope m_scope.

Inductive Request :=
| GET_workspaces
| GET_workspace_current
| POST_workspace_switch (workspace_ : option string)
| POST_workspace_stop (workspace_ : option string)
| GET_root
| page_request (r : PageRequest).

Definition serve_request (r : Request) : M Response :=
  match r with
  | GET_workspaces => get_workspaces cfg
  | GET_workspace_current => get_workspace_current
  | POST_workspace_switch w => post_workspace_switch E cfg w
  | POST_workspace_stop w => post_workspace_stop E w
  | GET_root => get_root
  | page_request r => serve_page_request E cfg r
  end.

(** Requests served one after the other; a handler that throws leaves its
    request unanswered and the server goes on. *)
Definition serve_requests (l : list Request) : M unit :=
  for_each l (fun r => try_catch (_ <- serve_request r ;; ret tt)
                                 (fun _ => ret tt)).

End Router.

(* ------------------------------------------------------------------ *)
(** ** [scripts/start-workspace-server.ts]: the command line *)

(** The loop over [process.argv.slice(2)], [configPath] being what it has
    kept so far: a [--config] followed by a non-empty argument takes that
    argument and steps over it. *)
Fixpoint scan_args (args : list string) (configPath : option string)
  : option string :=
  match args with
  | [] => configPath
  | a :: rest =>
      if String.eqb a "--config" then
        match rest with
        | v :: rest' =>
            if truthy v then scan_args rest' (Some v)
            else scan_args rest configPath
        | [] => configPath
        end
      else scan_args rest configPath
  end.

(** The path handed to [serveWorkspaces]; [default] is
    [join(homedir(), ".dev-browser", "workspaces.json")]. *)
Definition config_path (default : string) (args : list string) : string :=
  match scan_args args None with
  | Some p => if truthy p then p else default
  | None => default
  end.

(* ------------------------------------------------------------------ *)
(** ** More concrete worlds *)

(** A machine whose platform has no entry in [CHROME_PATHS]. *)
Definition freebsd_env : Env :=
  {| platform := "freebsd";
     LOCALAPPDATA := LOCALAPPDATA mac_env;
     data_dir := data_dir mac_env;
     exec_result := exec_result mac_env;
     spawn_ok := spawn_ok mac_env;
     fetch_result := fetch_result mac_env;
     throws := throws mac_env;
     live_contexts := live_contexts mac_env;
     new_target := new_target mac_env;
     exits_on_SIGTERM := exits_on_SIGTERM mac_env |}.

(** The Mac of [mac_env], where a browser opens its debugging port only
    after the first four outside calls of the server. *)
Definition slow_start_env : Env :=
  {| platform := platform mac_env;
     LOCALAPPDATA := LOCALAPPDATA mac_env;
     data_dir := data_dir mac_env;
     exec_result := exec_result mac_env;
     spawn_ok := spawn_ok mac_env;
     fetch_result := fun t url =>
       if Nat.ltb t 4 then FetchRejects "connect ECONNREFUSED"
       else fetch_result mac_env t url;
     throws := throws mac_env;
     live_contexts := live_contexts mac_env;
     new_target := new_target mac_env;
     exits_on_SIGTERM := exits_on_SIGTERM mac_env |}.

(** The Mac of [mac_env], where the display report names no screen type. *)
Definition untyped_report : string :=
  "Resolution: 1920x1080" ++ nl ++ "Origin: (1512,0)".

Definition untyped_report_env : Env :=
  {| platform := platform mac_env;
     LOCALAPPDATA := LOCALAPPDATA mac_env;
     data_dir := data_dir mac_env;
     exec_result := fun _ _ => Some untyped_report;
     spawn_ok := spawn_ok mac_env;
     fetch_result := fetch_result mac_env;
     throws := throws mac_env;
     live_contexts := live_contexts mac_env;
     new_target := new_target mac_env;
     exits_on_SIGTERM := exits_on_SIGTERM mac_env |}.

(** The Mac of [mac_env], where the fifth outside call of the server, the
    connection to the first browser it has started, is rejected. *)
Definition refusing_env : Env :=
  {| platform := platform mac_env;
     LOCALAPPDATA := LOCALAPPDATA mac_env;
     data_dir := data_dir mac_env;
     exec_result := exec_result mac_env;
     spawn_ok := spawn_ok mac_env;
     fetch_result := fetch_result mac_env;
     throws := fun t => if Nat.eqb t 4 then Some "connect ECONNREFUSED" else None;
     live_contexts := live_contexts mac_env;
     new_target := new_target mac_env;
     exits_on_SIGTERM := exits_on_SIGTERM mac_env |}.

(** A Linux machine whose browsers come up at once. *)
Definition linux_env : Env :=
  {| platform := "linux";
     LOCALAPPDATA := LOCALAPPDATA mac_env;
     data_dir := fun n => "/home/dev/.dev-browser/workspaces/" ++ n;
     exec_result := exec_result mac_env;
     spawn_ok := spawn_ok mac_env;
     fetch_result := fetch_result mac_env;
     throws := throws mac_env;
     live_contexts := live_contexts mac_env;
     new_target := new_target mac_env;
     exits_on_SIGTERM := exits_on_SIGTERM mac_env |}.

(** The Mac of [mac_env], where no browser can be spawned, while a browser
    that is already there answers on the debugging port. *)
Definition spawn_fails_env : Env :=
  {| platform := platform mac_env;
     LOCALAPPDATA := LOCALAPPDATA mac_env;
     data_dir := data_dir mac_env;
     exec_result := exec_result mac_env;
     spawn_ok := fun _ => false;
     fetch_result := fetch_result mac_env;
     throws := throws mac_env;
     live_contexts := live_contexts mac_env;
     new_target := new_target mac_env;
     exits_on_SIGTERM := exits_on_SIGTERM mac_env |}.

(** A script that has connected to the browser of [marked_env]. *)
Definition reconnected : St := snd (connect marked_env "ws://127.0.0.1:9222" initial).

(** A session: a page in the default workspace, a switch to [work], a page
    there, then [personal] is stopped. *)
Definition session : list Request :=
  [page_request (POST_pages (Some "home") None);
   POST_workspace_switch (Some "work");
   page_request (POST_pages (Some "inbox") None);
   GET_workspaces;
   POST_workspace_stop (Some "personal")].

(* ------------------------------------------------------------------ *)
(** * Properties *)

Local Open Scope m_scope.
Unset Implicit Arguments.

(** ** The map *)

Module JSMapFacts.
Section Facts.
Variable V : Type.
Implicit Types (m : JSMap.t V) (k : string) (v : V).

Lemma get_set_eq m k v : JSMap.get k (JSMap.set k v m) = Some v.
Proof.
  induction m as [|[k' v'] m IH]; simpl.
  - now rewrite String.eqb_refl.
  - destruct (String.eqb k k') eqn:Hk; simpl.
    + now rewrite String.eqb_refl.
    + now rewrite Hk.
Qed.

Lemma get_set_ne m k k' v : k <> k' -> JSMap.get k' (JSMap.set k v m) = JSMap.get k' m.
Proof.
  intros Hne. induction m as [|[k0 v0] m IH]; simpl.
  - destruct (String.eqb_spec k' k); congruence.
  - destruct (String.eqb_spec k k0) as [->|Hk]; simpl.
    + destruct (String.eqb_spec k' k0); congruence.
    + destruct (String.eqb_spec k' k0); congruence.
Qed.

Lemma get_delete_eq m k : JSMap.get k (JSMap.delete k m) = None.
Proof.
  unfold JSMap.delete.
  induction m as [|[k' v'] m IH]; simpl; [reflexivity|].
  destruct (String.eqb k k') eqn:Hk; simpl; [assumption|].
  now rewrite Hk.
Qed.

Lemma get_delete_ne m k k' : k <> k' -> JSMap.get k' (JSMap.delete k m) = JSMap.get k' m.
Proof.
  intros Hne. unfold JSMap.delete.
  induction m as [|[k0 v0] m IH]; simpl; [reflexivity|].
  destruct (String.eqb_spec k k0) as [->|Hk]; simpl.
  - destruct (String.eqb_spec k' k0); congruence.
  - destruct (String.eqb_spec k' k0); congruence.
Qed.

Lemma get_delete_Some m k k' v :
  JSMap.get k' (JSMap.delete k m) = Some v -> JSMap.get k' m = Some v.
Proof.
  destruct (String.eqb_spec k k') as [->|Hne].
  - now rewrite get_delete_eq.
  - now rewrite get_delete_ne.
Qed.

Lemma get_In m k v : JSMap.get k m = Some v -> In (k, v) m.
Proof.
  induction m as [|[k' v'] m IH]; simpl; [discriminate|].
  destruct (String.eqb_spec k k') as [->|Hk].
  - intros [= ->]. now left.
  - intros H. right. auto.
Qed.

Lemma get_None_keys m k : JSMap.get k m = None <-> ~ In k (JSMap.keys m).
Proof.
  induction m as [|[k' v'] m IH]; simpl.
  - tauto.
  - destruct (String.eqb_spec k k') as [->|Hk].
    + split; [discriminate | intros H; exfalso; apply H; now left].
    + rewrite IH. split.
      * intros H [Heq|Hin]; [congruence | contradiction].
      * intros H Hin. apply H. now right.
Qed.

(** With distinct keys, [get] finds every entry of the list. *)
Lemma In_get m k v : NoDup (JSMap.keys m) -> In (k, v) m -> JSMap.get k m = Some v.
Proof.
  induction m as [|[k' v'] m IH]; simpl; [tauto|].
  intros Hnd [Heq|Hin].
  - injection Heq as -> ->. now rewrite String.eqb_refl.
  - inversion Hnd as [|? ? Hnot Hnd']; subst.
    destruct (String.eqb_spec k k') as [->|Hk].
    + exfalso. apply Hnot. change (In (fst (k', v)) (map fst m)).
      now apply in_map.
    + auto.
Qed.

Lemma delete_absent m k : ~ In k (JSMap.keys m) -> JSMap.delete k m = m.
Proof.
  unfold JSMap.delete.
  induction m as [|[k' v'] m IH]; simpl; [reflexivity|].
  intros H. destruct (String.eqb_spec k k') as [->|Hk]; simpl.
  - exfalso. apply H. now left.
  - f_equal. apply IH. intros Hin. apply H. now right.
Qed.

Lemma keys_delete_subset m k x : In x (JSMap.keys (JSMap.delete k m)) -> In x (JSMap.keys m).
Proof.
  unfold JSMap.keys, JSMap.delete. rewrite !in_map_iff.
  intros [kv [Hx Hin]]. apply filter_In in Hin. exists kv. tauto.
Qed.

Lemma NoDup_delete m k : NoDup (JSMap.keys m) -> NoDup (JSMap.keys (JSMap.delete k m)).
Proof.
  induction m as [|[k' v'] m IH]; simpl; [auto|].
  intros Hnd. inversion Hnd as [|? ? Hnot Hnd']; subst.
  destruct (String.eqb k k'); simpl; [auto|].
  constructor; [|auto].
  intros Hin. apply Hnot. eapply keys_delete_subset. exact Hin.
Qed.

Lemma keys_set m k v x : In x (JSMap.keys (JSMap.set k v m)) -> x = k \/ In x (JSMap.keys m).
Proof.
  induction m as [|[k' v'] m IH]; simpl.
  - intros [H|[]]. now left.
  - destruct (String.eqb_spec k k') as [->|Hk]; simpl.
    + intros [H|H]; [now left | right; now right].
    + intros [H|H]; [right; now left|].
      destruct (IH H); [now left | right; now right].
Qed.

Lemma NoDup_set m k v : NoDup (JSMap.keys m) -> NoDup (JSMap.keys (JSMap.set k v m)).
Proof.
  induction m as [|[k' v'] m IH]; simpl.
  - intros _. constructor; [intros [] | constructor].
  - intros Hnd. inversion Hnd as [|? ? Hnot Hnd']; subst.
    destruct (String.eqb_spec k k') as [->|Hk]; simpl.
    + now constructor.
    + constructor; [|auto].
      intros Hin. destruct (keys_set _ _ _ _ Hin); congruence.
Qed.
End Facts.
End JSMapFacts.

Ltac splits := repeat match goal with |- _ /\ _ => split end.

(** ** The monad *)

Lemma bind_inv A B (c : M A) (k : A -> M B) s r s' :
  bind c k s = (r, s') ->
  (exists a s1, c s = (Ok a, s1) /\ k a s1 = (r, s'))
  \/ (exists m, c s = (Throw m, s') /\ r = Throw m).
Proof.
  unfold bind. destruct (c s) as [[a|m] s1]; intros H.
  - left. eauto.
  - right. injection H as <- <-. eauto.
Qed.

Lemma try_catch_inv A (c : M A) (h : string -> M A) s r s' :
  try_catch c h s = (r, s') ->
  (exists a, c s = (Ok a, s') /\ r = Ok a)
  \/ (exists m s1, c s = (Throw m, s1) /\ h m s1 = (r, s')).
Proof.
  unfold try_catch. destruct (c s) as [[a|m] s1]; intros H.
  - left. injection H as <- <-. eauto.
  - right. eauto.
Qed.

(** Reasoning about what a computation does to the state, for a relation
    between the state before and the state after that is a preorder. *)
Section Steps.
Variable R : St -> St -> Prop.
Hypothesis R_refl : forall s, R s s.
Hypothesis R_trans : forall a b c, R a b -> R b c -> R a c.

Definition steps {A} (c : M A) : Prop :=
  forall s r s', c s = (r, s') -> R s s'.

Lemma steps_ret A (a : A) : steps (ret a).
Proof. intros s r s' [= _ <-]. apply R_refl. Qed.

Lemma steps_throw A m : steps (@throw A m).
Proof. intros s r s' [= _ <-]. apply R_refl. Qed.

Lemma steps_gets A (f : St -> A) : steps (gets f).
Proof. intros s r s' [= _ <-]. apply R_refl. Qed.

Lemma steps_modify f : (forall s, R s (f s)) -> steps (modify f).
Proof. intros H s r s' [= _ <-]. apply H. Qed.

Lemma steps_bind A B (c : M A) (k : A -> M B) :
  steps c -> (forall a, steps (k a)) -> steps (bind c k).
Proof.
  intros Hc Hk s r s' H.
  destruct (bind_inv _ _ _ _ _ _ _ H) as [(a & s1 & H1 & H2)|(m & H1 & _)].
  - eapply R_trans; [eapply Hc, H1 | eapply Hk, H2].
  - eapply Hc, H1.
Qed.

Lemma steps_try_catch A (c : M A) h :
  steps c -> (forall m, steps (h m)) -> steps (try_catch c h).
Proof.
  intros Hc Hh s r s' H.
  destruct (try_catch_inv _ _ _ _ _ _ H) as [(a & H1 & _)|(m & s1 & H1 & H2)].
  - eapply Hc, H1.
  - eapply R_trans; [eapply Hc, H1 | eapply Hh, H2].
Qed.

Lemma steps_for_each A (l : list A) (body : A -> M unit) :
  (forall a, steps (body a)) -> steps (for_each l body).
Proof.
  intros Hb. induction l as [|a l IH]; simpl.
  - apply steps_ret.
  - apply steps_bind; auto.
Qed.
End Steps.

(** Walks through the binds of a computation for the preorder whose two
    laws are [refl] and [trans], trying [special] first at each step; the
    primitive steps are left to the caller. *)
Ltac step_through_with special refl trans :=
  repeat (intros;
          first [ special
                | apply steps_ret; [apply refl]
                | apply steps_throw; [apply refl]
                | apply steps_gets; [apply refl]
                | apply steps_bind; [apply trans | | ]
                | apply steps_try_catch; [apply trans | | ]
                | apply steps_for_each; [apply refl | apply trans | ]
                | match goal with
                  | |- steps _ (match ?x with _ => _ end) => destruct x
                  | |- steps _ (if ?x then _ else _) => destruct x
                  end ]).

Ltac step_through refl trans := step_through_with fail refl trans.

(** ** Records *)

Lemma with_currentWorkspace_same s x :
  currentWorkspace s = x -> with_currentWorkspace x s = s.
Proof. destruct s; simpl; intros ->; reflexivity. Qed.

Lemma with_trace_same s : with_trace (st_trace s) s = s.
Proof. destruct s; reflexivity. Qed.

(** The state after [new] more outside calls, nothing else changed. *)
Definition after (new : list Event) (s : St) : St :=
  with_trace (st_trace s ++ new) s.

Lemma after_nil s : after [] s = s.
Proof. unfold after. rewrite app_nil_r. apply with_trace_same. Qed.

Lemma after_after a b s : after b (after a s) = after (a ++ b) s.
Proof. unfold after; simpl. now rewrite app_assoc. Qed.

Lemma emit_run e s : emit e s = (Ok tt, after [e] s).
Proof. reflexivity. Qed.

(** ** Display placement *)

Section Display.
Variable E : Env.

Definition on_mac : bool := String.eqb (platform E) "darwin".

Lemma getVirtualDisplayPosition_run s :
  exists d,
    getVirtualDisplayPosition E s
    = (Ok d, if on_mac then after [EvExec display_query] s else s).
Proof.
  unfold getVirtualDisplayPosition, on_mac.
  destruct (String.eqb (platform E) "darwin"); simpl.
  - unfold try_catch, bind, execAsync, bind, now, gets, emit, modify; simpl.
    destruct (exec_result E (length (st_trace s)) display_query);
      simpl; eexists; reflexivity.
  - eexists; reflexivity.
Qed.

(** What one resolution asks of the operating system. *)
Definition resolution_shape (new : list Event) : Prop :=
  new = []
  \/ new = [EvExec display_query]
  \/ new = [EvExec display_query; EvExec display_create]
  \/ new = [EvExec display_query; EvExec display_create; EvSleep 1000;
            EvExec display_query].

Lemma ensureVirtualDisplay_run s :
  exists d new,
    ensureVirtualDisplay E s = (Ok d, after new s) /\ resolution_shape new.
Proof.
  unfold ensureVirtualDisplay.
  destruct (getVirtualDisplayPosition_run s) as [d1 H1].
  unfold on_mac in H1.
  destruct (String.eqb (platform E) "darwin") eqn:Hp; simpl.
  - unfold bind at 1. rewrite H1.
    destruct d1 as [d|].
    + exists (Some d), [EvExec display_query]. split; [reflexivity|].
      unfold resolution_shape; auto.
    + unfold try_catch, bind at 1, execAsync, bind at 1, now, gets.
      unfold bind at 1, emit, modify. simpl.
      destruct (exec_result E _ display_create) as [out|]; simpl.
      * unfold bind at 1, sleep, emit, modify.
        match goal with
        | |- context [getVirtualDisplayPosition E ?s1] =>
            destruct (getVirtualDisplayPosition_run s1) as [d2 H2]
        end.
        unfold on_mac in H2. rewrite Hp in H2. rewrite H2.
        exists d2, [EvExec display_query; EvExec display_create; EvSleep 1000;
                    EvExec display_query].
        split; [|unfold resolution_shape; auto 6].
        unfold after; simpl. rewrite <- !app_assoc. reflexivity.
      * exists None, [EvExec display_query; EvExec display_create].
        split; [|unfold resolution_shape; auto].
        unfold after; simpl. rewrite <- !app_assoc. reflexivity.
  - exists None, []. split; [now rewrite after_nil | unfold resolution_shape; auto].
Qed.
End Display.

(** ** Launching *)

Definition has_arg (a : string) (args : list string) : bool :=
  existsb (String.eqb a) args.

Definition has_window_position (args : list string) : bool :=
  existsb (fun a => startsWith a "--window-position=") args.

Definition is_some {A} (o : option A) : bool :=
  match o with Some _ => true | None => false end.

Lemma prefix_empty s : String.prefix "" s = true.
Proof. destruct s; reflexivity. Qed.

Section Launch.
Variable E : Env.

Lemma buildChromeArgs_run options s :
  let s' := after [EvMkdir (data_dir E (workspaceName (launch options)))] s in
  match throws E (length (st_trace s)) with
  | Some m => buildChromeArgs E options s = (Throw m, s')
  | None =>
      exists args,
        buildChromeArgs E options s = (Ok args, s')
        /\ has_arg "--headless=new" args = is_true (headless (launch options))
        /\ has_window_position args = is_some (windowPosition options)
  end.
Proof.
  unfold buildChromeArgs, mkdirSync, outside, bind, now, gets, emit, modify.
  simpl.
  destruct (throws E (length (st_trace s))); [reflexivity|].
  eexists. split; [reflexivity|].
  unfold has_arg, has_window_position, startsWith.
  destruct options as [[wn pd pt [[|]|] ws] [wp|]]; simpl;
    rewrite ?prefix_empty; split; reflexivity.
Qed.

(** The message the [catch] block of [waitForCDP] sees for an answer, or
    [None] for an answer that ends the wait. *)
Definition fetch_error (r : FetchResult) : option string :=
  match r with
  | FetchRejects m => Some m
  | FetchResponse status_ body_ =>
      if http_ok status_ then
        match body_ with
        | JsonVersion _ => None
        | JsonThrows m => Some m
        end
      else Some ("HTTP " ++ show_Z status_)
  end.

Lemma cdp_attempt_run port_ delayMs s :
  match fetch_error (fetch_result E (length (st_trace s)) (version_url port_)) with
  | Some m =>
      cdp_attempt E port_ delayMs s
      = (Ok (inr m), after [EvFetch (version_url port_); EvSleep delayMs] s)
  | None =>
      exists url, cdp_attempt E port_ delayMs s
                  = (Ok (inl url), after [EvFetch (version_url port_)] s)
  end.
Proof.
  unfold cdp_attempt, try_catch, bind, now, gets, emit, modify, fetch_error.
  simpl.
  destruct (fetch_result E (length (st_trace s)) (version_url port_))
    as [m|st [m|url]]; simpl.
  - unfold after; simpl. now rewrite <- app_assoc.
  - destruct (http_ok st); simpl; unfold after; simpl; now rewrite <- app_assoc.
  - destruct (http_ok st); simpl.
    + eexists; reflexivity.
    + unfold after; simpl. now rewrite <- app_assoc.
Qed.

Definition is_poll (e : Event) : Prop :=
  match e with EvFetch _ | EvSleep _ => True | _ => False end.

Lemma waitForCDP_from_run port_ delayMs maxRetries left lastError s :
  exists r new,
    waitForCDP_from E port_ delayMs maxRetries left lastError s = (r, after new s)
    /\ Forall is_poll new.
Proof.
  revert lastError s. induction left as [|left IH]; intros lastError s; simpl.
  - exists (Throw ("Chrome CDP not available after "
                   ++ show_Z (Z.of_nat maxRetries) ++ " retries: "
                   ++ match lastError with Some m => m | None => "undefined" end)), [].
    split; [now rewrite after_nil | constructor].
  - unfold bind at 1.
    pose proof (cdp_attempt_run port_ delayMs s) as H.
    destruct (fetch_error _) as [m|].
    + rewrite H.
      destruct (IH (Some m) (after [EvFetch (version_url port_); EvSleep delayMs] s))
        as (r & new & Hr & Hnew).
      exists r, ([EvFetch (version_url port_); EvSleep delayMs] ++ new)%list.
      split; [now rewrite Hr, after_after|].
      repeat constructor; assumption.
    + destruct H as [url H]. rewrite H.
      exists (Ok url), [EvFetch (version_url port_)].
      split; [reflexivity | repeat constructor].
Qed.

Definition new_process (s : St) : ChildProcess :=
  {| cp_pid := if spawn_ok E (length (st_trace s))
               then Some (length (st_procs s)) else None;
     cp_handle := spawn_ok E (length (st_trace s)); killed := false;
     cp_signals := [] |}.

Definition spawned (path : string) (args : list string) (s : St) : St :=
  with_procs (st_procs s ++ [new_process s]) (after [EvSpawn path args] s).

Lemma spawn_run path args s :
  spawn E path args s = (Ok (length (st_procs s)), spawned path args s).
Proof. reflexivity. Qed.

(** The options [launchChrome] hands to [buildChromeArgs] once the cached
    placement is [d]. *)
Definition build_options (o : ChromeLaunchOptions) (d : option DisplayInfo)
  : BuildChromeArgsOptions :=
  {| launch :=
       {| workspaceName := workspaceName o;
          opt_profileDirectory := opt_profileDirectory o;
          opt_port := opt_port o;
          headless := if negb (is_some d) && negb (is_true (headless o))
                      then Some true else headless o;
          windowSize := windowSize o |};
     windowPosition := option_map origin d |}.

(** The first step of a launch: the cached placement, or one resolution. *)
Definition resolved (s : St) (d : option DisplayInfo) (new : list Event) : Prop :=
  (cachedVirtualDisplay s = Some d /\ new = [])
  \/ (cachedVirtualDisplay s = None
      /\ ensureVirtualDisplay E s = (Ok d, after new s)
      /\ resolution_shape new).

Definition launched (o : ChromeLaunchOptions) (s : St)
    (w : Result (option string)) : Result ChromeInstance :=
  match w with
  | Ok url => Ok {| process := length (st_procs s); port := opt_port o;
                    profileDirectory := opt_profileDirectory o;
                    wsEndpoint := url |}
  | Throw m => Throw m
  end.

Lemma with_cachedVirtualDisplay_same s x :
  cachedVirtualDisplay s = x -> with_cachedVirtualDisplay x s = s.
Proof. destruct s; simpl; intros ->; reflexivity. Qed.

Lemma launchChrome_inv o s r s' :
  launchChrome E o s = (r, s') ->
  match findChromeExecutable E with
  | None =>
      r = Throw ("Chrome executable not found for platform: " ++ platform E)
      /\ s' = s
  | Some path =>
      exists d new,
        resolved s d new /\
        let s1 := with_cachedVirtualDisplay (Some d) (after new s) in
        let s2 := after [EvMkdir (data_dir E (workspaceName o))] s1 in
        match throws E (length (st_trace s1)) with
        | Some m => r = Throw m /\ s' = s2
        | None =>
            exists args w,
              buildChromeArgs E (build_options o d) s1 = (Ok args, s2)
              /\ waitForCDP E (opt_port o) 30 500 (spawned path args s2) = (w, s')
              /\ r = launched o s w
        end
  end.
Proof.
  unfold launchChrome. destruct (findChromeExecutable E) as [path|].
  2:{ intros [= <- <-]. auto. }
  intros H.
  unfold bind at 1, gets in H.
  assert (Hres : exists d new, resolved s d new /\
            match cachedVirtualDisplay s with
            | None => d0 <- ensureVirtualDisplay E ;;
                      modify (with_cachedVirtualDisplay (Some d0))
            | Some _ => ret tt
            end s
            = (Ok tt, with_cachedVirtualDisplay (Some d) (after new s))).
  { destruct (cachedVirtualDisplay s) as [d|] eqn:Hc.
    - exists d, []. split; [left; auto|].
      unfold ret. rewrite after_nil.
      now rewrite with_cachedVirtualDisplay_same.
    - destruct (ensureVirtualDisplay_run E s) as (d & new & Hd & Hs).
      exists d, new. split; [right; auto|].
      unfold bind. rewrite Hd. reflexivity. }
  destruct Hres as (d & new & Hres & Hrun).
  exists d, new. split; [assumption|]. cbv zeta.
  unfold bind at 1 in H. rewrite Hrun in H.
  unfold bind at 1, gets in H. simpl in H.
  unfold bind at 1 in H.
  set (s1 := with_cachedVirtualDisplay (Some d) (after new s)) in *.
  assert (Hopts :
    {| launch :=
         {| workspaceName := workspaceName o;
            opt_profileDirectory := opt_profileDirectory o;
            opt_port := opt_port o;
            headless :=
              if match match d with Some d0 => Some (origin d0) | None => None end with
                 | Some _ => false
                 | None => true
                 end && negb (is_true (headless o))
              then Some true else headless o;
            windowSize := windowSize o |};
       windowPosition := match d with Some d0 => Some (origin d0) | None => None end |}
    = build_options o d).
  { unfold build_options. destruct d; reflexivity. }
  rewrite Hopts in H.
  pose proof (buildChromeArgs_run (build_options o d) s1) as Hb.
  cbv zeta in Hb. change (workspaceName (launch (build_options o d)))
    with (workspaceName o) in Hb.
  destruct (throws E (length (st_trace s1))) as [m|].
  - rewrite Hb in H. injection H as <- <-. auto.
  - destruct Hb as (args & Hb & _). rewrite Hb in H.
    unfold bind at 1 in H. rewrite spawn_run in H.
    unfold bind at 1 in H.
    destruct (waitForCDP E (opt_port o) 30 500 _) as [w s4] eqn:Hw.
    exists args, w. split; [assumption|]. 
    assert (Hp : st_procs (after [EvMkdir (data_dir E (workspaceName o))] s1) = st_procs s)
      by reflexivity.
    rewrite Hp in H.
    destruct w as [url|m]; injection H as <- <-; auto.
Qed.
End Launch.

(** What a launch leaves alone, and how many processes it starts. *)
Lemma launchChrome_frame E o s r s' :
  launchChrome E o s = (r, s') ->
  workspaces s' = workspaces s
  /\ currentWorkspace s' = currentWorkspace s
  /\ pageRegistry s' = pageRegistry s
  /\ browserConnections s' = browserConnections s
  /\ st_browsers s' = st_browsers s
  /\ length (st_procs s') <= S (length (st_procs s))
  /\ (forall i, r = Ok i -> process i = length (st_procs s)
                            /\ length (st_procs s') = S (length (st_procs s))).
Proof.
  intros H. apply launchChrome_inv in H.
  destruct (findChromeExecutable E) as [path|].
  2:{ destruct H as [-> ->]. splits; auto. intros i [=]. }
  destruct H as (d & new & _ & H). cbv zeta in H.
  destruct (throws E _) as [m|].
  - destruct H as [-> ->]. simpl. splits; auto. intros i [=].
  - destruct H as (args & w & _ & Hw & ->).
    unfold waitForCDP in Hw.
    match type of Hw with
    | waitForCDP_from _ ?p ?dl ?mx ?lf ?le ?s0 = _ =>
        destruct (waitForCDP_from_run E p dl mx lf le s0) as (r0 & new0 & Hr & _)
    end.
    rewrite Hr in Hw. injection Hw as <- <-. simpl.
    rewrite length_app. simpl.
    splits; auto; try lia.
    intros i Hi; destruct r0; simpl in Hi; [|discriminate].
    injection Hi as <-; simpl; lia.
Qed.

(** ** Switching *)

Lemma switchWorkspace_tracked E cfg n c i s :
  JSMap.get n (cfg_workspaces cfg) = Some c ->
  JSMap.get n (workspaces s) = Some i ->
  switchWorkspace E cfg n s = (Ok i, with_currentWorkspace (Some n) s).
Proof.
  intros Hc Hi. unfold switchWorkspace. rewrite Hc.
  unfold bind, gets. rewrite Hi. reflexivity.
Qed.

(** A switch that had to launch: what the launch gave is what is tracked. *)
Lemma switchWorkspace_untracked E cfg n c s r s' :
  JSMap.get n (cfg_workspaces cfg) = Some c ->
  JSMap.get n (workspaces s) = None ->
  switchWorkspace E cfg n s = (r, s') ->
  exists r0 s0,
    launchChrome E {| workspaceName := n;
                      opt_profileDirectory := cfg_profileDirectory c;
                      opt_port := cfg_port c;
                      headless := Some false;
                      windowSize := None |} s = (r0, s0)
    /\ match r0 with
       | Ok i => r = Ok i
                 /\ s' = with_currentWorkspace (Some n)
                           (with_workspaces (JSMap.set n i (workspaces s0)) s0)
       | Throw m => r = Throw m /\ s' = s0
       end.
Proof.
  intros Hc Hi. unfold switchWorkspace. rewrite Hc.
  unfold bind at 1, gets. rewrite Hi.
  unfold bind at 1. unfold bind at 1.
  destruct (launchChrome E _ s) as [[i|m] s0]; simpl.
  - intros [= <- <-]. eexists _, _. split; [reflexivity|]. simpl. auto.
  - intros [= <- <-]. eexists _, _. split; [reflexivity|]. simpl. auto.
Qed.

Lemma switchWorkspace_Ok E cfg n c s i s' :
  JSMap.get n (cfg_workspaces cfg) = Some c ->
  switchWorkspace E cfg n s = (Ok i, s') ->
  JSMap.get n (workspaces s') = Some i
  /\ currentWorkspace s' = Some n
  /\ length (st_procs s') <= S (length (st_procs s)).
Proof.
  intros Hc H.
  destruct (JSMap.get n (workspaces s)) as [i0|] eqn:Hi.
  - rewrite (switchWorkspace_tracked E cfg n c i0 s Hc Hi) in H.
    injection H as <- <-. simpl. auto.
  - destruct (switchWorkspace_untracked E cfg n c s _ _ Hc Hi H) as (r0 & s0 & Hl & Hr).
    apply launchChrome_frame in Hl. destruct Hl as (_ & _ & _ & _ & _ & Hp & _).
    destruct r0 as [i1|m]; destruct Hr as [Hr ->]; [|discriminate].
    injection Hr as <-. simpl.
    split; [apply JSMapFacts.get_set_eq | auto].
Qed.

(** C4: for a configured workspace name, a switch to a name that already has
    a tracked instance returns that very instance and changes nothing but
    the current-workspace pointer, so no process is started; and when a first
    switch has returned an instance, a second switch returns the same
    instance (hence the same endpoint) from an unchanged state, the two
    calls together having started at most one process. *)
Theorem switchWorkspace_idempotent E cfg n c :
  JSMap.get n (cfg_workspaces cfg) = Some c ->
  (forall s i,
      JSMap.get n (workspaces s) = Some i ->
      switchWorkspace E cfg n s = (Ok i, with_currentWorkspace (Some n) s))
  /\ (forall s i1 s1,
        switchWorkspace E cfg n s = (Ok i1, s1) ->
        switchWorkspace E cfg n s1 = (Ok i1, s1)
        /\ length (st_procs s1) <= S (length (st_procs s))).
Proof.
  intros Hc. split.
  - intros s i Hi. now apply switchWorkspace_tracked with (c := c).
  - intros s i1 s1 H.
    destruct (switchWorkspace_Ok E cfg n c s i1 s1 Hc H) as (Hi & Hcur & Hp).
    split; [|assumption].
    rewrite (switchWorkspace_tracked E cfg n c i1 s1 Hc Hi).
    now rewrite with_currentWorkspace_same.
Qed.

(** ** Closing a page that is not there *)

(** A path parameter that names [s]: every [%] of [s] written [%25]. *)
Fixpoint percent_escaped (s : string) : string :=
  match s with
  | EmptyString => EmptyString
  | String c r =>
      if Ascii.eqb c "%" then "%25" ++ percent_escaped r
      else String c (percent_escaped r)
  end.

Definition unit_of (c : ascii) : UriUnit :=
  if Ascii.eqb c "%" then Escaped 37 else Plain c.

Lemma uri_units_percent_escaped s :
  uri_units (percent_escaped s) = Some (map unit_of (list_ascii_of_string s)).
Proof.
  induction s as [|c r IH]; [reflexivity|].
  cbn [percent_escaped list_ascii_of_string map]. unfold unit_of at 1.
  destruct (Ascii.eqb c "%") eqn:Hc.
  - change ("%25" ++ percent_escaped r)
      with (String "%" (String "2" (String "5" (percent_escaped r)))).
    cbn [uri_units]. rewrite Ascii.eqb_refl, IH. reflexivity.
  - cbn [uri_units]. rewrite Hc, IH. reflexivity.
Qed.

Lemma utf8_units_unit_of s :
  utf8_units (map unit_of (list_ascii_of_string s)) = Some s.
Proof.
  induction s as [|c r IH]; [reflexivity|].
  cbn [list_ascii_of_string map]. unfold unit_of at 1.
  destruct (Ascii.eqb_spec c "%") as [->|Hc].
  - cbn [utf8_units]. change (37 <? 128)%nat with true. cbv iota.
    rewrite IH. reflexivity.
  - cbn [utf8_units]. rewrite IH. reflexivity.
Qed.

(** Every name is the decoding of a path parameter. *)
Lemma decode_percent_escaped s : decodeURIComponent (percent_escaped s) = Some s.
Proof.
  unfold decodeURIComponent. rewrite uri_units_percent_escaped.
  apply utf8_units_unit_of.
Qed.

Lemma uri_units_plain s :
  (forall c, In c (list_ascii_of_string s) -> c <> "%"%char) ->
  uri_units s = Some (map Plain (list_ascii_of_string s)).
Proof.
  induction s as [|c r IH]; intros H; [reflexivity|].
  cbn [uri_units list_ascii_of_string map].
  destruct (Ascii.eqb_spec c "%") as [->|_].
  - exfalso. apply (H "%"%char); [now left | reflexivity].
  - rewrite IH; [reflexivity|]. intros c0 Hin. apply H. now right.
Qed.

Lemma utf8_units_plain s : utf8_units (map Plain (list_ascii_of_string s)) = Some s.
Proof.
  induction s as [|c r IH]; [reflexivity|].
  cbn [list_ascii_of_string map utf8_units]. rewrite IH. reflexivity.
Qed.

(** A parameter without [%] is its own decoding. *)
Lemma decode_plain s :
  (forall c, In c (list_ascii_of_string s) -> c <> "%"%char) ->
  decodeURIComponent s = Some s.
Proof.
  intros H. unfold decodeURIComponent. rewrite (uri_units_plain s H).
  apply utf8_units_plain.
Qed.

Lemma delete_pages_decoded E param name s :
  decodeURIComponent param = Some name ->
  delete_pages E param s
  = (entry <- gets (fun s => JSMap.get name (pageRegistry s)) ;;
     match entry with
     | Some e =>
         page_close E (page e) ;;;
         modify (fun s => with_pageRegistry
                            (JSMap.delete name (pageRegistry s)) s) ;;;
         ret (json BSuccess)
     | None => ret {| status := 404; body := BError "page not found" |}
     end) s.
Proof. intros H. unfold delete_pages. now rewrite H. Qed.

(** C3 (as the code has it): [DELETE /pages/:name] decodes its path
    parameter.  When the decoded name is absent from the registry it
    changes no state at all and answers 404 with the error
    [page not found]; every absent name is reached by a parameter, so this
    is the answer for every absent name.  A parameter that does not decode
    makes the handler throw, with no state changed. *)
Theorem delete_absent_page_404 E s :
  (forall param name,
      decodeURIComponent param = Some name ->
      JSMap.get name (pageRegistry s) = None ->
      delete_pages E param s
      = (Ok {| status := 404; body := BError "page not found" |}, s))
  /\ (forall name,
        JSMap.get name (pageRegistry s) = None ->
        delete_pages E (percent_escaped name) s
        = (Ok {| status := 404; body := BError "page not found" |}, s))
  /\ (forall param,
        decodeURIComponent param = None ->
        delete_pages E param s = (Throw "URI malformed", s)).
Proof.
  assert (H404 : forall param name,
             decodeURIComponent param = Some name ->
             JSMap.get name (pageRegistry s) = None ->
             delete_pages E param s
             = (Ok {| status := 404; body := BError "page not found" |}, s)).
  { intros param name Hd H. rewrite (delete_pages_decoded E param name s Hd).
    unfold bind, gets. now rewrite H. }
  split; [exact H404|]. split.
  - intros name H. apply (H404 _ name); [apply decode_percent_escaped | exact H].
  - intros param Hd. unfold delete_pages. now rewrite Hd.
Qed.

(** The client's [close], for a name absent from its registry, does nothing. *)
Lemma client_close_absent E name s :
  JSMap.get name (registry s) = None ->
  client_close E name s = (Ok tt, s).
Proof.
  intros H. unfold client_close, bind, gets. now rewrite H.
Qed.

(** ** An endpoint that never comes up *)

Section Exhaustion.
Variable E : Env.
Variable port_ : Z.

(** Every answer of [GET /json/version], whenever it is asked, is one that
    the [catch] block of [waitForCDP] gets. *)
Definition never_ready : Prop :=
  forall t, fetch_error (fetch_result E t (version_url port_)) <> None.

(** The message caught by an attempt made after [t] outside calls. *)
Definition error_at (t : nat) : string :=
  match fetch_error (fetch_result E t (version_url port_)) with
  | Some m => m
  | None => EmptyString
  end.

Fixpoint polls (delayMs : Z) (n : nat) : list Event :=
  match n with
  | O => []
  | S n' => EvFetch (version_url port_) :: EvSleep delayMs :: polls delayMs n'
  end.

Definition is_fetch (e : Event) : bool :=
  match e with EvFetch _ => true | _ => false end.

Lemma polls_fetches delayMs n : length (filter is_fetch (polls delayMs n)) = n.
Proof. induction n; simpl; auto. Qed.

(** The error kept in [lastError] when [left] more attempts have failed. *)
Definition final_error (left : nat) (lastError : option string) (s : St) : string :=
  match left with
  | O => match lastError with
         | Some m => m
         | None => "undefined"
         end
  | S k => error_at (length (st_trace s) + 2 * k)
  end.

Lemma waitForCDP_from_exhausted delayMs maxRetries :
  never_ready ->
  forall left lastError s,
    waitForCDP_from E port_ delayMs maxRetries left lastError s
    = (Throw ("Chrome CDP not available after "
              ++ show_Z (Z.of_nat maxRetries) ++ " retries: "
              ++ final_error left lastError s),
       after (polls delayMs left) s).
Proof.
  intros Hnever. induction left as [|left IH]; intros lastError s.
  - simpl. now rewrite after_nil.
  - cbn [waitForCDP_from]. unfold bind at 1.
    pose proof (cdp_attempt_run E port_ delayMs s) as H.
    pose proof (Hnever (length (st_trace s))) as Hn.
    destruct (fetch_error _) as [m|] eqn:Hm; [|congruence].
    rewrite H, IH, after_after.
    replace (final_error left (Some m)
               (after [EvFetch (version_url port_); EvSleep delayMs] s))
      with (final_error (S left) lastError s); [reflexivity|].
    unfold final_error. destruct left as [|k].
    + unfold error_at. now rewrite Nat.add_0_r, Hm.
    + f_equal. unfold after; simpl. rewrite length_app. simpl. lia.
Qed.

Lemma waitForCDP_exhausted s :
  never_ready ->
  waitForCDP E port_ 30 500 s
  = (Throw ("Chrome CDP not available after 30 retries: "
            ++ error_at (length (st_trace s) + 58)),
     after (polls 500 30) s).
Proof.
  intros Hnever. unfold waitForCDP.
  now rewrite (waitForCDP_from_exhausted 500 30 Hnever 30 None s).
Qed.
End Exhaustion.

Arguments polls : simpl never.

(** C6: when [GET /json/version] on the port of a configured, untracked
    workspace never succeeds (and the browser binary and its profile
    directory are there), the wait makes exactly 30 attempts, each followed
    by a 500 ms sleep, and throws with the message of the 30th attempt
    attached; the switch throws that error, no instance is recorded and the
    current-workspace pointer is what it was. *)
Theorem launch_gives_up_after_30_attempts E cfg n c path s :
  JSMap.get n (cfg_workspaces cfg) = Some c ->
  JSMap.get n (workspaces s) = None ->
  findChromeExecutable E = Some path ->
  (forall t, throws E t = None) ->
  never_ready E (cfg_port c) ->
  (forall s0,
      waitForCDP E (cfg_port c) 30 500 s0
      = (Throw ("Chrome CDP not available after 30 retries: "
                ++ error_at E (cfg_port c) (length (st_trace s0) + 58)),
         after (polls (cfg_port c) 500 30) s0))
  /\ exists pre s',
      switchWorkspace E cfg n s
      = (Throw ("Chrome CDP not available after 30 retries: "
                ++ error_at E (cfg_port c)
                     (length (st_trace s) + length pre + 58)), s')
      /\ st_trace s' = (st_trace s ++ pre ++ polls (cfg_port c) 500 30)%list
      /\ filter is_fetch pre = []
      /\ length (filter is_fetch (polls (cfg_port c) 500 30)) = 30
      /\ workspaces s' = workspaces s
      /\ currentWorkspace s' = currentWorkspace s.
Proof.
  intros Hc Hi Hpath Hthrows Hnever.
  split; [intros s0; now apply waitForCDP_exhausted|].
  destruct (switchWorkspace E cfg n s) as [r s'] eqn:Hsw.
  destruct (switchWorkspace_untracked E cfg n c s _ _ Hc Hi Hsw) as (r0 & s0 & Hl & Hr).
  pose proof (launchChrome_frame E _ s _ _ Hl) as (Hws & Hcur & _).
  apply launchChrome_inv in Hl. rewrite Hpath in Hl.
  destruct Hl as (d & new & Hres & Hl). cbv zeta in Hl.
  rewrite Hthrows in Hl. destruct Hl as (args & w & _ & Hw & ->).
  cbn [opt_port workspaceName] in Hw.
  rewrite (waitForCDP_exhausted E _ _ Hnever) in Hw.
  pose proof (f_equal fst Hw) as Hw1. pose proof (f_equal snd Hw) as Hw2.
  cbn [fst snd] in Hw1, Hw2. subst w s0. clear Hw.
  unfold launched in Hr. destruct Hr as [-> ->].
  exists (new ++ [EvMkdir (data_dir E n); EvSpawn path args])%list, 
         (after (polls (cfg_port c) 500 30)
            (spawned E path args
               (after [EvMkdir (data_dir E n)]
                  (with_cachedVirtualDisplay (Some d) (after new s))))).
  assert (Hlen : length (st_trace
                 (spawned E path args
                    (after [EvMkdir (data_dir E n)]
                       (with_cachedVirtualDisplay (Some d) (after new s)))))
                 = length (st_trace s)
                   + length (new ++ [EvMkdir (data_dir E n); EvSpawn path args])).
  { unfold spawned, after; simpl. rewrite !length_app. simpl. lia. }
  splits.
  - rewrite Hlen. reflexivity.
  - unfold spawned, after; simpl. rewrite <- !app_assoc. reflexivity.
  - rewrite filter_app. simpl. rewrite app_nil_r.
    destruct Hres as [[_ ->]|(_ & _ & Hs)]; [reflexivity|].
    destruct Hs as [->|[->|[->| ->]]]; reflexivity.
  - apply polls_fetches.
  - assumption.
  - assumption.
Qed.

(** ** Placement and headless mode *)

Definition spawned_args (tr : list Event) : list (list string) :=
  flat_map (fun e => match e with EvSpawn _ args => [args] | _ => [] end) tr.

Definition is_exec (e : Event) : bool :=
  match e with EvExec _ => true | _ => false end.

(** The placement a state has cached, [None] when none was found or none was
    looked for yet. *)
Definition placement (s : St) : option DisplayInfo :=
  match cachedVirtualDisplay s with
  | Some (Some d) => Some d
  | _ => None
  end.

Lemma spawned_args_app a b : spawned_args (a ++ b) = (spawned_args a ++ spawned_args b)%list.
Proof. apply flat_map_app. Qed.

Lemma spawned_args_polls new : Forall is_poll new -> spawned_args new = [].
Proof.
  induction 1 as [|e new He _ IH]; [reflexivity|].
  destruct e; simpl in *; try contradiction; assumption.
Qed.

Lemma exec_polls new : Forall is_poll new -> filter is_exec new = [].
Proof.
  induction 1 as [|e new He _ IH]; [reflexivity|].
  destruct e; simpl in *; try contradiction; assumption.
Qed.

Lemma spawned_args_resolution new : resolution_shape new -> spawned_args new = [].
Proof. intros [->|[->|[->| ->]]]; reflexivity. Qed.

Section Placement.
Variable E : Env.

(** What a detection made after [t] outside calls finds. *)
Definition detect (t : nat) : option DisplayInfo :=
  match exec_result E t display_query with
  | Some stdout => parse_displays stdout
  | None => None
  end.

Lemma getVirtualDisplayPosition_mac s :
  platform E = "darwin" ->
  getVirtualDisplayPosition E s
  = (Ok (detect (length (st_trace s))), after [EvExec display_query] s).
Proof.
  intros Hp. unfold getVirtualDisplayPosition, detect. rewrite Hp. simpl.
  unfold try_catch, bind, execAsync, bind, now, gets, emit, modify; simpl.
  destruct (exec_result E (length (st_trace s)) display_query); reflexivity.
Qed.

(** One resolution, step by step. *)
Definition resolve_once (s : St) : option DisplayInfo * list Event :=
  let t := length (st_trace s) in
  if negb (String.eqb (platform E) "darwin") then (None, [])
  else match detect t with
       | Some d => (Some d, [EvExec display_query])
       | None =>
           match exec_result E (t + 1) display_create with
           | None => (None, [EvExec display_query; EvExec display_create])
           | Some _ =>
               (detect (t + 3),
                [EvExec display_query; EvExec display_create; EvSleep 1000;
                 EvExec display_query])
           end
       end.

Lemma ensureVirtualDisplay_spec s :
  ensureVirtualDisplay E s
  = (Ok (fst (resolve_once s)), after (snd (resolve_once s)) s).
Proof.
  unfold ensureVirtualDisplay, resolve_once.
  destruct (String.eqb_spec (platform E) "darwin") as [Hp|Hp]; simpl.
  2:{ now rewrite after_nil. }
  unfold bind at 1. rewrite (getVirtualDisplayPosition_mac s Hp).
  destruct (detect (length (st_trace s))) as [d|]; [reflexivity|].
  unfold try_catch, bind at 1, execAsync, bind at 1, now, gets.
  unfold bind at 1, emit, modify. simpl.
  rewrite length_app. simpl.
  destruct (exec_result E (length (st_trace s) + 1) display_create) as [out|]; simpl.
  - unfold bind at 1, sleep, emit, modify.
    rewrite getVirtualDisplayPosition_mac by assumption. simpl.
    rewrite !length_app. simpl.
    replace (length (st_trace s) + 1 + 1 + 1) with (length (st_trace s) + 3) by lia.
    unfold after; simpl. rewrite <- !app_assoc. reflexivity.
  - unfold after; simpl. rewrite <- !app_assoc. reflexivity.
Qed.

Lemma resolved_spec s d new :
  resolved E s d new ->
  (cachedVirtualDisplay s = Some d /\ new = [])
  \/ (cachedVirtualDisplay s = None /\ d = fst (resolve_once s)
      /\ new = snd (resolve_once s)).
Proof.
  intros [H|(Hc & Hrun & _)]; [now left|right].
  rewrite ensureVirtualDisplay_spec in Hrun.
  pose proof (f_equal fst Hrun) as H1. pose proof (f_equal snd Hrun) as H2.
  cbn [fst snd] in H1, H2. injection H1 as H1.
  apply (f_equal st_trace) in H2. unfold after in H2; simpl in H2.
  apply app_inv_head in H2. auto.
Qed.

(** The events of a launch, by its stages. *)
Lemma launchChrome_trace o s r s' :
  launchChrome E o s = (r, s') ->
  (s' = s /\ findChromeExecutable E = None)
  \/ exists d new0 rest,
      resolved E s d new0
      /\ cachedVirtualDisplay s' = Some d
      /\ st_trace s' = (st_trace s ++ new0 ++ rest)%list
      /\ filter is_exec rest = []
      /\ forall args, In args (spawned_args rest) ->
           has_arg "--headless=new" args
           = is_true (headless o) || negb (is_some d)
           /\ has_window_position args = is_some d.
Proof.
  intros H. apply launchChrome_inv in H.
  destruct (findChromeExecutable E) as [path|]; [right | left; tauto].
  destruct H as (d & new & Hres & H). cbv zeta in H.
  exists d, new.
  pose proof (buildChromeArgs_run E (build_options o d)
                (with_cachedVirtualDisplay (Some d) (after new s))) as Hb.
  cbv zeta in Hb.
  destruct (throws E _) as [m|].
  - destruct H as [-> ->].
    exists [EvMkdir (data_dir E (workspaceName o))].
    splits; try reflexivity; try assumption.
    * unfold after; simpl. now rewrite <- app_assoc.
    * intros args [].
  - destruct H as (args & w & Hargs & Hw & ->).
    destruct Hb as (args' & Hargs' & Hh & Hp).
    change (workspaceName (launch (build_options o d))) with (workspaceName o) in Hargs'.
    rewrite Hargs in Hargs'. injection Hargs' as <-.
    unfold waitForCDP in Hw.
    match type of Hw with
    | waitForCDP_from _ ?p ?dl ?mx ?lf ?le ?s0 = _ =>
        destruct (waitForCDP_from_run E p dl mx lf le s0) as (r0 & new1 & Hr & Hpoll)
    end.
    rewrite Hr in Hw.
    pose proof (f_equal snd Hw) as Hs. cbn [fst snd] in Hs. subst s'.
    exists ([EvMkdir (data_dir E (workspaceName o)); EvSpawn path args] ++ new1)%list.
    splits.
    + assumption.
    + reflexivity.
    + unfold spawned, after; simpl. rewrite <- !app_assoc. reflexivity.
    + simpl. now apply exec_polls.
    + simpl. rewrite (spawned_args_polls _ Hpoll). intros a [<-|[]].
      rewrite Hh, Hp. unfold build_options; simpl.
      destruct d, (headless o) as [[|]|]; split; reflexivity.
Qed.

(** When every display query fails, no resolution finds a placement. *)
Lemma resolution_fails s :
  (forall t, exec_result E t display_query = None) ->
  fst (resolve_once s) = None.
Proof.
  intros Hq. unfold resolve_once, detect. rewrite !Hq.
  destruct (negb _); [reflexivity|].
  destruct (exec_result E _ display_create); reflexivity.
Qed.

End Placement.

Definition headless_args (args : list string) : Prop :=
  has_arg "--headless=new" args = true.

(** Between two states: more outside calls were made, and every browser
    started by them was started headless; nothing is said when the first
    state has a placement. *)
Definition stays_headless (s s' : St) : Prop :=
  placement s = None ->
  placement s' = None
  /\ exists new, st_trace s' = (st_trace s ++ new)%list
                 /\ Forall headless_args (spawned_args new).

Lemma stays_headless_refl s : stays_headless s s.
Proof.
  intros H. split; [assumption|]. exists []. now rewrite app_nil_r.
Qed.

Lemma stays_headless_trans a b c :
  stays_headless a b -> stays_headless b c -> stays_headless a c.
Proof.
  intros Hab Hbc Ha. destruct (Hab Ha) as (Hb & n1 & H1 & F1).
  destruct (Hbc Hb) as (Hc & n2 & H2 & F2).
  split; [assumption|]. exists (n1 ++ n2)%list.
  rewrite H2, H1, <- app_assoc. split; [reflexivity|].
  rewrite spawned_args_app. now apply Forall_app.
Qed.

Lemma launchChrome_stays_headless E o :
  (forall t, exec_result E t display_query = None) ->
  steps stays_headless (launchChrome E o).
Proof.
  intros Hq s r s' H Hnone.
  destruct (launchChrome_trace E o s r s' H) as [[-> _]|(d & new0 & rest & Hres & Hc & Htr & _ & Hargs)].
  - now apply stays_headless_refl.
  - assert (Hd : d = None).
    { destruct (resolved_spec E _ _ _ Hres) as [[Hcs _]|(_ & -> & _)].
      - unfold placement in Hnone. rewrite Hcs in Hnone. now destruct d.
      - now apply resolution_fails. }
    subst d. split; [unfold placement; now rewrite Hc|].
    exists (new0 ++ rest)%list. split; [assumption|].
    rewrite spawned_args_app. apply Forall_app. split.
    + destruct Hres as [[_ ->]|(_ & _ & Hs)]; [constructor|].
      rewrite (spawned_args_resolution _ Hs). constructor.
    + apply Forall_forall. intros args Hin.
      destruct (Hargs args Hin) as [Hh _]. unfold headless_args.
      rewrite Hh. apply orb_true_r.
Qed.

(** C5: a launch starts the browser with [--headless=new] exactly when
    headless was requested or the resolved placement is null, and with a
    [--window-position=] argument exactly when a placement was resolved;
    and when every display query fails, then from a state without a
    placement each launch of any sequence of launches, whatever its options,
    starts its browser headless. *)
Theorem headless_iff_requested_or_unplaced E :
  (forall o s r s',
      launchChrome E o s = (r, s') ->
      exists new,
        st_trace s' = (st_trace s ++ new)%list
        /\ forall args, In args (spawned_args new) ->
             has_arg "--headless=new" args
             = is_true (headless o) || negb (is_some (placement s'))
             /\ has_window_position args = is_some (placement s'))
  /\ ((forall t, exec_result E t display_query = None) ->
      forall l s r s',
        placement s = None ->
        launch_sequence E l s = (r, s') ->
        exists new,
          st_trace s' = (st_trace s ++ new)%list
          /\ Forall headless_args (spawned_args new)).
Proof.
  split.
  - intros o s r s' H.
    destruct (launchChrome_trace E o s r s' H)
      as [[-> _]|(d & new0 & rest & Hres & Hc & Htr & _ & Hargs)].
    + exists []. rewrite app_nil_r. split; [reflexivity | intros args []].
    + exists (new0 ++ rest)%list. split; [assumption|].
      intros args Hin. rewrite spawned_args_app in Hin.
      assert (Hp : placement s' = d).
      { unfold placement. rewrite Hc. now destruct d. }
      rewrite Hp. apply Hargs.
      apply in_app_or in Hin. destruct Hin as [Hin|Hin]; [|assumption].
      destruct Hres as [[_ ->]|(_ & _ & Hs)]; [destruct Hin|].
      rewrite (spawned_args_resolution _ Hs) in Hin. destruct Hin.
  - intros Hq l s r s' Hnone H.
    assert (Hsteps : steps stays_headless (launch_sequence E l)).
    { unfold launch_sequence.
      step_through stays_headless_refl stays_headless_trans.
      now apply launchChrome_stays_headless. }
    destruct (Hsteps s r s' H Hnone) as (_ & new & Htr & HF).
    eauto.
Qed.

(** ** The cached placement *)

(** Between two states: a cached placement is still the same, and no
    operating-system utility was run. *)
Definition reuses_cache (s s' : St) : Prop :=
  forall x,
    cachedVirtualDisplay s = Some x ->
    cachedVirtualDisplay s' = Some x
    /\ exists new, st_trace s' = (st_trace s ++ new)%list
                   /\ filter is_exec new = [].

Lemma reuses_cache_refl s : reuses_cache s s.
Proof.
  intros x H. split; [assumption|]. exists []. now rewrite app_nil_r.
Qed.

Lemma reuses_cache_trans a b c :
  reuses_cache a b -> reuses_cache b c -> reuses_cache a c.
Proof.
  intros Hab Hbc x Ha. destruct (Hab x Ha) as (Hb & n1 & H1 & F1).
  destruct (Hbc x Hb) as (Hc & n2 & H2 & F2).
  split; [assumption|]. exists (n1 ++ n2)%list.
  rewrite H2, H1, <- app_assoc. split; [reflexivity|].
  now rewrite filter_app, F1, F2.
Qed.

Lemma launchChrome_reuses_cache E o : steps reuses_cache (launchChrome E o).
Proof.
  intros s r s' H x Hx.
  destruct (launchChrome_trace E o s r s' H)
    as [[-> _]|(d & new0 & rest & Hres & Hc & Htr & Hex & _)].
  - now apply reuses_cache_refl.
  - destruct (resolved_spec E _ _ _ Hres) as [[Hcs ->]|(Hcs & _)]; [|congruence].
    rewrite Hx in Hcs. injection Hcs as <-.
    split; [assumption|]. exists rest. auto.
Qed.

Lemma resolve_once_shape E s : resolution_shape (snd (resolve_once E s)).
Proof.
  unfold resolve_once, resolution_shape. destruct (negb _); [auto|].
  destruct (detect E _); [auto|].
  destruct (exec_result E _ display_create); simpl; auto 6.
Qed.

(** Launches made one after the other.  A detection whose query fails finds
    nothing and throws nothing; a resolution never throws and is one
    detection, followed only when it found nothing by one creation attempt,
    a 1000 ms wait and exactly one more detection, its result being null
    when the creation fails or the second detection finds nothing; the
    first launch (nothing cached yet)
    runs one resolution and caches its result, a placement or null, whether
    or not the launch then succeeds; and every launch made with a cached
    result, alone or in any sequence, keeps that result and runs no
    operating-system utility. *)
Theorem placement_resolved_once E :
  (forall s,
      exec_result E (length (st_trace s)) display_query = None ->
      exists s', getVirtualDisplayPosition E s = (Ok None, s'))
  /\ (forall s,
        ensureVirtualDisplay E s
        = (Ok (fst (resolve_once E s)), after (snd (resolve_once E s)) s)
        /\ resolution_shape (snd (resolve_once E s)))
  /\ (forall s,
        detect E (length (st_trace s)) = None ->
        (exec_result E (length (st_trace s) + 1) display_create = None
         \/ detect E (length (st_trace s) + 3) = None) ->
        fst (resolve_once E s) = None)
  /\ (forall o s r s' path,
        cachedVirtualDisplay s = None ->
        findChromeExecutable E = Some path ->
        launchChrome E o s = (r, s') ->
        cachedVirtualDisplay s' = Some (fst (resolve_once E s))
        /\ exists rest,
            st_trace s' = (st_trace s ++ snd (resolve_once E s) ++ rest)%list
            /\ filter is_exec rest = [])
  /\ (forall o s r s' x,
        cachedVirtualDisplay s = Some x ->
        launchChrome E o s = (r, s') ->
        cachedVirtualDisplay s' = Some x
        /\ exists new, st_trace s' = (st_trace s ++ new)%list
                       /\ filter is_exec new = [])
  /\ (forall l s r s' x,
        cachedVirtualDisplay s = Some x ->
        launch_sequence E l s = (r, s') ->
        cachedVirtualDisplay s' = Some x
        /\ exists new, st_trace s' = (st_trace s ++ new)%list
                       /\ filter is_exec new = []).
Proof.
  splits.
  - intros s Hq.
    destruct (String.eqb_spec (platform E) "darwin") as [Hp|Hp].
    + rewrite (getVirtualDisplayPosition_mac E s Hp). unfold detect. rewrite Hq.
      eexists. reflexivity.
    + unfold getVirtualDisplayPosition.
      apply String.eqb_neq in Hp. rewrite Hp. eexists. reflexivity.
  - intros s. split; [apply ensureVirtualDisplay_spec | apply resolve_once_shape].
  - intros s Hd Hc. unfold resolve_once. rewrite Hd.
    destruct (negb _); [reflexivity|].
    destruct (exec_result E (length (st_trace s) + 1) display_create) as [out|];
      [|reflexivity].
    destruct Hc as [Hc|Hc]; [discriminate | exact Hc].
  - intros o s r s' path Hnone Hpath H.
    destruct (launchChrome_trace E o s r s' H)
      as [[_ Hf]|(d & new0 & rest & Hres & Hc & Htr & Hex & _)]; [congruence|].
    destruct (resolved_spec E _ _ _ Hres) as [[Hcs _]|(_ & -> & ->)]; [congruence|].
    split; [assumption|]. exists rest. auto.
  - intros o s r s' x Hx H. exact (launchChrome_reuses_cache E o s r s' H x Hx).
  - intros l s r s' x Hx H.
    assert (Hsteps : steps reuses_cache (launch_sequence E l)).
    { unfold launch_sequence.
      step_through reuses_cache_refl reuses_cache_trans.
      apply launchChrome_reuses_cache. }
    exact (Hsteps s r s' H x Hx).
Qed.

(** ** Stopping a workspace *)

(** Between two states: the variables of the program are the same; only the
    outside world (trace, processes, timers, browsers) may differ. *)
Definition world_only (s s' : St) : Prop :=
  cachedVirtualDisplay s' = cachedVirtualDisplay s
  /\ workspaces s' = workspaces s
  /\ currentWorkspace s' = currentWorkspace s
  /\ pageRegistry s' = pageRegistry s
  /\ browserConnections s' = browserConnections s
  /\ connections s' = connections s
  /\ cleaningUp s' = cleaningUp s
  /\ registry s' = registry s.

Lemma world_only_refl s : world_only s s.
Proof. unfold world_only; splits; reflexivity. Qed.

Lemma world_only_trans a b c : world_only a b -> world_only b c -> world_only a c.
Proof.
  unfold world_only.
  intros (A1 & A2 & A3 & A4 & A5 & A6 & A7 & A8) (B1 & B2 & B3 & B4 & B5 & B6 & B7 & B8).
  splits; congruence.
Qed.

Ltac world_step :=
  intros;
  first [ apply steps_modify; intros; unfold world_only; splits; reflexivity
        | unfold emit; apply steps_modify; intros; unfold world_only; splits;
          reflexivity ].

Ltac world_walk :=
  step_through world_only_refl world_only_trans; try world_step.

(** Computations that never throw. *)
Definition total {A} (c : M A) : Prop := forall s, exists a s', c s = (Ok a, s').

Lemma total_ret A (a : A) : total (ret a).
Proof. intros s. exists a, s. reflexivity. Qed.

Lemma total_gets A (f : St -> A) : total (gets f).
Proof. intros s. exists (f s), s. reflexivity. Qed.

Lemma total_modify f : total (modify f).
Proof. intros s. exists tt, (f s). reflexivity. Qed.

Lemma total_emit e : total (emit e).
Proof. apply total_modify. Qed.

Lemma total_bind A B (c : M A) (k : A -> M B) :
  total c -> (forall a, total (k a)) -> total (bind c k).
Proof.
  intros Hc Hk s. destruct (Hc s) as (a & s1 & H1).
  destruct (Hk a s1) as (b & s2 & H2).
  exists b, s2. unfold bind. now rewrite H1.
Qed.

Lemma total_try_catch A (c : M A) h :
  (forall m, total (h m)) -> total (try_catch c h).
Proof.
  intros Hh s. unfold try_catch. destruct (c s) as [[a|m] s1].
  - exists a, s1. reflexivity.
  - apply Hh.
Qed.

Lemma total_for_each A (l : list A) (body : A -> M unit) :
  (forall a, total (body a)) -> total (for_each l body).
Proof.
  intros Hb. induction l as [|a l IH]; simpl.
  - apply total_ret.
  - apply total_bind; auto.
Qed.

Ltac total_walk :=
  repeat (intros;
          first [ apply total_ret | apply total_gets | apply total_modify
                | apply total_emit | apply total_bind
                | apply total_try_catch | apply total_for_each
                | match goal with
                  | |- total (match ?x with _ => _ end) => destruct x
                  | |- total (if ?x then _ else _) => destruct x
                  end ]).

Lemma proc_kill_total pid sig : total (proc_kill pid sig).
Proof. unfold proc_kill. total_walk. Qed.

Lemma killChrome_total i : total (killChrome i).
Proof. unfold killChrome, proc_killed. total_walk. Qed.

Lemma proc_kill_world pid sig : steps world_only (proc_kill pid sig).
Proof. unfold proc_kill. world_walk. Qed.

Lemma killChrome_world i : steps world_only (killChrome i).
Proof. unfold killChrome, proc_killed. world_walk. Qed.

Lemma stopWorkspace_run name s :
  exists s',
    stopWorkspace name s = (Ok tt, s')
    /\ workspaces s' = JSMap.delete name (workspaces s)
    /\ pageRegistry s' = pageRegistry s
    /\ browserConnections s' = browserConnections s.
Proof.
  unfold stopWorkspace. unfold bind at 1, gets.
  destruct (JSMap.get name (workspaces s)) as [i|] eqn:Hi.
  - unfold bind at 1.
    destruct (killChrome_total i s) as ([] & s1 & Hk). rewrite Hk.
    destruct (killChrome_world i s _ _ Hk) as (_ & W2 & W3 & W4 & W5 & _).
    unfold bind, modify, gets; simpl.
    destruct (same_name (currentWorkspace s1) name); simpl;
      eexists; (split; [reflexivity|]); simpl; rewrite ?W2, ?W4, ?W5; auto.
  - exists s. splits; auto.
    symmetry. apply JSMapFacts.delete_absent.
    now apply JSMapFacts.get_None_keys.
Qed.

Lemma outside_swallowed E e s :
  try_catch (outside E e) (fun _ => ret tt) s = (Ok tt, after [e] s).
Proof.
  unfold try_catch, outside, bind, now, gets, emit, modify; simpl.
  destruct (throws E (length (st_trace s))); reflexivity.
Qed.

Section Stop.
Variable E : Env.
Variable w : string.

(** One turn of the loop of the stop handler, on the registry. *)
Definition purge (m : JSMap.t PageEntry) (ne : string * PageEntry) : JSMap.t PageEntry :=
  if owned_by w (snd ne) then JSMap.delete (fst ne) m else m.

Definition stop_body (ne : string * PageEntry) : M unit :=
  if owned_by w (snd ne) then
    page_close_detached E (page (snd ne)) ;;;
    modify (fun s => with_pageRegistry (JSMap.delete (fst ne) (pageRegistry s)) s)
  else ret tt.

Lemma stop_loop l :
  forall s, exists s',
    for_each l stop_body s = (Ok tt, s')
    /\ pageRegistry s' = fold_left purge l (pageRegistry s)
    /\ workspaces s' = workspaces s
    /\ browserConnections s' = browserConnections s
    /\ currentWorkspace s' = currentWorkspace s.
Proof.
  induction l as [|ne l IH]; intros s; simpl.
  - exists s. auto.
  - unfold bind at 1, stop_body at 1, purge at 2.
    destruct (owned_by w (snd ne)).
    + unfold bind at 1, page_close_detached. rewrite outside_swallowed.
      unfold modify.
      match goal with
      | |- context [for_each l stop_body ?s1] =>
          destruct (IH s1) as (s' & -> & Hr & Hw & Hb & Hc)
      end.
      exists s'. simpl in *. auto.
    + unfold ret. apply IH.
Qed.

(** With distinct keys, the loop removes exactly the entries it owns. *)
Lemma purge_all_filter (l m : JSMap.t PageEntry) :
  fold_left purge l m
  = filter (fun kv => negb (existsb (fun ne => owned_by w (snd ne)
                                              && String.eqb (fst ne) (fst kv)) l)) m.
Proof.
  revert m. induction l as [|ne l IH]; intros m; simpl.
  - induction m as [|kv m IHm]; simpl; [reflexivity | now rewrite <- IHm].
  - rewrite IH. unfold purge.
    destruct (owned_by w (snd ne)); simpl; [|reflexivity].
    unfold JSMap.delete. induction m as [|kv m IHm]; simpl; [reflexivity|].
    destruct (String.eqb (fst ne) (fst kv)); simpl; [assumption|].
    destruct (negb _); [now rewrite IHm | assumption].
Qed.

Lemma purge_self (m : JSMap.t PageEntry) :
  NoDup (JSMap.keys m) ->
  fold_left purge m m = filter (fun kv => negb (owned_by w (snd kv))) m.
Proof.
  intros Hnd. rewrite purge_all_filter.
  apply filter_ext_in. intros [k e] Hin. f_equal. simpl.
  destruct (owned_by w e) eqn:Ho.
  - apply existsb_exists. exists (k, e). simpl.
    now rewrite Ho, String.eqb_refl.
  - apply not_true_is_false. intros Hex.
    apply existsb_exists in Hex. destruct Hex as ([k' e'] & Hin' & Hb).
    simpl in Hb. apply andb_prop in Hb. destruct Hb as [Ho' Hk].
    apply String.eqb_eq in Hk. subst k'.
    assert (e' = e).
    { pose proof (JSMapFacts.In_get _ _ _ _ Hnd Hin) as G1.
      pose proof (JSMapFacts.In_get _ _ _ _ Hnd Hin') as G2. congruence. }
    congruence.
Qed.
End Stop.

Lemma get_filter_owned (w : string) (m : JSMap.t PageEntry) name :
  NoDup (JSMap.keys m) ->
  JSMap.get name (filter (fun kv => negb (owned_by w (snd kv))) m)
  = match JSMap.get name m with
    | Some e => if owned_by w e then None else Some e
    | None => None
    end.
Proof.
  induction m as [|[k e] m IH]; simpl; [reflexivity|].
  intros Hnd. inversion Hnd as [|? ? Hnot Hnd']; subst.
  destruct (String.eqb_spec name k) as [->|Hk].
  - destruct (owned_by w e) eqn:Ho; simpl.
    + rewrite IH by assumption.
      apply JSMapFacts.get_None_keys in Hnot. now rewrite Hnot.
    + now rewrite String.eqb_refl.
  - destruct (owned_by w e); simpl.
    + auto.
    + destruct (String.eqb_spec name k); [contradiction | auto].
Qed.

(** C9: for a non-empty workspace name [n], [POST /workspace/stop] answers
    success and leaves in the page registry exactly the entries that [n]
    does not own: an entry owned by [n] is gone, every other entry is there
    unchanged and no entry is added; the tracked instance and the cached
    connection of every other workspace are what they were. *)
Theorem stop_purges_exactly_owned_pages E n s :
  truthy n = true ->
  NoDup (JSMap.keys (pageRegistry s)) ->
  exists s',
    post_workspace_stop E (Some n) s = (Ok (json (BStop n)), s')
    /\ pageRegistry s'
       = filter (fun kv => negb (owned_by n (snd kv))) (pageRegistry s)
    /\ (forall name,
          JSMap.get name (pageRegistry s')
          = match JSMap.get name (pageRegistry s) with
            | Some e => if owned_by n e then None else Some e
            | None => None
            end)
    /\ (forall m, m <> n ->
          JSMap.get m (workspaces s') = JSMap.get m (workspaces s))
    /\ (forall m, m <> n ->
          JSMap.get m (browserConnections s') = JSMap.get m (browserConnections s)).
Proof.
  intros Hn Hnd. unfold post_workspace_stop. rewrite Hn. simpl negb. cbv iota.
  unfold bind at 1, gets. unfold JSMap.entries.
  change (fun ne : string * PageEntry =>
            if owned_by n (snd ne)
            then page_close_detached E (page (snd ne));;;
                 modify (fun s0 => with_pageRegistry
                                     (JSMap.delete (fst ne) (pageRegistry s0)) s0)
            else ret tt)
    with (stop_body E n).
  unfold bind at 1. change (negb true) with false. cbv beta iota.
  destruct (stop_loop E n (pageRegistry s) s) as (s1 & -> & Hr & Hw & Hb & _).
  rewrite (purge_self n _ Hnd) in Hr.
  unfold bind at 1, gets. unfold bind at 1.
  assert (Hbrowser : exists s2,
    match JSMap.get n (browserConnections s1) with
    | Some b =>
        browser_close_detached E b;;;
        modify (fun s0 => with_browserConnections
                            (JSMap.delete n (browserConnections s0)) s0)
    | None => ret tt
    end s1 = (Ok tt, s2)
    /\ pageRegistry s2 = pageRegistry s1
    /\ workspaces s2 = workspaces s1
    /\ browserConnections s2 = JSMap.delete n (browserConnections s1)).
  { destruct (JSMap.get n (browserConnections s1)) as [b|] eqn:Hg.
    - unfold bind, browser_close_detached. rewrite outside_swallowed.
      eexists. split; [reflexivity|]. simpl. auto.
    - exists s1. splits; auto. symmetry. apply JSMapFacts.delete_absent.
      now apply JSMapFacts.get_None_keys. }
  destruct Hbrowser as (s2 & -> & Hr2 & Hw2 & Hb2).
  unfold bind at 1.
  destruct (stopWorkspace_run n s2) as (s3 & -> & Hw3 & Hr3 & Hb3).
  exists s3. splits.
  - reflexivity.
  - congruence.
  - intros name. rewrite Hr3, Hr2, Hr. now apply get_filter_owned.
  - intros m Hm. rewrite Hw3, Hw2, Hw. apply JSMapFacts.get_delete_ne. congruence.
  - intros m Hm. rewrite Hb3, Hb2, Hb. apply JSMapFacts.get_delete_ne. congruence.
Qed.

(** ** Terminating a browser *)

Lemma nth_error_update_at_ne A (f : A -> A) (l : list A) i j :
  i <> j -> nth_error (update_at i f l) j = nth_error l j.
Proof.
  revert i j. induction l as [|a l IH]; intros i j Hne.
  - destruct i; reflexivity.
  - destruct i as [|i]; destruct j as [|j]; simpl; try congruence.
    apply IH. congruence.
Qed.

Lemma nth_error_update_at_eq A (f : A -> A) (l : list A) i a :
  nth_error l i = Some a -> nth_error (update_at i f l) i = Some (f a).
Proof.
  revert i. induction l as [|b l IH]; intros i; destruct i; simpl;
    try discriminate.
  - now intros [= ->].
  - apply IH.
Qed.

Lemma nth_error_settle_from E l : forall k i,
  nth_error (settle_from E k l) i = option_map (settle_proc E (k + i)) (nth_error l i).
Proof.
  induction l as [|p l IH]; intros k i; destruct i; simpl; try reflexivity.
  - now rewrite Nat.add_0_r.
  - rewrite IH. now rewrite Nat.add_succ_r.
Qed.

(** Between two states: the child [pid], already signalled, is left as it
    is, and it is sent no SIGKILL. *)
Definition spared (pid : nat) (s s' : St) : Prop :=
  forall q,
    nth_error (st_procs s) pid = Some q -> killed q = true ->
    nth_error (st_procs s') pid = Some q
    /\ exists new, st_trace s' = (st_trace s ++ new)%list
                   /\ ~ In (EvKill pid SIGKILL) new.

Lemma spared_refl pid s : spared pid s s.
Proof.
  intros q Hq Hk. split; [assumption|]. exists []. rewrite app_nil_r. auto.
Qed.

Lemma spared_trans pid a b c : spared pid a b -> spared pid b c -> spared pid a c.
Proof.
  intros Hab Hbc q Hq Hk.
  destruct (Hab q Hq Hk) as (Hb & n1 & H1 & F1).
  destruct (Hbc q Hb Hk) as (Hc & n2 & H2 & F2).
  split; [assumption|]. exists (n1 ++ n2)%list.
  rewrite H2, H1, <- app_assoc. split; [reflexivity|].
  intros Hin. apply in_app_or in Hin. tauto.
Qed.

Ltac end_state H :=
  apply (f_equal snd) in H; cbn [snd] in H; subst.

Ltac end_run H :=
  let Hr := fresh "Hr" in
  pose proof (f_equal fst H) as Hr; cbn [fst] in Hr; end_state H.

Lemma force_kill_spared pid other : steps (spared pid) (force_kill other).
Proof.
  intros s r s' H q Hq Hk.
  cbv [force_kill proc_killed proc_kill bind gets emit modify ret] in H.
  destruct (Nat.eq_dec other pid) as [->|Hne].
  - rewrite Hq, Hk in H. simpl in H. end_state H.
    split; [assumption|]. exists []. rewrite app_nil_r. auto.
  - destruct (nth_error (st_procs s) other) as [p|] eqn:Ho; simpl in H.
    + destruct (killed p); simpl in H.
      * end_state H. now apply spared_refl.
      * rewrite Ho in H. destruct (cp_handle p); simpl in H; end_state H.
        -- simpl. split; [now rewrite nth_error_update_at_ne|].
           exists [EvKill other SIGKILL]. split; [reflexivity|].
           intros [Heq|[]]. congruence.
        -- now apply spared_refl.
    + rewrite Ho in H. end_state H. now apply spared_refl.
Qed.

(** C2 (what the code does): for a running, never signalled browser process,
    [killChrome] returns at once having sent SIGTERM and set one 3000 ms
    timer; because delivering SIGTERM sets [killed], the timer's callback
    sends nothing: when the grace period is over the process has been sent
    SIGTERM only, and it is still running when it does not honour SIGTERM. *)
Theorem killChrome_never_sends_SIGKILL E i s p0 :
  nth_error (st_procs s) (process i)
  = Some {| cp_pid := p0; cp_handle := true; killed := false; cp_signals := [] |} ->
  exists s1 s2 new,
    killChrome i s = (Ok tt, s1)
    /\ st_trace s1 = (st_trace s ++ [EvKill (process i) SIGTERM; EvSetTimeout 3000])%list
    /\ st_timers s1 = (st_timers s ++ [process i])%list
    /\ grace_period_elapses E s1 = (Ok tt, s2)
    /\ st_trace s2 = (st_trace s1 ++ new)%list
    /\ ~ In (EvKill (process i) SIGKILL) new
    /\ nth_error (st_procs s2) (process i)
       = Some {| cp_pid := p0; cp_handle := negb (exits_on_SIGTERM E (process i));
                 killed := true; cp_signals := [SIGTERM] |}.
Proof.
  intros Hp.
  assert (Hk : exists s1,
    killChrome i s = (Ok tt, s1)
    /\ st_trace s1 = (st_trace s ++ [EvKill (process i) SIGTERM; EvSetTimeout 3000])%list
    /\ st_timers s1 = (st_timers s ++ [process i])%list
    /\ nth_error (st_procs s1) (process i)
       = Some {| cp_pid := p0; cp_handle := true; killed := true; cp_signals := [SIGTERM] |}).
  { cbv [killChrome proc_killed proc_kill bind gets emit modify ret].
    rewrite Hp. simpl. rewrite Hp. simpl. eexists. split; [reflexivity|]. simpl.
    rewrite <- app_assoc. splits; try reflexivity.
    now rewrite (nth_error_update_at_eq _ _ _ _ _ Hp). }
  destruct Hk as (s1 & Hk & Htr & Htm & Hp1).
  set (settled := with_timers [] (with_procs (settle_from E 0 (st_procs s1)) s1)).
  assert (Hps : nth_error (st_procs settled) (process i)
                = Some {| cp_pid := p0; cp_handle := negb (exits_on_SIGTERM E (process i));
                          killed := true; cp_signals := [SIGTERM] |}).
  { unfold settled; simpl. rewrite nth_error_settle_from, Hp1. simpl.
    unfold settle_proc; simpl. now destruct (exits_on_SIGTERM E (process i)). }
  assert (Hg : exists r s2, for_each (st_timers s1) force_kill settled = (r, s2)).
  { destruct (for_each (st_timers s1) force_kill settled) as [r s2]. eauto. }
  destruct Hg as (r & s2 & Hg).
  assert (Hsp : steps (spared (process i)) (for_each (st_timers s1) force_kill)).
  { apply steps_for_each;
      [apply spared_refl | apply spared_trans | intros; apply force_kill_spared]. }
  destruct (Hsp _ _ _ Hg _ Hps eq_refl) as (Hp2 & new & Hnew & Hno).
  assert (Htot : total (for_each (st_timers s1) force_kill)).
  { apply total_for_each. intros pid. unfold force_kill, proc_killed.
    total_walk. }
  destruct (Htot settled) as ([] & s2' & Hg'). rewrite Hg in Hg'.
  injection Hg' as -> <-.
  exists s1, s2, new. splits; auto.
Qed.

(** ** Shutdown *)

(** Outside calls between two states, all of one kind. *)
Definition emits (P : Event -> Prop) (s s' : St) : Prop :=
  exists new, st_trace s' = (st_trace s ++ new)%list /\ Forall P new.

Lemma emits_refl P s : emits P s s.
Proof. exists []. rewrite app_nil_r. auto. Qed.

Lemma emits_trans P a b c : emits P a b -> emits P b c -> emits P a c.
Proof.
  intros (n1 & H1 & F1) (n2 & H2 & F2). exists (n1 ++ n2)%list.
  rewrite H2, H1, <- app_assoc. split; [reflexivity | now apply Forall_app].
Qed.

Lemma emit_emits (P : Event -> Prop) e : P e -> steps (emits P) (emit e).
Proof.
  intros He s r s' H. end_state H. exists [e]. split; [reflexivity | auto].
Qed.

Lemma outside_emits E (P : Event -> Prop) e : P e -> steps (emits P) (outside E e).
Proof.
  intros He s r s' H. exists [e]. split; [|auto].
  cbv [outside bind now gets emit modify] in H.
  destruct (throws E (length (st_trace s))); end_state H; reflexivity.
Qed.

Ltac quiet_step :=
  intros; apply steps_modify; intros; eexists []; rewrite app_nil_r; split;
  [reflexivity | constructor].

(** What the loops of [cleanup] leave alone. *)
Definition shutdown_frame (s s' : St) : Prop :=
  connections s' = connections s
  /\ browserConnections s' = browserConnections s
  /\ workspaces s' = workspaces s
  /\ currentWorkspace s' = currentWorkspace s
  /\ st_procs s' = st_procs s
  /\ st_timers s' = st_timers s
  /\ cleaningUp s' = cleaningUp s.

Lemma shutdown_frame_refl s : shutdown_frame s s.
Proof. unfold shutdown_frame; splits; reflexivity. Qed.

Lemma shutdown_frame_trans a b c :
  shutdown_frame a b -> shutdown_frame b c -> shutdown_frame a c.
Proof.
  unfold shutdown_frame.
  intros (A1 & A2 & A3 & A4 & A5 & A6 & A7) (B1 & B2 & B3 & B4 & B5 & B6 & B7).
  splits; congruence.
Qed.

Ltac frame_step :=
  intros;
  first [ apply steps_modify; intros; unfold shutdown_frame; splits; reflexivity
        | unfold emit; apply steps_modify; intros; unfold shutdown_frame; splits;
          reflexivity ].

Ltac frame_walk :=
  step_through shutdown_frame_refl shutdown_frame_trans; try frame_step.

Lemma page_close_frame E p : steps shutdown_frame (page_close E p).
Proof. unfold page_close, outside, now. frame_walk. Qed.

Lemma browser_close_frame E b : steps shutdown_frame (browser_close E b).
Proof. unfold browser_close, outside, now. frame_walk. Qed.

Definition is_page_close_of (m : JSMap.t PageEntry) (e : Event) : Prop :=
  exists ne, In ne m /\ e = EvPageClose (page (snd ne)).

Definition is_termination (e : Event) : Prop :=
  match e with
  | EvKill _ SIGTERM | EvSetTimeout 3000 => True
  | _ => False
  end.

Lemma killChrome_emits i : steps (emits is_termination) (killChrome i).
Proof.
  unfold killChrome, proc_killed, proc_kill.
  step_through (emits_refl is_termination) (emits_trans is_termination);
    try (apply emit_emits; exact I); try quiet_step.
Qed.

(** [others] does nothing once the shutdown has begun. *)
Definition idle_when_cleaning (others : M unit) : Prop :=
  forall s, cleaningUp s = true -> exists r, others s = (r, s).

Lemma await_idle others A (c : M A) s :
  idle_when_cleaning others ->
  (forall r s', c s = (r, s') -> cleaningUp s' = true) ->
  await others c s = c s.
Proof.
  intros Hidle Hc. unfold await. destruct (c s) as [r s1] eqn:Hcs.
  destruct (Hidle s1 (Hc r s1 eq_refl)) as [r' ->]. reflexivity.
Qed.

Lemma ret_idle : idle_when_cleaning (ret tt).
Proof. intros s _. exists (Ok tt). reflexivity. Qed.

Lemma for_each_sockets socks s :
  for_each socks (fun sock => emit (EvSocketDestroy sock)) s
  = (Ok tt, after (map EvSocketDestroy socks) s).
Proof.
  revert s. induction socks as [|a l IH]; intros s; simpl.
  - now rewrite after_nil.
  - unfold bind. rewrite emit_run, IH, after_after. reflexivity.
Qed.

Lemma emits_weaken (P Q : Event -> Prop) s s' :
  (forall e, P e -> Q e) -> emits P s s' -> emits Q s s'.
Proof.
  intros HPQ (new & H & F). exists new. split; [assumption|].
  eapply Forall_impl; eauto.
Qed.

Lemma page_close_emits E p : steps (emits (eq (EvPageClose p))) (page_close E p).
Proof.
  unfold page_close.
  step_through (emits_refl (eq (EvPageClose p))) (emits_trans (eq (EvPageClose p)));
    try (apply emit_emits; reflexivity); try quiet_step.
Qed.

Section Shutdown.
Variable E : Env.
Variable others : M unit.
Hypothesis others_idle : idle_when_cleaning others.

(** The bodies of the two loops of [cleanup]. *)
Definition page_body (o : M unit) (ne : string * PageEntry) : M unit :=
  live <- gets (fun s => JSMap.has (fst ne) (pageRegistry s)) ;;
  if live
  then try_catch (await o (page_close E (page (snd ne)))) (fun _ => ret tt)
  else ret tt.

Definition browser_body (o : M unit) (b : nat) : M unit :=
  try_catch (await o (browser_close E b)) (fun _ => ret tt).

Lemma page_body_run ne s :
  cleaningUp s = true ->
  exists s',
    page_body others ne s = (Ok tt, s')
    /\ page_body (ret tt) ne s = (Ok tt, s')
    /\ shutdown_frame s s'
    /\ emits (eq (EvPageClose (page (snd ne)))) s s'.
Proof.
  intros Hflag. unfold page_body, bind, gets.
  destruct (JSMap.has (fst ne) (pageRegistry s)).
  - assert (Hkeep : forall r s', page_close E (page (snd ne)) s = (r, s') ->
                                 cleaningUp s' = true).
    { intros r s' H. apply page_close_frame in H.
      destruct H as (_ & _ & _ & _ & _ & _ & H). congruence. }
    unfold try_catch.
    rewrite (await_idle others _ _ s others_idle Hkeep).
    rewrite (await_idle (ret tt) _ _ s ret_idle Hkeep).
    destruct (page_close E (page (snd ne)) s) as [[[]|m] s1] eqn:Hc;
      exists s1; splits; try reflexivity;
      try (eapply page_close_frame; eassumption);
      try (eapply page_close_emits; eassumption).
  - exists s. splits; try reflexivity.
    + apply shutdown_frame_refl.
    + apply emits_refl.
Qed.

Lemma page_loop_run l :
  forall s,
    cleaningUp s = true ->
    exists s',
      for_each l (page_body others) s = (Ok tt, s')
      /\ for_each l (page_body (ret tt)) s = (Ok tt, s')
      /\ shutdown_frame s s'
      /\ emits (is_page_close_of l) s s'.
Proof.
  induction l as [|ne l IH]; intros s Hflag; simpl.
  - exists s. splits; try reflexivity;
      [apply shutdown_frame_refl | apply emits_refl].
  - destruct (page_body_run ne s Hflag) as (s1 & H1 & H1' & F1 & T1).
    assert (Hflag1 : cleaningUp s1 = true).
    { destruct F1 as (_ & _ & _ & _ & _ & _ & H). congruence. }
    destruct (IH s1 Hflag1) as (s2 & H2 & H2' & F2 & T2).
    exists s2. unfold bind. rewrite H1, H1'. splits; try assumption.
    + eapply shutdown_frame_trans; eassumption.
    + eapply emits_trans.
      * eapply emits_weaken; [|exact T1].
        intros e <-. exists ne. split; [now left | reflexivity].
      * eapply emits_weaken; [|exact T2].
        intros e (ne' & Hin & ->). exists ne'. split; [now right | reflexivity].
Qed.

Lemma browser_close_trace b s r s' :
  browser_close E b s = (r, s') ->
  st_trace s' = (st_trace s ++ [EvBrowserClose b])%list
  /\ pageRegistry s' = pageRegistry s.
Proof.
  cbv [browser_close outside bind now gets emit modify]. intros H.
  destruct (throws E (length (st_trace s))); end_state H; auto.
Qed.

Lemma browser_body_run b s :
  cleaningUp s = true ->
  exists s',
    browser_body others b s = (Ok tt, s')
    /\ browser_body (ret tt) b s = (Ok tt, s')
    /\ shutdown_frame s s'
    /\ st_trace s' = (st_trace s ++ [EvBrowserClose b])%list
    /\ pageRegistry s' = pageRegistry s.
Proof.
  intros Hflag. unfold browser_body.
  assert (Hkeep : forall r s', browser_close E b s = (r, s') ->
                               cleaningUp s' = true).
  { intros r s' H. apply browser_close_frame in H.
    destruct H as (_ & _ & _ & _ & _ & _ & H). congruence. }
  unfold try_catch.
  rewrite (await_idle others _ _ s others_idle Hkeep).
  rewrite (await_idle (ret tt) _ _ s ret_idle Hkeep).
  destruct (browser_close E b s) as [[[]|m] s1] eqn:Hc;
    destruct (browser_close_trace b s _ _ Hc) as [Ht Hr];
    exists s1; splits; try reflexivity; try assumption;
    eapply browser_close_frame; eassumption.
Qed.

Lemma browser_loop_run l :
  forall s,
    cleaningUp s = true ->
    exists s',
      for_each l (browser_body others) s = (Ok tt, s')
      /\ for_each l (browser_body (ret tt)) s = (Ok tt, s')
      /\ shutdown_frame s s'
      /\ st_trace s' = (st_trace s ++ map EvBrowserClose l)%list
      /\ pageRegistry s' = pageRegistry s.
Proof.
  induction l as [|b l IH]; intros s Hflag; simpl.
  - exists s. rewrite app_nil_r. splits; try reflexivity.
    apply shutdown_frame_refl.
  - destruct (browser_body_run b s Hflag) as (s1 & H1 & H1' & F1 & T1 & R1).
    assert (Hflag1 : cleaningUp s1 = true).
    { destruct F1 as (_ & _ & _ & _ & _ & _ & H). congruence. }
    destruct (IH s1 Hflag1) as (s2 & H2 & H2' & F2 & T2 & R2).
    exists s2. unfold bind. rewrite H1, H1'. splits; try assumption.
    + eapply shutdown_frame_trans; eassumption.
    + rewrite T2, T1, <- app_assoc. reflexivity.
    + congruence.
Qed.
End Shutdown.

Lemma stopAll_run s :
  exists s',
    stopAll s = (Ok tt, s')
    /\ emits is_termination s s'
    /\ cleaningUp s' = cleaningUp s
    /\ pageRegistry s' = pageRegistry s
    /\ browserConnections s' = browserConnections s
    /\ connections s' = connections s
    /\ workspaces s' = JSMap.empty
    /\ currentWorkspace s' = None.
Proof.
  unfold stopAll. unfold bind at 1, gets. unfold bind at 1.
  assert (Ht : total (for_each (JSMap.values (workspaces s)) killChrome)).
  { apply total_for_each. apply killChrome_total. }
  destruct (Ht s) as ([] & s1 & H1). rewrite H1.
  assert (He : steps (emits is_termination)
                 (for_each (JSMap.values (workspaces s)) killChrome)).
  { apply steps_for_each;
      [apply emits_refl | apply emits_trans | apply killChrome_emits]. }
  assert (Hw : steps world_only (for_each (JSMap.values (workspaces s)) killChrome)).
  { apply steps_for_each;
      [apply world_only_refl | apply world_only_trans | apply killChrome_world]. }
  destruct (Hw _ _ _ H1) as (_ & _ & _ & W4 & W5 & W6 & W7 & _).
  destruct (He _ _ _ H1) as (new & Hn & Fn).
  eexists. split; [reflexivity|]. simpl. splits; auto.
  exists new. auto.
Qed.

Lemma nondecreasing_const_app k l1 l2 :
  Forall (eq k) l1 ->
  match l2 with [] => True | b :: _ => k <= b end ->
  nondecreasing l2 = true ->
  nondecreasing (l1 ++ l2) = true.
Proof.
  intros H1 Hh H2. induction H1 as [|a l1 <- Hrest IH]; [assumption|].
  simpl. destruct (l1 ++ l2)%list as [|b r] eqn:Hl; [reflexivity|].
  rewrite IH, andb_true_r. apply Nat.leb_le.
  destruct l1 as [|a' l1']; simpl in Hl.
  - subst l2. assumption.
  - injection Hl as <- _. inversion Hrest as [|? ? Ha _]; subst. lia.
Qed.

Lemma Forall_phase (phase : Event -> nat) (P : Event -> Prop) k tr :
  (forall e, P e -> phase e = k) -> Forall P tr -> Forall (eq k) (map phase tr).
Proof.
  intros HP H. induction H as [|e tr He _ IH]; simpl; constructor; auto.
  symmetry. auto.
Qed.

Lemma head_ge k j l :
  k <= j -> Forall (eq j) l ->
  forall rest, match rest with [] => True | b :: _ => k <= b end ->
  match (l ++ rest)%list with [] => True | b :: _ => k <= b end.
Proof.
  intros Hkj H rest Hr. destruct H as [|a l <- _]; simpl; [assumption | lia].
Qed.

(** The steps of a shutdown are in the handler's order. *)
Lemma shutdown_in_order socks m pages browsers kills :
  Forall (is_page_close_of m) pages ->
  Forall is_termination kills ->
  in_order shutdown_phase
    (map EvSocketDestroy socks ++ pages ++ map EvBrowserClose browsers
       ++ kills ++ [EvServerClose]) = true.
Proof.
  intros Hp Hk. unfold in_order. rewrite !map_app.
  assert (F0 : Forall (eq 0) (map shutdown_phase (map EvSocketDestroy socks))).
  { rewrite map_map. induction socks; simpl; constructor; auto. }
  assert (F1 : Forall (eq 1) (map shutdown_phase pages)).
  { apply Forall_phase with (P := is_page_close_of m); [|assumption].
    intros e (ne & _ & ->). reflexivity. }
  assert (F2 : Forall (eq 2) (map shutdown_phase (map EvBrowserClose browsers))).
  { rewrite map_map. induction browsers; simpl; constructor; auto. }
  assert (F3 : Forall (eq 3) (map shutdown_phase kills)).
  { apply Forall_phase with (P := is_termination); [|assumption].
    intros e He. destruct e; simpl in He; try contradiction; reflexivity. }
  apply nondecreasing_const_app with (k := 0); [assumption | |].
  { apply head_ge with (j := 1); [lia | assumption|].
    apply head_ge with (j := 2); [lia | assumption|].
    apply head_ge with (j := 3); [lia | assumption|]. simpl. lia. }
  apply nondecreasing_const_app with (k := 1); [assumption | |].
  { apply head_ge with (j := 2); [lia | assumption|].
    apply head_ge with (j := 3); [lia | assumption|]. simpl. lia. }
  apply nondecreasing_const_app with (k := 2); [assumption | |].
  { apply head_ge with (j := 3); [lia | assumption|]. simpl. lia. }
  apply nondecreasing_const_app with (k := 3); [assumption | simpl; lia | reflexivity].
Qed.

Lemma cleanup_with_busy E others s :
  cleaningUp s = true -> cleanup_with E others s = (Ok tt, s).
Proof.
  intros H. unfold cleanup_with, bind, gets. now rewrite H.
Qed.

Lemma cleanup_with_run E others s :
  idle_when_cleaning others ->
  cleaningUp s = false ->
  exists s' pages kills,
    cleanup_with E others s = (Ok tt, s')
    /\ cleanup_with E (ret tt) s = (Ok tt, s')
    /\ cleaningUp s' = true
    /\ st_trace s'
       = (st_trace s ++ map EvSocketDestroy (connections s) ++ pages
            ++ map EvBrowserClose (JSMap.values (browserConnections s))
            ++ kills ++ [EvServerClose])%list
    /\ Forall (is_page_close_of (pageRegistry s)) pages
    /\ Forall is_termination kills
    /\ connections s' = []
    /\ pageRegistry s' = JSMap.empty
    /\ browserConnections s' = JSMap.empty
    /\ workspaces s' = JSMap.empty.
Proof.
  intros Hidle Hflag.
  set (s1 := with_connections []
               (after (map EvSocketDestroy (connections s)) (with_cleaningUp true s))).
  destruct (page_loop_run E others Hidle (pageRegistry s) s1 eq_refl)
    as (s2 & P1 & P1' & PF & (pages & PT & PP)).
  destruct PF as (F1 & F2 & F3 & F4 & F5 & F6 & F7).
  set (s2' := with_pageRegistry JSMap.empty s2).
  destruct (browser_loop_run E others Hidle
              (JSMap.values (browserConnections s)) s2')
    as (s3 & B1 & B1' & BF & BT & BR).
  { unfold s2'; simpl. rewrite F7. reflexivity. }
  destruct BF as (G1 & G2 & G3 & G4 & G5 & G6 & G7).
  set (s3' := with_browserConnections JSMap.empty s3).
  destruct (stopAll_run s3') as (s4 & S1 & (kills & ST & SK) & S2 & S3 & S4 & S5 & S6 & S7).
  exists (after [EvServerClose] s4), pages, kills.
  assert (Hrun : forall o,
    for_each (pageRegistry s) (page_body E o) s1 = (Ok tt, s2) ->
    for_each (JSMap.values (browserConnections s)) (browser_body E o) s2' = (Ok tt, s3) ->
    cleanup_with E o s = (Ok tt, after [EvServerClose] s4)).
  { intros o Hp Hb. unfold cleanup_with.
    unfold bind at 1, gets. rewrite Hflag.
    unfold bind at 1, modify. unfold bind at 1, gets.
    unfold bind at 1. simpl connections. rewrite for_each_sockets.
    unfold bind at 1. unfold bind at 1. unfold JSMap.entries.
    unfold bind at 1.
    change (pageRegistry
              (with_connections []
                 (after (map EvSocketDestroy (connections s))
                    (with_cleaningUp true s)))) with (pageRegistry s).
    fold s1.
    match goal with
    | |- context [for_each (pageRegistry s) ?f s1] =>
        change (for_each (pageRegistry s) f s1)
          with (for_each (pageRegistry s) (page_body E o) s1)
    end.
    rewrite Hp.
    unfold bind at 1. unfold bind at 1. unfold bind at 1.
    change (with_pageRegistry JSMap.empty s2) with s2'.
    assert (Hbc : browserConnections s2' = browserConnections s).
    { unfold s2'; simpl. rewrite F2. reflexivity. }
    rewrite Hbc.
    match goal with
    | |- context [for_each (JSMap.values (browserConnections s)) ?f s2'] =>
        change (for_each (JSMap.values (browserConnections s)) f s2')
          with (for_each (JSMap.values (browserConnections s)) (browser_body E o) s2')
    end.
    rewrite Hb.
    unfold bind at 1. unfold bind at 1.
    change (with_browserConnections JSMap.empty s3) with s3'.
    rewrite S1. reflexivity. }
  splits.
  - apply Hrun; assumption.
  - apply Hrun; assumption.
  - simpl. rewrite S2. unfold s3'; simpl. rewrite G7. unfold s2'; simpl.
    rewrite F7. reflexivity.
  - simpl. rewrite ST. unfold s3'; simpl. rewrite BT. unfold s2'; simpl.
    rewrite PT. unfold s1; simpl. rewrite <- !app_assoc. reflexivity.
  - assumption.
  - assumption.
  - simpl. rewrite S5. unfold s3'; simpl. rewrite G1. unfold s2'; simpl.
    rewrite F1. reflexivity.
  - simpl. rewrite S3. unfold s3'; simpl. rewrite BR. reflexivity.
  - simpl. rewrite S4. reflexivity.
  - simpl. assumption.
Qed.

(** ** The names of the registry *)

Section Names.
Variable E : Env.
Variable cfg : WorkspacesConfig.

(** Between two states: the names of the registry stay pairwise distinct,
    as the keys of a map are. *)
Definition names_kept (s s' : St) : Prop :=
  NoDup (JSMap.keys (pageRegistry s)) -> NoDup (JSMap.keys (pageRegistry s')).

Lemma names_kept_refl s : names_kept s s.
Proof. intros H. exact H. Qed.

Lemma names_kept_trans a b c : names_kept a b -> names_kept b c -> names_kept a c.
Proof. intros Hab Hbc Ha. auto. Qed.

Ltac names_step :=
  intros; unfold emit; apply steps_modify; unfold names_kept; intros;
  cbn [pageRegistry with_trace with_procs with_timers with_browsers
       with_cachedVirtualDisplay with_workspaces with_currentWorkspace
       with_pageRegistry with_browserConnections with_connections
       with_cleaningUp with_registry];
  first [ assumption
        | apply JSMapFacts.NoDup_set; assumption
        | apply JSMapFacts.NoDup_delete; assumption
        | constructor ].

Ltac names_walk :=
  step_through names_kept_refl names_kept_trans; try names_step.

Lemma launchChrome_names o : steps names_kept (launchChrome E o).
Proof.
  intros s r s' H Hnd.
  destruct (launchChrome_frame E o s r s' H) as (_ & _ & Hreg & _).
  now rewrite Hreg.
Qed.

Lemma switchWorkspace_names n : steps names_kept (switchWorkspace E cfg n).
Proof.
  unfold switchWorkspace.
  step_through_with ltac:(apply launchChrome_names)
    names_kept_refl names_kept_trans; try names_step.
Qed.

Lemma getCurrentBrowser_names : steps names_kept (getCurrentBrowser E cfg).
Proof.
  unfold getCurrentBrowser, connect_if_needed.
  step_through_with ltac:(apply switchWorkspace_names)
    names_kept_refl names_kept_trans; try names_step.
Qed.

Lemma post_pages_names name viewport :
  steps names_kept (post_pages E cfg name viewport).
Proof.
  unfold post_pages, create_entry.
  step_through_with ltac:(apply getCurrentBrowser_names)
    names_kept_refl names_kept_trans; try names_step.
Qed.

Lemma delete_pages_names name : steps names_kept (delete_pages E name).
Proof. unfold delete_pages. names_walk. Qed.

Lemma post_workspace_stop_names w : steps names_kept (post_workspace_stop E w).
Proof. unfold post_workspace_stop. names_walk. Qed.

Lemma post_workspace_switch_names w :
  steps names_kept (post_workspace_switch E cfg w).
Proof.
  unfold post_workspace_switch, connect_if_needed.
  step_through_with ltac:(apply switchWorkspace_names)
    names_kept_refl names_kept_trans; try names_step.
Qed.

(** The registry of a server that has only served page requests has
    pairwise distinct names. *)
Lemma served_names_distinct reqs r s :
  serve_page_requests E cfg reqs initial = (r, s) ->
  NoDup (JSMap.keys (pageRegistry s)).
Proof.
  intros H.
  assert (Hsteps : steps names_kept (serve_page_requests E cfg reqs)).
  { unfold serve_page_requests.
    step_through_with
      ltac:(idtac;
            match goal with
            | |- steps _ (serve_page_request _ _ ?q) =>
                destruct q; simpl;
                first [ apply post_pages_names | apply delete_pages_names | idtac ]
            end)
      names_kept_refl names_kept_trans. }
  apply (Hsteps _ _ _ H). constructor.
Qed.
End Names.

(** ** The owner of new pages *)

Section Owner.
Variable E : Env.
Variable cfg : WorkspacesConfig.
Variable n : string.
Hypothesis n_truthy : truthy n = true.

(** Between two states: while [n] is the current workspace it stays so, and
    every registry entry is an old one or is owned by [n]. *)
Definition owner_kept (s s' : St) : Prop :=
  currentWorkspace s = Some n ->
  currentWorkspace s' = Some n
  /\ forall name e,
       JSMap.get name (pageRegistry s') = Some e ->
       JSMap.get name (pageRegistry s) = Some e \/ workspace e = Some n.

Lemma owner_kept_refl s : owner_kept s s.
Proof. intros H. auto. Qed.

Lemma owner_kept_trans a b c : owner_kept a b -> owner_kept b c -> owner_kept a c.
Proof.
  intros Hab Hbc Ha. destruct (Hab Ha) as [Hb Eb].
  destruct (Hbc Hb) as [Hc Ec]. split; [assumption|].
  intros name e He. destruct (Ec name e He) as [H|H]; auto.
Qed.

Ltac owner_step :=
  intros; apply steps_modify; intros s0 Hcur; split;
  [ exact Hcur
  | intros name0 e0 Hget; left;
    first [ exact Hget | eapply JSMapFacts.get_delete_Some; exact Hget ] ].

Lemma getCurrentBrowser_owner : steps owner_kept (getCurrentBrowser E cfg).
Proof.
  intros s r s' H Hcur.
  unfold getCurrentBrowser in H. unfold bind at 1, getCurrentWorkspace, gets in H.
  rewrite Hcur, n_truthy in H. unfold bind, gets in H.
  destruct (JSMap.get n (browserConnections s)); end_state H; auto.
Qed.

(** The end of [create_entry]: the entry is recorded with the current
    workspace as its owner. *)
Lemma record_entry_owner name p target :
  steps owner_kept
    (currentWorkspace_ <- getCurrentWorkspace ;;
     (let entry := {| page := p; targetId := target;
                      workspace := currentWorkspace_ |} in
      modify (fun s => with_pageRegistry
                         (JSMap.set name entry (pageRegistry s)) s) ;;;
      on_close p name ;;;
      ret (inl entry : PageEntry + Response))).
Proof.
  intros s r s' H Hcur.
  cbv [bind getCurrentWorkspace gets modify on_close ret] in H.
  end_state H. simpl. split; [assumption|].
  intros name' e He.
  destruct (String.eqb_spec name name') as [->|Hne].
  - rewrite JSMapFacts.get_set_eq in He. injection He as <-. now right.
  - rewrite JSMapFacts.get_set_ne in He by assumption. now left.
Qed.

Ltac owner_walk :=
  step_through_with
    ltac:(first [ apply getCurrentBrowser_owner | apply record_entry_owner ])
    owner_kept_refl owner_kept_trans;
  try owner_step.

Lemma create_entry_owner name viewport :
  steps owner_kept (create_entry E cfg name viewport).
Proof. unfold create_entry. owner_walk. Qed.

Lemma post_pages_owner name viewport :
  steps owner_kept (post_pages E cfg name viewport).
Proof.
  unfold post_pages. destruct name as [name|]; [|owner_walk].
  destruct (negb (truthy name)); [owner_walk|].
  step_through_with ltac:(apply create_entry_owner) owner_kept_refl owner_kept_trans.
Qed.

Lemma delete_pages_owner name : steps owner_kept (delete_pages E name).
Proof. unfold delete_pages. owner_walk. Qed.

Lemma serve_page_requests_owner reqs :
  steps owner_kept (serve_page_requests E cfg reqs).
Proof.
  unfold serve_page_requests.
  step_through_with
    ltac:(idtac;
          match goal with
          | |- steps _ (serve_page_request _ _ ?r) =>
              destruct r; simpl;
              first [ apply post_pages_owner | apply delete_pages_owner | idtac ]
          end)
    owner_kept_refl owner_kept_trans.
Qed.
End Owner.

(** C10: a switch to a configured workspace that already has a tracked
    instance sets the current-workspace pointer to it without any launch;
    and, the name not being empty, however many page requests follow, the
    pointer stays and every registry entry they add has that workspace as
    its owner. *)
Theorem switch_to_running_sets_owner E cfg n c i s :
  JSMap.get n (cfg_workspaces cfg) = Some c ->
  JSMap.get n (workspaces s) = Some i ->
  exists s1,
    switchWorkspace E cfg n s = (Ok i, s1)
    /\ currentWorkspace s1 = Some n
    /\ st_trace s1 = st_trace s
    /\ st_procs s1 = st_procs s
    /\ pageRegistry s1 = pageRegistry s
    /\ (truthy n = true ->
        forall reqs r s2,
          serve_page_requests E cfg reqs s1 = (r, s2) ->
          currentWorkspace s2 = Some n
          /\ forall name e,
               JSMap.get name (pageRegistry s2) = Some e ->
               JSMap.get name (pageRegistry s1) = Some e \/ workspace e = Some n).
Proof.
  intros Hc Hi. exists (with_currentWorkspace (Some n) s).
  splits; try reflexivity.
  - now apply switchWorkspace_tracked with (c := c).
  - intros Hn reqs r s2 H.
    exact (serve_page_requests_owner E cfg n Hn reqs _ _ _ H eq_refl).
Qed.

(** ** Creating a page *)

(** Outside calls that are not part of a reconciliation against live pages
    nor of the making of a marked context. *)
Definition no_reconcile (e : Event) : Prop :=
  match e with
  | EvEvaluate _ | EvNewContext _ | EvAddInitScript _ _ _ => False
  | _ => True
  end.

Ltac quiet_walk_with special :=
  step_through_with special (emits_refl no_reconcile) (emits_trans no_reconcile);
  try (apply emit_emits; exact I); try quiet_step.

Lemma switchWorkspace_Ok_frame E cfg n s i s' :
  switchWorkspace E cfg n s = (Ok i, s') ->
  currentWorkspace s' = Some n
  /\ st_browsers s' = st_browsers s
  /\ browserConnections s' = browserConnections s
  /\ pageRegistry s' = pageRegistry s.
Proof.
  intros H. destruct (JSMap.get n (cfg_workspaces cfg)) as [c|] eqn:Hc.
  2:{ unfold switchWorkspace in H. rewrite Hc in H. discriminate. }
  destruct (JSMap.get n (workspaces s)) as [i0|] eqn:Hi.
  - rewrite (switchWorkspace_tracked E cfg n c i0 s Hc Hi) in H.
    end_state H. auto.
  - destruct (switchWorkspace_untracked E cfg n c s _ _ Hc Hi H) as (r0 & s0 & Hl & Hr).
    apply launchChrome_frame in Hl.
    destruct Hl as (_ & _ & L3 & L4 & L5 & _).
    destruct r0 as [i1|m]; destruct Hr as [Hr ->]; [|discriminate].
    simpl. auto.
Qed.

Section Create.
Variable E : Env.
Variable cfg : WorkspacesConfig.

Lemma waitForCDP_from_quiet port_ delayMs maxRetries left :
  forall lastError,
    steps (emits no_reconcile)
      (waitForCDP_from E port_ delayMs maxRetries left lastError).
Proof.
  induction left as [|left IH]; intros lastError; simpl.
  - quiet_walk_with fail.
  - unfold cdp_attempt, sleep. quiet_walk_with ltac:(apply IH).
Qed.

Lemma launchChrome_quiet o : steps (emits no_reconcile) (launchChrome E o).
Proof.
  unfold launchChrome, ensureVirtualDisplay, getVirtualDisplayPosition,
    buildChromeArgs, mkdirSync, spawn, waitForCDP, execAsync, sleep.
  quiet_walk_with ltac:(apply waitForCDP_from_quiet).
Qed.

Lemma getCurrentBrowser_quiet : steps (emits no_reconcile) (getCurrentBrowser E cfg).
Proof.
  unfold getCurrentBrowser, switchWorkspace, connect_if_needed.
  quiet_walk_with ltac:(apply launchChrome_quiet).
Qed.

Lemma create_entry_quiet name viewport :
  steps (emits no_reconcile) (create_entry E cfg name viewport).
Proof.
  unfold create_entry. quiet_walk_with ltac:(apply getCurrentBrowser_quiet).
Qed.

Lemma post_pages_quiet name viewport :
  steps (emits no_reconcile) (post_pages E cfg name viewport).
Proof.
  unfold post_pages. quiet_walk_with ltac:(apply create_entry_quiet).
Qed.

(** A connection made while a request is served adds a browser object and
    changes none. *)
Definition store_grows (s s' : St) : Prop :=
  exists more, st_browsers s' = (st_browsers s ++ more)%list.

Lemma store_grows_refl s : store_grows s s.
Proof. exists []. now rewrite app_nil_r. Qed.

Lemma store_grows_trans a b c : store_grows a b -> store_grows b c -> store_grows a c.
Proof.
  intros [m1 H1] [m2 H2]. exists (m1 ++ m2)%list. now rewrite H2, H1, app_assoc.
Qed.

Lemma connect_if_needed_run name i s r s' :
  connect_if_needed E name i s = (r, s') ->
  store_grows s s'
  /\ currentWorkspace s' = currentWorkspace s
  /\ pageRegistry s' = pageRegistry s.
Proof.
  cbv [connect_if_needed connectOverCDP open_browser outside bind now gets emit
       modify ret throw].
  intros H.
  assert (Hfin : forall s0 : St,
            st_browsers s0 = st_browsers s \/
            (exists x, st_browsers s0 = (st_browsers s ++ [x])%list) ->
            store_grows s s0).
  { intros s0 [H0|[x H0]]; [exists [] | exists [x]]; rewrite H0;
      [now rewrite app_nil_r | reflexivity]. }
  destruct (wsEndpoint i) as [endpoint|].
  - destruct (negb (JSMap.has name (browserConnections s)) && truthy endpoint).
    + destruct (throws E (length (st_trace s))); end_state H; simpl;
        splits; try reflexivity; apply Hfin; simpl; eauto.
    + end_state H. splits; try reflexivity. apply store_grows_refl.
  - end_state H. splits; try reflexivity. apply store_grows_refl.
Qed.

(** The browser [getCurrentBrowser] gives is the connection of the workspace
    that is current when it returns. *)
Lemma getCurrentBrowser_Some s b s1 :
  getCurrentBrowser E cfg s = (Ok (Some b), s1) ->
  store_grows s s1
  /\ pageRegistry s1 = pageRegistry s
  /\ exists w, currentWorkspace s1 = Some w
               /\ JSMap.get w (browserConnections s1) = Some b.
Proof.
  intros H. unfold getCurrentBrowser in H.
  unfold bind at 1, getCurrentWorkspace, gets in H.
  assert (Hdefault :
    (instance <- switchWorkspace E cfg (defaultWorkspace cfg) ;;
     connect_if_needed E (defaultWorkspace cfg) instance ;;;
     (fun s0 => (Ok (JSMap.get (defaultWorkspace cfg) (browserConnections s0)), s0))) s
    = (Ok (Some b), s1) ->
    store_grows s s1
    /\ pageRegistry s1 = pageRegistry s
    /\ exists w, currentWorkspace s1 = Some w
                 /\ JSMap.get w (browserConnections s1) = Some b).
  { clear H. intros H.
    destruct (bind_inv _ _ _ _ _ _ _ H) as [(i & sa & Hsw & H2)|(m & _ & [=])].
    destruct (bind_inv _ _ _ _ _ _ _ H2) as [([] & sb & Hcn & H3)|(m & _ & [=])].
    injection H3 as Hb <-.
    destruct (switchWorkspace_Ok_frame E cfg _ _ _ _ Hsw) as (A1 & A2 & A3 & A4).
    destruct (connect_if_needed_run _ _ _ _ _ Hcn) as ([more Hm] & B2 & B3).
    splits.
    - exists more. now rewrite Hm, A2.
    - congruence.
    - exists (defaultWorkspace cfg). split; [congruence | assumption]. }
  destruct (currentWorkspace s) as [c|] eqn:Hcur; [|now apply Hdefault].
  destruct (truthy c); [|now apply Hdefault].
  unfold bind, gets in H.
  destruct (JSMap.get c (browserConnections s)) as [b0|] eqn:Hb; [|discriminate].
  injection H as <- <-. splits; [apply store_grows_refl | reflexivity|].
  exists c. auto.
Qed.

Lemma newPage_run b c s r s' :
  newPage E b c s = (r, s') ->
  st_trace s' = (st_trace s ++ [EvNewPage b c])%list
  /\ world_only s s'
  /\ forall p, r = Ok p ->
       exists x, nth_error (contexts_of b s) c = Some x
                 /\ p = {| pr_browser := b; pr_context := c;
                           pr_page := length (cx_pages x) |}.
Proof.
  cbv [newPage outside bind now gets emit modify ret throw]. intros H.
  destruct (throws E (length (st_trace s))).
  - end_run H. simpl. splits; auto;
      [unfold world_only; splits; reflexivity | intros p [=]].
  - change (contexts_of b (with_trace (st_trace s ++ [EvNewPage b c]) s))
      with (contexts_of b s) in H.
    destruct (nth_error (contexts_of b s) c) as [x|] eqn:Hx.
    + end_run H. simpl. splits; auto.
      * unfold world_only; splits; reflexivity.
      * intros p [= <-]. exists x. split; reflexivity.
    + end_run H. simpl. splits; auto;
        [unfold world_only; splits; reflexivity | intros p [=]].
Qed.

End Create.

Lemma contexts_of_update_browser b f s br :
  nth_error (st_browsers s) b = Some br ->
  contexts_of b (update_browser b f s) = br_contexts (f br).
Proof.
  intros H. unfold contexts_of, update_browser; simpl.
  now rewrite (nth_error_update_at_eq _ f _ _ _ H).
Qed.

Lemma nth_error_snoc A (l : list A) a : nth_error (l ++ [a]) (length l) = Some a.
Proof. rewrite nth_error_app2 by lia. now rewrite Nat.sub_diag. Qed.

Lemma lookup_update_page p f s q :
  lookup_page p s = Some q -> lookup_page p (update_page p f s) = Some (f q).
Proof.
  unfold lookup_page, pages_of, contexts_of, update_page, update_context,
    update_browser. simpl.
  destruct (nth_error (st_browsers s) (pr_browser p)) as [br|] eqn:Hb.
  - rewrite (nth_error_update_at_eq _ _ _ _ _ Hb). simpl.
    destruct (nth_error (br_contexts br) (pr_context p)) as [cx|] eqn:Hc.
    + rewrite (nth_error_update_at_eq _ _ _ _ _ Hc). simpl.
      intros H. now rewrite (nth_error_update_at_eq _ _ _ _ _ H).
    + destruct (pr_page p); discriminate.
  - simpl. destruct (pr_context p); simpl; destruct (pr_page p); discriminate.
Qed.

(** A page just made is there, open, with no listener, and with the target
    id the browser gave it. *)
Lemma newPage_fresh E b c s p s' :
  newPage E b c s = (Ok p, s') ->
  exists pg, lookup_page p s' = Some pg
             /\ pg_on_close pg = [] /\ pg_closed pg = false
             /\ pg_targetId pg = new_target E (length (st_trace s)).
Proof.
  cbv [newPage outside bind now gets emit modify ret throw].
  destruct (throws E (length (st_trace s))); [discriminate|].
  change (contexts_of b (with_trace (st_trace s ++ [EvNewPage b c]) s))
    with (contexts_of b s).
  destruct (nth_error (contexts_of b s) c) as [x|] eqn:Hx; [|discriminate].
  intros H. end_run H. injection Hr as <-.
  unfold contexts_of in Hx.
  destruct (nth_error (st_browsers s) b) as [br|] eqn:Hb;
    [|destruct c; discriminate].
  eexists. split.
  - unfold lookup_page, pages_of. cbn [pr_browser pr_context pr_page].
    unfold update_context.
    erewrite contexts_of_update_browser by (simpl; exact Hb).
    simpl. rewrite (nth_error_update_at_eq _ _ _ _ _ Hx). simpl.
    apply nth_error_snoc.
  - splits; reflexivity.
Qed.

(** Between two states: the page is still there, open or closed as it was,
    with the listeners and the target id it had. *)
Definition page_kept (p : PageRef) (s s' : St) : Prop :=
  forall q,
    lookup_page p s = Some q ->
    exists q', lookup_page p s' = Some q'
               /\ pg_on_close q' = pg_on_close q
               /\ pg_closed q' = pg_closed q
               /\ pg_targetId q' = pg_targetId q.

Lemma page_kept_refl p s : page_kept p s s.
Proof. intros q Hq. eauto. Qed.

Lemma page_kept_trans p a b c :
  page_kept p a b -> page_kept p b c -> page_kept p a c.
Proof.
  intros Hab Hbc q Hq. destruct (Hab q Hq) as (q1 & H1 & A1 & A2 & A3).
  destruct (Hbc q1 H1) as (q2 & H2 & B1 & B2 & B3). exists q2. splits; congruence.
Qed.

Ltac kept_step :=
  intros; unfold emit; apply steps_modify; intros s0 q0 Hq0;
  first [ exists q0; splits; [exact Hq0 | reflexivity..]
        | eexists; splits;
          [apply lookup_update_page; exact Hq0 | reflexivity..] ].

Ltac kept_walk p :=
  step_through (page_kept_refl p) (page_kept_trans p); try kept_step.

Lemma getTargetInfo_Ok E p s t s' :
  getTargetInfo E p s = (Ok t, s') ->
  exists q, lookup_page p s = Some q /\ pg_targetId q = t.
Proof.
  cbv [getTargetInfo outside bind now gets emit modify ret throw].
  destruct (throws E (length (st_trace s))); [discriminate|].
  change (lookup_page p (with_trace (st_trace s ++ [EvGetTargetInfo p]) s))
    with (lookup_page p s).
  destruct (lookup_page p s) as [q|]; [|discriminate].
  intros [= <- _]. eauto.
Qed.

Section CreateEntry.
Variable E : Env.
Variable cfg : WorkspacesConfig.

Lemma outside_world e : steps world_only (outside E e).
Proof. unfold outside, now. world_walk. Qed.

Lemma viewport_world viewport p :
  steps world_only
    (match viewport with
     | Some v => setViewportSize E p v
     | None => ret tt
     end).
Proof. unfold setViewportSize, outside, now. world_walk. Qed.

Lemma getTargetInfo_world p : steps world_only (getTargetInfo E p).
Proof. unfold getTargetInfo, outside, now. world_walk. Qed.

Lemma viewport_quiet viewport p :
  steps (emits no_reconcile)
    (match viewport with
     | Some v => setViewportSize E p v
     | None => ret tt
     end).
Proof. unfold setViewportSize, outside, now. quiet_walk_with fail. Qed.

Lemma getTargetInfo_quiet p : steps (emits no_reconcile) (getTargetInfo E p).
Proof. unfold getTargetInfo, outside, now. quiet_walk_with fail. Qed.

Lemma outside_quiet e : no_reconcile e -> steps (emits no_reconcile) (outside E e).
Proof. apply outside_emits. Qed.

Lemma viewport_kept viewport p :
  steps (page_kept p)
    (match viewport with
     | Some v => setViewportSize E p v
     | None => ret tt
     end).
Proof. unfold setViewportSize, outside, now. kept_walk p. Qed.

Lemma outside_kept e p : steps (page_kept p) (outside E e).
Proof. unfold outside, now. kept_walk p. Qed.

Lemma getTargetInfo_kept p : steps (page_kept p) (getTargetInfo E p).
Proof. unfold getTargetInfo, outside, now. kept_walk p. Qed.

(** A page index past the pages a context had is a page that was not there. *)
Lemma fresh_page b x s s1 :
  store_grows s s1 ->
  nth_error (contexts_of b s1) 0 = Some x ->
  lookup_page {| pr_browser := b; pr_context := 0;
                 pr_page := length (cx_pages x) |} s = None.
Proof.
  intros [more Hm] Hx. unfold lookup_page, pages_of.
  cbn [pr_browser pr_context pr_page].
  unfold contexts_of in *. rewrite Hm in Hx.
  destruct (nth_error (st_browsers s) b) as [br|] eqn:Hb.
  - rewrite nth_error_app1 in Hx by (apply nth_error_Some; congruence).
    rewrite Hb in Hx. rewrite Hx. apply nth_error_None. lia.
  - simpl. now destruct (length (cx_pages x)).
Qed.

(** What [create_entry] has done when it gives an entry: the name is
    recorded with the entry, whose owner is the current workspace; the page of
    the entry is in the first context of the connection of that workspace,
    was not there before, is there and open afterwards, and the target id of
    the entry is the one of that page; and the page was made by one
    [newPage] on that context. *)
Definition created (name : string) (entry : PageEntry) (s s' : St) : Prop :=
  exists b w,
    pageRegistry s' = JSMap.set name entry (pageRegistry s)
    /\ currentWorkspace s' = Some w
    /\ workspace entry = Some w
    /\ JSMap.get w (browserConnections s') = Some b
    /\ pr_browser (page entry) = b
    /\ pr_context (page entry) = 0
    /\ lookup_page (page entry) s = None
    /\ (exists pg, lookup_page (page entry) s' = Some pg
                   /\ pg_closed pg = false
                   /\ pg_targetId pg = targetId entry)
    /\ exists pre post,
        st_trace s' = (st_trace s ++ pre ++ EvNewPage b 0 :: post)%list.

Lemma create_entry_inv name viewport s r s' :
  create_entry E cfg name viewport s = (r, s') ->
  match r with
  | Ok (inl entry) => created name entry s s'
  | Ok (inr response) => status response = 500%Z
  | Throw _ => True
  end.
Proof.
  intros H. unfold create_entry in H.
  destruct (bind_inv _ _ _ _ _ _ _ H) as [(browser & s1 & Hgb & H1)|(m & _ & ->)];
    [|exact I].
  destruct browser as [b|]; [|end_run H1; exact I].
  destruct (bind_inv _ _ _ _ _ _ _ H1) as [(ctxs & s1' & Hc & H2)|(m & _ & ->)];
    [|exact I].
  injection Hc as <- <-.
  destruct (contexts_of b s1) as [|x0 rest] eqn:Hctx; [end_run H2; reflexivity|].
  destruct (bind_inv _ _ _ _ _ _ _ H2) as [(p & s2 & Hnp & H3)|(m & _ & ->)];
    [|exact I].
  destruct (bind_inv _ _ _ _ _ _ _ H3) as [([] & s3 & Hvp & H4)|(m & _ & ->)];
    [|exact I].
  destruct (bind_inv _ _ _ _ _ _ _ H4) as [([] & s4 & Hses & H5)|(m & _ & ->)];
    [|exact I].
  destruct (bind_inv _ _ _ _ _ _ _ H5) as [(target & s5 & Hti & H6)|(m & _ & ->)];
    [|exact I].
  destruct (bind_inv _ _ _ _ _ _ _ H6) as [([] & s6 & Hdt & H7)|(m & _ & ->)];
    [|exact I].
  cbv [bind getCurrentWorkspace gets modify on_close ret] in H7. end_run H7.
  destruct (getCurrentBrowser_Some E cfg _ _ _ Hgb) as (Hgrow & Hreg1 & w & Hw & Hconn).
  destruct (newPage_run E _ _ _ _ _ Hnp) as (Htr2 & W2 & Hp).
  destruct (Hp p eq_refl) as (x & Hx & ->).
  pose proof (viewport_world _ _ _ _ _ Hvp) as W3.
  pose proof (outside_world _ _ _ _ Hses) as W4.
  pose proof (getTargetInfo_world _ _ _ _ Hti) as W5.
  pose proof (outside_world _ _ _ _ Hdt) as W6.
  pose proof (world_only_trans _ _ _ W2
                (world_only_trans _ _ _ W3
                   (world_only_trans _ _ _ W4 (world_only_trans _ _ _ W5 W6))))
    as (_ & _ & V3 & V4 & V5 & _).
  destruct (getCurrentBrowser_quiet E cfg _ _ _ Hgb) as (pre & Hpre & _).
  destruct (viewport_quiet _ _ _ _ _ Hvp) as (n3 & Hn3 & _).
  destruct (outside_quiet (EvNewCDPSession _) I _ _ _ Hses) as (n4 & Hn4 & _).
  destruct (getTargetInfo_quiet _ _ _ _ Hti) as (n5 & Hn5 & _).
  destruct (outside_quiet (EvDetach _) I _ _ _ Hdt) as (n6 & Hn6 & _).
  assert (Hpage : exists pg,
            lookup_page {| pr_browser := b; pr_context := 0;
                           pr_page := length (cx_pages x) |} s6 = Some pg
            /\ pg_closed pg = false /\ pg_targetId pg = target).
  { destruct (newPage_fresh E _ _ _ _ _ Hnp) as (q2 & Hq2 & _ & C2 & _).
    destruct (viewport_kept _ _ _ _ _ Hvp q2 Hq2) as (q3 & Hq3 & _ & C3 & _).
    destruct (outside_kept _ _ _ _ _ Hses q3 Hq3) as (q4 & Hq4 & _ & C4 & _).
    destruct (getTargetInfo_Ok E _ _ _ _ Hti) as (q4' & Hq4' & Ht4).
    rewrite Hq4 in Hq4'. injection Hq4' as <-.
    destruct (getTargetInfo_kept _ _ _ _ Hti q4 Hq4) as (q5 & Hq5 & _ & C5 & T5).
    destruct (outside_kept _ _ _ _ _ Hdt q5 Hq5) as (q6 & Hq6 & _ & C6 & T6).
    exists q6. splits; congruence. }
  destruct Hpage as (pg & Hpg & Hopen & Htarget).
  exists b, w. simpl. splits.
  - rewrite V4, Hreg1. reflexivity.
  - congruence.
  - congruence.
  - congruence.
  - reflexivity.
  - reflexivity.
  - eapply fresh_page; eassumption.
  - eexists. split; [|split].
    + apply lookup_update_page. exact Hpg.
    + exact Hopen.
    + exact Htarget.
  - exists pre, (n3 ++ n4 ++ n5 ++ n6)%list.
    rewrite Hn6, Hn5, Hn4, Hn3, Htr2, Hpre. rewrite <- !app_assoc. reflexivity.
Qed.
End CreateEntry.


(** ** The direct client *)

Lemma update_at_snoc A (f : A -> A) (l : list A) a :
  update_at (length l) f (l ++ [a]) = (l ++ [f a])%list.
Proof. induction l as [|b l IH]; simpl; [reflexivity | now rewrite IH]. Qed.

Lemma update_at_twice A (f g : A -> A) (l : list A) i :
  update_at i g (update_at i f l) = update_at i (fun a => g (f a)) l.
Proof.
  revert i. induction l as [|a l IH]; intros [|i]; simpl; try reflexivity.
  now rewrite IH.
Qed.

Lemma bind_Ok A B (c : M A) (k : A -> M B) s a s1 :
  c s = (Ok a, s1) -> bind c k s = k a s1.
Proof. intros H. unfold bind. now rewrite H. Qed.

Section ClientPage.
Variable E : Env.
Hypothesis calls_succeed : forall t, throws E t = None.

Lemma outside_ok e s : outside E e s = (Ok tt, after [e] s).
Proof.
  cbv [outside bind now gets emit modify]. now rewrite calls_succeed.
Qed.

Lemma newContext_ok b s br :
  nth_error (st_browsers s) b = Some br ->
  exists s',
    newContext E b s = (Ok (length (br_contexts br)), s')
    /\ st_trace s' = (st_trace s ++ [EvNewContext b])%list
    /\ registry s' = registry s
    /\ nth_error (st_browsers s') b
       = Some {| br_endpoint := br_endpoint br;
                 br_contexts := (br_contexts br
                                 ++ [{| cx_init := None; cx_pages := [];
                                        cx_closed := false |}])%list;
                 br_closed := br_closed br |}.
Proof.
  intros Hbr. unfold newContext.
  rewrite (bind_Ok _ _ _ _ _ _ _ (outside_ok _ s)).
  unfold bind, gets, modify, ret.
  assert (Hctx : contexts_of b (after [EvNewContext b] s) = br_contexts br).
  { unfold contexts_of; simpl. now rewrite Hbr. }
  rewrite Hctx. eexists. split; [reflexivity|]. simpl. splits; try reflexivity.
  now rewrite (nth_error_update_at_eq _ _ _ _ _ Hbr).
Qed.

Lemma addInitScript_ok b c name s br :
  nth_error (st_browsers s) b = Some br ->
  exists s',
    addInitScript E b c name s = (Ok tt, s')
    /\ st_trace s' = (st_trace s ++ [EvAddInitScript b c name])%list
    /\ registry s' = registry s
    /\ nth_error (st_browsers s') b
       = Some {| br_endpoint := br_endpoint br;
                 br_contexts :=
                   update_at c (fun x => {| cx_init := Some name;
                                            cx_pages := cx_pages x;
                                            cx_closed := cx_closed x |})
                     (br_contexts br);
                 br_closed := br_closed br |}.
Proof.
  intros Hbr. unfold addInitScript.
  rewrite (bind_Ok _ _ _ _ _ _ _ (outside_ok _ s)).
  unfold modify. eexists. split; [reflexivity|]. simpl. splits; try reflexivity.
  now rewrite (nth_error_update_at_eq _ _ _ _ _ Hbr).
Qed.

Lemma newPage_ok b c s br cx :
  nth_error (st_browsers s) b = Some br ->
  nth_error (br_contexts br) c = Some cx ->
  let p := {| pr_browser := b; pr_context := c; pr_page := length (cx_pages cx) |} in
  exists s' pg,
    newPage E b c s = (Ok p, s')
    /\ st_trace s' = (st_trace s ++ [EvNewPage b c])%list
    /\ registry s' = registry s
    /\ lookup_page p s' = Some pg
    /\ pg_marker pg = Some match cx_init cx with
                           | Some n => JSString n
                           | None => JSUndefined
                           end
    /\ pg_closed pg = false.
Proof.
  intros Hbr Hcx p. unfold newPage.
  unfold bind at 1, now, gets.
  rewrite (bind_Ok _ _ _ _ _ _ _ (outside_ok _ s)).
  unfold bind at 1, gets.
  assert (Hctx : contexts_of b (after [EvNewPage b c] s) = br_contexts br).
  { unfold contexts_of; simpl. now rewrite Hbr. }
  rewrite Hctx, Hcx. unfold bind, modify, ret.
  eexists. eexists. split; [reflexivity|]. splits; try reflexivity.
  - unfold lookup_page, pages_of, p. cbn [pr_browser pr_context pr_page].
    unfold update_context.
    erewrite contexts_of_update_browser by (simpl; exact Hbr).
    simpl. rewrite (nth_error_update_at_eq _ _ _ _ _ Hcx). simpl.
    apply nth_error_snoc.
  - reflexivity.
  - reflexivity.
Qed.

(** The client's [page], for a name absent from its registry, when the
    automation calls succeed: nothing is enumerated; a new context is made,
    the init script for the name is installed in it, a page is made in it
    and carries the marker, and the name is recorded with the context. *)
Lemma client_page_absent browser name s br :
  JSMap.get name (registry s) = None ->
  nth_error (st_browsers s) browser = Some br ->
  let c := length (br_contexts br) in
  let p := {| pr_browser := browser; pr_context := c; pr_page := 0 |} in
  exists s' pg,
    client_page E browser name s = (Ok p, s')
    /\ st_trace s'
       = (st_trace s ++ [EvNewContext browser; EvAddInitScript browser c name;
                         EvNewPage browser c])%list
    /\ registry s' = JSMap.set name (browser, c) (registry s)
    /\ lookup_page p s' = Some pg
    /\ pg_marker pg = Some (JSString name).
Proof.
  intros Habsent Hbr c p.
  assert (Hfind : findPage E name s = (Ok None, s)).
  { unfold findPage, bind, gets. now rewrite Habsent. }
  destruct (newContext_ok browser s br Hbr) as (s1 & H1 & T1 & R1 & B1).
  destruct (addInitScript_ok browser c name s1 _ B1) as (s2 & H2 & T2 & R2 & B2).
  simpl in B2. unfold c in B2 at 1. rewrite update_at_snoc in B2.
  destruct (newPage_ok browser c s2 _ _ B2 (nth_error_snoc _ _ _))
    as (s3 & pg & H3 & T3 & R3 & L3 & M3 & _).
  simpl in H3, L3, M3.
  unfold client_page.
  rewrite (bind_Ok _ _ _ _ _ _ _ Hfind). cbv beta iota.
  rewrite (bind_Ok _ _ _ _ _ _ _ H1).
  rewrite (bind_Ok _ _ _ _ _ _ _ H2).
  rewrite (bind_Ok _ _ _ _ _ _ _ H3).
  unfold bind, modify, ret.
  eexists. exists pg. split; [reflexivity|]. simpl. splits.
  - rewrite T3, T2, T1, <- !app_assoc. reflexivity.
  - rewrite R3, R2, R1. reflexivity.
  - exact L3.
  - exact M3.
Qed.
End ClientPage.

(* ------------------------------------------------------------------ *)
(** * The properties on concrete runs *)

Example parse_sample :
  parse_displays sample_displayplacer
  = Some {| origin := {| px := 1512; py := 0 |};
            resolution := {| width := 1920; height := 1080 |} |}.
Proof. vm_compute. reflexivity. Qed.

Example parse_builtin_only :
  parse_displays ("Type: MacBook built in screen" ++ nl ++
                  "Resolution: 1512x982" ++ nl ++ "Origin: (0,0)") = None.
Proof. vm_compute. reflexivity. Qed.

(** The end-to-end scenario of the default configuration: a first request
    for [home] starts [personal] on port 9230 and gives a page owned by
    [personal]; a second request gives the same target and starts nothing. *)
Example home_twice :
  let (r1, s1) := post_pages mac_env DEFAULT_CONFIG (Some "home") None initial in
  let (r2, s2) := post_pages mac_env DEFAULT_CONFIG (Some "home") None s1 in
  r1 = r2
  /\ option_map workspace (JSMap.get "home" (pageRegistry s1)) = Some (Some "personal")
  /\ option_map port (JSMap.get "personal" (workspaces s1)) = Some 9230%Z
  /\ s2 = s1.
Proof. vm_compute. repeat split. Qed.



(** C2, at the failing input: a running browser that does not exit on
    SIGTERM is still running when the grace period is over, having been
    sent SIGTERM and nothing else. *)
Lemma killChrome_never_sends_SIGKILL_witness :
  nth_error (st_procs (personal_running hung_env)) 0
  = Some {| cp_pid := Some 0; cp_handle := true; killed := false; cp_signals := [] |}
  /\ exists i s1 s2,
      JSMap.get "personal" (workspaces (personal_running hung_env)) = Some i
      /\ killChrome i (personal_running hung_env) = (Ok tt, s1)
      /\ grace_period_elapses hung_env s1 = (Ok tt, s2)
      /\ nth_error (st_procs s2) (process i)
         = Some {| cp_pid := Some 0; cp_handle := true; killed := true; cp_signals := [SIGTERM] |}.
Proof.
  split; [vm_compute; reflexivity|].
  destruct (JSMap.get "personal" (workspaces (personal_running hung_env)))
    as [i|] eqn:Hi; [|vm_compute in Hi; discriminate].
  assert (Hp : process i = 0).
  { apply (f_equal (option_map process)) in Hi. vm_compute in Hi.
    injection Hi as Hi. symmetry. exact Hi. }
  assert (Hrun : nth_error (st_procs (personal_running hung_env)) (process i)
                 = Some {| cp_pid := Some 0; cp_handle := true; killed := false; cp_signals := [] |}).
  { rewrite Hp. vm_compute. reflexivity. }
  destruct (killChrome_never_sends_SIGKILL hung_env i (personal_running hung_env)
              (Some 0) Hrun)
    as (s1 & s2 & new & H1 & _ & _ & H2 & _ & _ & H3).
  exists i, s1, s2. split; [reflexivity|]. split; [exact H1|].
  split; [exact H2|]. exact H3.
Defined.

(** C3, the claim as stated fails: on a fresh server, [DELETE /pages/ghost]
    for the absent name [ghost] changes nothing, but it answers with the
    error status 404. *)
Lemma delete_absent_page_is_an_error :
  JSMap.get "ghost" (pageRegistry initial) = None
  /\ exists resp,
      delete_pages mac_env "ghost" initial = (Ok resp, initial)
      /\ (400 <=? status resp)%Z = true.
Proof.
  split; [reflexivity|]. eexists. split; [reflexivity|]. reflexivity.
Qed.

Lemma delete_absent_page_404_witness :
  decodeURIComponent "100%25" = Some "100%"
  /\ JSMap.get "100%" (pageRegistry initial) = None
  /\ delete_pages mac_env "100%25" initial
     = (Ok {| status := 404; body := BError "page not found" |}, initial)
  /\ decodeURIComponent "100%" = None
  /\ delete_pages mac_env "100%" initial = (Throw "URI malformed", initial).
Proof.
  destruct (delete_absent_page_404 mac_env initial) as (H404 & _ & Hbad).
  split; [reflexivity|]. split; [reflexivity|].
  split; [apply (H404 "100%25" "100%"); reflexivity|].
  split; [reflexivity|]. apply Hbad. reflexivity.
Defined.

Lemma switchWorkspace_idempotent_witness :
  JSMap.get "personal" (cfg_workspaces DEFAULT_CONFIG) = Some personal_config
  /\ exists i s1,
      switchWorkspace mac_env DEFAULT_CONFIG "personal" initial = (Ok i, s1)
      /\ JSMap.get "personal" (workspaces s1) = Some i
      /\ switchWorkspace mac_env DEFAULT_CONFIG "personal" s1 = (Ok i, s1)
      /\ length (st_procs s1) <= 1.
Proof.
  split; [reflexivity|].
  destruct (switchWorkspace_idempotent mac_env DEFAULT_CONFIG "personal"
              personal_config eq_refl) as [Htracked Htwice].
  destruct (switchWorkspace mac_env DEFAULT_CONFIG "personal" initial)
    as [[i|m] s1] eqn:Hrun; [|vm_compute in Hrun; discriminate].
  exists i, s1. destruct (Htwice initial i s1 Hrun) as [H2 Hp].
  split; [reflexivity|]. split; [|split; assumption].
  destruct (JSMap.get "personal" (workspaces s1)) as [i'|] eqn:Hi.
  - rewrite (Htracked s1 i' Hi) in H2.
    apply (f_equal fst) in H2. simpl in H2. injection H2 as ->. reflexivity.
  - apply (f_equal (fun x => JSMap.has "personal" (workspaces (snd x)))) in Hrun.
    simpl in Hrun. unfold JSMap.has in Hrun at 2. rewrite Hi in Hrun.
    vm_compute in Hrun. discriminate.
Defined.

Lemma headless_iff_requested_or_unplaced_witness :
  (forall t, exec_result no_display_env t display_query = None)
  /\ placement initial = None
  /\ (let (r, s') := launchChrome mac_env launch_personal initial in
      exists new,
        st_trace s' = new
        /\ spawned_args new <> []
        /\ forall args, In args (spawned_args new) ->
             has_arg "--headless=new" args = false
             /\ has_window_position args = true)
  /\ (let (r, s') := launch_sequence no_display_env [launch_personal; launch_work]
                       initial in
      exists new,
        st_trace s' = new
        /\ length (spawned_args new) = 2
        /\ Forall headless_args (spawned_args new)).
Proof.
  destruct (headless_iff_requested_or_unplaced mac_env) as [Hone _].
  destruct (headless_iff_requested_or_unplaced no_display_env) as [_ Hall].
  split; [intros t; reflexivity|]. split; [reflexivity|]. split.
  - destruct (launchChrome mac_env launch_personal initial) as [r s'] eqn:Hrun.
    destruct (Hone launch_personal initial r s' Hrun) as (new & Hnew & Hargs).
    simpl in Hnew. exists new. split; [exact Hnew|].
    assert (Hp : placement s' <> None).
    { apply (f_equal (fun x => placement (snd x))) in Hrun. simpl in Hrun.
      rewrite <- Hrun. vm_compute. discriminate. }
    split.
    + apply (f_equal (fun x => spawned_args (st_trace (snd x)))) in Hrun.
      simpl in Hrun. rewrite Hnew in Hrun. rewrite <- Hrun. vm_compute.
      discriminate.
    + intros args Hin. destruct (Hargs args Hin) as [Hh Hw].
      rewrite Hh, Hw. destruct (placement s'); [split; reflexivity | congruence].
  - destruct (launch_sequence no_display_env [launch_personal; launch_work] initial)
      as [r s'] eqn:Hrun.
    destruct (Hall (fun t => eq_refl) [launch_personal; launch_work] initial r s'
                eq_refl Hrun) as (new & Hnew & Hforall).
    simpl in Hnew. exists new. split; [exact Hnew|]. split; [|exact Hforall].
    apply (f_equal (fun x => length (spawned_args (st_trace (snd x))))) in Hrun.
    simpl in Hrun. rewrite Hnew in Hrun. rewrite <- Hrun. vm_compute. reflexivity.
Defined.

Lemma launch_gives_up_after_30_attempts_witness :
  JSMap.get "personal" (cfg_workspaces DEFAULT_CONFIG) = Some personal_config
  /\ JSMap.get "personal" (workspaces initial) = None
  /\ never_ready dead_port_env 9230
  /\ exists s',
      switchWorkspace dead_port_env DEFAULT_CONFIG "personal" initial
      = (Throw ("Chrome CDP not available after 30 retries: "
                ++ "connect ECONNREFUSED, outside call 61"), s')
      /\ length (filter is_fetch (st_trace s')) = 30
      /\ workspaces s' = JSMap.empty
      /\ currentWorkspace s' = None.
Proof.
  assert (Hnever : never_ready dead_port_env 9230).
  { intros t. simpl. discriminate. }
  split; [reflexivity|]. split; [reflexivity|]. split; [exact Hnever|].
  destruct (launch_gives_up_after_30_attempts dead_port_env DEFAULT_CONFIG
              "personal" personal_config
              "/Applications/Google Chrome.app/Contents/MacOS/Google Chrome"
              initial eq_refl eq_refl eq_refl (fun t => eq_refl) Hnever)
    as (_ & pre & s' & Hrun & Htr & Hpre & Hcount & Hw & Hc).
  exists s'.
  assert (Hs : s' = snd (switchWorkspace dead_port_env DEFAULT_CONFIG "personal"
                           initial)) by (rewrite Hrun; reflexivity).
  assert (Hlen : length pre = 3).
  { apply (f_equal (@length Event)) in Htr. rewrite Hs in Htr.
    rewrite !length_app in Htr.
    assert (Hl : length (st_trace (snd (switchWorkspace dead_port_env DEFAULT_CONFIG
                                          "personal" initial))) = 63)
      by (vm_compute; reflexivity).
    assert (Hp : length (polls (cfg_port personal_config) 500 30) = 60)
      by reflexivity.
    rewrite Hl, Hp in Htr. simpl in Htr. lia. }
  split.
  - rewrite Hrun. rewrite Hlen. vm_compute. reflexivity.
  - split; [|split; assumption].
    rewrite Htr. simpl. rewrite filter_app, Hpre. exact Hcount.
Defined.


Lemma placement_resolved_once_witness :
  cachedVirtualDisplay initial = None
  /\ (let (r, s1) := launchChrome mac_env launch_personal initial in
      exists d,
        cachedVirtualDisplay s1 = Some (Some d)
        /\ filter is_exec (st_trace s1) = [EvExec display_query]
        /\ let (r', s2) := launch_sequence mac_env [launch_work; launch_personal] s1 in
           cachedVirtualDisplay s2 = Some (Some d)
           /\ filter is_exec (st_trace s2) = [EvExec display_query])
  /\ (let (r, s1) := launchChrome no_display_env launch_personal initial in
      cachedVirtualDisplay s1 = Some None
      /\ filter is_exec (st_trace s1)
         = [EvExec display_query; EvExec display_create]).
Proof.
  destruct (placement_resolved_once mac_env) as (_ & _ & _ & Hfirst & _ & Hseq).
  destruct (placement_resolved_once no_display_env) as (_ & _ & Hnull & Hfirst' & _).
  split; [reflexivity|]. split.
  - destruct (launchChrome mac_env launch_personal initial) as [r s1] eqn:Hrun.
    destruct (Hfirst launch_personal initial r s1 _ eq_refl eq_refl Hrun)
      as (Hc & rest & Htr & Hex).
    exists {| origin := {| px := 1512; py := 0 |};
              resolution := {| width := 1920; height := 1080 |} |}.
    split; [exact Hc|].
    assert (He : filter is_exec (st_trace s1) = [EvExec display_query]).
    { rewrite Htr. simpl. rewrite ?filter_app, Hex. reflexivity. }
    split; [exact He|].
    destruct (launch_sequence mac_env [launch_work; launch_personal] s1)
      as [r' s2] eqn:Hrun2.
    destruct (Hseq [launch_work; launch_personal] s1 r' s2 _ Hc Hrun2)
      as (Hc2 & new & Htr2 & Hex2).
    split; [exact Hc2|]. rewrite Htr2, filter_app, He, Hex2. reflexivity.
  - destruct (launchChrome no_display_env launch_personal initial) as [r s1] eqn:Hrun.
    destruct (Hfirst' launch_personal initial r s1 _ eq_refl eq_refl Hrun)
      as (Hc & rest & Htr & Hex).
    rewrite (Hnull initial eq_refl (or_introl eq_refl)) in Hc.
    split; [exact Hc|].
    rewrite Htr. simpl. rewrite ?filter_app, Hex. reflexivity.
Defined.

Lemma stop_purges_exactly_owned_pages_witness :
  truthy "personal" = true
  /\ NoDup (JSMap.keys (pageRegistry two_workspaces))
  /\ exists s',
      post_workspace_stop mac_env (Some "personal") two_workspaces
      = (Ok (json (BStop "personal")), s')
      /\ JSMap.keys (pageRegistry s') = ["inbox"]
      /\ JSMap.get "inbox" (pageRegistry s')
         = JSMap.get "inbox" (pageRegistry two_workspaces)
      /\ JSMap.get "work" (workspaces s')
         = JSMap.get "work" (workspaces two_workspaces)
      /\ JSMap.get "work" (browserConnections s') = Some 1.
Proof.
  assert (Hnd : NoDup (JSMap.keys (pageRegistry two_workspaces))).
  { vm_compute. repeat constructor; simpl; intuition discriminate. }
  split; [reflexivity|]. split; [exact Hnd|].
  destruct (stop_purges_exactly_owned_pages mac_env "personal" two_workspaces
              eq_refl Hnd) as (s' & Hrun & Hreg & Hget & Hws & Hbc).
  exists s'. split; [exact Hrun|]. split; [rewrite Hreg; vm_compute; reflexivity|].
  split; [rewrite Hget; vm_compute; reflexivity|].
  split; [apply Hws; discriminate|].
  rewrite Hbc by discriminate. vm_compute. reflexivity.
Defined.

Lemma switch_to_running_sets_owner_witness :
  JSMap.get "personal" (cfg_workspaces DEFAULT_CONFIG) = Some personal_config
  /\ currentWorkspace two_workspaces = Some "work"
  /\ exists i s1 r s2 e,
      JSMap.get "personal" (workspaces two_workspaces) = Some i
      /\ switchWorkspace mac_env DEFAULT_CONFIG "personal" two_workspaces = (Ok i, s1)
      /\ st_procs s1 = st_procs two_workspaces
      /\ serve_page_requests mac_env DEFAULT_CONFIG
           [POST_pages (Some "notes") None] s1 = (r, s2)
      /\ JSMap.get "notes" (pageRegistry two_workspaces) = None
      /\ JSMap.get "notes" (pageRegistry s2) = Some e
      /\ workspace e = Some "personal".
Proof.
  split; [reflexivity|]. split; [reflexivity|].
  destruct (JSMap.get "personal" (workspaces two_workspaces)) as [i|] eqn:Hi;
    [|vm_compute in Hi; discriminate].
  destruct (switch_to_running_sets_owner mac_env DEFAULT_CONFIG "personal"
              personal_config i two_workspaces eq_refl Hi)
    as (s1 & Hrun & Hcur & _ & Hprocs & Hreg & Hlater).
  destruct (serve_page_requests mac_env DEFAULT_CONFIG
              [POST_pages (Some "notes") None] s1) as [r s2] eqn:Hserve.
  destruct (Hlater eq_refl _ r s2 Hserve) as [_ Howner].
  assert (Hs1 : s1 = snd (switchWorkspace mac_env DEFAULT_CONFIG "personal"
                            two_workspaces)) by (rewrite Hrun; reflexivity).
  assert (Hnotes : JSMap.has "notes" (pageRegistry s2) = true).
  { apply (f_equal (fun x => JSMap.has "notes" (pageRegistry (snd x)))) in Hserve.
    simpl in Hserve. rewrite <- Hserve, Hs1. vm_compute. reflexivity. }
  unfold JSMap.has in Hnotes.
  destruct (JSMap.get "notes" (pageRegistry s2)) as [e|] eqn:He; [|discriminate].
  exists i, s1, r, s2, e. split; [reflexivity|]. split; [exact Hrun|].
  split; [exact Hprocs|]. split; [exact Hserve|]. split; [reflexivity|].
  split; [exact He|].
  destruct (Howner "notes" e He) as [Hold|Hown]; [|exact Hown].
  rewrite Hreg in Hold. vm_compute in Hold. discriminate.
Defined.

(* ------------------------------------------------------------------ *)
(** * Further properties of the launcher, the manager and the server *)

(** ** What the display parser accepts *)

Lemma pick_display_sound screens d :
  pick_display screens = Some d ->
  exists sc,
    In sc screens
    /\ scr_type sc <> "MacBook built in screen"
    /\ match_origin (scr_origin sc) = Some (px (origin d), py (origin d))
    /\ match_res (scr_resolution sc)
       = Some (width (resolution d), height (resolution d))
    /\ (0 < px (origin d))%Z.
Proof.
  induction screens as [|sc rest IH]; simpl; [discriminate|].
  assert (Hrest : pick_display rest = Some d ->
                  exists sc0,
                    (sc = sc0 \/ In sc0 rest)
                    /\ scr_type sc0 <> "MacBook built in screen"
                    /\ match_origin (scr_origin sc0) = Some (px (origin d), py (origin d))
                    /\ match_res (scr_resolution sc0)
                       = Some (width (resolution d), height (resolution d))
                    /\ (0 < px (origin d))%Z).
  { intros H. destruct (IH H) as (sc0 & Hin & H0). exists sc0. auto. }
  destruct (String.eqb_spec (scr_type sc) "MacBook built in screen") as [Hb|Hb];
    [exact Hrest|].
  destruct (match_origin (scr_origin sc)) as [[x y]|] eqn:Ho; [|exact Hrest].
  destruct (match_res (scr_resolution sc)) as [[w h]|] eqn:Hr; [|exact Hrest].
  destruct (0 <? x)%Z eqn:Hx; [|exact Hrest].
  intros [= <-]. exists sc. simpl. splits; auto. now apply Z.ltb_lt.
Qed.

(** X1: a placement that the detection returns was read, on macOS, from a
    screen of the display report whose type is not the built-in one, and
    its origin is to the right of the main display ([x > 0]); the detection
    has run the display query and nothing else. *)
Theorem detected_display_is_right_of_main E s d s' :
  getVirtualDisplayPosition E s = (Ok (Some d), s') ->
  platform E = "darwin"
  /\ s' = after [EvExec display_query] s
  /\ (0 < px (origin d))%Z
  /\ exists stdout sc,
      exec_result E (length (st_trace s)) display_query = Some stdout
      /\ In sc (collect_screens stdout)
      /\ scr_type sc <> "MacBook built in screen"
      /\ match_origin (scr_origin sc) = Some (px (origin d), py (origin d))
      /\ match_res (scr_resolution sc)
         = Some (width (resolution d), height (resolution d)).
Proof.
  intros H.
  destruct (String.eqb_spec (platform E) "darwin") as [Hp|Hp].
  - rewrite (getVirtualDisplayPosition_mac E s Hp) in H.
    injection H as Hd <-. unfold detect in Hd.
    destruct (exec_result E (length (st_trace s)) display_query) as [stdout|];
      [|discriminate].
    destruct (pick_display_sound _ _ Hd) as (sc & Hin & Hty & Ho & Hr & Hx).
    splits; auto. exists stdout, sc. auto.
  - unfold getVirtualDisplayPosition in H.
    apply String.eqb_neq in Hp. rewrite Hp in H. discriminate.
Qed.

Definition no_type_line (stdout : string) : Prop :=
  forall line, In line (split_on "010"%char stdout) -> startsWith line "Type:" = false.

Lemma scan_untyped lines :
  (forall line, In line lines -> startsWith line "Type:" = false) ->
  forall cur, cs_type cur = None ->
  exists cur', fold_left scan_line lines ([], cur) = ([], cur')
               /\ cs_type cur' = None.
Proof.
  induction lines as [|line rest IH]; intros Hl cur Hc; cbn [fold_left].
  - eauto.
  - assert (Hstep : exists cur1, scan_line ([], cur) line = ([], cur1)
                                 /\ cs_type cur1 = None).
    { unfold scan_line. rewrite (Hl line (or_introl eq_refl)).
      destruct (startsWith line "Origin:"); [eauto|].
      destruct (startsWith line "Resolution:"); [eauto|].
      rewrite Hc. cbn [opt_truthy]. rewrite andb_false_r. eauto. }
    destruct Hstep as (cur1 & -> & Hc1).
    apply IH; [|assumption]. intros l Hin. apply Hl. now right.
Qed.

(** X2: a display report in which no line starts with [Type:] gives no
    placement, whatever origins and resolutions it lists. *)
Theorem report_without_type_gives_no_display E s stdout :
  platform E = "darwin" ->
  exec_result E (length (st_trace s)) display_query = Some stdout ->
  no_type_line stdout ->
  collect_screens stdout = []
  /\ getVirtualDisplayPosition E s = (Ok None, after [EvExec display_query] s).
Proof.
  intros Hp Hq Hl.
  assert (Hc : collect_screens stdout = []).
  { unfold collect_screens.
    destruct (scan_untyped _ Hl no_screen eq_refl) as (cur & -> & Hcur).
    unfold complete. rewrite Hcur. reflexivity. }
  split; [assumption|].
  rewrite (getVirtualDisplayPosition_mac E s Hp). unfold detect. rewrite Hq.
  unfold parse_displays. rewrite Hc. reflexivity.
Qed.

(** ** Platforms *)

Definition unsupported (p : string) : Prop :=
  p <> "darwin" /\ p <> "win32" /\ p <> "linux".

Lemma findChromeExecutable_unsupported E :
  unsupported (platform E) -> findChromeExecutable E = None.
Proof.
  intros (H1 & H2 & H3). unfold findChromeExecutable, CHROME_PATHS.
  apply String.eqb_neq in H1, H2, H3. now rewrite H1, H2, H3.
Qed.

(** X3: on a platform other than darwin, win32 and linux a launch throws
    "Chrome executable not found" before it does anything: no command is
    run, nothing is spawned or cached; a switch to a configured workspace
    that is not running throws the same error, and [POST /workspace/switch]
    answers 500 with it, the state being what it was. *)
Theorem launch_fails_on_unsupported_platform E cfg :
  unsupported (platform E) ->
  (forall o s,
      launchChrome E o s
      = (Throw ("Chrome executable not found for platform: " ++ platform E), s))
  /\ (forall n c s,
        JSMap.get n (cfg_workspaces cfg) = Some c ->
        JSMap.get n (workspaces s) = None ->
        switchWorkspace E cfg n s
        = (Throw ("Chrome executable not found for platform: " ++ platform E), s))
  /\ (forall n c s,
        truthy n = true ->
        JSMap.get n (cfg_workspaces cfg) = Some c ->
        JSMap.get n (workspaces s) = None ->
        post_workspace_switch E cfg (Some n) s
        = (Ok {| status := 500;
                 body := BError ("Failed to switch workspace: "
                                 ++ "Chrome executable not found for platform: "
                                 ++ platform E) |}, s)).
Proof.
  intros Hu. pose proof (findChromeExecutable_unsupported E Hu) as Hf.
  assert (Hl : forall o s,
             launchChrome E o s
             = (Throw ("Chrome executable not found for platform: " ++ platform E), s)).
  { intros o s. unfold launchChrome. rewrite Hf. reflexivity. }
  assert (Hs : forall n c s,
             JSMap.get n (cfg_workspaces cfg) = Some c ->
             JSMap.get n (workspaces s) = None ->
             switchWorkspace E cfg n s
             = (Throw ("Chrome executable not found for platform: " ++ platform E), s)).
  { intros n c s Hc Ht. unfold switchWorkspace. rewrite Hc.
    unfold bind at 1, gets. rewrite Ht. unfold bind. rewrite Hl. reflexivity. }
  splits; [exact Hl | exact Hs |].
  intros n c s Hn Hc Ht. unfold post_workspace_switch, hasWorkspace, JSMap.has.
  rewrite Hn, Hc. cbn [negb]. unfold try_catch, bind.
  rewrite (Hs n c s Hc Ht). reflexivity.
Qed.

(** ** The command line of a browser *)

(** What every argument list built by [buildChromeArgs] has. *)
Definition command_line (E : Env) (o : ChromeLaunchOptions) (args : list string) : Prop :=
  hd "" args = "--user-data-dir=" ++ data_dir E (workspaceName o)
  /\ nth 1 args "" = "--remote-debugging-port=" ++ show_Z (opt_port o)
  /\ last args "" = "about:blank"
  /\ existsb (fun a => startsWith a "--profile-directory") args = false
  /\ (windowSize o = None -> nth 2 args "" = "--window-size=1920,1080").

Lemma buildChromeArgs_command_line E o d s args s' :
  buildChromeArgs E (build_options o d) s = (Ok args, s') ->
  command_line E o args.
Proof.
  unfold buildChromeArgs, mkdirSync, outside, bind, now, gets, emit, modify, ret, throw.
  cbn [launch build_options workspaceName opt_port windowSize headless windowPosition].
  destruct (throws E (length (st_trace s))); [discriminate|].
  intros H. apply (f_equal fst) in H. cbn [fst] in H. injection H as <-.
  unfold command_line, startsWith.
  destruct d as [d|]; destruct (headless o) as [[|]|]; destruct (windowSize o);
    cbn [negb andb is_some is_true option_map app hd nth last existsb];
    splits; try reflexivity; intros [=].
Qed.

Lemma resolution_spawns_nothing new path args :
  resolution_shape new -> ~ In (EvSpawn path args) new.
Proof.
  intros [ -> | [ -> | [ -> | -> ] ] ] H; simpl in H;
    repeat match goal with
           | H : _ \/ _ |- _ => destruct H as [H|H]
           | H : _ = _ |- _ => discriminate H
           end; assumption.
Qed.

Lemma polls_spawn_nothing new path args :
  Forall is_poll new -> ~ In (EvSpawn path args) new.
Proof.
  intros Hf Hin. rewrite Forall_forall in Hf. exact (Hf _ Hin).
Qed.

(** The outside calls of a launch that got as far as spawning. *)
Lemma launchChrome_calls E o s r s' path :
  findChromeExecutable E = Some path ->
  launchChrome E o s = (r, s') ->
  exists d new0,
    resolved E s d new0
    /\ ((exists m, r = Throw m
                   /\ throws E (length (st_trace s ++ new0)) = Some m
                   /\ st_trace s'
                      = (st_trace s ++ new0
                           ++ [EvMkdir (data_dir E (workspaceName o))])%list
                   /\ st_procs s' = st_procs s)
        \/ exists args w polls_,
            buildChromeArgs E (build_options o d)
              (with_cachedVirtualDisplay (Some d) (after new0 s))
            = (Ok args,
               after [EvMkdir (data_dir E (workspaceName o))]
                 (with_cachedVirtualDisplay (Some d) (after new0 s)))
            /\ r = launched o s w
            /\ Forall is_poll polls_
            /\ st_trace s'
               = (st_trace s ++ new0
                    ++ [EvMkdir (data_dir E (workspaceName o)); EvSpawn path args]
                    ++ polls_)%list
            /\ st_procs s'
               = (st_procs s
                    ++ [{| cp_pid := if spawn_ok E (S (length (st_trace s ++ new0)))
                                     then Some (length (st_procs s)) else None;
                           cp_handle := spawn_ok E (S (length (st_trace s ++ new0)));
                           killed := false; cp_signals := [] |}])%list
            /\ waitForCDP E (opt_port o) 30 500
                 (spawned E path args
                    (after [EvMkdir (data_dir E (workspaceName o))]
                       (with_cachedVirtualDisplay (Some d) (after new0 s))))
               = (w, s')).
Proof.
  intros Hpath H. apply launchChrome_inv in H. rewrite Hpath in H.
  destruct H as (d & new0 & Hres & H). exists d, new0. split; [assumption|].
  cbv zeta in H.
  destruct (throws E _) as [m|] eqn:Hth.
  - destruct H as [-> ->]. left. exists m. splits; auto.
    simpl. now rewrite <- app_assoc.
  - destruct H as (args & w & Hb & Hw & ->). right.
    destruct (waitForCDP_from_run E (opt_port o) 500 30 30 None
                (spawned E path args
                   (after [EvMkdir (data_dir E (workspaceName o))]
                      (with_cachedVirtualDisplay (Some d) (after new0 s)))))
      as (r0 & polls_ & Hrun & Hpolls).
    unfold waitForCDP in Hw. rewrite Hrun in Hw. injection Hw as <- <-.
    exists args, r0, polls_. splits; auto.
    + simpl. rewrite <- !app_assoc. reflexivity.
    + simpl. unfold new_process. simpl. rewrite length_app. simpl.
      rewrite Nat.add_1_r. reflexivity.
Qed.

(** X4: every browser a launch starts is started from the executable of the
    platform with a command line that begins with the data directory of the
    workspace and its debugging port, ends with [about:blank], has the
    default window size 1920 by 1080 when none was asked for, and never
    names a profile directory. *)
Theorem spawned_command_line E o s r s' :
  launchChrome E o s = (r, s') ->
  exists new,
    st_trace s' = (st_trace s ++ new)%list
    /\ forall path args,
         In (EvSpawn path args) new ->
         findChromeExecutable E = Some path /\ command_line E o args.
Proof.
  intros H. destruct (findChromeExecutable E) as [path|] eqn:Hpath.
  - destruct (launchChrome_calls E o s r s' path Hpath H)
      as (d & new0 & Hres & [(m & _ & _ & Htr & _)|(args & w & polls_ & Hb & _ & Hp & Htr & _)]).
    + eexists. split; [exact Htr|]. intros p a Hin. exfalso.
      apply in_app_or in Hin. destruct Hin as [Hin|[Hin|[]]]; [|discriminate].
      destruct Hres as [[_ ->]|(_ & _ & Hs)]; [destruct Hin|].
      exact (resolution_spawns_nothing _ _ _ Hs Hin).
    + eexists. split; [exact Htr|]. intros p a Hin.
      apply in_app_or in Hin. destruct Hin as [Hin|Hin].
      * exfalso. destruct Hres as [[_ ->]|(_ & _ & Hs)]; [destruct Hin|].
        exact (resolution_spawns_nothing _ _ _ Hs Hin).
      * destruct Hin as [Hin|[Hin|Hin]]; [discriminate | |].
        -- injection Hin as <- <-. split; [reflexivity|].
           eapply buildChromeArgs_command_line; exact Hb.
        -- exfalso. exact (polls_spawn_nothing _ _ _ Hp Hin).
  - apply launchChrome_inv in H. rewrite Hpath in H. destruct H as [_ ->].
    exists []. split; [now rewrite app_nil_r | intros p a []].
Qed.

(** ** Waiting for the debugging port *)

Section Ready.
Variable E : Env.
Variable port_ : Z.

(** The answer to [GET /json/version] made after [t] outside calls is a
    success whose body holds [url]. *)
Definition answers (t : nat) (url : option string) : Prop :=
  exists status_,
    fetch_result E t (version_url port_) = FetchResponse status_ (JsonVersion url)
    /\ http_ok status_ = true.

(** That answer is one the [catch] block gets. *)
Definition refused (t : nat) : Prop :=
  fetch_error (fetch_result E t (version_url port_)) <> None.

Lemma cdp_attempt_answers delayMs s url :
  answers (length (st_trace s)) url ->
  cdp_attempt E port_ delayMs s
  = (Ok (inl url), after [EvFetch (version_url port_)] s).
Proof.
  intros (status_ & Hf & Hok).
  unfold cdp_attempt, try_catch, bind, now, gets, emit, modify, ret.
  rewrite Hf, Hok. reflexivity.
Qed.

Lemma cdp_attempt_refused delayMs s :
  refused (length (st_trace s)) ->
  exists m,
    cdp_attempt E port_ delayMs s
    = (Ok (inr m), after [EvFetch (version_url port_); EvSleep delayMs] s).
Proof.
  intros Hr. pose proof (cdp_attempt_run E port_ delayMs s) as H.
  unfold refused in Hr.
  destruct (fetch_error _) as [m|]; [eauto | contradiction].
Qed.

Lemma waitForCDP_from_ready delayMs maxRetries url :
  forall k left lastError s,
    k < left ->
    (forall i, i < k -> refused (length (st_trace s) + 2 * i)) ->
    answers (length (st_trace s) + 2 * k) url ->
    waitForCDP_from E port_ delayMs maxRetries left lastError s
    = (Ok url, after (polls port_ delayMs k ++ [EvFetch (version_url port_)]) s).
Proof.
  induction k as [|k IH]; intros left lastError s Hk Hbefore Hat;
    (destruct left as [|left]; [lia|]); cbn [waitForCDP_from]; unfold bind at 1.
  - rewrite Nat.add_0_r in Hat. rewrite (cdp_attempt_answers _ _ _ Hat).
    reflexivity.
  - assert (H0 : refused (length (st_trace s))).
    { specialize (Hbefore 0 ltac:(lia)). now rewrite Nat.add_0_r in Hbefore. }
    destruct (cdp_attempt_refused delayMs s H0) as (m & ->).
    rewrite (IH left (Some m)
               (after [EvFetch (version_url port_); EvSleep delayMs] s)).
    + rewrite after_after. reflexivity.
    + lia.
    + intros i Hi. specialize (Hbefore (S i) ltac:(lia)).
      simpl. rewrite length_app. simpl.
      replace (length (st_trace s) + 2 + (i + (i + 0)))
        with (length (st_trace s) + 2 * S i) by lia.
      exact Hbefore.
    + simpl. rewrite length_app. simpl.
      replace (length (st_trace s) + 2 + (k + (k + 0)))
        with (length (st_trace s) + 2 * S k) by lia.
      exact Hat.
Qed.
End Ready.

(** X5: when the first [k] requests to the debugging port are refused and
    the next one succeeds, [k] being less than the number of retries, the
    wait returns the endpoint of that answer after exactly [k] refused
    requests, each followed by one sleep, and one successful request. *)
Theorem waitForCDP_returns_first_answer E port_ maxRetries delayMs k url s :
  k < maxRetries ->
  (forall i, i < k -> refused E port_ (length (st_trace s) + 2 * i)) ->
  answers E port_ (length (st_trace s) + 2 * k) url ->
  waitForCDP E port_ maxRetries delayMs s
  = (Ok url, after (polls port_ delayMs k ++ [EvFetch (version_url port_)]) s).
Proof.
  intros Hk Hbefore Hat. unfold waitForCDP.
  now apply waitForCDP_from_ready.
Qed.

(** ** The instance of a launch *)

Lemma spawned_args_spawn_polls dir path args polls_ :
  Forall is_poll polls_ ->
  spawned_args ([EvMkdir dir; EvSpawn path args] ++ polls_) = [args].
Proof.
  intros Hp. rewrite spawned_args_app, (spawned_args_polls _ Hp). reflexivity.
Qed.

Lemma resolved_spawns_nothing E s d new0 :
  resolved E s d new0 -> spawned_args new0 = [].
Proof.
  intros [[_ ->]|(_ & _ & Hs)]; [reflexivity | now apply spawned_args_resolution].
Qed.

Definition is_kill (e : Event) : bool :=
  match e with EvKill _ _ => true | _ => false end.

Lemma resolved_kills_nothing E s d new0 :
  resolved E s d new0 -> existsb is_kill new0 = false.
Proof.
  intros [[_ ->]|(_ & _ & [ -> | [ -> | [ -> | -> ] ] ])]; reflexivity.
Qed.

Lemma polls_kill_nothing polls_ : Forall is_poll polls_ -> existsb is_kill polls_ = false.
Proof.
  induction 1 as [|e l He _ IH]; [reflexivity|].
  simpl. rewrite IH. now destruct e.
Qed.

(** X6: a launch that returns has started exactly one process, the last of
    the process table, to which no signal has been sent; the instance it
    returns names that process and carries the port and the profile
    directory it was asked for. *)
Theorem launched_instance E o s i s' :
  launchChrome E o s = (Ok i, s') ->
  port i = opt_port o
  /\ profileDirectory i = opt_profileDirectory o
  /\ process i = length (st_procs s)
  /\ (exists p, st_procs s' = (st_procs s ++ [p])%list
                /\ killed p = false /\ cp_signals p = [])
  /\ exists new, st_trace s' = (st_trace s ++ new)%list
                 /\ length (spawned_args new) = 1
                 /\ existsb is_kill new = false.
Proof.
  intros H. destruct (findChromeExecutable E) as [path|] eqn:Hpath.
  2:{ apply launchChrome_inv in H. rewrite Hpath in H. destruct H as [[=] _]. }
  destruct (launchChrome_calls E o s _ s' path Hpath H)
    as (d & new0 & Hres & [(m & [=] & _)|(args & w & polls_ & _ & Hr & Hp & Htr & Hpr & _)]).
  destruct w as [url|m]; [|discriminate]. injection Hr as ->.
  cbn [port profileDirectory process]. splits; try reflexivity.
  - eexists. split; [exact Hpr|]. split; reflexivity.
  - eexists. split; [exact Htr|]. split.
    + rewrite spawned_args_app, (resolved_spawns_nothing _ _ _ _ Hres).
      now rewrite (spawned_args_spawn_polls _ _ _ _ Hp).
    + rewrite existsb_app, (resolved_kills_nothing _ _ _ _ Hres).
      cbn [orb]. rewrite existsb_app, (polls_kill_nothing _ Hp). reflexivity.
Qed.

Lemma waitForCDP_from_gave_up E port_ delayMs maxRetries :
  forall left lastError s m s',
    waitForCDP_from E port_ delayMs maxRetries left lastError s = (Throw m, s') ->
    exists e, m = "Chrome CDP not available after "
                  ++ show_Z (Z.of_nat maxRetries) ++ " retries: " ++ e.
Proof.
  induction left as [|left IH]; intros lastError s m s'; cbn [waitForCDP_from].
  - intros H. apply (f_equal fst) in H. cbn [fst] in H.
    exists (match lastError with Some e => e | None => "undefined" end).
    assert (Hm : forall a b : string, @Throw (option string) a = Throw b -> b = a)
      by (intros a b Hab; congruence).
    exact (Hm _ _ H).
  - unfold bind at 1. pose proof (cdp_attempt_run E port_ delayMs s) as H.
    destruct (fetch_error _) as [e|].
    + rewrite H. apply IH.
    + destruct H as [url ->]. discriminate.
Qed.

(** X7: when the profile directory can be made and the launch still fails,
    it has failed in the wait for the debugging port: the browser process
    has been started and is left as it was started, no signal is sent to
    it, and the launch has recorded it nowhere. *)
Theorem failed_wait_leaves_browser_running E o s m s' path :
  findChromeExecutable E = Some path ->
  (forall t, throws E t = None) ->
  launchChrome E o s = (Throw m, s') ->
  (exists e, m = "Chrome CDP not available after 30 retries: " ++ e)
  /\ (exists p, st_procs s' = (st_procs s ++ [p])%list
                /\ killed p = false /\ cp_signals p = [])
  /\ (exists new, st_trace s' = (st_trace s ++ new)%list
                  /\ length (spawned_args new) = 1
                  /\ existsb is_kill new = false)
  /\ workspaces s' = workspaces s.
Proof.
  intros Hpath Hthrows H.
  destruct (launchChrome_frame E o s _ s' H) as (Hws & _).
  destruct (launchChrome_calls E o s _ s' path Hpath H)
    as (d & new0 & Hres & [(m0 & _ & Hth & _)|(args & w & polls_ & Hb & Hr & Hp & Htr & Hpr & Hw)]).
  - rewrite Hthrows in Hth. discriminate.
  - destruct w as [url|m1]; [discriminate|]. injection Hr as ->.
    splits; try assumption.
    + unfold waitForCDP in Hw.
      destruct (waitForCDP_from_gave_up _ _ _ _ _ _ _ _ _ Hw) as (e & ->).
      exists e. reflexivity.
    + eexists. split; [exact Hpr|]. split; reflexivity.
    + eexists. split; [exact Htr|]. split.
      * rewrite spawned_args_app, (resolved_spawns_nothing _ _ _ _ Hres).
        now rewrite (spawned_args_spawn_polls _ _ _ _ Hp).
      * rewrite existsb_app, (resolved_kills_nothing _ _ _ _ Hres).
        cbn [orb]. rewrite existsb_app, (polls_kill_nothing _ Hp). reflexivity.
Qed.

(** ** Terminating twice *)

(** X8: for a process that still exists, or that a signal has already been
    delivered to, a second [killChrome] does nothing at all: the first call
    delivers at most one SIGTERM and arms at most one timer, and none when
    a signal had been delivered before. *)
Theorem second_killChrome_does_nothing i s p :
  nth_error (st_procs s) (process i) = Some p ->
  cp_handle p = true \/ killed p = true ->
  exists s1,
    killChrome i s = (Ok tt, s1)
    /\ killChrome i s1 = (Ok tt, s1)
    /\ (exists q, nth_error (st_procs s1) (process i) = Some q /\ killed q = true)
    /\ (killed p = true -> s1 = s)
    /\ (killed p = false ->
        st_trace s1
        = (st_trace s ++ [EvKill (process i) SIGTERM; EvSetTimeout 3000])%list
        /\ st_timers s1 = (st_timers s ++ [process i])%list).
Proof.
  intros Hp Hlive.
  unfold killChrome at 1, proc_killed, proc_kill, bind, gets, emit, modify, ret.
  rewrite Hp. destruct (killed p) eqn:Hk; cbn [negb].
  - exists s. splits; auto.
    + unfold killChrome, proc_killed, bind, gets, ret. rewrite Hp, Hk. reflexivity.
    + eauto.
    + discriminate.
  - destruct Hlive as [Hh|[=]]. cbn [st_procs with_trace]. rewrite Hp, Hh.
    eexists. split; [reflexivity|].
    assert (Hq : nth_error
                   (update_at (process i)
                      (fun q => {| cp_pid := cp_pid q; cp_handle := cp_handle q;
                                   killed := true;
                                   cp_signals := (cp_signals q ++ [SIGTERM])%list |})
                      (st_procs s)) (process i)
                 = Some {| cp_pid := cp_pid p; cp_handle := cp_handle p;
                           killed := true;
                           cp_signals := (cp_signals p ++ [SIGTERM])%list |}).
    { rewrite (nth_error_update_at_eq _ _ _ _ _ Hp). reflexivity. }
    splits.
    + unfold killChrome, proc_killed, bind, gets, ret. simpl. rewrite Hq.
      reflexivity.
    + simpl. rewrite Hq. eauto.
    + discriminate.
    + intros _. simpl. rewrite <- app_assoc. split; reflexivity.
Qed.

(** ** The workspace manager *)

(** X9: [GET /workspaces] changes nothing and lists the configured
    workspaces, each once and in the order of the configuration, with the
    port and profile directory of the configuration; a workspace is shown
    running exactly when an instance is tracked for it, then with the
    endpoint of that instance and the [pid] property of its child process,
    which is undefined when the child could not be spawned, and stopped
    otherwise, with neither; [starting] is never shown. *)
Theorem workspace_states_report cfg s :
  exists states,
    get_workspaces cfg s = (Ok (json (BWorkspaces states (currentWorkspace s))), s)
    /\ map ws_name states = JSMap.keys (cfg_workspaces cfg)
    /\ forall w,
         In w states ->
         ws_status w <> starting
         /\ (ws_status w = running <-> JSMap.has (ws_name w) (workspaces s) = true)
         /\ (ws_status w = stopped -> ws_wsEndpoint w = None /\ ws_pid w = None)
         /\ (forall i, JSMap.get (ws_name w) (workspaces s) = Some i ->
                       ws_wsEndpoint w = wsEndpoint i
                       /\ ws_pid w = match nth_error (st_procs s) (process i) with
                                     | Some p => cp_pid p
                                     | None => None
                                     end)
         /\ exists c, In (ws_name w, c) (cfg_workspaces cfg)
                      /\ ws_port w = cfg_port c
                      /\ ws_profileDirectory w = cfg_profileDirectory c.
Proof.
  eexists. split; [reflexivity|]. split.
  - unfold JSMap.entries, JSMap.keys. rewrite map_map. reflexivity.
  - intros w Hin. apply in_map_iff in Hin. destruct Hin as ([n c] & <- & Hin).
    cbn [fst snd ws_status ws_name ws_wsEndpoint ws_pid ws_port ws_profileDirectory].
    unfold JSMap.has. unfold JSMap.entries in Hin.
    destruct (JSMap.get n (workspaces s)) as [i|]; splits;
      try discriminate; try reflexivity; try (split; intros; (reflexivity || discriminate));
      try (intros _; split; reflexivity);
      try (intros i0 [= <-]; split; reflexivity);
      try (intros i0 [=]);
      exists c; auto.
Qed.

Lemma killChrome_cases i s :
  exists s1,
    killChrome i s = (Ok tt, s1)
    /\ (forall pid, pid <> process i ->
                    nth_error (st_procs s1) pid = nth_error (st_procs s) pid)
    /\ (forall pid p, nth_error (st_procs s) pid = Some p ->
          exists q, nth_error (st_procs s1) pid = Some q
                    /\ cp_handle q = cp_handle p
                    /\ (killed p = true -> killed q = true)
                    /\ (pid = process i -> cp_handle p = true -> killed q = true)).
Proof.
  unfold killChrome, proc_killed, proc_kill, bind, gets, emit, modify, ret.
  destruct (nth_error (st_procs s) (process i)) as [p|] eqn:Hp.
  - destruct (killed p) eqn:Hk; cbn [negb].
    + exists s. splits; auto. intros pid p0 Hp0. exists p0. splits; auto.
      intros -> _. congruence.
    + cbn [st_procs with_trace]. rewrite Hp.
      destruct (cp_handle p) eqn:Hh.
      * eexists. split; [reflexivity|]. simpl. split.
        -- intros pid Hne. apply nth_error_update_at_ne. congruence.
        -- intros pid p0 Hp0. destruct (Nat.eq_dec pid (process i)) as [->|Hne].
           ++ rewrite (nth_error_update_at_eq _ _ _ _ _ Hp).
              eexists. split; [reflexivity|]. simpl.
              assert (p0 = p) by congruence. subst p0. auto.
           ++ rewrite nth_error_update_at_ne by congruence.
              exists p0. splits; auto; contradiction.
      * eexists. split; [reflexivity|]. simpl. split; [auto|].
        intros pid p0 Hp0. exists p0. splits; auto.
        intros -> Hh0. congruence.
  - cbn [negb st_procs with_trace]. rewrite Hp.
    eexists. split; [reflexivity|]. simpl. split; [auto|].
    intros pid p0 Hp0. exists p0. splits; auto. intros -> _. congruence.
Qed.

(** X10: [stopWorkspace] always returns; afterwards no instance is tracked
    for the name, the current-workspace pointer is cleared exactly when it
    named a tracked workspace of that name, and every other workspace, every
    process but the one of the stopped instance, the page registry and the
    pooled connections are what they were; for a name with no tracked
    instance nothing changes at all. *)
Theorem stopWorkspace_stops_only_that_workspace name s :
  exists s',
    stopWorkspace name s = (Ok tt, s')
    /\ JSMap.get name (workspaces s') = None
    /\ (forall m, m <> name ->
                  JSMap.get m (workspaces s') = JSMap.get m (workspaces s))
    /\ currentWorkspace s'
       = (if same_name (currentWorkspace s) name && JSMap.has name (workspaces s)
          then None else currentWorkspace s)
    /\ (JSMap.get name (workspaces s) = None -> s' = s)
    /\ (forall pid,
          (forall i, JSMap.get name (workspaces s) = Some i -> process i <> pid) ->
          nth_error (st_procs s') pid = nth_error (st_procs s) pid)
    /\ pageRegistry s' = pageRegistry s
    /\ browserConnections s' = browserConnections s.
Proof.
  unfold stopWorkspace. unfold bind at 1, gets. unfold JSMap.has.
  destruct (JSMap.get name (workspaces s)) as [i|] eqn:Hi.
  - unfold bind at 1.
    destruct (killChrome_cases i s) as (s1 & Hk & Hother & _). rewrite Hk.
    destruct (killChrome_world i s _ _ Hk) as (_ & W2 & W3 & W4 & W5 & _).
    unfold bind, modify, gets; simpl. rewrite W3, andb_true_r.
    destruct (same_name (currentWorkspace s) name); simpl;
      eexists; (split; [reflexivity|]); simpl; rewrite ?W2, ?W4, ?W5;
      (splits; auto;
       [ apply JSMapFacts.get_delete_eq
       | intros m Hm; apply JSMapFacts.get_delete_ne; congruence
       | discriminate
       | intros pid Hpid; apply Hother; specialize (Hpid i eq_refl); congruence ]).
  - exists s. rewrite andb_false_r. splits; auto.
Qed.

(** Between two states: every process is still there with the handle it
    had, and one that a signal had been delivered to still shows it. *)
Definition signals_kept (s s' : St) : Prop :=
  forall pid p,
    nth_error (st_procs s) pid = Some p ->
    exists q, nth_error (st_procs s') pid = Some q
              /\ cp_handle q = cp_handle p
              /\ (killed p = true -> killed q = true).

Lemma signals_kept_refl s : signals_kept s s.
Proof. intros pid p Hp. exists p. auto. Qed.

Lemma signals_kept_trans a b c :
  signals_kept a b -> signals_kept b c -> signals_kept a c.
Proof.
  intros Hab Hbc pid p Hp.
  destruct (Hab pid p Hp) as (q & Hq & Hh & Hk).
  destruct (Hbc pid q Hq) as (q' & Hq' & Hh' & Hk').
  exists q'. splits; auto; congruence.
Qed.

Lemma killChrome_signals_kept i : steps signals_kept (killChrome i).
Proof.
  intros s r s' H pid p Hp.
  destruct (killChrome_cases i s) as (s1 & Hk & _ & Hall).
  rewrite Hk in H. injection H as _ <-.
  destruct (Hall pid p Hp) as (q & Hq & Hh & Hkk & _). eauto.
Qed.

Lemma kill_loop_signals l :
  forall s, exists s',
    for_each l killChrome s = (Ok tt, s')
    /\ signals_kept s s'
    /\ forall i p, In i l ->
         nth_error (st_procs s) (process i) = Some p -> cp_handle p = true ->
         exists q, nth_error (st_procs s') (process i) = Some q /\ killed q = true.
Proof.
  induction l as [|i l IH]; intros s; cbn [for_each].
  - exists s. splits; [reflexivity | apply signals_kept_refl | intros i p []].
  - unfold bind. destruct (killChrome_cases i s) as (s1 & -> & _ & Hall).
    destruct (IH s1) as (s' & -> & Hkept & Hrest).
    assert (H01 : signals_kept s s1).
    { intros pid p Hp. destruct (Hall pid p Hp) as (q & Hq & Hh & Hk & _). eauto. }
    exists s'. splits; [reflexivity | eapply signals_kept_trans; eassumption |].
    intros j p [<-|Hin] Hp Hh.
    + destruct (Hall _ p Hp) as (q & Hq & _ & _ & Hnow).
      destruct (Hkept _ q Hq) as (q' & Hq' & _ & Hk').
      exists q'. split; [assumption|]. apply Hk'. now apply Hnow.
    + destruct (Hall _ p Hp) as (q & Hq & Hhq & _).
      apply (Hrest j q Hin Hq). congruence.
Qed.

(** X11: [stopAll] always returns; afterwards no workspace is tracked and
    none is current, and a signal has been delivered to the process of every
    instance that was tracked and whose process still existed. *)
Theorem stopAll_signals_every_tracked_browser s :
  exists s',
    stopAll s = (Ok tt, s')
    /\ workspaces s' = JSMap.empty
    /\ currentWorkspace s' = None
    /\ forall n i p,
         JSMap.get n (workspaces s) = Some i ->
         nth_error (st_procs s) (process i) = Some p ->
         cp_handle p = true ->
         exists q, nth_error (st_procs s') (process i) = Some q /\ killed q = true.
Proof.
  unfold stopAll. unfold bind at 1, gets. unfold bind at 1.
  destruct (kill_loop_signals (JSMap.values (workspaces s)) s) as (s1 & -> & _ & Hall).
  eexists. split; [reflexivity|]. simpl. splits; auto.
  intros n i p Hget. apply Hall.
  apply JSMapFacts.get_In in Hget. unfold JSMap.values.
  apply in_map_iff. exists (n, i). auto.
Qed.

(** ** What a request leaves behind *)

(** Reasoning about the result of a computation together with its final
    state, past steps that keep a preorder [F]. *)
Section Outcome.
Variable A : Type.
Variable F : St -> St -> Prop.
Variable Q : St -> Result A -> St -> Prop.
Hypothesis Q_after : forall s s1 r s', F s s1 -> Q s1 r s' -> Q s r s'.
Hypothesis Q_throw : forall s m s', F s s' -> Q s (Throw m) s'.

Definition outcome (c : M A) : Prop := forall s r s', c s = (r, s') -> Q s r s'.

Lemma outcome_bind B (c : M B) (k : B -> M A) :
  steps F c -> (forall b, outcome (k b)) -> outcome (bind c k).
Proof.
  intros Hc Hk s r s' H.
  destruct (bind_inv _ _ _ _ _ _ _ H) as [(b & s1 & H1 & H2)|(m & H1 & ->)].
  - eapply Q_after; [eapply Hc, H1 | eapply Hk, H2].
  - apply Q_throw. eapply Hc, H1.
Qed.
End Outcome.

Definition same_registry (s s' : St) : Prop := pageRegistry s' = pageRegistry s.

Lemma same_registry_refl s : same_registry s s.
Proof. reflexivity. Qed.

Lemma same_registry_trans a b c :
  same_registry a b -> same_registry b c -> same_registry a c.
Proof. unfold same_registry. congruence. Qed.

Ltac registry_step :=
  intros; unfold emit; apply steps_modify; intros; reflexivity.

Ltac registry_walk_with special :=
  step_through_with special same_registry_refl same_registry_trans;
  try registry_step.

Section Registry.
Variable E : Env.
Variable cfg : WorkspacesConfig.

Lemma launchChrome_same_registry o : steps same_registry (launchChrome E o).
Proof.
  intros s r s' H.
  destruct (launchChrome_frame E o s r s' H) as (_ & _ & Hreg & _). exact Hreg.
Qed.

Lemma switchWorkspace_same_registry n : steps same_registry (switchWorkspace E cfg n).
Proof.
  unfold switchWorkspace.
  registry_walk_with ltac:(apply launchChrome_same_registry).
Qed.

Lemma connect_if_needed_same_registry n i :
  steps same_registry (connect_if_needed E n i).
Proof.
  unfold connect_if_needed, connectOverCDP, open_browser, outside, now.
  registry_walk_with fail.
Qed.

Lemma getCurrentBrowser_same_registry : steps same_registry (getCurrentBrowser E cfg).
Proof.
  unfold getCurrentBrowser.
  registry_walk_with ltac:(first [ apply switchWorkspace_same_registry
                                 | apply connect_if_needed_same_registry ]).
Qed.

Lemma world_only_same_registry s s' : world_only s s' -> same_registry s s'.
Proof. intros (_ & _ & _ & H & _). exact H. Qed.

(** What [create_entry] does to the registry, by its result. *)
Definition entry_recorded (name : string) (s : St) (r : Result (PageEntry + Response))
    (s' : St) : Prop :=
  match r with
  | Ok (inl entry) => pageRegistry s' = JSMap.set name entry (pageRegistry s)
  | Ok (inr response) => status response = 500%Z /\ pageRegistry s' = pageRegistry s
  | Throw _ => pageRegistry s' = pageRegistry s
  end.

Lemma entry_recorded_after name s s1 r s' :
  same_registry s s1 -> entry_recorded name s1 r s' -> entry_recorded name s r s'.
Proof.
  unfold same_registry, entry_recorded. intros <-. auto.
Qed.

Lemma entry_recorded_throw name s m s' :
  same_registry s s' -> entry_recorded name s (Throw m) s'.
Proof. auto. Qed.

Lemma create_entry_outcome name viewport :
  outcome _ (entry_recorded name) (create_entry E cfg name viewport).
Proof.
  unfold create_entry.
  apply (outcome_bind _ same_registry _ (entry_recorded_after name)
           (entry_recorded_throw name)); [apply getCurrentBrowser_same_registry|].
  intros [b|]; [|intros s r s' [= <- <-]; reflexivity].
  apply (outcome_bind _ same_registry _ (entry_recorded_after name)
           (entry_recorded_throw name)); [registry_walk_with fail|].
  intros [|x0 rest]; [intros s r s' [= <- <-]; split; reflexivity|].
  apply (outcome_bind _ same_registry _ (entry_recorded_after name)
           (entry_recorded_throw name)).
  { intros s r s' H. apply world_only_same_registry.
    exact (proj1 (proj2 (newPage_run E _ _ _ _ _ H))). }
  intros p.
  apply (outcome_bind _ same_registry _ (entry_recorded_after name)
           (entry_recorded_throw name)).
  { intros s r s' H. apply world_only_same_registry.
    exact (viewport_world E _ _ _ _ _ H). }
  intros [].
  apply (outcome_bind _ same_registry _ (entry_recorded_after name)
           (entry_recorded_throw name)).
  { intros s r s' H. apply world_only_same_registry.
    exact (outside_world E _ _ _ _ H). }
  intros [].
  apply (outcome_bind _ same_registry _ (entry_recorded_after name)
           (entry_recorded_throw name)).
  { intros s r s' H. apply world_only_same_registry.
    exact (getTargetInfo_world E _ _ _ _ H). }
  intros target.
  apply (outcome_bind _ same_registry _ (entry_recorded_after name)
           (entry_recorded_throw name)).
  { intros s r s' H. apply world_only_same_registry.
    exact (outside_world E _ _ _ _ H). }
  intros [] s r s' H.
  cbv [bind getCurrentWorkspace gets modify on_close ret] in H.
  end_run H. reflexivity.
Qed.
End Registry.

Lemma truthy_false n : truthy n = false <-> n = "".
Proof.
  unfold truthy. destruct (String.eqb_spec n ""); simpl; split; congruence.
Qed.

(** X12: [POST /pages] always answers, with 200, 400 or 500: with 400
    exactly when the name is missing or empty; whenever the answer is not
    200 the page registry is what it was; and an answer 200 carries the
    target id of the entry the registry then has under the name. *)
Theorem page_request_outcomes E cfg name viewport s :
  exists resp s',
    post_pages E cfg name viewport s = (Ok resp, s')
    /\ (status resp = 200 \/ status resp = 400 \/ status resp = 500)%Z
    /\ (status resp = 400%Z <-> name = None \/ name = Some "")
    /\ (status resp <> 200%Z -> pageRegistry s' = pageRegistry s)
    /\ (status resp = 200%Z ->
        exists n e endpoint,
          name = Some n
          /\ JSMap.get n (pageRegistry s') = Some e
          /\ body resp = BPage endpoint n (targetId e)).
Proof.
  destruct name as [n|].
  2:{ do 2 eexists. split; [reflexivity|]. simpl. splits; auto.
      - split; auto.
      - discriminate. }
  unfold post_pages. destruct (truthy n) eqn:Hn; cbn [negb].
  2:{ do 2 eexists. split; [reflexivity|]. simpl. splits; auto.
      - split; auto. intros _. right. f_equal. now apply truthy_false.
      - discriminate. }
  assert (Hne : Some n <> Some "").
  { intros [= ->]. discriminate. }
  unfold try_catch, bind at 1, gets.
  destruct (JSMap.get n (pageRegistry s)) as [entry|] eqn:Hf.
  - unfold bind, ret, getCurrentInstance, gets, json.
    do 2 eexists. split; [reflexivity|]. simpl. splits; auto.
    + split; [discriminate | intros [[=]|H]; contradiction].
    + intros _. do 3 eexists. splits; [reflexivity | exact Hf | reflexivity].
  - unfold bind at 1.
    destruct (create_entry E cfg n viewport s) as [r0 s1] eqn:Hc.
    pose proof (create_entry_outcome E cfg n viewport _ _ _ Hc) as Ho.
    destruct r0 as [[entry|resp]|m]; cbn [entry_recorded] in Ho.
    + unfold bind, ret, getCurrentInstance, gets, json.
      do 2 eexists. split; [reflexivity|]. simpl. splits; auto.
      * split; [discriminate | intros [[=]|H]; contradiction].
      * intros H. contradiction.
      * intros _. do 3 eexists. splits; [reflexivity | | reflexivity].
        rewrite Ho. apply JSMapFacts.get_set_eq.
    + destruct Ho as [H500 Hreg]. unfold ret.
      do 2 eexists. split; [reflexivity|]. splits; auto.
      * split; [rewrite H500; discriminate | intros [[=]|H]; contradiction].
      * intros H. rewrite H500 in H. discriminate.
    + unfold ret. do 2 eexists. split; [reflexivity|]. simpl. splits; auto.
      * split; [discriminate | intros [[=]|H]; contradiction].
      * discriminate.
Qed.

Lemma connect_if_needed_cases E n i s r s' :
  connect_if_needed E n i s = (r, s') ->
  workspaces s' = workspaces s
  /\ currentWorkspace s' = currentWorkspace s
  /\ pageRegistry s' = pageRegistry s
  /\ ((r = Ok tt
       /\ (opt_truthy (wsEndpoint i) = true ->
           JSMap.has n (browserConnections s') = true)
       /\ (browserConnections s' = browserConnections s
           \/ exists b, browserConnections s'
                        = JSMap.set n b (browserConnections s)))
      \/ (exists m, r = Throw m /\ browserConnections s' = browserConnections s)).
Proof.
  cbv [connect_if_needed connectOverCDP open_browser outside bind now gets emit
       modify ret throw].
  intros H.
  destruct (wsEndpoint i) as [endpoint|]; cbn [opt_truthy].
  - destruct (JSMap.has n (browserConnections s)) eqn:Hhas; cbn [negb andb] in H.
    + end_run H. splits; try reflexivity. left. splits; auto.
    + destruct (truthy endpoint) eqn:Ht.
      * destruct (throws E (length (st_trace s))) as [m|].
        -- end_run H. simpl. splits; try reflexivity. right. eauto.
        -- end_run H. simpl. splits; try reflexivity. left. splits; eauto.
           intros _. unfold JSMap.has. now rewrite JSMapFacts.get_set_eq.
      * end_run H. splits; try reflexivity. left. splits; auto. discriminate.
  - end_run H. splits; try reflexivity. left. splits; auto. discriminate.
Qed.


(** ** Stopping a workspace, once and again *)

Lemma stopWorkspace_pointer name s :
  exists s',
    stopWorkspace name s = (Ok tt, s')
    /\ workspaces s' = JSMap.delete name (workspaces s)
    /\ currentWorkspace s'
       = (if same_name (currentWorkspace s) name && JSMap.has name (workspaces s)
          then None else currentWorkspace s)
    /\ pageRegistry s' = pageRegistry s
    /\ browserConnections s' = browserConnections s
    /\ (JSMap.get name (workspaces s) = None -> s' = s).
Proof.
  unfold stopWorkspace. unfold bind at 1, gets. unfold JSMap.has.
  destruct (JSMap.get name (workspaces s)) as [i|] eqn:Hi.
  - unfold bind at 1.
    destruct (killChrome_total i s) as ([] & s1 & Hk). rewrite Hk.
    destruct (killChrome_world i s _ _ Hk) as (_ & W2 & W3 & W4 & W5 & _).
    unfold bind, modify, gets; simpl. rewrite W3, andb_true_r.
    destruct (same_name (currentWorkspace s) name); simpl;
      eexists; (split; [reflexivity|]); simpl; rewrite ?W2, ?W4, ?W5;
      splits; auto; discriminate.
  - exists s. rewrite andb_false_r. splits; auto.
    symmetry. apply JSMapFacts.delete_absent. now apply JSMapFacts.get_None_keys.
Qed.

Lemma post_workspace_stop_run E n s :
  truthy n = true ->
  exists s',
    post_workspace_stop E (Some n) s = (Ok (json (BStop n)), s')
    /\ pageRegistry s' = fold_left (purge n) (pageRegistry s) (pageRegistry s)
    /\ browserConnections s' = JSMap.delete n (browserConnections s)
    /\ workspaces s' = JSMap.delete n (workspaces s)
    /\ currentWorkspace s'
       = (if same_name (currentWorkspace s) n && JSMap.has n (workspaces s)
          then None else currentWorkspace s).
Proof.
  intros Hn. unfold post_workspace_stop. rewrite Hn. simpl negb. cbv iota.
  unfold bind at 1, gets. unfold JSMap.entries.
  change (fun ne : string * PageEntry =>
            if owned_by n (snd ne)
            then page_close_detached E (page (snd ne));;;
                 modify (fun s0 => with_pageRegistry
                                     (JSMap.delete (fst ne) (pageRegistry s0)) s0)
            else ret tt)
    with (stop_body E n).
  unfold bind at 1. change (negb true) with false. cbv beta iota.
  destruct (stop_loop E n (pageRegistry s) s) as (s1 & -> & Hr & Hw & Hb & Hc).
  unfold bind at 1, gets. unfold bind at 1.
  assert (Hbrowser : exists s2,
    match JSMap.get n (browserConnections s1) with
    | Some b =>
        browser_close_detached E b;;;
        modify (fun s0 => with_browserConnections
                            (JSMap.delete n (browserConnections s0)) s0)
    | None => ret tt
    end s1 = (Ok tt, s2)
    /\ pageRegistry s2 = pageRegistry s1
    /\ workspaces s2 = workspaces s1
    /\ currentWorkspace s2 = currentWorkspace s1
    /\ browserConnections s2 = JSMap.delete n (browserConnections s1)).
  { destruct (JSMap.get n (browserConnections s1)) as [b|] eqn:Hg.
    - unfold bind, browser_close_detached. rewrite outside_swallowed.
      eexists. split; [reflexivity|]. simpl. auto.
    - exists s1. splits; auto. symmetry. apply JSMapFacts.delete_absent.
      now apply JSMapFacts.get_None_keys. }
  destruct Hbrowser as (s2 & -> & Hr2 & Hw2 & Hc2 & Hb2).
  unfold bind at 1.
  destruct (stopWorkspace_pointer n s2) as (s3 & -> & Hw3 & Hc3 & Hr3 & Hb3 & _).
  exists s3. splits; [reflexivity | congruence | congruence | congruence |].
  rewrite Hc3, Hc2, Hc, Hw2, Hw. reflexivity.
Qed.

Lemma purged_not_owned n (m : JSMap.t PageEntry) ne :
  In ne (fold_left (purge n) m m) -> In ne m /\ owned_by n (snd ne) = false.
Proof.
  rewrite purge_all_filter. intros H. apply filter_In in H. destruct H as [Hin Hf].
  split; [assumption|]. apply negb_true_iff in Hf.
  destruct (owned_by n (snd ne)) eqn:Ho; [|reflexivity].
  assert (Hex : existsb (fun ne0 => owned_by n (snd ne0)
                                    && String.eqb (fst ne0) (fst ne)) m = true).
  { apply existsb_exists. exists ne. now rewrite Ho, String.eqb_refl. }
  congruence.
Qed.

Lemma stop_loop_quiet E n l :
  (forall ne, In ne l -> owned_by n (snd ne) = false) ->
  forall s, for_each l (stop_body E n) s = (Ok tt, s).
Proof.
  induction l as [|ne l IH]; intros Hl s; cbn [for_each]; [reflexivity|].
  unfold bind, stop_body at 1. rewrite (Hl ne (or_introl eq_refl)). unfold ret.
  apply IH. intros x Hx. apply Hl. now right.
Qed.

Lemma post_workspace_stop_quiet E n s :
  truthy n = true ->
  (forall ne, In ne (pageRegistry s) -> owned_by n (snd ne) = false) ->
  JSMap.get n (browserConnections s) = None ->
  JSMap.get n (workspaces s) = None ->
  post_workspace_stop E (Some n) s = (Ok (json (BStop n)), s).
Proof.
  intros Hn Hown Hb Hw. unfold post_workspace_stop. rewrite Hn. simpl negb. cbv iota.
  unfold bind at 1, gets. unfold JSMap.entries.
  change (fun ne : string * PageEntry =>
            if owned_by n (snd ne)
            then page_close_detached E (page (snd ne));;;
                 modify (fun s0 => with_pageRegistry
                                     (JSMap.delete (fst ne) (pageRegistry s0)) s0)
            else ret tt)
    with (stop_body E n).
  unfold bind at 1. change (negb true) with false. cbv beta iota.
  rewrite (stop_loop_quiet E n _ Hown).
  unfold bind at 1, gets. rewrite Hb. unfold bind at 1, ret.
  unfold stopWorkspace, bind, gets. rewrite Hw. reflexivity.
Qed.

(** X14: for a non-empty name, [POST /workspace/stop] always answers
    success, also for a workspace that is not running or not configured:
    when no instance is tracked for the name, no connection is pooled for
    it and it owns no page, nothing changes at all; and a stop that is
    repeated right away is such a stop. *)
Theorem stop_request_is_idempotent E n s :
  truthy n = true ->
  ((forall ne, In ne (pageRegistry s) -> owned_by n (snd ne) = false) ->
   JSMap.get n (browserConnections s) = None ->
   JSMap.get n (workspaces s) = None ->
   post_workspace_stop E (Some n) s = (Ok (json (BStop n)), s))
  /\ exists s1,
      post_workspace_stop E (Some n) s = (Ok (json (BStop n)), s1)
      /\ post_workspace_stop E (Some n) s1 = (Ok (json (BStop n)), s1).
Proof.
  intros Hn. split; [now apply post_workspace_stop_quiet|].
  destruct (post_workspace_stop_run E n s Hn) as (s1 & H1 & Hr & Hb & Hw & _).
  exists s1. split; [assumption|].
  apply post_workspace_stop_quiet; [assumption | | |].
  - intros ne Hin. rewrite Hr in Hin. now apply purged_not_owned in Hin.
  - rewrite Hb. apply JSMapFacts.get_delete_eq.
  - rewrite Hw. apply JSMapFacts.get_delete_eq.
Qed.

(** ** What every state of the server satisfies *)

Lemma In_set A (m : JSMap.t A) k v x :
  In x (JSMap.set k v m) -> x = (k, v) \/ In x m.
Proof.
  induction m as [|[k' v'] m IH]; simpl.
  - intros [<-|[]]. now left.
  - destruct (String.eqb k k').
    + intros [<-|H]; auto.
    + intros [<-|H]; auto. destruct (IH H); auto.
Qed.

Lemma has_set A (m : JSMap.t A) k v n :
  JSMap.has n (JSMap.set k v m) = true -> n = k \/ JSMap.has n m = true.
Proof.
  unfold JSMap.has. destruct (String.eqb_spec k n) as [->|Hne]; [auto|].
  rewrite JSMapFacts.get_set_ne by assumption. auto.
Qed.

Lemma has_set_mono A (m : JSMap.t A) k v n :
  JSMap.has n m = true -> JSMap.has n (JSMap.set k v m) = true.
Proof.
  unfold JSMap.has. destruct (String.eqb_spec k n) as [->|Hne].
  - now rewrite JSMapFacts.get_set_eq.
  - now rewrite JSMapFacts.get_set_ne by assumption.
Qed.

Lemma has_delete A (m : JSMap.t A) k n :
  JSMap.has n (JSMap.delete k m) = true -> n <> k /\ JSMap.has n m = true.
Proof.
  unfold JSMap.has. destruct (String.eqb_spec k n) as [->|Hne].
  - now rewrite JSMapFacts.get_delete_eq.
  - rewrite JSMapFacts.get_delete_ne by assumption. auto.
Qed.

Lemma has_delete_other A (m : JSMap.t A) k n :
  n <> k -> JSMap.has n m = true -> JSMap.has n (JSMap.delete k m) = true.
Proof.
  intros Hne. unfold JSMap.has. now rewrite JSMapFacts.get_delete_ne by congruence.
Qed.

Section Consistency.
Variable E : Env.
Variable cfg : WorkspacesConfig.

(** An instance is tracked for the workspace. *)
Definition tracked (n : string) (s : St) : Prop :=
  JSMap.has n (workspaces s) = true.

(** The current workspace is tracked, every tracked workspace is configured
    and every pooled connection is that of a tracked workspace. *)
Definition manager_ok (s : St) : Prop :=
  (forall n, currentWorkspace s = Some n -> tracked n s)
  /\ (forall n, tracked n s -> hasWorkspace cfg n = true)
  /\ (forall n, JSMap.has n (browserConnections s) = true -> tracked n s).

(** Every page of the registry has an owner, and it is tracked. *)
Definition pages_owned (s : St) : Prop :=
  forall name e,
    In (name, e) (pageRegistry s) ->
    exists w, workspace e = Some w /\ tracked w s.

Definition consistent (s : St) : Prop := manager_ok s /\ pages_owned s.

(** Between two states: the manager stays in order and no workspace stops
    being tracked. *)
Definition grows (s s' : St) : Prop :=
  (manager_ok s -> manager_ok s') /\ (forall n, tracked n s -> tracked n s').

Lemma grows_refl s : grows s s.
Proof. split; auto. Qed.

Lemma grows_trans a b c : grows a b -> grows b c -> grows a c.
Proof. intros [H1 H2] [H3 H4]. split; auto. Qed.

Lemma grows_fields s s' :
  workspaces s' = workspaces s ->
  currentWorkspace s' = currentWorkspace s ->
  browserConnections s' = browserConnections s ->
  grows s s'.
Proof.
  intros Hw Hc Hb. unfold grows, manager_ok, tracked. rewrite Hw, Hc, Hb. auto.
Qed.

Ltac grows_step :=
  intros; unfold emit; apply steps_modify; intros; apply grows_fields; reflexivity.

Ltac grows_walk_with special :=
  step_through_with special grows_refl grows_trans; try grows_step.

Lemma launchChrome_grows o : steps grows (launchChrome E o).
Proof.
  intros s r s' H.
  destruct (launchChrome_frame E o s r s' H) as (Hw & Hc & _ & Hb & _).
  now apply grows_fields.
Qed.

Lemma switchWorkspace_grows n : steps grows (switchWorkspace E cfg n).
Proof.
  intros s r s' H.
  destruct (JSMap.get n (cfg_workspaces cfg)) as [c|] eqn:Hc.
  2:{ unfold switchWorkspace in H. rewrite Hc in H. injection H as _ <-.
      apply grows_refl. }
  assert (Hconf : hasWorkspace cfg n = true).
  { unfold hasWorkspace, JSMap.has. now rewrite Hc. }
  assert (Hset : forall s0 i,
             grows s0 (with_currentWorkspace (Some n)
                         (with_workspaces (JSMap.set n i (workspaces s0)) s0))).
  { intros s0 i. unfold grows, manager_ok, tracked. simpl. split.
    - intros (Ha & Hb & Hd). splits.
      + intros m [= <-]. unfold JSMap.has. now rewrite JSMapFacts.get_set_eq.
      + intros m Hm. apply has_set in Hm. destruct Hm as [->|Hm]; auto.
      + intros m Hm. apply has_set_mono. auto.
    - intros m Hm. now apply has_set_mono. }
  destruct (JSMap.get n (workspaces s)) as [i|] eqn:Hi.
  - rewrite (switchWorkspace_tracked E cfg n c i s Hc Hi) in H. injection H as _ <-.
    unfold grows, manager_ok, tracked. simpl. split; [|auto].
    intros (Ha & Hb & Hd). splits; auto.
    intros m [= <-]. unfold JSMap.has. now rewrite Hi.
  - destruct (switchWorkspace_untracked E cfg n c s r s' Hc Hi H)
      as (r0 & s0 & Hl & Hr).
    pose proof (launchChrome_grows _ _ _ _ Hl) as G0.
    destruct r0 as [i|m].
    + destruct Hr as [_ ->]. eapply grows_trans; [exact G0 | apply Hset].
    + destruct Hr as [_ ->]. exact G0.
Qed.

Lemma switchWorkspace_Ok_tracked n s i s' :
  switchWorkspace E cfg n s = (Ok i, s') -> tracked n s'.
Proof.
  intros H. destruct (JSMap.get n (cfg_workspaces cfg)) as [c|] eqn:Hc.
  - destruct (switchWorkspace_Ok E cfg n c s i s' Hc H) as (Hi & _).
    unfold tracked, JSMap.has. now rewrite Hi.
  - unfold switchWorkspace in H. rewrite Hc in H. discriminate.
Qed.

(** A switch followed by the connection to the instance it gave. *)
Lemma switch_connect_grows n A (k : ChromeInstance -> unit -> M A) :
  (forall i a, steps grows (k i a)) ->
  steps grows (bind (switchWorkspace E cfg n)
                 (fun instance =>
                    bind (connect_if_needed E n instance) (k instance))).
Proof.
  intros Hk s r s' H.
  destruct (bind_inv _ _ _ _ _ _ _ H) as [(i & s1 & Hsw & H1)|(m & Hsw & _)].
  2:{ exact (switchWorkspace_grows n _ _ _ Hsw). }
  pose proof (switchWorkspace_grows n _ _ _ Hsw) as G1.
  pose proof (switchWorkspace_Ok_tracked n _ _ _ Hsw) as Ht.
  assert (Hconn : forall r2 s2,
             connect_if_needed E n i s1 = (r2, s2) -> grows s1 s2).
  { intros r2 s2 Hcn.
    destruct (connect_if_needed_cases E n i s1 r2 s2 Hcn)
      as (Hw & Hc & _ & [(_ & _ & [Hb|(b & Hb)])|(m & _ & Hb)]);
      try (now apply grows_fields).
    unfold grows, manager_ok, tracked in *. rewrite Hw, Hc, Hb. split; [|auto].
    intros (Ha & Hcf & Hd). splits; auto.
    intros m Hm. apply has_set in Hm. destruct Hm as [->|Hm]; auto. }
  destruct (bind_inv _ _ _ _ _ _ _ H1) as [(u & s2 & Hcn & H2)|(m & Hcn & _)].
  - eapply grows_trans; [exact G1|].
    eapply grows_trans; [exact (Hconn _ _ Hcn) | exact (Hk _ _ _ _ _ H2)].
  - eapply grows_trans; [exact G1 | exact (Hconn _ _ Hcn)].
Qed.

Lemma getCurrentBrowser_grows : steps grows (getCurrentBrowser E cfg).
Proof.
  unfold getCurrentBrowser.
  grows_walk_with ltac:(apply switch_connect_grows).
Qed.

Lemma create_entry_grows name viewport :
  steps grows (create_entry E cfg name viewport).
Proof.
  unfold create_entry, newPage, setViewportSize, getTargetInfo, on_close, outside,
    now, getCurrentWorkspace.
  grows_walk_with ltac:(apply getCurrentBrowser_grows).
Qed.

Lemma post_pages_grows name viewport : steps grows (post_pages E cfg name viewport).
Proof.
  unfold post_pages, getCurrentInstance.
  grows_walk_with ltac:(apply create_entry_grows).
Qed.

Lemma post_workspace_switch_grows w : steps grows (post_workspace_switch E cfg w).
Proof.
  unfold post_workspace_switch, getWorkspaceStates.
  grows_walk_with ltac:(apply switch_connect_grows).
Qed.

Lemma post_workspace_switch_same_registry w :
  steps same_registry (post_workspace_switch E cfg w).
Proof.
  unfold post_workspace_switch, getWorkspaceStates.
  registry_walk_with ltac:(first [ apply switchWorkspace_same_registry
                                 | apply connect_if_needed_same_registry ]).
Qed.
End Consistency.

(** Between two states: the manager is what it was and the registry has
    gained no entry. *)
Definition shrinks (s s' : St) : Prop :=
  workspaces s' = workspaces s
  /\ currentWorkspace s' = currentWorkspace s
  /\ browserConnections s' = browserConnections s
  /\ forall x, In x (pageRegistry s') -> In x (pageRegistry s).

Lemma shrinks_refl s : shrinks s s.
Proof. unfold shrinks. auto. Qed.

Lemma shrinks_trans a b c : shrinks a b -> shrinks b c -> shrinks a c.
Proof.
  intros (A1 & A2 & A3 & A4) (B1 & B2 & B3 & B4).
  unfold shrinks. splits; try congruence. auto.
Qed.

Lemma In_delete A (m : JSMap.t A) k x : In x (JSMap.delete k m) -> In x m.
Proof. unfold JSMap.delete. intros H. apply filter_In in H. tauto. Qed.

Ltac shrinks_step :=
  intros; unfold emit; apply steps_modify; intros; unfold shrinks;
  splits; try reflexivity; simpl; intros;
  first [ assumption | eapply In_delete; eassumption ].

Lemma page_close_shrinks E p : steps shrinks (page_close E p).
Proof.
  unfold page_close, outside, now.
  step_through shrinks_refl shrinks_trans; try shrinks_step.
Qed.

Lemma delete_pages_shrinks E name : steps shrinks (delete_pages E name).
Proof.
  unfold delete_pages.
  step_through_with ltac:(apply page_close_shrinks) shrinks_refl shrinks_trans;
    try shrinks_step.
Qed.

Definition unchanged (s s' : St) : Prop := s' = s.

Lemma unchanged_refl s : unchanged s s.
Proof. reflexivity. Qed.

Lemma unchanged_trans a b c : unchanged a b -> unchanged b c -> unchanged a c.
Proof. unfold unchanged. congruence. Qed.

Lemma get_workspaces_unchanged cfg : steps unchanged (get_workspaces cfg).
Proof.
  unfold get_workspaces, getWorkspaceStates, getCurrentWorkspace.
  step_through unchanged_refl unchanged_trans.
Qed.

Lemma get_workspace_current_unchanged : steps unchanged get_workspace_current.
Proof.
  unfold get_workspace_current, getCurrentInstance, getCurrentWorkspace.
  step_through unchanged_refl unchanged_trans.
Qed.

Lemma get_root_unchanged : steps unchanged get_root.
Proof.
  unfold get_root, getCurrentInstance, getCurrentWorkspace.
  step_through unchanged_refl unchanged_trans.
Qed.

Lemma get_pages_unchanged : steps unchanged get_pages.
Proof.
  unfold get_pages. step_through unchanged_refl unchanged_trans.
Qed.

Section Served.
Variable E : Env.
Variable cfg : WorkspacesConfig.

Lemma post_pages_registry name viewport s r s' :
  post_pages E cfg name viewport s = (r, s') ->
  pageRegistry s' = pageRegistry s
  \/ exists n e w,
      pageRegistry s' = JSMap.set n e (pageRegistry s)
      /\ workspace e = Some w
      /\ currentWorkspace s' = Some w.
Proof.
  destruct name as [n|]; [|intros [= _ <-]; now left].
  unfold post_pages. destruct (truthy n); cbn [negb]; [|intros [= _ <-]; now left].
  unfold try_catch, bind at 1, gets.
  destruct (JSMap.get n (pageRegistry s)) as [entry|] eqn:Hf.
  - unfold bind, ret, getCurrentInstance, gets. intros H. end_state H. now left.
  - unfold bind at 1.
    destruct (create_entry E cfg n viewport s) as [r0 s1] eqn:Hc.
    pose proof (create_entry_outcome E cfg n viewport _ _ _ Hc) as Ho.
    pose proof (create_entry_inv E cfg n viewport _ _ _ Hc) as Hi.
    destruct r0 as [[entry|resp]|m]; cbn [entry_recorded] in Ho.
    + unfold bind, ret, getCurrentInstance, gets. intros H. end_state H.
      destruct Hi as (b & w & _ & Hcur & Hown & _).
      right. exists n, entry, w. auto.
    + unfold ret. intros H. end_state H. left. tauto.
    + unfold ret. intros H. end_state H. now left.
Qed.

Lemma post_pages_consistent name viewport s r s' :
  post_pages E cfg name viewport s = (r, s') ->
  consistent cfg s -> consistent cfg s'.
Proof.
  intros H [Hm Hp].
  destruct (post_pages_grows E cfg name viewport _ _ _ H) as [Gm Gt].
  specialize (Gm Hm). split; [assumption|].
  destruct (post_pages_registry _ _ _ _ _ H) as [Hreg|(n & e & w & Hreg & Hown & Hcur)];
    intros name0 e0 Hin; rewrite Hreg in Hin.
  - destruct (Hp _ _ Hin) as (w & Hw & Ht). eauto.
  - apply In_set in Hin. destruct Hin as [[= -> ->]|Hin].
    + exists w. split; [assumption|]. destruct Gm as (Ha & _). now apply Ha.
    + destruct (Hp _ _ Hin) as (w0 & Hw & Ht). eauto.
Qed.

Lemma delete_pages_consistent name s r s' :
  delete_pages E name s = (r, s') ->
  consistent cfg s -> consistent cfg s'.
Proof.
  intros H [Hm Hp].
  destruct (delete_pages_shrinks E name _ _ _ H) as (Hw & Hc & Hb & Hin).
  unfold consistent, manager_ok, pages_owned, tracked in *.
  rewrite Hw, Hc, Hb. split; [assumption|].
  intros name0 e0 H0. apply (Hp name0 e0). now apply Hin.
Qed.

Lemma post_workspace_switch_consistent w s r s' :
  post_workspace_switch E cfg w s = (r, s') ->
  consistent cfg s -> consistent cfg s'.
Proof.
  intros H [Hm Hp].
  destruct (post_workspace_switch_grows E cfg w _ _ _ H) as [Gm Gt].
  pose proof (post_workspace_switch_same_registry E cfg w _ _ _ H) as Hreg.
  split; [auto|]. intros name e Hin. rewrite Hreg in Hin.
  destruct (Hp _ _ Hin) as (w0 & Hw & Ht). eauto.
Qed.

Lemma post_workspace_stop_consistent w s r s' :
  post_workspace_stop E w s = (r, s') ->
  consistent cfg s -> consistent cfg s'.
Proof.
  intros H Hcons.
  destruct w as [n|]; [|injection H as _ <-; assumption].
  destruct (truthy n) eqn:Hn.
  2:{ unfold post_workspace_stop in H. rewrite Hn in H. injection H as _ <-.
      assumption. }
  destruct (post_workspace_stop_run E n s Hn) as (s1 & H1 & Hr & Hb & Hw & Hc).
  rewrite H1 in H. injection H as _ <-.
  destruct Hcons as [(Ha & Hcf & Hd) Hp].
  unfold consistent, manager_ok, pages_owned, tracked in *.
  rewrite Hr, Hb, Hw, Hc. splits.
  - intros m Hm.
    destruct (currentWorkspace s) as [c|] eqn:Hcur; cbn [same_name] in Hm.
    + destruct (String.eqb_spec c n) as [->|Hne]; cbn [andb] in Hm.
      * rewrite (Ha n eq_refl) in Hm. discriminate.
      * injection Hm as <-. apply has_delete_other; auto.
    + discriminate.
  - intros m Hm. apply has_delete in Hm. apply Hcf. tauto.
  - intros m Hm. apply has_delete in Hm. destruct Hm as [Hne Hm].
    apply has_delete_other; auto.
  - intros name e Hin. apply purged_not_owned in Hin. destruct Hin as [Hin Hown].
    destruct (Hp _ _ Hin) as (w & Hw0 & Ht). exists w. split; [assumption|].
    apply has_delete_other; [|assumption].
    unfold owned_by in Hown. cbn [snd] in Hown. rewrite Hw0 in Hown.
    cbn [same_name] in Hown. now apply String.eqb_neq.
Qed.

Lemma serve_request_consistent q s r s' :
  serve_request E cfg q s = (r, s') ->
  consistent cfg s -> consistent cfg s'.
Proof.
  destruct q as [ | |w|w| |[|name viewport|name]]; cbn [serve_request serve_page_request];
    intros H.
  - now rewrite (get_workspaces_unchanged cfg _ _ _ H).
  - now rewrite (get_workspace_current_unchanged _ _ _ H).
  - now apply (post_workspace_switch_consistent _ _ _ _ H).
  - now apply (post_workspace_stop_consistent _ _ _ _ H).
  - now rewrite (get_root_unchanged _ _ _ H).
  - now rewrite (get_pages_unchanged _ _ _ H).
  - now apply (post_pages_consistent _ _ _ _ _ H).
  - now apply (delete_pages_consistent _ _ _ _ H).
Qed.

Lemma serve_requests_consistent reqs :
  forall s r s',
    serve_requests E cfg reqs s = (r, s') ->
    consistent cfg s -> consistent cfg s'.
Proof.
  unfold serve_requests.
  induction reqs as [|q reqs IH]; intros s r s' H Hs; cbn [for_each] in H.
  - injection H as _ <-. assumption.
  - unfold bind at 1, try_catch, bind at 1 in H.
    destruct (serve_request E cfg q s) as [[resp|m] s1] eqn:Hq;
      unfold ret in H; apply (IH _ _ _ H);
      exact (serve_request_consistent _ _ _ _ Hq Hs).
Qed.

Lemma initial_consistent : consistent cfg initial.
Proof.
  unfold consistent, manager_ok, pages_owned, tracked. simpl.
  splits; intros; try discriminate; contradiction.
Qed.
End Served.

(** X15: whatever requests the server has served, one after the other, since
    it started, the current workspace, when there is one, has a tracked
    instance; every tracked workspace is a configured one; and every pooled
    connection is that of a workspace with a tracked instance. *)
Theorem current_workspace_is_running E cfg reqs r s :
  serve_requests E cfg reqs initial = (r, s) ->
  (forall n, currentWorkspace s = Some n ->
             exists i, JSMap.get n (workspaces s) = Some i)
  /\ (forall n i, JSMap.get n (workspaces s) = Some i ->
                  exists c, JSMap.get n (cfg_workspaces cfg) = Some c)
  /\ (forall n b, JSMap.get n (browserConnections s) = Some b ->
                  exists i, JSMap.get n (workspaces s) = Some i).
Proof.
  intros H.
  destruct (serve_requests_consistent E cfg reqs _ _ _ H (initial_consistent cfg))
    as [(Ha & Hc & Hd) _].
  unfold tracked, hasWorkspace, JSMap.has in *. splits.
  - intros n Hn. specialize (Ha n Hn).
    destruct (JSMap.get n (workspaces s)); [eauto | discriminate].
  - intros n i Hi. specialize (Hc n). rewrite Hi in Hc. specialize (Hc eq_refl).
    destruct (JSMap.get n (cfg_workspaces cfg)); [eauto | discriminate].
  - intros n b Hb. specialize (Hd n). rewrite Hb in Hd. specialize (Hd eq_refl).
    destruct (JSMap.get n (workspaces s)); [eauto | discriminate].
Qed.

(** X16: whatever requests the server has served, one after the other, since
    it started, every page of the registry has an owner, and an instance is
    tracked for that owner: stopping a workspace leaves no page of it
    behind, and no page is recorded without a workspace. *)
Theorem every_page_has_a_running_owner E cfg reqs r s :
  serve_requests E cfg reqs initial = (r, s) ->
  forall name e,
    JSMap.get name (pageRegistry s) = Some e ->
    exists w i, workspace e = Some w /\ JSMap.get w (workspaces s) = Some i.
Proof.
  intros H name e Hget.
  destruct (serve_requests_consistent E cfg reqs _ _ _ H (initial_consistent cfg))
    as [_ Hp].
  destruct (Hp name e (JSMapFacts.get_In _ _ _ _ Hget)) as (w & Hw & Ht).
  unfold tracked, JSMap.has in Ht.
  destruct (JSMap.get w (workspaces s)) as [i|] eqn:Hi; [eauto | discriminate].
Qed.

(** ** The command line of the start script *)

Lemma scan_args_plain pre :
  ~ In "--config" pre ->
  forall rest acc, scan_args (pre ++ rest) acc = scan_args rest acc.
Proof.
  induction pre as [|a pre IH]; intros Hno rest acc; [reflexivity|].
  cbn [app scan_args].
  destruct (String.eqb_spec a "--config") as [->|Hne].
  - exfalso. apply Hno. now left.
  - apply IH. intros Hin. apply Hno. now right.
Qed.

Lemma scan_args_sound_upto n :
  forall args acc p,
    length args <= n ->
    scan_args args acc = Some p ->
    acc = Some p
    \/ (truthy p = true
        /\ exists pre post, args = (pre ++ "--config" :: p :: post)%list).
Proof.
  induction n as [|n IH]; intros args acc p Hlen;
    (destruct args as [|a rest]; cbn [scan_args]; [auto|]);
    [simpl in Hlen; lia|].
  assert (Hrest : scan_args rest acc = Some p ->
                  acc = Some p
                  \/ (truthy p = true
                      /\ exists pre post,
                          (a :: rest) = (pre ++ "--config" :: p :: post)%list)).
  { intros H. destruct (IH rest acc p ltac:(simpl in Hlen; lia) H)
      as [Hacc|(Ht & pre & post & ->)]; [auto|].
    right. split; [assumption|]. exists (a :: pre), post. reflexivity. }
  destruct (String.eqb_spec a "--config") as [->|Hne]; [|exact Hrest].
  destruct rest as [|v rest']; [auto|].
  destruct (truthy v) eqn:Hv; [|exact Hrest].
  intros H.
  destruct (IH rest' (Some v) p ltac:(simpl in Hlen; lia) H)
    as [Hacc|(Ht & pre & post & ->)].
  - injection Hacc as ->. right. split; [assumption|]. exists [], rest'. reflexivity.
  - right. split; [assumption|].
    exists ("--config" :: v :: pre), post. reflexivity.
Qed.

Lemma scan_args_sound args acc p :
  scan_args args acc = Some p ->
  acc = Some p
  \/ (truthy p = true
      /\ exists pre post, args = (pre ++ "--config" :: p :: post)%list).
Proof. apply (scan_args_sound_upto (length args)). lia. Qed.

Lemma scan_args_value pre p post acc :
  ~ In "--config" pre ->
  truthy p = true ->
  scan_args (pre ++ "--config" :: p :: post) acc = scan_args post (Some p).
Proof.
  intros Hpre Hp. rewrite (scan_args_plain _ Hpre). cbn [scan_args].
  rewrite String.eqb_refl, Hp. reflexivity.
Qed.

(** X17: the path that the start script hands to the server is the default
    one, or a non-empty argument that comes right after a [--config]
    argument; it is the default one when no argument is [--config]; a
    [--config] that ends the command line, or is followed by an empty
    argument, is passed over; the argument after [--config] is the path
    even when it is [--config] itself; and of two values the second one
    counts. *)
Theorem config_path_from_command_line default :
  (forall args,
      config_path default args = default
      \/ (truthy (config_path default args) = true
          /\ exists pre post,
              args = (pre ++ "--config" :: config_path default args :: post)%list))
  /\ (forall args, ~ In "--config" args -> config_path default args = default)
  /\ (forall pre post,
        ~ In "--config" pre ->
        config_path default (pre ++ ["--config"]) = default
        /\ config_path default (pre ++ "--config" :: "" :: post)
           = config_path default post)
  /\ (forall pre p post,
        ~ In "--config" pre -> ~ In "--config" post -> truthy p = true ->
        config_path default (pre ++ "--config" :: p :: post) = p)
  /\ (forall pre p mid q post,
        ~ In "--config" pre -> ~ In "--config" mid -> ~ In "--config" post ->
        truthy p = true -> truthy q = true ->
        config_path default
          (pre ++ "--config" :: p :: mid ++ "--config" :: q :: post) = q).
Proof.
  assert (Hend : forall post acc,
             ~ In "--config" post -> scan_args post acc = acc).
  { intros post acc Hno.
    rewrite <- (app_nil_r post), (scan_args_plain _ Hno). reflexivity. }
  splits.
  - intros args. unfold config_path.
    destruct (scan_args args None) as [p|] eqn:H; [|now left].
    destruct (scan_args_sound _ _ _ H) as [[=]|(Ht & pre & post & Hargs)].
    rewrite Ht. right. split; [assumption|]. eauto.
  - intros args Hno. unfold config_path. now rewrite (Hend _ _ Hno).
  - intros pre post Hno. split.
    + unfold config_path. rewrite (scan_args_plain _ Hno). reflexivity.
    + unfold config_path. rewrite (scan_args_plain _ Hno). reflexivity.
  - intros pre p post Hpre Hpost Hp. unfold config_path.
    rewrite (scan_args_value _ _ _ _ Hpre Hp), (Hend _ _ Hpost), Hp. reflexivity.
  - intros pre p mid q post Hpre Hmid Hpost Hp Hq. unfold config_path.
    rewrite (scan_args_value _ _ _ _ Hpre Hp), (scan_args_value _ _ _ _ Hmid Hq),
      (Hend _ _ Hpost), Hq. reflexivity.
Qed.

(** ** What a shutdown leaves *)

Definition procs_frame (s s' : St) : Prop :=
  workspaces s' = workspaces s /\ st_procs s' = st_procs s.

Lemma procs_frame_refl s : procs_frame s s.
Proof. split; reflexivity. Qed.

Lemma procs_frame_trans a b c : procs_frame a b -> procs_frame b c -> procs_frame a c.
Proof. unfold procs_frame. intros [] []. split; congruence. Qed.

Lemma await_alone_steps (R : St -> St -> Prop) A (c : M A) :
  steps R c -> steps R (await (ret tt) c).
Proof.
  intros Hc s r s' H. unfold await in H.
  destruct (c s) as [r1 s1] eqn:H1. unfold ret in H. injection H as _ <-.
  exact (Hc _ _ _ H1).
Qed.

Ltac procs_step :=
  intros; unfold emit; apply steps_modify; intros; split; reflexivity.

Ltac procs_walk :=
  step_through_with ltac:(apply await_alone_steps)
    procs_frame_refl procs_frame_trans;
  try procs_step.

(** Every process of a tracked instance that still existed has been
    signalled, and nothing is tracked any more. *)
Definition all_signalled (s : St) (r : Result unit) (s' : St) : Prop :=
  match r with
  | Throw _ => True
  | Ok _ =>
      workspaces s' = JSMap.empty
      /\ currentWorkspace s' = None
      /\ forall n i p,
           JSMap.get n (workspaces s) = Some i ->
           nth_error (st_procs s) (process i) = Some p ->
           cp_handle p = true ->
           exists q, nth_error (st_procs s') (process i) = Some q
                     /\ killed q = true
  end.

Lemma all_signalled_after s s1 r s' :
  procs_frame s s1 -> all_signalled s1 r s' -> all_signalled s r s'.
Proof.
  intros [Hw Hp]. unfold all_signalled. destruct r; [|auto].
  rewrite Hw, Hp. auto.
Qed.

Lemma all_signalled_throw s m s' : procs_frame s s' -> all_signalled s (Throw m) s'.
Proof. intros _. exact I. Qed.

Lemma stopAll_then_close_signals :
  outcome _ all_signalled (stopAll ;;; emit EvServerClose).
Proof.
  intros s r s' H. unfold stopAll in H.
  unfold bind at 1 in H. unfold bind at 1, gets in H. unfold bind at 1 in H.
  destruct (kill_loop_signals (JSMap.values (workspaces s)) s) as (s1 & H1 & _ & Hall).
  rewrite H1 in H. cbv [bind modify emit] in H. end_run H.
  simpl. splits; auto.
  intros n i p Hget. apply Hall.
  apply JSMapFacts.get_In in Hget. unfold JSMap.values.
  apply in_map_iff. exists (n, i). auto.
Qed.

Lemma cleanup_signals E s r s' :
  cleaningUp s = false ->
  cleanup E s = (r, s') -> all_signalled s r s'.
Proof.
  intros Hflag. unfold cleanup, cleanup_with.
  unfold bind at 1, gets. rewrite Hflag.
  revert s r s' Hflag. intros s0 r0 s0' _. revert s0 r0 s0'.
  change (outcome _ all_signalled
    (modify (with_cleaningUp true) ;;;
     sockets <- gets connections ;;
     for_each sockets (fun sock => emit (EvSocketDestroy sock)) ;;;
     modify (with_connections []) ;;;
     entries <- gets (fun s => JSMap.entries (pageRegistry s)) ;;
     for_each entries
       (fun ne : string * PageEntry =>
          live <- gets (fun s => JSMap.has (fst ne) (pageRegistry s)) ;;
          if live
          then try_catch (await (ret tt) (page_close E (page (snd ne))))
                 (fun _ => ret tt)
          else ret tt) ;;;
     modify (with_pageRegistry JSMap.empty) ;;;
     browsers <- gets (fun s => JSMap.values (browserConnections s)) ;;
     for_each browsers
       (fun b => try_catch (await (ret tt) (browser_close E b)) (fun _ => ret tt)) ;;;
     modify (with_browserConnections JSMap.empty) ;;;
     stopAll ;;;
     emit EvServerClose)).
  repeat (apply (outcome_bind _ procs_frame _ all_signalled_after all_signalled_throw);
          [ solve [unfold page_close, browser_close, outside, now; procs_walk]
          | intros ? ]).
  apply stopAll_then_close_signals.
Qed.


(** ** The life of a page *)

Lemma set_absent A (m : JSMap.t A) k v :
  JSMap.get k m = None -> JSMap.set k v m = (m ++ [(k, v)])%list.
Proof.
  induction m as [|[k' v'] m IH]; simpl; [reflexivity|].
  destruct (String.eqb k k'); [discriminate|]. intros H. now rewrite IH.
Qed.

Lemma delete_set_absent A (m : JSMap.t A) k v :
  JSMap.get k m = None -> JSMap.delete k (JSMap.set k v m) = m.
Proof.
  intros H. rewrite (set_absent _ _ _ _ H). unfold JSMap.delete.
  rewrite filter_app. simpl. rewrite String.eqb_refl. simpl. rewrite app_nil_r.
  apply JSMapFacts.delete_absent. now apply JSMapFacts.get_None_keys.
Qed.

Lemma delete_delete A (m : JSMap.t A) k :
  JSMap.delete k (JSMap.delete k m) = JSMap.delete k m.
Proof.
  apply JSMapFacts.delete_absent. apply JSMapFacts.get_None_keys.
  apply JSMapFacts.get_delete_eq.
Qed.

(** The listeners of a page remove, one after the other, the names it was
    recorded under. *)
Definition forget (names : list string) (m : JSMap.t PageEntry) : JSMap.t PageEntry :=
  fold_left (fun m0 name => JSMap.delete name m0) names m.

Lemma forget_loop names :
  forall s,
    for_each names
      (fun name => modify (fun s0 => with_pageRegistry
                                       (JSMap.delete name (pageRegistry s0)) s0)) s
    = (Ok tt, with_pageRegistry (forget names (pageRegistry s)) s).
Proof.
  induction names as [|n names IH]; intros s; cbn [for_each forget fold_left].
  - unfold ret. now destruct s.
  - unfold bind, modify. rewrite IH. reflexivity.
Qed.

Lemma forget_same name names (m : JSMap.t PageEntry) :
  (forall n, In n names -> n = name) ->
  JSMap.delete name (forget names m) = JSMap.delete name m.
Proof.
  revert m. induction names as [|n names IH]; intros m Hall; cbn [forget fold_left];
    [reflexivity|].
  rewrite (Hall n (or_introl eq_refl)).
  fold (forget names (JSMap.delete name m)).
  rewrite IH by (intros n0 Hn0; apply Hall; now right).
  apply delete_delete.
Qed.

Lemma In_forget names (m : JSMap.t PageEntry) x : In x (forget names m) -> In x m.
Proof.
  revert m. induction names as [|n names IH]; intros m; cbn [forget fold_left];
    [auto|].
  intros H. apply IH in H. now apply In_delete in H.
Qed.

(** The listeners that run when the page is closed now. *)
Definition listeners (p : PageRef) (s : St) : list string :=
  match lookup_page p s with
  | Some q => if pg_closed q then [] else pg_on_close q
  | None => []
  end.

Lemma page_close_cases E p s r s' :
  page_close E p s = (r, s') ->
  st_trace s' = (st_trace s ++ [EvPageClose p])%list
  /\ match r with
     | Throw m =>
         throws E (length (st_trace s)) = Some m /\ pageRegistry s' = pageRegistry s
     | Ok _ =>
         throws E (length (st_trace s)) = None
         /\ pageRegistry s' = forget (listeners p s) (pageRegistry s)
     end.
Proof.
  unfold page_close, listeners. unfold bind at 1.
  cbv [outside bind now gets emit modify ret throw].
  destruct (throws E (length (st_trace s))) as [m|].
  - intros H. end_run H. simpl. auto.
  - change (lookup_page p (with_trace (st_trace s ++ [EvPageClose p]) s))
      with (lookup_page p s).
    destruct (lookup_page p s) as [q|].
    + destruct (pg_closed q).
      * intros H. end_run H. simpl. auto.
      * rewrite forget_loop. intros H. end_run H. simpl. auto.
    + intros H. end_run H. simpl. auto.
Qed.

(** X19: [DELETE /pages/:name] decodes its path parameter.  A parameter
    that does not decode makes the handler throw before any page is asked
    to close, with nothing changed.  For a parameter that decodes to a
    recorded name the handler asks once for the page to be closed: when the
    close succeeds the answer is success, the name is no longer recorded
    and no entry has been added, and when the page was recorded under that
    name only, the registry has lost exactly that entry; when the close is
    rejected the request is left unanswered and the entry stays. *)
Theorem delete_request_forgets_the_page E param s r s' :
  delete_pages E param s = (r, s') ->
  (decodeURIComponent param = None -> r = Throw "URI malformed" /\ s' = s)
  /\ (forall name e,
        decodeURIComponent param = Some name ->
        JSMap.get name (pageRegistry s) = Some e ->
        st_trace s' = (st_trace s ++ [EvPageClose (page e)])%list
        /\ match r with
           | Ok resp =>
               resp = json BSuccess
               /\ JSMap.get name (pageRegistry s') = None
               /\ (forall x, In x (pageRegistry s') -> In x (pageRegistry s))
               /\ ((forall n, In n (listeners (page e) s) -> n = name) ->
                   pageRegistry s' = JSMap.delete name (pageRegistry s))
           | Throw m =>
               throws E (length (st_trace s)) = Some m
               /\ pageRegistry s' = pageRegistry s
           end).
Proof.
  intros Hrun. split.
  - intros Hd. unfold delete_pages in Hrun. rewrite Hd in Hrun.
    injection Hrun as <- <-. auto.
  - intros name e Hd He. rewrite (delete_pages_decoded E param name s Hd) in Hrun.
    revert Hrun. unfold bind at 1, gets. rewrite He.
    unfold bind at 1.
    destruct (page_close E (page e) s) as [[[]|m] s1] eqn:Hc;
      destruct (page_close_cases E _ _ _ _ Hc) as (Htr & Hth & Hreg).
    + cbv [bind modify ret]. intros H. end_run H. simpl. splits; auto.
      * apply JSMapFacts.get_delete_eq.
      * intros x Hx. apply In_delete in Hx. rewrite Hreg in Hx.
        now apply In_forget in Hx.
      * intros Hall. rewrite Hreg. now apply forget_same.
    + intros H. end_run H. auto.
Qed.

Section Listener.
Variable E : Env.
Variable cfg : WorkspacesConfig.
Variable name : string.

(** From a state in which the page is new, an entry that [create_entry]
    gives is the entry of that page, and the page then has the one
    listener that removes the name. *)
Definition listens (p : PageRef) (s : St) (r : Result (PageEntry + Response))
    (s' : St) : Prop :=
  (exists q0, lookup_page p s = Some q0
              /\ pg_on_close q0 = [] /\ pg_closed q0 = false) ->
  match r with
  | Ok (inl entry) =>
      page entry = p
      /\ exists q, lookup_page p s' = Some q
                   /\ pg_on_close q = [name] /\ pg_closed q = false
  | _ => True
  end.

Lemma listens_after p s s1 r s' :
  page_kept p s s1 -> listens p s1 r s' -> listens p s r s'.
Proof.
  intros Hk Hl (q0 & Hq0 & A1 & A2). apply Hl.
  destruct (Hk q0 Hq0) as (q1 & H1 & B1 & B2 & _). exists q1. splits; congruence.
Qed.

Lemma listens_throw p s m s' : page_kept p s s' -> listens p s (Throw m) s'.
Proof. intros _ _. exact I. Qed.

Lemma record_listens p viewport :
  outcome _ (listens p)
    (match viewport with
     | Some v => setViewportSize E p v
     | None => ret tt
     end ;;;
     outside E (EvNewCDPSession p) ;;;
     target <- getTargetInfo E p ;;
     outside E (EvDetach p) ;;;
     currentWorkspace_ <- getCurrentWorkspace ;;
     (let entry := {| page := p; targetId := target;
                      workspace := currentWorkspace_ |} in
      modify (fun s => with_pageRegistry
                         (JSMap.set name entry (pageRegistry s)) s) ;;;
      on_close p name ;;;
      ret (inl entry : PageEntry + Response))).
Proof.
  apply (outcome_bind _ (page_kept p) _ (listens_after p) (listens_throw p)).
  { unfold setViewportSize, outside, now. kept_walk p. }
  intros [].
  apply (outcome_bind _ (page_kept p) _ (listens_after p) (listens_throw p)).
  { unfold outside, now. kept_walk p. }
  intros [].
  apply (outcome_bind _ (page_kept p) _ (listens_after p) (listens_throw p)).
  { unfold getTargetInfo, outside, now. kept_walk p. }
  intros target.
  apply (outcome_bind _ (page_kept p) _ (listens_after p) (listens_throw p)).
  { unfold outside, now. kept_walk p. }
  intros [] s r s' H (q0 & Hq0 & A1 & A2).
  cbv [bind getCurrentWorkspace gets modify on_close ret] in H. end_run H.
  cbn [page]. split; [reflexivity|].
  eexists. split.
  - apply lookup_update_page. exact Hq0.
  - simpl. rewrite A1, A2. split; reflexivity.
Qed.

Lemma create_entry_listener viewport s entry s' :
  create_entry E cfg name viewport s = (Ok (inl entry), s') ->
  exists q, lookup_page (page entry) s' = Some q
            /\ pg_on_close q = [name] /\ pg_closed q = false.
Proof.
  intros H. unfold create_entry in H.
  destruct (bind_inv _ _ _ _ _ _ _ H) as [(browser & s1 & _ & H1)|(m & _ & [=])].
  destruct browser as [b|]; [|discriminate].
  destruct (bind_inv _ _ _ _ _ _ _ H1) as [(ctxs & s1' & Hc & H2)|(m & _ & [=])].
  injection Hc as <- <-.
  destruct (contexts_of b s1) as [|x0 rest]; [discriminate|].
  destruct (bind_inv _ _ _ _ _ _ _ H2) as [(p & s2 & Hnp & H3)|(m & _ & [=])].
  destruct (newPage_fresh E _ _ _ _ _ Hnp) as (q0 & Hq0 & F1 & F2 & _).
  assert (Hfresh : exists q0, lookup_page p s2 = Some q0
                              /\ pg_on_close q0 = [] /\ pg_closed q0 = false)
    by eauto.
  destruct (record_listens p viewport _ _ _ H3 Hfresh) as (-> & Hq).
  exact Hq.
Qed.
End Listener.

Lemma post_pages_created E cfg name viewport s resp s1 :
  truthy name = true ->
  JSMap.get name (pageRegistry s) = None ->
  post_pages E cfg (Some name) viewport s = (Ok resp, s1) ->
  status resp = 200%Z ->
  exists entry,
    create_entry E cfg name viewport s = (Ok (inl entry), s1)
    /\ exists endpoint, resp = json (BPage endpoint name (targetId entry)).
Proof.
  intros Hn Hf. unfold post_pages. rewrite Hn. cbn [negb].
  unfold try_catch, bind at 1, gets. rewrite Hf. unfold bind at 1.
  destruct (create_entry E cfg name viewport s) as [r0 s0] eqn:Hc.
  pose proof (create_entry_outcome E cfg name viewport _ _ _ Hc) as Ho.
  destruct r0 as [[entry|resp0]|m]; cbn [entry_recorded] in Ho.
  - unfold bind, ret, getCurrentInstance, gets. intros H _.
    injection H as <- <-. exists entry. split; [reflexivity|]. eauto.
  - unfold ret. intros H H200. injection H as <- <-.
    destruct Ho as [H500 _]. rewrite H500 in H200. discriminate.
  - unfold ret. intros H H200. injection H as <- <-. discriminate.
Qed.

Lemma keys_set_absent A (m : JSMap.t A) k v :
  JSMap.get k m = None -> JSMap.keys (JSMap.set k v m) = (JSMap.keys m ++ [k])%list.
Proof.
  intros H. rewrite (set_absent _ _ _ _ H). unfold JSMap.keys.
  now rewrite map_app.
Qed.

(** X20: when [POST /pages] has answered 200 for a name that was not
    recorded, [GET /pages] lists the names that were there, in their order,
    and then the new one; and a [DELETE] whose path parameter decodes to
    the name (the name with every [%] written [%25] is such a parameter)
    and that answers gives the registry back exactly as it was before the
    page was made, while one whose close is rejected leaves the new
    entry. *)
Theorem page_created_listed_deleted E cfg name viewport s resp s1 :
  truthy name = true ->
  JSMap.get name (pageRegistry s) = None ->
  post_pages E cfg (Some name) viewport s = (Ok resp, s1) ->
  status resp = 200%Z ->
  get_pages s1 = (Ok (json (BPages (JSMap.keys (pageRegistry s) ++ [name]))), s1)
  /\ decodeURIComponent (percent_escaped name) = Some name
  /\ forall param r2 s2,
       decodeURIComponent param = Some name ->
       delete_pages E param s1 = (r2, s2) ->
       match r2 with
       | Ok resp2 => resp2 = json BSuccess /\ pageRegistry s2 = pageRegistry s
       | Throw _ => pageRegistry s2 = pageRegistry s1
       end.
Proof.
  intros Hn Hf Hpost H200.
  destruct (post_pages_created E cfg name viewport s resp s1 Hn Hf Hpost H200)
    as (entry & Hc & _).
  pose proof (create_entry_outcome E cfg name viewport _ _ _ Hc) as Hreg.
  cbn [entry_recorded] in Hreg.
  destruct (create_entry_listener E cfg name viewport _ _ _ Hc)
    as (q & Hq & Hls & Hopen).
  split; [|split; [apply decode_percent_escaped|]].
  - unfold get_pages, bind, gets, ret. rewrite Hreg.
    now rewrite (keys_set_absent _ _ _ _ Hf).
  - intros param r2 s2 Hdec Hd.
    assert (Hget : JSMap.get name (pageRegistry s1) = Some entry).
    { rewrite Hreg. apply JSMapFacts.get_set_eq. }
    rewrite (delete_pages_decoded E param name s1 Hdec) in Hd.
    unfold bind at 1, gets in Hd. rewrite Hget in Hd.
    unfold bind at 1 in Hd.
    destruct (page_close E (page entry) s1) as [[[]|m] s1'] eqn:Hclose;
      destruct (page_close_cases E _ _ _ _ Hclose) as (_ & _ & Hr).
    + cbv [bind modify ret] in Hd. end_run Hd. split; [reflexivity|]. simpl.
      rewrite Hr. unfold listeners. rewrite Hq, Hopen, Hls.
      cbn [forget fold_left]. rewrite delete_delete, Hreg.
      now apply delete_set_absent.
    + end_run Hd. exact Hr.
Qed.

(** The endpoint that [POST /pages] sends back: that of the instance of the
    current workspace, or the empty string. *)
Definition current_endpoint (s : St) : string :=
  match fst (getCurrentInstance s) with
  | Ok (Some i) => match or_null (wsEndpoint i) with Some e => e | None => "" end
  | _ => ""
  end.

(** X21: a name that is recorded is answered from the registry alone: the
    answer carries the recorded target id and the endpoint of the current
    workspace, whichever workspace owns the page, nothing is asked of any
    browser, the viewport of the request is not applied and nothing
    changes.  So a [POST /pages] that has answered 200 gives, when it is
    repeated with any viewport, the same answer and changes nothing. *)
Theorem page_request_is_idempotent E cfg name viewport s :
  truthy name = true ->
  (forall e,
      JSMap.get name (pageRegistry s) = Some e ->
      post_pages E cfg (Some name) viewport s
      = (Ok (json (BPage (current_endpoint s) name (targetId e))), s))
  /\ (forall resp s1 viewport',
        post_pages E cfg (Some name) viewport s = (Ok resp, s1) ->
        status resp = 200%Z ->
        post_pages E cfg (Some name) viewport' s1 = (Ok resp, s1)).
Proof.
  intros Hn.
  assert (Hknown : forall vp s0 e,
             JSMap.get name (pageRegistry s0) = Some e ->
             post_pages E cfg (Some name) vp s0
             = (Ok (json (BPage (current_endpoint s0) name (targetId e))), s0)).
  { intros vp s0 e He. unfold post_pages. rewrite Hn. cbn [negb].
    unfold try_catch, bind at 1, gets. rewrite He.
    unfold bind, ret, current_endpoint, getCurrentInstance, gets. cbn [fst].
    destruct (currentWorkspace s0) as [c|]; [|reflexivity].
    destruct (truthy c); [|reflexivity].
    destruct (JSMap.get c (workspaces s0)); reflexivity. }
  split; [apply Hknown|].
  intros resp s1 viewport' Hpost H200.
  destruct (JSMap.get name (pageRegistry s)) as [e|] eqn:Hf.
  - rewrite (Hknown viewport s e Hf) in Hpost. injection Hpost as <- <-.
    now apply Hknown.
  - destruct (post_pages_created E cfg name viewport s resp s1 Hn Hf Hpost H200)
      as (entry & Hc & _).
    pose proof (create_entry_outcome E cfg name viewport _ _ _ Hc) as Hreg.
    cbn [entry_recorded] in Hreg.
    assert (Hget : JSMap.get name (pageRegistry s1) = Some entry).
    { rewrite Hreg. apply JSMapFacts.get_set_eq. }
    rewrite (Hknown viewport' s1 entry Hget). f_equal.
    unfold post_pages in Hpost. rewrite Hn in Hpost. cbn [negb] in Hpost.
    unfold try_catch, bind at 1, gets in Hpost. rewrite Hf in Hpost.
    unfold bind at 1 in Hpost. rewrite Hc in Hpost.
    unfold bind, ret, getCurrentInstance, gets in Hpost.
    injection Hpost as <-. reflexivity.
Qed.

(** ** A connection that fails *)

(** X22: when the instance of a workspace has come up but the connection to
    it is refused, [POST /workspace/switch] answers 500 although the switch
    has been made: the workspace is current and its instance is tracked,
    with no pooled connection.  A [POST /pages] for a new name then answers
    500, no browser connection, and changes nothing; and the next switch to
    the workspace, when the connection is accepted, starts no browser: it
    connects, pools the connection and answers 200. *)
Theorem failed_connect_leaves_workspace_switched E cfg n i ep m s s1 :
  truthy n = true ->
  hasWorkspace cfg n = true ->
  switchWorkspace E cfg n s = (Ok i, s1) ->
  wsEndpoint i = Some ep ->
  truthy ep = true ->
  JSMap.has n (browserConnections s1) = false ->
  throws E (length (st_trace s1)) = Some m ->
  let s2 := after [EvConnectOverCDP ep] s1 in
  post_workspace_switch E cfg (Some n) s
  = (Ok {| status := 500;
           body := BError ("Failed to switch workspace: " ++ m) |}, s2)
  /\ currentWorkspace s2 = Some n
  /\ JSMap.get n (workspaces s2) = Some i
  /\ JSMap.has n (browserConnections s2) = false
  /\ (forall name viewport,
        truthy name = true ->
        JSMap.get name (pageRegistry s2) = None ->
        post_pages E cfg (Some name) viewport s2
        = (Ok {| status := 500;
                 body := BError ("Failed to create page: "
                                 ++ "No browser connection for workspace: " ++ n) |},
           s2))
  /\ (throws E (length (st_trace s2)) = None ->
      exists s3,
        post_workspace_switch E cfg (Some n) s2
        = (Ok (json (BSwitch n (Some ep))), s3)
        /\ st_trace s3 = (st_trace s2 ++ [EvConnectOverCDP ep])%list
        /\ st_procs s3 = st_procs s2
        /\ JSMap.has n (browserConnections s3) = true).
Proof.
  intros Hn Hcfg Hsw Hep Htep Hpool Hth s2.
  assert (Hc : exists c, JSMap.get n (cfg_workspaces cfg) = Some c).
  { unfold hasWorkspace, JSMap.has in Hcfg.
    destruct (JSMap.get n (cfg_workspaces cfg)); [eauto | discriminate]. }
  destruct Hc as [c Hc].
  destruct (switchWorkspace_Ok E cfg n c s i s1 Hc Hsw) as (Hi & Hcur & _).
  assert (Hhead : forall s0,
             post_workspace_switch E cfg (Some n) s0
             = try_catch
                 (instance <- switchWorkspace E cfg n ;;
                  connect_if_needed E n instance ;;;
                  ret (json (BSwitch n (wsEndpoint instance))))
                 (fun m0 => ret {| status := 500;
                                   body := BError ("Failed to switch workspace: "
                                                   ++ m0) |}) s0).
  { intros s0. unfold post_workspace_switch. rewrite Hn, Hcfg. reflexivity. }
  unfold JSMap.has in Hpool.
  destruct (JSMap.get n (browserConnections s1)) eqn:Hb1; [discriminate|].
  splits.
  - rewrite Hhead. unfold try_catch, bind at 1. rewrite Hsw.
    cbv [connect_if_needed connectOverCDP open_browser outside bind now gets emit
         modify ret throw].
    rewrite Hep. unfold JSMap.has. rewrite Hb1, Htep. cbn [negb andb].
    rewrite Hth. reflexivity.
  - exact Hcur.
  - exact Hi.
  - unfold JSMap.has. simpl. now rewrite Hb1.
  - intros name viewport Hname Hf. unfold post_pages. rewrite Hname. cbn [negb].
    unfold try_catch, bind at 1, gets. rewrite Hf.
    unfold bind at 1, create_entry. unfold bind at 1, getCurrentBrowser.
    unfold bind at 1, getCurrentWorkspace, gets.
    change (currentWorkspace s2) with (currentWorkspace s1). rewrite Hcur, Hn.
    unfold bind, gets. change (browserConnections s2) with (browserConnections s1).
    rewrite Hb1. reflexivity.
  - intros Hth2. rewrite Hhead. unfold try_catch, bind at 1.
    assert (Hi2 : JSMap.get n (workspaces s2) = Some i) by exact Hi.
    rewrite (switchWorkspace_tracked E cfg n c i s2 Hc Hi2).
    cbv [connect_if_needed connectOverCDP open_browser outside bind now gets emit
         modify ret throw].
    rewrite Hep. unfold JSMap.has.
    change (browserConnections (with_currentWorkspace (Some n) s2))
      with (browserConnections s1).
    rewrite Hb1, Htep. cbn [negb andb].
    change (st_trace (with_currentWorkspace (Some n) s2)) with (st_trace s2).
    rewrite Hth2. eexists. split; [reflexivity|]. simpl. splits; try reflexivity.
    now rewrite JSMapFacts.get_set_eq.
Qed.

(** ** The direct client: get or create, close, reconnect *)

Section ClientCalls.
Variable E : Env.
Hypothesis calls_succeed : forall t, throws E t = None.

Lemma newPage_ok_pages b c s br cx :
  nth_error (st_browsers s) b = Some br ->
  nth_error (br_contexts br) c = Some cx ->
  let p := {| pr_browser := b; pr_context := c; pr_page := length (cx_pages cx) |} in
  exists s' pg,
    newPage E b c s = (Ok p, s')
    /\ registry s' = registry s
    /\ pages_of b c s' = (cx_pages cx ++ [pg])%list
    /\ pg_marker pg = Some match cx_init cx with
                           | Some n => JSString n
                           | None => JSUndefined
                           end
    /\ pg_closed pg = false.
Proof.
  intros Hbr Hcx p. unfold newPage.
  unfold bind at 1, now, gets.
  rewrite (bind_Ok _ _ _ _ _ _ _ (outside_ok E calls_succeed _ s)).
  unfold bind at 1, gets.
  assert (Hctx : contexts_of b (after [EvNewPage b c] s) = br_contexts br).
  { unfold contexts_of; simpl. now rewrite Hbr. }
  rewrite Hctx, Hcx. unfold bind, modify, ret.
  eexists. eexists. split; [reflexivity|]. splits.
  - reflexivity.
  - unfold pages_of, update_context.
    erewrite contexts_of_update_browser by (simpl; exact Hbr).
    simpl. rewrite (nth_error_update_at_eq _ _ _ _ _ Hcx). reflexivity.
  - reflexivity.
  - reflexivity.
Qed.

Lemma evaluate_marker_ok p s q v :
  lookup_page p s = Some q ->
  pg_closed q = false ->
  pg_marker q = Some v ->
  evaluate_marker E p s = (Ok v, after [EvEvaluate p] s).
Proof.
  intros Hq Hopen Hm. unfold evaluate_marker.
  rewrite (bind_Ok _ _ _ _ _ _ _ (outside_ok E calls_succeed _ s)).
  unfold bind, gets.
  change (lookup_page p (after [EvEvaluate p] s)) with (lookup_page p s).
  rewrite Hq, Hopen, Hm. reflexivity.
Qed.

(** X23: the client's [page], when the automation calls succeed and the name
    is not in its registry, makes a page and records the name, which [list]
    then shows after the names that were there; called again with the name
    it makes nothing: it reads the marker of that page and returns the same
    page. *)
Theorem client_page_is_get_or_create browser name s br :
  JSMap.get name (registry s) = None ->
  nth_error (st_browsers s) browser = Some br ->
  exists p s1,
    client_page E browser name s = (Ok p, s1)
    /\ client_list s1 = (Ok (JSMap.keys (registry s) ++ [name])%list, s1)
    /\ client_page E browser name s1 = (Ok p, after [EvEvaluate p] s1).
Proof.
  intros Habsent Hbr.
  set (c := length (br_contexts br)).
  assert (Hfind : findPage E name s = (Ok None, s)).
  { unfold findPage, bind, gets. now rewrite Habsent. }
  destruct (newContext_ok E calls_succeed browser s br Hbr) as (s1 & H1 & _ & R1 & B1).
  destruct (addInitScript_ok E calls_succeed browser c name s1 _ B1)
    as (s2 & H2 & _ & R2 & B2).
  simpl in B2. unfold c in B2 at 1. rewrite update_at_snoc in B2.
  destruct (newPage_ok_pages browser c s2 _ _ B2 (nth_error_snoc _ _ _))
    as (s3 & pg & H3 & R3 & P3 & M3 & O3).
  simpl in H3, P3, M3.
  set (p := {| pr_browser := browser; pr_context := c; pr_page := 0 |}) in *.
  set (s4 := with_registry (JSMap.set name (browser, c) (registry s3)) s3).
  assert (Hrun : client_page E browser name s = (Ok p, s4)).
  { unfold client_page.
    rewrite (bind_Ok _ _ _ _ _ _ _ Hfind). cbv beta iota.
    rewrite (bind_Ok _ _ _ _ _ _ _ H1).
    rewrite (bind_Ok _ _ _ _ _ _ _ H2).
    rewrite (bind_Ok _ _ _ _ _ _ _ H3).
    reflexivity. }
  assert (Hreg : registry s4 = JSMap.set name (browser, c) (registry s)).
  { unfold s4. simpl. rewrite R3, R2, R1. reflexivity. }
  exists p, s4. splits.
  - exact Hrun.
  - unfold client_list, gets. rewrite Hreg.
    now rewrite (keys_set_absent _ _ _ _ Habsent).
  - assert (Hpages : pages_of browser c s4 = [pg]) by exact P3.
    assert (Hlook : lookup_page p s4 = Some pg).
    { unfold lookup_page, p. cbn [pr_browser pr_context pr_page].
      now rewrite Hpages. }
    unfold client_page, findPage. unfold bind at 1. unfold bind at 1, gets.
    rewrite Hreg, JSMapFacts.get_set_eq. unfold bind at 1.
    unfold page_refs. cbn [fst snd]. rewrite Hpages. cbn [length seq map].
    fold p. cbn [find_in]. unfold bind at 1, try_catch, bind at 1.
    rewrite (evaluate_marker_ok p s4 pg _ Hlook O3 M3).
    unfold ret. rewrite String.eqb_refl. reflexivity.
Qed.
End ClientCalls.

(** X24: the client's [close] for a recorded name makes exactly one outside
    call, the close of the context recorded for the name; when that
    succeeds the context is closed, the name is forgotten, every other name
    is recorded as before, and a second [close] of the name does nothing;
    when the close is rejected the name stays recorded.  For a name that is
    not recorded it makes no call and changes nothing. *)
Theorem client_close_is_idempotent E name s r s' :
  client_close E name s = (r, s') ->
  st_trace s'
  = (st_trace s ++ match JSMap.get name (registry s) with
                   | Some bc => [EvContextClose (fst bc) (snd bc)]
                   | None => []
                   end)%list
  /\ (JSMap.get name (registry s) = None -> r = Ok tt /\ s' = s)
  /\ match r with
     | Ok _ =>
         JSMap.get name (registry s') = None
         /\ (forall other, other <> name ->
                           JSMap.get other (registry s')
                           = JSMap.get other (registry s))
         /\ client_close E name s' = (Ok tt, s')
         /\ (forall bc cx,
               JSMap.get name (registry s) = Some bc ->
               nth_error (contexts_of (fst bc) s) (snd bc) = Some cx ->
               exists cx',
                 nth_error (contexts_of (fst bc) s') (snd bc) = Some cx'
                 /\ cx_closed cx' = true)
     | Throw m =>
         registry s' = registry s
         /\ throws E (length (st_trace s)) = Some m
         /\ exists bc, JSMap.get name (registry s) = Some bc
     end.
Proof.
  assert (Hagain : forall s0, JSMap.get name (registry s0) = None ->
                              client_close E name s0 = (Ok tt, s0)).
  { intros s0 H0. unfold client_close, bind, gets. now rewrite H0. }
  unfold client_close at 1. unfold bind at 1, gets.
  destruct (JSMap.get name (registry s)) as [[b c]|] eqn:Hget.
  - cbv [context_close outside bind now gets emit modify ret throw]. cbn [fst snd].
    destruct (throws E (length (st_trace s))) as [m|] eqn:Hth;
      intros H; end_run H; simpl.
    + split; [reflexivity|]. split; [discriminate|]. splits; eauto.
    + split; [reflexivity|]. split; [discriminate|]. splits.
      * apply JSMapFacts.get_delete_eq.
      * intros other Hne. apply JSMapFacts.get_delete_ne. congruence.
      * apply Hagain. simpl. apply JSMapFacts.get_delete_eq.
      * intros bc cx [= <-] Hcx. cbn [fst snd] in *.
        unfold contexts_of in *. simpl.
        destruct (nth_error (st_browsers s) b) as [br|] eqn:Hbr;
          [|destruct c; discriminate Hcx].
        rewrite (nth_error_update_at_eq _ _ _ _ _ Hbr). simpl.
        rewrite (nth_error_update_at_eq _ _ _ _ _ Hcx).
        eexists. split; reflexivity.
  - unfold ret. intros H. end_run H. rewrite app_nil_r.
    split; [reflexivity|]. split; [auto|]. splits; auto.
    intros bc cx [=].
Qed.

Lemma steps_for_each_in (R : St -> St -> Prop) A (l : list A) (body : A -> M unit) :
  (forall s, R s s) ->
  (forall a b c, R a b -> R b c -> R a c) ->
  (forall a, In a l -> steps R (body a)) ->
  steps R (for_each l body).
Proof.
  intros Hrefl Htrans. induction l as [|a l IH]; intros Hb; cbn [for_each].
  - now apply steps_ret.
  - apply steps_bind; [assumption | apply Hb; now left |].
    intros _. apply IH. intros x Hx. apply Hb. now right.
Qed.

Lemma pages_of_same b c s s' :
  st_browsers s' = st_browsers s -> pages_of b c s' = pages_of b c s.
Proof. intros H. unfold pages_of, contexts_of. now rewrite H. Qed.

Lemma lookup_page_same p s s' :
  st_browsers s' = st_browsers s -> lookup_page p s' = lookup_page p s.
Proof. intros H. unfold lookup_page. now rewrite (pages_of_same _ _ _ _ H). Qed.

(** A loop whose turns never throw and keep a preorder [K] establishes,
    for each of its elements, what the turn of that element establishes
    and the other turns keep. *)
Section Establish.
Variable A : Type.
Variable K : St -> St -> Prop.
Hypothesis K_refl : forall s, K s s.
Hypothesis K_trans : forall a b c, K a b -> K b c -> K a c.
Variable P : St -> Prop.
Hypothesis P_kept : forall s s', K s s' -> P s -> P s'.
Variable body : A -> M unit.
Hypothesis body_total : forall a s, exists s', body a s = (Ok tt, s').
Hypothesis body_K : forall a, steps K (body a).

Lemma for_each_total_K l :
  forall s, exists s', for_each l body s = (Ok tt, s') /\ K s s'.
Proof.
  induction l as [|a l IH]; intros s; cbn [for_each].
  - exists s. split; [reflexivity | apply K_refl].
  - unfold bind. destruct (body_total a s) as (s1 & H1). rewrite H1.
    destruct (IH s1) as (s' & H' & K').
    exists s'. split; [assumption|].
    eapply K_trans; [exact (body_K a _ _ _ H1) | exact K'].
Qed.

Lemma for_each_establishes l a s0 :
  In a l ->
  (forall s s', K s0 s -> body a s = (Ok tt, s') -> P s') ->
  forall s s', K s0 s -> for_each l body s = (Ok tt, s') -> P s'.
Proof.
  intros Hin Hest. induction l as [|a0 l IH]; [destruct Hin|].
  intros s s' Hk H. cbn [for_each] in H. unfold bind in H.
  destruct (body_total a0 s) as (s1 & H1). rewrite H1 in H.
  pose proof (body_K a0 _ _ _ H1) as K1.
  destruct (for_each_total_K l s1) as (s2 & H2 & K2).
  assert (s2 = s') by congruence. subst s2.
  destruct Hin as [->|Hin].
  - apply (P_kept _ _ K2). exact (Hest _ _ Hk H1).
  - apply (IH Hin s1 s'); [eapply K_trans; eassumption | assumption].
Qed.
End Establish.

Section Reconnect.
Variable E : Env.

(** The name is the marker of an open page of the context. *)
Definition marked (b : nat) (s : St) (n : string) (bc : nat * nat) : Prop :=
  fst bc = b
  /\ truthy n = true
  /\ exists k pg, nth_error (pages_of (fst bc) (snd bc) s) k = Some pg
                  /\ pg_marker pg = Some (JSString n)
                  /\ pg_closed pg = false.

(** Between two states: the browsers are the same, and a name of the
    registry was there before with its context or is the marker of an open
    page of its context. *)
Definition adopting (b : nat) (s s' : St) : Prop :=
  st_browsers s' = st_browsers s
  /\ forall n bc,
       JSMap.get n (registry s') = Some bc ->
       JSMap.get n (registry s) = Some bc \/ marked b s n bc.

Lemma marked_same b s s' n bc :
  st_browsers s' = st_browsers s -> marked b s' n bc -> marked b s n bc.
Proof.
  intros H (H1 & H2 & k & pg & H3 & H4). unfold marked.
  rewrite (pages_of_same _ _ _ _ H) in H3. eauto 8.
Qed.

Lemma adopting_refl b s : adopting b s s.
Proof. split; auto. Qed.

Lemma adopting_trans b x y z : adopting b x y -> adopting b y z -> adopting b x z.
Proof.
  intros [B1 H1] [B2 H2]. split; [congruence|].
  intros n bc Hz. destruct (H2 n bc Hz) as [Hy|Hm].
  - exact (H1 n bc Hy).
  - right. exact (marked_same _ _ _ _ _ B1 Hm).
Qed.

Lemma evaluate_marker_cases p s r s1 :
  evaluate_marker E p s = (r, s1) ->
  s1 = after [EvEvaluate p] s
  /\ forall v, r = Ok v ->
       exists q, lookup_page p s = Some q
                 /\ pg_closed q = false /\ pg_marker q = Some v.
Proof.
  cbv [evaluate_marker outside bind now gets emit modify ret throw].
  destruct (throws E (length (st_trace s))).
  - intros H. end_run H. split; [reflexivity | intros v [=]].
  - change (lookup_page p (with_trace (st_trace s ++ [EvEvaluate p]) s))
      with (lookup_page p s).
    destruct (lookup_page p s) as [q|].
    + destruct (pg_closed q) eqn:Hc.
      * intros H. end_run H. split; [reflexivity | intros v [=]].
      * destruct (pg_marker q) as [v0|] eqn:Hm; intros H; end_run H;
          (split; [reflexivity|]); intros v [= <-]. eauto.
    + intros H. end_run H. split; [reflexivity | intros v [=]].
Qed.

Lemma adopt_cases bc p s :
  exists s',
    adopt E bc p s = (Ok tt, s')
    /\ st_browsers s' = st_browsers s
    /\ (registry s' = registry s
        \/ exists n q, registry s' = JSMap.set n bc (registry s)
                       /\ truthy n = true
                       /\ lookup_page p s = Some q
                       /\ pg_closed q = false
                       /\ pg_marker q = Some (JSString n))
    /\ ((forall t, throws E t = None) ->
        forall n q, lookup_page p s = Some q -> pg_closed q = false ->
                    pg_marker q = Some (JSString n) -> truthy n = true ->
                    registry s' = JSMap.set n bc (registry s)).
Proof.
  unfold adopt, try_catch. unfold bind at 1.
  destruct (evaluate_marker E p s) as [[v|m] s1] eqn:He;
    destruct (evaluate_marker_cases _ _ _ _ He) as (-> & Hv).
  - destruct (Hv v eq_refl) as (q & Hq & Hopen & Hm).
    assert (Hdet : forall n q0, lookup_page p s = Some q0 ->
                                pg_marker q0 = Some (JSString n) -> v = JSString n).
    { intros n q0 Hq0 Hm0. congruence. }
    destruct v as [|n|].
    + unfold ret. eexists. split; [reflexivity|]. splits; auto.
      intros _ n q0 Hq0 _ Hm0 _. specialize (Hdet _ _ Hq0 Hm0). discriminate.
    + destruct (truthy n) eqn:Hn.
      * unfold modify. eexists. split; [reflexivity|]. simpl. splits; auto.
        -- right. exists n, q. auto.
        -- intros _ n0 q0 Hq0 _ Hm0 _. specialize (Hdet _ _ Hq0 Hm0).
           injection Hdet as ->. reflexivity.
      * unfold ret. eexists. split; [reflexivity|]. splits; auto.
        intros _ n0 q0 Hq0 _ Hm0 Hn0. specialize (Hdet _ _ Hq0 Hm0).
        injection Hdet as ->. congruence.
    + unfold ret. eexists. split; [reflexivity|]. splits; auto.
      intros _ n q0 Hq0 _ Hm0 _. specialize (Hdet _ _ Hq0 Hm0). discriminate.
  - unfold ret. eexists. split; [reflexivity|]. splits; auto.
    intros Hcalls n q Hq Hopen Hm _. exfalso.
    rewrite (evaluate_marker_ok E Hcalls p s q _ Hq Hopen Hm) in He. discriminate.
Qed.

Lemma adopt_adopting b c k :
  steps (adopting b)
    (adopt E (b, c) {| pr_browser := b; pr_context := c; pr_page := k |}).
Proof.
  intros s r s' H.
  destruct (adopt_cases (b, c) {| pr_browser := b; pr_context := c; pr_page := k |} s)
    as (s1 & H1 & Hb & Hreg & _).
  rewrite H1 in H. injection H as _ <-. split; [assumption|].
  destruct Hreg as [->|(n0 & q & -> & Hn0 & Hq & Hopen & Hm)]; [now left|].
  intros n bc Hget.
  destruct (String.eqb_spec n0 n) as [->|Hne].
  - rewrite JSMapFacts.get_set_eq in Hget. injection Hget as <-.
    right. unfold marked. cbn [fst snd]. splits; auto. exists k, q. auto.
  - rewrite JSMapFacts.get_set_ne in Hget by assumption. now left.
Qed.

(** Between two states: the browsers are the same and the registry has
    lost no name. *)
Definition keeping (s s' : St) : Prop :=
  st_browsers s' = st_browsers s
  /\ forall n, JSMap.has n (registry s) = true -> JSMap.has n (registry s') = true.

Lemma keeping_refl s : keeping s s.
Proof. split; auto. Qed.

Lemma keeping_trans a b c : keeping a b -> keeping b c -> keeping a c.
Proof. intros [A1 A2] [B1 B2]. split; [congruence | auto]. Qed.

Lemma adopt_total bc p s : exists s', adopt E bc p s = (Ok tt, s').
Proof. destruct (adopt_cases bc p s) as (s' & H & _). eauto. Qed.

Lemma adopt_keeping bc p : steps keeping (adopt E bc p).
Proof.
  intros s r s' H. destruct (adopt_cases bc p s) as (s1 & H1 & Hb & Hreg & _).
  rewrite H1 in H. injection H as _ <-. split; [assumption|].
  destruct Hreg as [->|(n0 & q & -> & _)]; [auto|].
  intros n Hn. now apply has_set_mono.
Qed.

Definition adopt_context (bc : nat * nat) : M unit :=
  pages <- gets (page_refs bc) ;; for_each pages (adopt E bc).

Lemma adopt_context_total bc s : exists s', adopt_context bc s = (Ok tt, s').
Proof.
  unfold adopt_context, bind, gets.
  destruct (for_each_total_K _ keeping keeping_refl keeping_trans (adopt E bc)
              (adopt_total bc) (adopt_keeping bc) (page_refs bc s) s)
    as (s' & H & _).
  eauto.
Qed.

Lemma adopt_context_keeping bc : steps keeping (adopt_context bc).
Proof.
  unfold adopt_context.
  step_through_with ltac:(apply adopt_keeping) keeping_refl keeping_trans.
Qed.

Lemma adopt_context_adopting b c : steps (adopting b) (adopt_context (b, c)).
Proof.
  intros s r s' H. unfold adopt_context, bind, gets in H.
  revert H. apply steps_for_each_in; [apply adopting_refl | apply adopting_trans |].
  intros p Hp. unfold page_refs in Hp. apply in_map_iff in Hp.
  destruct Hp as (k & <- & _). apply adopt_adopting.
Qed.

Lemma connect_opens ws s b s' :
  connect E ws s = (Ok b, s') ->
  let t := length (st_trace s) in
  let s1 := with_registry JSMap.empty
              (with_browsers
                 (st_browsers s ++ [{| br_endpoint := ws;
                                       br_contexts := live_contexts E t ws;
                                       br_closed := false |}])%list
                 (after [EvConnect ws] s)) in
  b = length (st_browsers s)
  /\ for_each (context_refs b s1) adopt_context s1 = (Ok tt, s').
Proof.
  unfold connect. unfold bind at 1.
  cbv [open_browser outside bind now gets emit modify ret throw].
  destruct (throws E (length (st_trace s))); [discriminate|].
  cbn [st_browsers with_trace with_browsers].
  match goal with
  | |- context [for_each ?l ?f ?s1] =>
      change (for_each l f s1) with (for_each l adopt_context s1);
      destruct (for_each l adopt_context s1) as [[[]|m] s2] eqn:Hloop
  end; [|discriminate].
  intros H. injection H as <- <-. split; [reflexivity | exact Hloop].
Qed.

Lemma live_pages ws s c :
  let t := length (st_trace s) in
  let s1 := with_registry JSMap.empty
              (with_browsers
                 (st_browsers s ++ [{| br_endpoint := ws;
                                       br_contexts := live_contexts E t ws;
                                       br_closed := false |}])%list
                 (after [EvConnect ws] s)) in
  contexts_of (length (st_browsers s)) s1 = live_contexts E t ws
  /\ pages_of (length (st_browsers s)) c s1
     = match nth_error (live_contexts E t ws) c with
       | Some cx => cx_pages cx
       | None => []
       end.
Proof.
  intros t s1.
  assert (Hc : contexts_of (length (st_browsers s)) s1 = live_contexts E t ws).
  { unfold contexts_of, s1. simpl. now rewrite nth_error_snoc. }
  split; [assumption|]. unfold pages_of. now rewrite Hc.
Qed.

(** X25: the client's [connect], when it returns, has discarded the names
    it knew, and every name it has recorded is not empty and is the marker
    of an open page that is live behind the endpoint, recorded with a
    context of that page in the new browser; and when no automation call
    is rejected, every non-empty marker of an open live page is recorded. *)
Theorem connect_adopts_marked_pages ws s b s' :
  connect E ws s = (Ok b, s') ->
  let live := live_contexts E (length (st_trace s)) ws in
  b = length (st_browsers s)
  /\ (forall n bc,
        JSMap.get n (registry s') = Some bc ->
        truthy n = true
        /\ fst bc = b
        /\ exists cx k pg,
            nth_error live (snd bc) = Some cx
            /\ nth_error (cx_pages cx) k = Some pg
            /\ pg_marker pg = Some (JSString n)
            /\ pg_closed pg = false)
  /\ ((forall t, throws E t = None) ->
      forall c cx k pg n,
        nth_error live c = Some cx ->
        nth_error (cx_pages cx) k = Some pg ->
        pg_marker pg = Some (JSString n) ->
        pg_closed pg = false ->
        truthy n = true ->
        exists c', JSMap.get n (registry s') = Some (b, c')).
Proof.
  intros H live. destruct (connect_opens ws s b s' H) as (Hb & Hloop).
  cbv zeta in Hloop.
  set (s1 := with_registry JSMap.empty
               (with_browsers
                  (st_browsers s ++ [{| br_endpoint := ws;
                                        br_contexts := live;
                                        br_closed := false |}])%list
                  (after [EvConnect ws] s))) in *.
  assert (Hpages : forall c,
             pages_of b c s1 = match nth_error live c with
                               | Some cx => cx_pages cx
                               | None => []
                               end).
  { intros c. rewrite Hb. exact (proj2 (live_pages ws s c)). }
  assert (Hctx : contexts_of b s1 = live).
  { rewrite Hb. exact (proj1 (live_pages ws s 0)). }
  assert (Hsound : adopting b s1 s').
  { revert Hloop. apply steps_for_each_in;
      [apply adopting_refl | apply adopting_trans |].
    intros bc Hbc. unfold context_refs in Hbc. apply in_map_iff in Hbc.
    destruct Hbc as (c & <- & _). apply adopt_context_adopting. }
  assert (Hfound : forall n bc,
             JSMap.get n (registry s') = Some bc ->
             truthy n = true
             /\ fst bc = b
             /\ exists cx k pg,
                 nth_error live (snd bc) = Some cx
                 /\ nth_error (cx_pages cx) k = Some pg
                 /\ pg_marker pg = Some (JSString n)
                 /\ pg_closed pg = false).
  { intros n bc Hget. destruct Hsound as [_ Hs].
    destruct (Hs n bc Hget) as [Hold|(Hfst & Hn & k & pg & Hk & Hm & Hopen)];
      [discriminate|].
    splits; auto. rewrite Hfst, Hpages in Hk.
    destruct (nth_error live (snd bc)) as [cx|]; [|destruct k; discriminate].
    exists cx, k, pg. auto. }
  splits; [assumption | exact Hfound |].
  intros Hcalls c cx k pg n Hc Hk Hm Hopen Hn.
  assert (Hhas : JSMap.has n (registry s') = true).
  { eapply (for_each_establishes _ keeping keeping_refl keeping_trans
             (fun s0 => JSMap.has n (registry s0) = true)
             (fun s0 s0' Hk0 => proj2 Hk0 n)
             adopt_context adopt_context_total adopt_context_keeping
             (context_refs b s1) (b, c) s1);
      [ | | apply keeping_refl | exact Hloop].
    - unfold context_refs. apply in_map_iff. exists c. split; [reflexivity|].
      apply in_seq. rewrite Hctx. split; [lia|]. simpl.
      apply nth_error_Some. congruence.
    - intros s2 s3 [Hb2 _] H23. unfold adopt_context, bind, gets in H23.
      assert (Hp2 : pages_of b c s2 = cx_pages cx).
      { rewrite (pages_of_same _ _ _ _ Hb2), Hpages, Hc. reflexivity. }
      eapply (for_each_establishes _ keeping keeping_refl keeping_trans
               (fun s0 => JSMap.has n (registry s0) = true)
               (fun s0 s0' Hk0 => proj2 Hk0 n)
               (adopt E (b, c)) (adopt_total (b, c)) (adopt_keeping (b, c))
               (page_refs (b, c) s2)
               {| pr_browser := b; pr_context := c; pr_page := k |} s2);
        [ | | apply keeping_refl | exact H23].
      + unfold page_refs. cbn [fst snd]. apply in_map_iff. exists k.
        split; [reflexivity|]. apply in_seq. rewrite Hp2. split; [lia|]. simpl.
        apply nth_error_Some. congruence.
      + intros s4 s5 [Hb4 _] H45.
        destruct (adopt_cases (b, c)
                    {| pr_browser := b; pr_context := c; pr_page := k |} s4)
          as (s6 & H6 & _ & _ & Hset).
        assert (s6 = s5) by congruence. subst s6.
        assert (Hlook : lookup_page
                          {| pr_browser := b; pr_context := c; pr_page := k |} s4
                        = Some pg).
        { rewrite (lookup_page_same _ _ _ Hb4). unfold lookup_page.
          cbn [pr_browser pr_context pr_page]. now rewrite Hp2. }
        rewrite (Hset Hcalls n pg Hlook Hopen Hm Hn).
        unfold JSMap.has. now rewrite JSMapFacts.get_set_eq. }
  unfold JSMap.has in Hhas.
  destruct (JSMap.get n (registry s')) as [[b0 c0]|] eqn:Hget; [|discriminate].
  destruct (Hfound n (b0, c0) Hget) as (_ & Hfst & _). cbn [fst] in Hfst.
  subst b0. eauto.
Qed.
End Reconnect.

(** ** Which requests terminate a browser *)

(** The call is no signal to a process and arms no timer. *)
Definition no_signal (e : Event) : Prop :=
  match e with
  | EvKill _ _ | EvSetTimeout _ => False
  | _ => True
  end.

Ltac calm_step :=
  intros; apply steps_modify; intros; eexists []; rewrite app_nil_r; split;
  [reflexivity | constructor].

Ltac calm_walk_with special :=
  step_through_with special (emits_refl no_signal) (emits_trans no_signal);
  try (apply emit_emits; exact I); try calm_step.

Section Calm.
Variable E : Env.
Variable cfg : WorkspacesConfig.

Lemma waitForCDP_from_calm port_ delayMs maxRetries left :
  forall lastError,
    steps (emits no_signal)
      (waitForCDP_from E port_ delayMs maxRetries left lastError).
Proof.
  induction left as [|left IH]; intros lastError; simpl.
  - calm_walk_with fail.
  - unfold cdp_attempt, sleep. calm_walk_with ltac:(apply IH).
Qed.

Lemma launchChrome_calm o : steps (emits no_signal) (launchChrome E o).
Proof.
  unfold launchChrome, ensureVirtualDisplay, getVirtualDisplayPosition,
    buildChromeArgs, mkdirSync, spawn, waitForCDP, execAsync, sleep.
  calm_walk_with ltac:(apply waitForCDP_from_calm).
Qed.

Lemma getCurrentBrowser_calm : steps (emits no_signal) (getCurrentBrowser E cfg).
Proof.
  unfold getCurrentBrowser, switchWorkspace, connect_if_needed.
  calm_walk_with ltac:(apply launchChrome_calm).
Qed.

Lemma post_pages_calm name viewport :
  steps (emits no_signal) (post_pages E cfg name viewport).
Proof.
  unfold post_pages, create_entry.
  calm_walk_with ltac:(apply getCurrentBrowser_calm).
Qed.

Lemma delete_pages_calm name : steps (emits no_signal) (delete_pages E name).
Proof. unfold delete_pages, page_close. calm_walk_with fail. Qed.

Lemma post_workspace_switch_calm w :
  steps (emits no_signal) (post_workspace_switch E cfg w).
Proof.
  unfold post_workspace_switch, switchWorkspace, connect_if_needed,
    getWorkspaceStates.
  calm_walk_with ltac:(apply launchChrome_calm).
Qed.

(** Between two states, for the workspace [n]: the instance tracked for [n]
    is the one that was, and a signal that was sent is a SIGTERM to the
    process of that instance. *)
Definition own_signal (n : string) (s : St) (e : Event) : Prop :=
  match e with
  | EvKill pid sig =>
      sig = SIGTERM
      /\ exists i, JSMap.get n (workspaces s) = Some i /\ process i = pid
  | _ => True
  end.

Definition stopping (n : string) (s s' : St) : Prop :=
  (forall i, JSMap.get n (workspaces s') = Some i ->
             JSMap.get n (workspaces s) = Some i)
  /\ exists new, st_trace s' = (st_trace s ++ new)%list
                 /\ Forall (own_signal n s) new.

Lemma stopping_refl n s : stopping n s s.
Proof. split; [auto|]. exists []. rewrite app_nil_r. auto. Qed.

Lemma stopping_trans n a b c : stopping n a b -> stopping n b c -> stopping n a c.
Proof.
  intros (A1 & n1 & H1 & F1) (B1 & n2 & H2 & F2). split; [auto|].
  exists (n1 ++ n2)%list. rewrite H2, H1, <- app_assoc. split; [reflexivity|].
  apply Forall_app. split; [assumption|].
  eapply Forall_impl; [|exact F2].
  intros e He. destruct e; try exact I.
  destruct He as (Hs & i & Hi & Hp). split; [assumption|]. eauto.
Qed.

Lemma killChrome_trace i s r s' :
  killChrome i s = (r, s') ->
  workspaces s' = workspaces s
  /\ currentWorkspace s' = currentWorkspace s
  /\ exists new, st_trace s' = (st_trace s ++ new)%list
                 /\ forall e, In e new ->
                      e = EvKill (process i) SIGTERM \/ e = EvSetTimeout 3000.
Proof.
  unfold killChrome, proc_killed, proc_kill, bind, gets, emit, modify, ret.
  destruct (nth_error (st_procs s) (process i)) as [p|] eqn:Hp.
  - destruct (killed p); cbn [negb].
    + intros H. end_state H. splits; auto. exists []. rewrite app_nil_r.
      split; [reflexivity | intros e []].
    + cbn [st_procs with_trace]. rewrite Hp. destruct (cp_handle p).
      * intros H. end_state H. simpl. splits; auto.
        exists [EvKill (process i) SIGTERM; EvSetTimeout 3000].
        rewrite <- app_assoc. split; [reflexivity|].
        intros e [<-|[<-|[]]]; auto.
      * intros H. end_state H. simpl. splits; auto.
        exists [EvSetTimeout 3000]. split; [reflexivity|].
        intros e [<-|[]]; auto.
  - cbn [negb st_procs with_trace]. rewrite Hp.
    intros H. end_state H. simpl. splits; auto.
    exists [EvSetTimeout 3000]. split; [reflexivity|]. intros e [<-|[]]; auto.
Qed.

Lemma stopWorkspace_stopping n : steps (stopping n) (stopWorkspace n).
Proof.
  intros s r s' H. unfold stopWorkspace in H. unfold bind at 1, gets in H.
  destruct (JSMap.get n (workspaces s)) as [i|] eqn:Hi.
  - unfold bind at 1 in H.
    destruct (killChrome i s) as [[[]|m] s1] eqn:Hk;
      destruct (killChrome_trace i s _ _ Hk) as (Hw & _ & new & Htr & Hnew).
    + assert (Hs' : workspaces s' = JSMap.delete n (workspaces s1)
                    /\ st_trace s' = st_trace s1).
      { cbv [bind modify gets ret] in H. simpl in H.
        destruct (same_name (currentWorkspace s1) n); end_state H; auto. }
      destruct Hs' as [Hws Htr']. split.
      * intros i0. rewrite Hws, JSMapFacts.get_delete_eq. discriminate.
      * exists new. rewrite Htr', Htr. split; [reflexivity|].
        apply Forall_forall. intros e He.
        destruct (Hnew e He) as [->| ->]; simpl; eauto.
    + end_state H. split; [now rewrite Hw|].
      exists new. split; [assumption|].
      apply Forall_forall. intros e He.
      destruct (Hnew e He) as [->| ->]; simpl; eauto.
  - end_state H. apply stopping_refl.
Qed.

Ltac stopping_step n :=
  intros;
  first [ apply steps_modify; intros; split;
          [ simpl; auto
          | eexists []; rewrite app_nil_r; split; [reflexivity | constructor] ]
        | unfold emit; apply steps_modify; intros; split;
          [ simpl; auto
          | eexists [_]; split; [reflexivity | repeat constructor] ] ].

Lemma post_workspace_stop_stopping n :
  steps (stopping n) (post_workspace_stop E (Some n)).
Proof.
  unfold post_workspace_stop, page_close_detached, browser_close_detached,
    outside, now.
  step_through_with ltac:(apply stopWorkspace_stopping)
    (stopping_refl n) (stopping_trans n);
    try stopping_step n.
Qed.
End Calm.

(** X26: no request but [POST /workspace/stop] sends a signal to a process
    or arms a termination timer; and a [POST /workspace/stop] for a
    workspace sends no signal but SIGTERM, and that to no process but the
    one of the instance that was tracked for that workspace. *)
Theorem only_stop_terminates_a_browser E cfg :
  (forall q s r s',
      (forall w, q <> POST_workspace_stop w) ->
      serve_request E cfg q s = (r, s') ->
      exists new, st_trace s' = (st_trace s ++ new)%list /\ Forall no_signal new)
  /\ (forall n s r s',
        post_workspace_stop E (Some n) s = (r, s') ->
        exists new,
          st_trace s' = (st_trace s ++ new)%list
          /\ forall pid sig,
               In (EvKill pid sig) new ->
               sig = SIGTERM
               /\ exists i, JSMap.get n (workspaces s) = Some i
                            /\ process i = pid).
Proof.
  split.
  - intros q s r s' Hq H.
    destruct q as [ | |w|w| |[|name viewport|name]];
      cbn [serve_request serve_page_request] in H.
    + rewrite (get_workspaces_unchanged cfg _ _ _ H). apply emits_refl.
    + rewrite (get_workspace_current_unchanged _ _ _ H). apply emits_refl.
    + exact (post_workspace_switch_calm E cfg w _ _ _ H).
    + exfalso. exact (Hq w eq_refl).
    + rewrite (get_root_unchanged _ _ _ H). apply emits_refl.
    + rewrite (get_pages_unchanged _ _ _ H). apply emits_refl.
    + exact (post_pages_calm E cfg name viewport _ _ _ H).
    + exact (delete_pages_calm E name _ _ _ H).
  - intros n s r s' H.
    destruct (post_workspace_stop_stopping E n _ _ _ H) as (_ & new & Htr & Hall).
    exists new. split; [assumption|]. intros pid sig Hin.
    rewrite Forall_forall in Hall. exact (Hall _ Hin).
Qed.

(** ** Off the Mac *)

(** The arguments of a browser with no window of its own. *)
Definition windowless_args (args : list string) : Prop :=
  has_arg "--headless=new" args = true /\ has_window_position args = false.

(** Between two states: no placement was found, no operating-system utility
    was run, and every browser started was started headless and without a
    window position; nothing is said when the first state has a placement. *)
Definition stays_windowless (s s' : St) : Prop :=
  placement s = None ->
  placement s' = None
  /\ exists new, st_trace s' = (st_trace s ++ new)%list
                 /\ filter is_exec new = []
                 /\ Forall windowless_args (spawned_args new).

Lemma stays_windowless_refl s : stays_windowless s s.
Proof.
  intros H. split; [assumption|]. exists []. rewrite app_nil_r.
  split; [reflexivity|]. split; [reflexivity | constructor].
Qed.

Lemma stays_windowless_trans a b c :
  stays_windowless a b -> stays_windowless b c -> stays_windowless a c.
Proof.
  intros Hab Hbc Ha. destruct (Hab Ha) as (Hb & n1 & H1 & X1 & F1).
  destruct (Hbc Hb) as (Hc & n2 & H2 & X2 & F2).
  split; [assumption|]. exists (n1 ++ n2)%list.
  rewrite H2, H1, <- app_assoc. split; [reflexivity|]. split.
  - now rewrite filter_app, X1, X2.
  - rewrite spawned_args_app. now apply Forall_app.
Qed.

Ltac windowless_step :=
  intros;
  first [ apply steps_modify; intros ? Hnone; split;
          [ exact Hnone
          | eexists []; rewrite app_nil_r; split; [reflexivity|];
            split; [reflexivity | constructor] ]
        | unfold emit; apply steps_modify; intros ? Hnone; split;
          [ exact Hnone
          | eexists [_]; split; [reflexivity|];
            split; [reflexivity | constructor] ] ].

Section OffMac.
Variable E : Env.
Variable cfg : WorkspacesConfig.
Hypothesis Hplatform : platform E <> "darwin".

Lemma launchChrome_stays_windowless o :
  steps stays_windowless (launchChrome E o).
Proof.
  intros s r s' H Hnone.
  destruct (launchChrome_trace E o s r s' H)
    as [[-> _]|(d & new0 & rest & Hres & Hc & Htr & Hx & Hargs)].
  - now apply stays_windowless_refl.
  - assert (Hoff : negb (String.eqb (platform E) "darwin") = true).
    { destruct (String.eqb_spec (platform E) "darwin"); [contradiction | reflexivity]. }
    assert (Hd : d = None /\ new0 = []).
    { destruct (resolved_spec E _ _ _ Hres) as [[Hcs ->]|(_ & -> & ->)].
      - unfold placement in Hnone. rewrite Hcs in Hnone.
        destruct d; [discriminate Hnone | auto].
      - unfold resolve_once. rewrite Hoff. auto. }
    destruct Hd as [-> ->].
    split; [unfold placement; now rewrite Hc|].
    exists rest. split; [assumption|]. split; [assumption|].
    apply Forall_forall. intros args Hin.
    destruct (Hargs args Hin) as [Hh Hw]. split.
    + rewrite Hh. apply orb_true_r.
    + exact Hw.
Qed.

Lemma serve_request_stays_windowless q :
  steps stays_windowless (serve_request E cfg q).
Proof.
  destruct q as [ | |w|w| |[|name viewport|name]];
    cbn [serve_request serve_page_request];
    unfold get_workspaces, get_workspace_current, post_workspace_switch,
      post_workspace_stop, get_root, get_pages, post_pages, delete_pages,
      create_entry, getCurrentBrowser, switchWorkspace, connect_if_needed,
      getWorkspaceStates, stopWorkspace, stopAll, killChrome, proc_killed,
      proc_kill, page_close, page_close_detached, browser_close_detached,
      outside, now;
    step_through_with ltac:(apply launchChrome_stays_windowless)
      stays_windowless_refl stays_windowless_trans;
    try windowless_step.
Qed.

Lemma serve_requests_stay_windowless reqs :
  steps stays_windowless (serve_requests E cfg reqs).
Proof.
  unfold serve_requests.
  step_through_with ltac:(apply serve_request_stays_windowless)
    stays_windowless_refl stays_windowless_trans.
Qed.
End OffMac.

(** X27: on a platform other than macOS, whatever requests the server
    serves from a state without a placement, it runs no operating-system
    utility, and every browser it starts is started with [--headless=new]
    and without a [--window-position=] argument. *)
Theorem off_the_mac_every_browser_is_headless E cfg reqs s r s' :
  platform E <> "darwin" ->
  placement s = None ->
  serve_requests E cfg reqs s = (r, s') ->
  exists new,
    st_trace s' = (st_trace s ++ new)%list
    /\ filter is_exec new = []
    /\ forall path args,
         In (EvSpawn path args) new ->
         has_arg "--headless=new" args = true
         /\ has_window_position args = false.
Proof.
  intros Hp Hnone H.
  destruct (serve_requests_stay_windowless E cfg Hp reqs s r s' H Hnone)
    as (_ & new & Htr & Hx & Hall).
  exists new. split; [assumption|]. split; [assumption|].
  intros path args Hin. rewrite Forall_forall in Hall. apply Hall.
  unfold spawned_args. apply in_flat_map. exists (EvSpawn path args).
  split; [assumption | now left].
Qed.

(** ** The workspace a new page goes to *)

(** [current || config.defaultWorkspace], as [getCurrentBrowser] chooses. *)
Definition serving_workspace (cfg : WorkspacesConfig) (s : St) : string :=
  match currentWorkspace s with
  | Some c => if truthy c then c else defaultWorkspace cfg
  | None => defaultWorkspace cfg
  end.

Section Serving.
Variable E : Env.
Variable cfg : WorkspacesConfig.

Lemma getCurrentBrowser_serving s b s1 :
  getCurrentBrowser E cfg s = (Ok (Some b), s1) ->
  currentWorkspace s1 = Some (serving_workspace cfg s)
  /\ (forall c, currentWorkspace s = Some c -> truthy c = true -> s1 = s)
  /\ ((forall c, currentWorkspace s = Some c -> truthy c = false) ->
      hasWorkspace cfg (defaultWorkspace cfg) = true
      /\ exists i, JSMap.get (defaultWorkspace cfg) (workspaces s1) = Some i).
Proof.
  intros H. unfold getCurrentBrowser in H.
  unfold bind at 1, getCurrentWorkspace, gets in H.
  assert (Hdefault :
    (instance <- switchWorkspace E cfg (defaultWorkspace cfg) ;;
     connect_if_needed E (defaultWorkspace cfg) instance ;;;
     (fun s0 => (Ok (JSMap.get (defaultWorkspace cfg) (browserConnections s0)), s0))) s
    = (Ok (Some b), s1) ->
    currentWorkspace s1 = Some (defaultWorkspace cfg)
    /\ hasWorkspace cfg (defaultWorkspace cfg) = true
    /\ exists i, JSMap.get (defaultWorkspace cfg) (workspaces s1) = Some i).
  { clear H. intros H.
    destruct (bind_inv _ _ _ _ _ _ _ H) as [(i & sa & Hsw & H2)|(m & _ & [=])].
    destruct (bind_inv _ _ _ _ _ _ _ H2) as [([] & sb & Hcn & H3)|(m & _ & [=])].
    injection H3 as _ <-.
    destruct (JSMap.get (defaultWorkspace cfg) (cfg_workspaces cfg)) as [c|] eqn:Hc.
    2:{ unfold switchWorkspace in Hsw. rewrite Hc in Hsw. discriminate Hsw. }
    destruct (switchWorkspace_Ok E cfg _ c _ _ _ Hc Hsw) as (A1 & A2 & _).
    destruct (connect_if_needed_cases E _ _ _ _ _ Hcn) as (B1 & B2 & _).
    splits.
    - congruence.
    - unfold hasWorkspace, JSMap.has. now rewrite Hc.
    - exists i. congruence. }
  unfold serving_workspace.
  destruct (currentWorkspace s) as [c|] eqn:Hcur.
  - destruct (truthy c) eqn:Hc.
    + unfold bind, gets in H.
      destruct (JSMap.get c (browserConnections s)) as [b0|] eqn:Hb;
        [|discriminate H].
      injection H as _ <-. splits.
      * assumption.
      * reflexivity.
      * intros Hf. specialize (Hf c eq_refl). congruence.
    + destruct (Hdefault H) as (D1 & D2 & D3). splits; auto.
      intros c0 [= <-] Ht. congruence.
  - destruct (Hdefault H) as (D1 & D2 & D3). splits; auto.
    intros c0 [=].
Qed.

Lemma create_entry_serving name viewport s entry s' :
  create_entry E cfg name viewport s = (Ok (inl entry), s') ->
  exists s1,
    (exists b, getCurrentBrowser E cfg s = (Ok (Some b), s1))
    /\ workspaces s' = workspaces s1
    /\ currentWorkspace s' = currentWorkspace s1
    /\ browserConnections s' = browserConnections s1
    /\ workspace entry = currentWorkspace s1.
Proof.
  intros H. unfold create_entry in H.
  destruct (bind_inv _ _ _ _ _ _ _ H) as [(browser & s1 & Hgb & H1)|(m & _ & [=])].
  destruct browser as [b|]; [|discriminate H1].
  destruct (bind_inv _ _ _ _ _ _ _ H1) as [(ctxs & s1' & Hc & H2)|(m & _ & [=])].
  injection Hc as <- <-.
  destruct (contexts_of b s1) as [|x0 rest] eqn:Hctx; [discriminate H2|].
  destruct (bind_inv _ _ _ _ _ _ _ H2) as [(p & s2 & Hnp & H3)|(m & _ & [=])].
  destruct (bind_inv _ _ _ _ _ _ _ H3) as [([] & s3 & Hvp & H4)|(m & _ & [=])].
  destruct (bind_inv _ _ _ _ _ _ _ H4) as [([] & s4 & Hses & H5)|(m & _ & [=])].
  destruct (bind_inv _ _ _ _ _ _ _ H5) as [(target & s5 & Hti & H6)|(m & _ & [=])].
  destruct (bind_inv _ _ _ _ _ _ _ H6) as [([] & s6 & Hdt & H7)|(m & _ & [=])].
  cbv [bind getCurrentWorkspace gets modify on_close ret] in H7. end_run H7.
  injection Hr as <-.
  destruct (newPage_run E _ _ _ _ _ Hnp) as (_ & W2 & _).
  pose proof (viewport_world _ _ _ _ _ _ Hvp) as W3.
  pose proof (outside_world _ _ _ _ _ Hses) as W4.
  pose proof (getTargetInfo_world _ _ _ _ _ Hti) as W5.
  pose proof (outside_world _ _ _ _ _ Hdt) as W6.
  pose proof (world_only_trans _ _ _ W2
                (world_only_trans _ _ _ W3
                   (world_only_trans _ _ _ W4 (world_only_trans _ _ _ W5 W6))))
    as (_ & V2 & V3 & _ & V5 & _).
  exists s1. simpl. split; [eauto|]. splits; congruence.
Qed.
End Serving.


(** ** The browsers of the tracked workspaces *)

(** Every tracked instance names a process of the process table that no
    signal was sent to, and carries the port and the profile directory of
    the configuration of its workspace; and no two workspaces name the same
    process. *)
Definition instances_ok (cfg : WorkspacesConfig) (s : St) : Prop :=
  (forall n i,
      JSMap.get n (workspaces s) = Some i ->
      (exists p, nth_error (st_procs s) (process i) = Some p
                 /\ killed p = false /\ cp_signals p = [])
      /\ exists c, JSMap.get n (cfg_workspaces cfg) = Some c
                   /\ port i = cfg_port c
                   /\ profileDirectory i = cfg_profileDirectory c)
  /\ (forall n m i j,
        JSMap.get n (workspaces s) = Some i ->
        JSMap.get m (workspaces s) = Some j ->
        process i = process j -> n = m).

Definition instances_kept (cfg : WorkspacesConfig) (s s' : St) : Prop :=
  instances_ok cfg s -> instances_ok cfg s'.

Lemma instances_kept_refl cfg s : instances_kept cfg s s.
Proof. intros H. exact H. Qed.

Lemma instances_kept_trans cfg a b c :
  instances_kept cfg a b -> instances_kept cfg b c -> instances_kept cfg a c.
Proof. unfold instances_kept. auto. Qed.

Lemma instances_kept_append cfg s s' more :
  workspaces s' = workspaces s ->
  st_procs s' = (st_procs s ++ more)%list ->
  instances_kept cfg s s'.
Proof.
  intros Hw Hp [H1 H2]. unfold instances_ok. rewrite Hw, Hp. split; [|exact H2].
  intros n i Hi. destruct (H1 n i Hi) as ((p & Hn & Hk & Hs) & Hc).
  split; [|exact Hc]. exists p. split; [|auto].
  rewrite nth_error_app1; [exact Hn|].
  apply nth_error_Some. congruence.
Qed.

Lemma instances_kept_fields cfg s s' :
  workspaces s' = workspaces s ->
  st_procs s' = st_procs s ->
  instances_kept cfg s s'.
Proof.
  intros Hw Hp. apply (instances_kept_append cfg s s' []); [exact Hw|].
  now rewrite app_nil_r.
Qed.

Ltac instances_step :=
  intros; unfold emit; apply steps_modify; intros;
  apply instances_kept_fields; reflexivity.

Section Instances.
Variable E : Env.
Variable cfg : WorkspacesConfig.

Lemma launchChrome_procs o s r s' :
  launchChrome E o s = (r, s') ->
  workspaces s' = workspaces s
  /\ (exists more, st_procs s' = (st_procs s ++ more)%list)
  /\ forall i, r = Ok i ->
       port i = opt_port o
       /\ profileDirectory i = opt_profileDirectory o
       /\ process i = length (st_procs s)
       /\ exists p, st_procs s' = (st_procs s ++ [p])%list
                    /\ killed p = false /\ cp_signals p = [].
Proof.
  intros H.
  destruct (launchChrome_frame E o s r s' H) as (Hw & _).
  split; [exact Hw|].
  destruct (findChromeExecutable E) as [path|] eqn:Hpath.
  2:{ apply launchChrome_inv in H. rewrite Hpath in H. destruct H as [-> ->].
      split; [exists []; now rewrite app_nil_r | intros i Hi; discriminate Hi]. }
  destruct (launchChrome_calls E o s _ s' path Hpath H)
    as (d & new0 & _ & [(m & -> & _ & _ & Hpr)
                       |(args & w & polls_ & _ & -> & _ & _ & Hpr & _)]).
  - split; [exists []; now rewrite app_nil_r, Hpr | intros i Hi; discriminate Hi].
  - split; [eexists; exact Hpr|].
    intros i Hi. destruct w as [url|m]; [|discriminate Hi].
    injection Hi as <-. cbn [port profileDirectory process]. splits; try reflexivity.
    eexists. split; [exact Hpr|]. split; reflexivity.
Qed.

Lemma switchWorkspace_instances n :
  steps (instances_kept cfg) (switchWorkspace E cfg n).
Proof.
  intros s r s' H.
  destruct (JSMap.get n (cfg_workspaces cfg)) as [c|] eqn:Hc.
  2:{ unfold switchWorkspace in H. rewrite Hc in H. injection H as _ <-.
      apply instances_kept_refl. }
  destruct (JSMap.get n (workspaces s)) as [i|] eqn:Hi.
  - rewrite (switchWorkspace_tracked E cfg n c i s Hc Hi) in H. injection H as _ <-.
    apply instances_kept_fields; reflexivity.
  - destruct (switchWorkspace_untracked E cfg n c s r s' Hc Hi H)
      as (r0 & s0 & Hl & Hr).
    destruct (launchChrome_procs _ _ _ _ Hl) as (Hw & (more & Hmore) & Hok).
    destruct r0 as [i|m]; destruct Hr as [_ ->].
    2:{ exact (instances_kept_append cfg s s0 more Hw Hmore). }
    destruct (Hok i eq_refl) as (Hport & Hprof & Hproc & p & Hp & Hk & Hs).
    cbn [opt_port opt_profileDirectory] in Hport, Hprof.
    intros [H1 H2].
    assert (Hold : forall m j, JSMap.get m (workspaces s) = Some j ->
                               process j < length (st_procs s)).
    { intros m j Hj. destruct (H1 m j Hj) as ((q & Hq & _) & _).
      apply nth_error_Some. congruence. }
    unfold instances_ok. simpl. rewrite Hw, Hp. split.
    + intros m j Hj. destruct (String.eqb_spec n m) as [<-|Hne].
      * rewrite JSMapFacts.get_set_eq in Hj. injection Hj as <-. split.
        -- exists p. rewrite Hproc. split; [apply nth_error_snoc | auto].
        -- exists c. auto.
      * rewrite JSMapFacts.get_set_ne in Hj by assumption.
        destruct (H1 m j Hj) as ((q & Hq & Hqk & Hqs) & Hcfg).
        split; [|exact Hcfg]. exists q. split; [|auto].
        rewrite nth_error_app1; [exact Hq | exact (Hold m j Hj)].
    + intros a b x y Ha Hb Hxy.
      destruct (String.eqb_spec n a) as [<-|Hna];
        destruct (String.eqb_spec n b) as [<-|Hnb]; [reflexivity| | |].
      * rewrite JSMapFacts.get_set_eq in Ha. injection Ha as <-.
        rewrite JSMapFacts.get_set_ne in Hb by assumption.
        pose proof (Hold b y Hb). lia.
      * rewrite JSMapFacts.get_set_eq in Hb. injection Hb as <-.
        rewrite JSMapFacts.get_set_ne in Ha by assumption.
        pose proof (Hold a x Ha). lia.
      * rewrite JSMapFacts.get_set_ne in Ha, Hb by assumption. eauto.
Qed.

Lemma stopWorkspace_instances n :
  steps (instances_kept cfg) (stopWorkspace n).
Proof.
  intros s r s' H. unfold stopWorkspace in H. unfold bind at 1, gets in H.
  destruct (JSMap.get n (workspaces s)) as [i|] eqn:Hi.
  2:{ injection H as _ <-. apply instances_kept_refl. }
  unfold bind at 1 in H.
  destruct (killChrome_cases i s) as (s1 & Hk & Hother & _). rewrite Hk in H.
  destruct (killChrome_world i s _ _ Hk) as (_ & W2 & _).
  assert (Hs' : workspaces s' = JSMap.delete n (workspaces s1)
                /\ st_procs s' = st_procs s1).
  { cbv [bind modify gets ret] in H. simpl in H.
    destruct (same_name (currentWorkspace s1) n); end_state H; auto. }
  destruct Hs' as [Hws Hpr]. intros [H1 H2].
  assert (Hkept : forall m j,
             JSMap.get m (workspaces s') = Some j ->
             m <> n /\ JSMap.get m (workspaces s) = Some j).
  { intros m j Hj. rewrite Hws, W2 in Hj. split.
    - intros ->. rewrite JSMapFacts.get_delete_eq in Hj. discriminate Hj.
    - eapply JSMapFacts.get_delete_Some. exact Hj. }
  split.
  - intros m j Hj. destruct (Hkept m j Hj) as [Hne Hj0].
    destruct (H1 m j Hj0) as (Hp & Hc). split; [|exact Hc].
    rewrite Hpr, Hother; [exact Hp|].
    intros Heq. apply Hne. exact (H2 m n j i Hj0 Hi Heq).
  - intros a b x y Ha Hb. destruct (Hkept a x Ha) as [_ Ha0].
    destruct (Hkept b y Hb) as [_ Hb0]. exact (H2 a b x y Ha0 Hb0).
Qed.

Lemma serve_request_instances q :
  steps (instances_kept cfg) (serve_request E cfg q).
Proof.
  destruct q as [ | |w|w| |[|name viewport|name]];
    cbn [serve_request serve_page_request];
    unfold get_workspaces, get_workspace_current, post_workspace_switch,
      post_workspace_stop, get_root, get_pages, post_pages, delete_pages,
      create_entry, getCurrentBrowser, connect_if_needed,
      getWorkspaceStates, page_close, page_close_detached,
      browser_close_detached, outside, now;
    step_through_with
      ltac:(first [ apply switchWorkspace_instances
                  | apply stopWorkspace_instances ])
      (instances_kept_refl cfg) (instances_kept_trans cfg);
    try instances_step.
Qed.

Lemma serve_requests_instances reqs :
  steps (instances_kept cfg) (serve_requests E cfg reqs).
Proof.
  unfold serve_requests.
  step_through_with ltac:(apply serve_request_instances)
    (instances_kept_refl cfg) (instances_kept_trans cfg).
Qed.
End Instances.

(** X29: whatever requests the server has served since it started, every
    tracked instance names a process of its own that the server started and
    has sent no signal to, and carries the port and the profile directory
    configured for its workspace; no two tracked workspaces share a
    process. *)
Theorem tracked_browsers_are_untouched_and_apart E cfg reqs r s :
  serve_requests E cfg reqs initial = (r, s) ->
  forall n i,
    JSMap.get n (workspaces s) = Some i ->
    (exists p, nth_error (st_procs s) (process i) = Some p
               /\ killed p = false /\ cp_signals p = [])
    /\ (exists c, JSMap.get n (cfg_workspaces cfg) = Some c
                  /\ port i = cfg_port c
                  /\ profileDirectory i = cfg_profileDirectory c)
    /\ (forall m j, JSMap.get m (workspaces s) = Some j ->
                    process j = process i -> m = n).
Proof.
  intros H n i Hi.
  assert (Hinit : instances_ok cfg initial).
  { split; intros; discriminate. }
  destruct (serve_requests_instances E cfg reqs _ _ _ H Hinit) as [H1 H2].
  destruct (H1 n i Hi) as (Hp & Hc). split; [exact Hp|]. split; [exact Hc|].
  intros m j Hj Heq. exact (H2 m n j i Hj Hi Heq).
Qed.

(** ** What the server reports after a switch and after a stop *)

Lemma post_workspace_switch_200 E cfg n s resp s1 :
  post_workspace_switch E cfg (Some n) s = (Ok resp, s1) ->
  status resp = 200%Z ->
  exists i c,
    truthy n = true
    /\ JSMap.get n (cfg_workspaces cfg) = Some c
    /\ resp = json (BSwitch n (wsEndpoint i))
    /\ currentWorkspace s1 = Some n
    /\ JSMap.get n (workspaces s1) = Some i.
Proof.
  unfold post_workspace_switch. intros H H200.
  destruct (truthy n) eqn:Hn; cbn [negb] in H.
  2:{ injection H as <- _. discriminate H200. }
  unfold hasWorkspace, JSMap.has in H.
  destruct (JSMap.get n (cfg_workspaces cfg)) as [c|] eqn:Hc; cbn [negb] in H.
  2:{ cbv [bind getWorkspaceStates gets ret] in H. injection H as <- _.
      discriminate H200. }
  destruct (try_catch_inv _ _ _ _ _ _ H) as [(a & Hrun & Ha)|(m & s0 & _ & Hh)].
  2:{ injection Hh as <- _. discriminate H200. }
  injection Ha as <-.
  destruct (bind_inv _ _ _ _ _ _ _ Hrun) as [(i & sa & Hsw & H2)|(m & _ & [=])].
  destruct (bind_inv _ _ _ _ _ _ _ H2) as [([] & sb & Hcn & H3)|(m & _ & [=])].
  injection H3 as <- <-.
  destruct (switchWorkspace_Ok E cfg n c _ _ _ Hc Hsw) as (A1 & A2 & _).
  destruct (connect_if_needed_cases E _ _ _ _ _ Hcn) as (B1 & B2 & _).
  exists i, c. splits; auto; congruence.
Qed.

(** X30: when [POST /workspace/switch] has answered 200 for a workspace,
    [GET /workspace/current] and [GET /] name that workspace with the
    endpoint the switch sent back (null when it is empty), and
    [GET /workspaces] shows it running with that endpoint and as the
    current one.  A [POST /workspace/stop] of the workspace then answers
    success, after which both report no workspace and no endpoint and
    [GET /workspaces] shows the workspace stopped and none current. *)
Theorem reports_follow_switch_and_stop E cfg n s resp s1 :
  post_workspace_switch E cfg (Some n) s = (Ok resp, s1) ->
  status resp = 200%Z ->
  exists ep,
    body resp = BSwitch n ep
    /\ get_workspace_current s1 = (Ok (json (BCurrent (Some n) (or_null ep))), s1)
    /\ get_root s1 = (Ok (json (BCurrent (Some n) (or_null ep))), s1)
    /\ (exists states w,
          get_workspaces cfg s1 = (Ok (json (BWorkspaces states (Some n))), s1)
          /\ In w states /\ ws_name w = n
          /\ ws_status w = running /\ ws_wsEndpoint w = ep)
    /\ exists s2,
        post_workspace_stop E (Some n) s1 = (Ok (json (BStop n)), s2)
        /\ get_workspace_current s2 = (Ok (json (BCurrent None None)), s2)
        /\ get_root s2 = (Ok (json (BCurrent None None)), s2)
        /\ exists states,
            get_workspaces cfg s2 = (Ok (json (BWorkspaces states None)), s2)
            /\ forall w, In w states -> ws_name w = n ->
                         ws_status w = stopped /\ ws_wsEndpoint w = None.
Proof.
  intros H H200.
  destruct (post_workspace_switch_200 E cfg n s resp s1 H H200)
    as (i & c & Hn & Hc & -> & Hcur & Hi).
  exists (wsEndpoint i). split; [reflexivity|].
  split.
  { cbv [get_workspace_current getCurrentWorkspace getCurrentInstance bind gets ret].
    now rewrite Hcur, Hn, Hi. }
  split.
  { cbv [get_root getCurrentWorkspace getCurrentInstance bind gets ret].
    now rewrite Hcur, Hn, Hi. }
  split.
  { cbv [get_workspaces getWorkspaceStates getCurrentWorkspace bind gets ret].
    rewrite Hcur. eexists. eexists. split; [reflexivity|]. split.
    - apply in_map_iff. exists (n, c). split; [reflexivity|].
      unfold JSMap.entries. now apply JSMapFacts.get_In.
    - cbn [fst snd ws_name ws_status ws_wsEndpoint]. rewrite Hi. auto. }
  destruct (post_workspace_stop_run E n s1 Hn) as (s2 & Hstop & _ & _ & Hw & Hc2).
  assert (Hnone : currentWorkspace s2 = None).
  { rewrite Hc2, Hcur. unfold same_name, JSMap.has.
    now rewrite String.eqb_refl, Hi. }
  assert (Hgone : JSMap.get n (workspaces s2) = None).
  { rewrite Hw. apply JSMapFacts.get_delete_eq. }
  exists s2. split; [exact Hstop|]. split.
  { cbv [get_workspace_current getCurrentWorkspace getCurrentInstance bind gets ret].
    now rewrite Hnone. }
  split.
  { cbv [get_root getCurrentWorkspace getCurrentInstance bind gets ret].
    now rewrite Hnone. }
  cbv [get_workspaces getWorkspaceStates getCurrentWorkspace bind gets ret].
  rewrite Hnone. eexists. split; [reflexivity|].
  intros w Hin Hname. apply in_map_iff in Hin. destruct Hin as ([n0 c0] & <- & _).
  cbn [fst snd ws_name ws_status ws_wsEndpoint] in *. subst n0.
  rewrite Hgone. auto.
Qed.

(* ------------------------------------------------------------------ *)
(** * The further properties on concrete runs *)

Lemma detected_display_is_right_of_main_witness :
  exists d s',
    getVirtualDisplayPosition mac_env initial = (Ok (Some d), s')
    /\ platform mac_env = "darwin"
    /\ (0 < px (origin d))%Z.
Proof.
  destruct (getVirtualDisplayPosition mac_env initial) as [[[d|]|m] s'] eqn:Hrun;
    [|vm_compute in Hrun; discriminate Hrun..].
  exists d, s'. split; [reflexivity|].
  destruct (detected_display_is_right_of_main mac_env initial d s' Hrun)
    as (Hp & _ & Hx & _).
  split; assumption.
Defined.

Lemma report_without_type_gives_no_display_witness :
  platform untyped_report_env = "darwin"
  /\ exec_result untyped_report_env 0 display_query = Some untyped_report
  /\ no_type_line untyped_report
  /\ getVirtualDisplayPosition untyped_report_env initial
     = (Ok None, after [EvExec display_query] initial).
Proof.
  assert (Hl : no_type_line untyped_report).
  { intros line Hin. vm_compute in Hin.
    destruct Hin as [<-|[<-|[]]]; reflexivity. }
  split; [reflexivity|]. split; [reflexivity|]. split; [exact Hl|].
  exact (proj2 (report_without_type_gives_no_display untyped_report_env initial
                  untyped_report eq_refl eq_refl Hl)).
Defined.

Lemma launch_fails_on_unsupported_platform_witness :
  unsupported (platform freebsd_env)
  /\ launchChrome freebsd_env launch_personal initial
     = (Throw "Chrome executable not found for platform: freebsd", initial).
Proof.
  assert (Hu : unsupported (platform freebsd_env)).
  { unfold unsupported. simpl. splits; discriminate. }
  split; [exact Hu|].
  exact (proj1 (launch_fails_on_unsupported_platform freebsd_env DEFAULT_CONFIG Hu)
           launch_personal initial).
Defined.

Lemma spawned_command_line_witness :
  exists r s' args,
    launchChrome mac_env launch_personal initial = (r, s')
    /\ In (EvSpawn "/Applications/Google Chrome.app/Contents/MacOS/Google Chrome" args)
         (st_trace s')
    /\ command_line mac_env launch_personal args.
Proof.
  destruct (launchChrome mac_env launch_personal initial) as [r s'] eqn:Hrun.
  destruct (spawned_command_line mac_env launch_personal initial r s' Hrun)
    as (new & Htr & Hall).
  assert (Hs : s' = snd (launchChrome mac_env launch_personal initial))
    by (rewrite Hrun; reflexivity).
  assert (Hin : exists args,
             In (EvSpawn "/Applications/Google Chrome.app/Contents/MacOS/Google Chrome"
                   args) (st_trace s')).
  { rewrite Hs. vm_compute. eexists. right. right. left. reflexivity. }
  destruct Hin as (args & Hin). exists r, s', args.
  split; [reflexivity|]. split; [exact Hin|].
  rewrite Htr in Hin. simpl in Hin. exact (proj2 (Hall _ _ Hin)).
Defined.

Lemma waitForCDP_returns_first_answer_witness :
  (forall i, i < 2 -> refused slow_start_env 9230 (length (st_trace initial) + 2 * i))
  /\ waitForCDP slow_start_env 9230 30 500 initial
     = (Ok (Some ("ws://127.0.0.1/devtools/" ++ version_url 9230)),
        after (polls 9230 500 2 ++ [EvFetch (version_url 9230)]) initial).
Proof.
  assert (Hbefore : forall i, i < 2 ->
                      refused slow_start_env 9230 (length (st_trace initial) + 2 * i)).
  { intros i Hi. destruct i as [|[|i]]; [vm_compute; discriminate.. | lia]. }
  split; [exact Hbefore|].
  apply (waitForCDP_returns_first_answer slow_start_env 9230 30 500 2);
    [lia | exact Hbefore |].
  exists 200%Z. split; reflexivity.
Defined.

Lemma launched_instance_witness :
  exists i s',
    launchChrome mac_env launch_personal initial = (Ok i, s')
    /\ port i = 9230%Z
    /\ process i = 0
    /\ length (st_procs s') = 1.
Proof.
  destruct (launchChrome mac_env launch_personal initial) as [[i|m] s'] eqn:Hrun;
    [|vm_compute in Hrun; discriminate Hrun].
  exists i, s'. split; [reflexivity|].
  destruct (launched_instance mac_env launch_personal initial i s' Hrun)
    as (Hport & _ & Hproc & (p & Hprocs & _) & _).
  split; [exact Hport|]. split; [exact Hproc|]. rewrite Hprocs. reflexivity.
Defined.

Lemma failed_wait_leaves_browser_running_witness :
  (forall t, throws dead_port_env t = None)
  /\ exists m s' p,
      launchChrome dead_port_env launch_personal initial = (Throw m, s')
      /\ st_procs s' = [p]
      /\ cp_signals p = []
      /\ workspaces s' = JSMap.empty.
Proof.
  split; [reflexivity|].
  destruct (launchChrome dead_port_env launch_personal initial) as [[i|m] s'] eqn:Hrun;
    [vm_compute in Hrun; discriminate Hrun|].
  destruct (failed_wait_leaves_browser_running dead_port_env launch_personal initial
              m s' _ eq_refl (fun _ => eq_refl) Hrun)
    as (_ & (p & Hprocs & _ & Hsig) & _ & Hws).
  exists m, s', p. split; [reflexivity|]. auto.
Defined.

Lemma second_killChrome_does_nothing_witness :
  exists i p s1,
    JSMap.get "personal" (workspaces (personal_running mac_env)) = Some i
    /\ nth_error (st_procs (personal_running mac_env)) (process i) = Some p
    /\ cp_handle p = true
    /\ killChrome i (personal_running mac_env) = (Ok tt, s1)
    /\ killChrome i s1 = (Ok tt, s1).
Proof.
  destruct (JSMap.get "personal" (workspaces (personal_running mac_env)))
    as [i|] eqn:Hi; [|vm_compute in Hi; discriminate Hi].
  assert (Hproc : process i = 0).
  { vm_compute in Hi. injection Hi as <-. reflexivity. }
  destruct (nth_error (st_procs (personal_running mac_env)) (process i))
    as [p|] eqn:Hp; [|rewrite Hproc in Hp; vm_compute in Hp; discriminate Hp].
  assert (Hh : cp_handle p = true).
  { rewrite Hproc in Hp. vm_compute in Hp. injection Hp as <-. reflexivity. }
  destruct (second_killChrome_does_nothing i (personal_running mac_env) p Hp
              (or_introl Hh)) as (s1 & H1 & H2 & _).
  exists i, p, s1. auto.
Defined.

Lemma stopAll_signals_every_tracked_browser_witness :
  exists s',
    stopAll two_workspaces = (Ok tt, s')
    /\ workspaces s' = JSMap.empty
    /\ map killed (st_procs s') = [true; true].
Proof.
  destruct (stopAll_signals_every_tracked_browser two_workspaces)
    as (s' & Hrun & Hw & _ & _).
  exists s'. split; [exact Hrun|]. split; [exact Hw|].
  assert (Hs : s' = snd (stopAll two_workspaces)) by (rewrite Hrun; reflexivity).
  rewrite Hs. vm_compute. reflexivity.
Defined.

Lemma stop_request_is_idempotent_witness :
  truthy "personal" = true
  /\ exists s1,
      post_workspace_stop mac_env (Some "personal") two_workspaces
      = (Ok (json (BStop "personal")), s1)
      /\ post_workspace_stop mac_env (Some "personal") s1
         = (Ok (json (BStop "personal")), s1)
      /\ post_workspace_stop mac_env (Some "nowhere") initial
         = (Ok (json (BStop "nowhere")), initial).
Proof.
  split; [reflexivity|].
  destruct (stop_request_is_idempotent mac_env "personal" two_workspaces eq_refl)
    as (_ & s1 & H1 & H2).
  exists s1. split; [exact H1|]. split; [exact H2|].
  apply (proj1 (stop_request_is_idempotent mac_env "nowhere" initial eq_refl));
    [intros ne [] | reflexivity | reflexivity].
Defined.

Lemma current_workspace_is_running_witness :
  exists r s i,
    serve_requests mac_env DEFAULT_CONFIG session initial = (r, s)
    /\ currentWorkspace s = Some "work"
    /\ JSMap.get "work" (workspaces s) = Some i
    /\ JSMap.keys (workspaces s) = ["work"].
Proof.
  destruct (serve_requests mac_env DEFAULT_CONFIG session initial) as [r s] eqn:Hrun.
  destruct (current_workspace_is_running mac_env DEFAULT_CONFIG session r s Hrun)
    as (Hcur & _).
  assert (Hs : s = snd (serve_requests mac_env DEFAULT_CONFIG session initial))
    by (rewrite Hrun; reflexivity).
  assert (Hc : currentWorkspace s = Some "work")
    by (rewrite Hs; vm_compute; reflexivity).
  destruct (Hcur "work" Hc) as (i & Hi).
  exists r, s, i. split; [reflexivity|]. split; [exact Hc|]. split; [exact Hi|].
  rewrite Hs. vm_compute. reflexivity.
Defined.

Lemma every_page_has_a_running_owner_witness :
  exists r s e i,
    serve_requests mac_env DEFAULT_CONFIG session initial = (r, s)
    /\ JSMap.keys (pageRegistry s) = ["inbox"]
    /\ JSMap.get "inbox" (pageRegistry s) = Some e
    /\ workspace e = Some "work"
    /\ JSMap.get "work" (workspaces s) = Some i.
Proof.
  destruct (serve_requests mac_env DEFAULT_CONFIG session initial) as [r s] eqn:Hrun.
  assert (Hs : s = snd (serve_requests mac_env DEFAULT_CONFIG session initial))
    by (rewrite Hrun; reflexivity).
  destruct (JSMap.get "inbox" (pageRegistry s)) as [e|] eqn:He;
    [|rewrite Hs in He; vm_compute in He; discriminate He].
  destruct (every_page_has_a_running_owner mac_env DEFAULT_CONFIG session r s Hrun
              "inbox" e He) as (w & i & Hw & Hi).
  assert (Hwork : workspace e = Some "work").
  { rewrite Hs in He. vm_compute in He. injection He as <-. reflexivity. }
  assert (w = "work") by congruence. subst w.
  exists r, s, e, i. split; [reflexivity|].
  split; [rewrite Hs; vm_compute; reflexivity|]. auto.
Defined.


Lemma delete_request_forgets_the_page_witness :
  exists e r s',
    decodeURIComponent "home" = Some "home"
    /\ JSMap.get "home" (pageRegistry two_workspaces) = Some e
    /\ delete_pages mac_env "home" two_workspaces = (r, s')
    /\ r = Ok (json BSuccess)
    /\ JSMap.keys (pageRegistry s') = ["inbox"]
    /\ delete_pages mac_env "100%" two_workspaces
       = (Throw "URI malformed", two_workspaces).
Proof.
  destruct (JSMap.get "home" (pageRegistry two_workspaces)) as [e|] eqn:He;
    [|vm_compute in He; discriminate He].
  destruct (delete_pages mac_env "home" two_workspaces) as [r s'] eqn:Hrun.
  destruct (delete_request_forgets_the_page mac_env "home" two_workspaces r s' Hrun)
    as (_ & Hgood).
  destruct (Hgood "home" e eq_refl He) as (_ & Hcase).
  assert (Hs : s' = snd (delete_pages mac_env "home" two_workspaces))
    by (rewrite Hrun; reflexivity).
  destruct r as [resp|m]; [|destruct Hcase as [Hth _]; vm_compute in Hth; discriminate Hth].
  destruct Hcase as (-> & _).
  exists e, (Ok (json BSuccess)), s'. split; [reflexivity|]. split; [reflexivity|].
  split; [reflexivity|]. split; [reflexivity|].
  split; [rewrite Hs; vm_compute; reflexivity|].
  destruct (delete_pages mac_env "100%" two_workspaces) as [r2 s2] eqn:Hbad.
  destruct (delete_request_forgets_the_page mac_env "100%" two_workspaces r2 s2 Hbad)
    as (Hthrow & _).
  destruct (Hthrow eq_refl) as [-> ->]. reflexivity.
Defined.

Lemma page_created_listed_deleted_witness :
  truthy "100%" = true
  /\ JSMap.get "100%" (pageRegistry two_workspaces) = None
  /\ exists resp s1 s2,
      post_pages mac_env DEFAULT_CONFIG (Some "100%") None two_workspaces
      = (Ok resp, s1)
      /\ status resp = 200%Z
      /\ get_pages s1 = (Ok (json (BPages ["home"; "inbox"; "100%"])), s1)
      /\ delete_pages mac_env "100%25" s1 = (Ok (json BSuccess), s2)
      /\ pageRegistry s2 = pageRegistry two_workspaces.
Proof.
  split; [reflexivity|]. split; [reflexivity|].
  destruct (post_pages mac_env DEFAULT_CONFIG (Some "100%") None two_workspaces)
    as [[resp|m] s1] eqn:Hrun; [|vm_compute in Hrun; discriminate Hrun].
  assert (H200 : status resp = 200%Z).
  { apply (f_equal fst) in Hrun. vm_compute in Hrun. injection Hrun as <-.
    reflexivity. }
  destruct (page_created_listed_deleted mac_env DEFAULT_CONFIG "100%" None
              two_workspaces resp s1 eq_refl eq_refl Hrun H200)
    as (Hlist & _ & Hdel).
  assert (Hs1 : s1 = snd (post_pages mac_env DEFAULT_CONFIG (Some "100%") None
                            two_workspaces)) by (rewrite Hrun; reflexivity).
  destruct (delete_pages mac_env "100%25" s1) as [[resp2|m] s2] eqn:Hd.
  - destruct (Hdel "100%25" _ _ eq_refl Hd) as (-> & Hreg).
    exists resp, s1, s2. split; [reflexivity|]. split; [exact H200|].
    split; [exact Hlist|]. split; [exact Hd | exact Hreg].
  - exfalso. rewrite Hs1 in Hd. vm_compute in Hd. discriminate Hd.
Defined.

Lemma page_request_is_idempotent_witness :
  truthy "home" = true
  /\ exists resp s1,
      post_pages mac_env DEFAULT_CONFIG (Some "home") None initial = (Ok resp, s1)
      /\ status resp = 200%Z
      /\ post_pages mac_env DEFAULT_CONFIG (Some "home")
           (Some {| width := 800; height := 600 |}) s1 = (Ok resp, s1).
Proof.
  split; [reflexivity|].
  destruct (post_pages mac_env DEFAULT_CONFIG (Some "home") None initial)
    as [[resp|m] s1] eqn:Hrun; [|vm_compute in Hrun; discriminate Hrun].
  assert (H200 : status resp = 200%Z).
  { apply (f_equal fst) in Hrun. vm_compute in Hrun. injection Hrun as <-.
    reflexivity. }
  exists resp, s1. split; [reflexivity|]. split; [exact H200|].
  exact (proj2 (page_request_is_idempotent mac_env DEFAULT_CONFIG "home" None initial
                  eq_refl) resp s1 _ Hrun H200).
Defined.

Lemma failed_connect_leaves_workspace_switched_witness :
  exists i s1 s2,
    switchWorkspace refusing_env DEFAULT_CONFIG "personal" initial = (Ok i, s1)
    /\ throws refusing_env (length (st_trace s1)) = Some "connect ECONNREFUSED"
    /\ post_workspace_switch refusing_env DEFAULT_CONFIG (Some "personal") initial
       = (Ok {| status := 500;
                body := BError "Failed to switch workspace: connect ECONNREFUSED" |},
          s2)
    /\ currentWorkspace s2 = Some "personal"
    /\ JSMap.has "personal" (browserConnections s2) = false
    /\ exists s3,
        post_workspace_switch refusing_env DEFAULT_CONFIG (Some "personal") s2
        = (Ok (json (BSwitch "personal" (wsEndpoint i))), s3)
        /\ JSMap.has "personal" (browserConnections s3) = true.
Proof.
  destruct (switchWorkspace refusing_env DEFAULT_CONFIG "personal" initial)
    as [[i|m] s1] eqn:Hsw; [|vm_compute in Hsw; discriminate Hsw].
  assert (Hs1 : s1 = snd (switchWorkspace refusing_env DEFAULT_CONFIG "personal"
                            initial)) by (rewrite Hsw; reflexivity).
  assert (Hi : i = {| process := 0; port := 9230; profileDirectory := "Default";
                      wsEndpoint := Some ("ws://127.0.0.1/devtools/"
                                          ++ version_url 9230) |}).
  { apply (f_equal fst) in Hsw. vm_compute in Hsw. injection Hsw as <-.
    reflexivity. }
  assert (Hth : throws refusing_env (length (st_trace s1))
                = Some "connect ECONNREFUSED").
  { rewrite Hs1. vm_compute. reflexivity. }
  assert (Hpool : JSMap.has "personal" (browserConnections s1) = false).
  { rewrite Hs1. vm_compute. reflexivity. }
  assert (Hep : wsEndpoint i = Some ("ws://127.0.0.1/devtools/" ++ version_url 9230)).
  { rewrite Hi. reflexivity. }
  destruct (failed_connect_leaves_workspace_switched refusing_env DEFAULT_CONFIG
              "personal" i _ _ initial s1 eq_refl eq_refl Hsw Hep eq_refl Hpool Hth)
    as (Hrun & Hcur & _ & Hno & _ & Hretry).
  destruct Hretry as (s3 & H3 & _ & _ & Hhas).
  { rewrite Hs1. vm_compute. reflexivity. }
  exists i, s1. eexists. split; [reflexivity|]. split; [exact Hth|].
  split; [exact Hrun|]. split; [exact Hcur|]. split; [exact Hno|].
  exists s3. split; [rewrite Hep; exact H3 | exact Hhas].
Defined.

Lemma client_page_is_get_or_create_witness :
  (forall t, throws marked_env t = None)
  /\ JSMap.get "scratch" (registry reconnected) = None
  /\ exists p s1,
      client_page marked_env 0 "scratch" reconnected = (Ok p, s1)
      /\ client_list s1 = (Ok ["home"; "scratch"], s1)
      /\ client_page marked_env 0 "scratch" s1 = (Ok p, after [EvEvaluate p] s1).
Proof.
  split; [reflexivity|]. split; [reflexivity|].
  destruct (nth_error (st_browsers reconnected) 0) as [br|] eqn:Hbr;
    [|vm_compute in Hbr; discriminate Hbr].
  destruct (client_page_is_get_or_create marked_env (fun _ => eq_refl) 0 "scratch"
              reconnected br eq_refl Hbr) as (p & s1 & H1 & Hlist & H2).
  exists p, s1. split; [exact H1|]. split; [exact Hlist | exact H2].
Defined.

Lemma client_close_is_idempotent_witness :
  exists s',
    client_close marked_env "home" reconnected = (Ok tt, s')
    /\ st_trace s' = (st_trace reconnected ++ [EvContextClose 0 0])%list
    /\ JSMap.get "home" (registry s') = None
    /\ client_close marked_env "home" s' = (Ok tt, s').
Proof.
  destruct (client_close marked_env "home" reconnected) as [[[]|m] s'] eqn:Hrun;
    [|vm_compute in Hrun; discriminate Hrun].
  destruct (client_close_is_idempotent marked_env "home" reconnected _ s' Hrun)
    as (Htr & _ & Hnone & _ & Hagain & _).
  exists s'. split; [reflexivity|]. split; [exact Htr|]. split; assumption.
Defined.

Lemma connect_adopts_marked_pages_witness :
  exists b s',
    connect marked_env "ws://127.0.0.1:9222" initial = (Ok b, s')
    /\ b = 0
    /\ JSMap.get "home" (registry s') = Some (0, 0)
    /\ JSMap.keys (registry s') = ["home"].
Proof.
  destruct (connect marked_env "ws://127.0.0.1:9222" initial) as [[b|m] s'] eqn:Hrun;
    [|vm_compute in Hrun; discriminate Hrun].
  destruct (connect_adopts_marked_pages marked_env "ws://127.0.0.1:9222" initial b s'
              Hrun) as (Hb & Hsound & Hcomplete).
  assert (Hs : s' = snd (connect marked_env "ws://127.0.0.1:9222" initial))
    by (rewrite Hrun; reflexivity).
  destruct (Hcomplete (fun _ => eq_refl) 0 _ 0 marked_page "home"
              eq_refl eq_refl eq_refl eq_refl eq_refl) as (c' & Hget).
  destruct (Hsound "home" (b, c') Hget) as (_ & _ & cx & k & pg & Hcx & _).
  assert (c' = 0).
  { cbn [snd] in Hcx. destruct c' as [|[|c']]; [reflexivity | discriminate Hcx..]. }
  subst c'. exists b, s'. split; [reflexivity|]. split; [exact Hb|].
  split; [rewrite Hget, Hb; reflexivity|].
  rewrite Hs. vm_compute. reflexivity.
Defined.

Lemma off_the_mac_every_browser_is_headless_witness :
  exists r s' path args,
    serve_requests linux_env DEFAULT_CONFIG session initial = (r, s')
    /\ In (EvSpawn path args) (st_trace s')
    /\ filter is_exec (st_trace s') = []
    /\ has_arg "--headless=new" args = true
    /\ has_window_position args = false.
Proof.
  destruct (serve_requests linux_env DEFAULT_CONFIG session initial)
    as [r s'] eqn:Hrun.
  assert (Hp : platform linux_env <> "darwin") by (simpl; discriminate).
  destruct (off_the_mac_every_browser_is_headless linux_env DEFAULT_CONFIG
              session initial r s' Hp eq_refl Hrun) as (new & Htr & Hx & Hall).
  change (st_trace initial) with (@nil Event) in Htr. simpl in Htr. subst new.
  assert (Hs : s' = snd (serve_requests linux_env DEFAULT_CONFIG session initial))
    by (rewrite Hrun; reflexivity).
  assert (Hin : exists path args, In (EvSpawn path args) (st_trace s')).
  { rewrite Hs. vm_compute. eexists. eexists. right. left. reflexivity. }
  destruct Hin as (path & args & Hin).
  exists r, s', path, args. split; [reflexivity|]. split; [exact Hin|].
  split; [exact Hx|]. exact (Hall path args Hin).
Defined.


Lemma tracked_browsers_are_untouched_and_apart_witness :
  exists r s i p,
    serve_requests mac_env DEFAULT_CONFIG session initial = (r, s)
    /\ JSMap.get "work" (workspaces s) = Some i
    /\ nth_error (st_procs s) (process i) = Some p
    /\ cp_signals p = []
    /\ port i = 9231%Z.
Proof.
  destruct (serve_requests mac_env DEFAULT_CONFIG session initial) as [r s] eqn:Hrun.
  assert (Hs : s = snd (serve_requests mac_env DEFAULT_CONFIG session initial))
    by (rewrite Hrun; reflexivity).
  destruct (JSMap.get "work" (workspaces s)) as [i|] eqn:Hi;
    [|rewrite Hs in Hi; vm_compute in Hi; discriminate Hi].
  destruct (tracked_browsers_are_untouched_and_apart mac_env DEFAULT_CONFIG
              session r s Hrun "work" i Hi)
    as ((p & Hp & _ & Hsig) & (c & Hc & Hport & _) & _).
  exists r, s, i, p. split; [reflexivity|]. split; [exact Hi|].
  split; [exact Hp|]. split; [exact Hsig|].
  rewrite Hport. vm_compute in Hc. injection Hc as <-. reflexivity.
Defined.

Lemma reports_follow_switch_and_stop_witness :
  exists resp s1 s2,
    post_workspace_switch mac_env DEFAULT_CONFIG (Some "work") initial = (Ok resp, s1)
    /\ status resp = 200%Z
    /\ get_workspace_current s1
       = (Ok (json (BCurrent (Some "work")
                      (Some "ws://127.0.0.1/devtools/http://127.0.0.1:9231/json/version"))),
          s1)
    /\ post_workspace_stop mac_env (Some "work") s1 = (Ok (json (BStop "work")), s2)
    /\ get_workspace_current s2 = (Ok (json (BCurrent None None)), s2).
Proof.
  destruct (post_workspace_switch mac_env DEFAULT_CONFIG (Some "work") initial)
    as [[resp|m] s1] eqn:Hrun; [|vm_compute in Hrun; discriminate Hrun].
  assert (Hresp : resp = json (BSwitch "work"
            (Some "ws://127.0.0.1/devtools/http://127.0.0.1:9231/json/version"))).
  { apply (f_equal fst) in Hrun. vm_compute in Hrun. injection Hrun as <-.
    reflexivity. }
  assert (H200 : status resp = 200%Z) by (rewrite Hresp; reflexivity).
  destruct (reports_follow_switch_and_stop mac_env DEFAULT_CONFIG "work" initial
              resp s1 Hrun H200)
    as (ep & Hep & Hcur & _ & _ & s2 & Hstop & Hcur2 & _).
  rewrite Hresp in Hep. injection Hep as <-.
  exists resp, s1, s2. split; [reflexivity|]. split; [exact H200|].
  split; [exact Hcur|]. split; [exact Hstop | exact Hcur2].
Defined.

(* ------------------------------------------------------------------ *)
(** * Suspension points *)

(** ** The shutdown and what runs while it is suspended *)

Lemma await_then_never (others : M unit) A (c : M A) (k : M bool) s :
  await_then (never_ends others) c k s
  = (let (_, s2) := await others c s in k s2).
Proof.
  unfold await_then, await, never_ends.
  destruct (c s) as [r s1]. destruct (others s1) as [r1 s2]. reflexivity.
Qed.

Lemma page_loop_returns E others l :
  forall s, exists s', for_each l (page_body E others) s = (Ok tt, s').
Proof.
  induction l as [|ne l IH]; intros s; cbn [for_each]; [eexists; reflexivity|].
  unfold bind at 1.
  assert (Hb : exists s1, page_body E others ne s = (Ok tt, s1)).
  { unfold page_body, bind, gets.
    destruct (JSMap.has (fst ne) (pageRegistry s)); [|eexists; reflexivity].
    unfold try_catch. destruct (await others (page_close E (page (snd ne))) s)
      as [[[]|m] s1]; eexists; reflexivity. }
  destruct Hb as (s1 & ->). apply IH.
Qed.

Lemma browser_loop_returns E others l :
  forall s, exists s', for_each l (browser_body E others) s = (Ok tt, s').
Proof.
  induction l as [|b l IH]; intros s; cbn [for_each]; [eexists; reflexivity|].
  unfold bind at 1.
  assert (Hb : exists s1, browser_body E others b s = (Ok tt, s1)).
  { unfold browser_body, try_catch.
    destruct (await others (browser_close E b) s) as [[[]|m] s1];
      eexists; reflexivity. }
  destruct Hb as (s1 & ->). apply IH.
Qed.

(** With tasks that leave the process alive, the continuations of
    [cleanup_under] are the loops of [cleanup]. *)
Lemma close_pages_never E others k l :
  forall s s',
    for_each l (page_body E others) s = (Ok tt, s') ->
    close_pages E (never_ends others) l k s = k s'.
Proof.
  induction l as [|ne l IH]; intros s s' H; cbn [for_each close_pages] in *.
  - injection H as <-. reflexivity.
  - unfold bind at 1 in H. unfold bind at 1, gets.
    unfold page_body at 1, bind at 1, gets in H.
    destruct (JSMap.has (fst ne) (pageRegistry s)).
    + rewrite await_then_never. unfold try_catch in H.
      destruct (await others (page_close E (page (snd ne))) s) as [[[]|m] s1];
        unfold ret in H; now apply IH.
    + unfold ret in H. now apply IH.
Qed.

Lemma close_browsers_never E others k l :
  forall s s',
    for_each l (browser_body E others) s = (Ok tt, s') ->
    close_browsers E (never_ends others) l k s = k s'.
Proof.
  induction l as [|b l IH]; intros s s' H; cbn [for_each close_browsers] in *.
  - injection H as <-. reflexivity.
  - unfold bind at 1 in H. unfold browser_body at 1, try_catch in H.
    rewrite await_then_never.
    destruct (await others (browser_close E b) s) as [[[]|m] s1];
      unfold ret in H; now apply IH.
Qed.

(** The state in which the loop over the pages begins. *)
Definition sockets_destroyed (s : St) : St :=
  with_connections []
    (after (map EvSocketDestroy (connections s)) (with_cleaningUp true s)).

Section Steps.
Variable E : Env.
Variable s s2 s3 s4 : St.
Hypothesis not_busy : cleaningUp s = false.

Lemma cleanup_with_steps others :
  for_each (pageRegistry s) (page_body E others) (sockets_destroyed s) = (Ok tt, s2) ->
  for_each (JSMap.values (browserConnections s2)) (browser_body E others)
    (with_pageRegistry JSMap.empty s2) = (Ok tt, s3) ->
  stopAll (with_browserConnections JSMap.empty s3) = (Ok tt, s4) ->
  cleanup_with E others s = (Ok tt, after [EvServerClose] s4).
Proof.
  intros Hp Hb Hs. unfold cleanup_with.
  unfold bind at 1, gets. rewrite not_busy.
  unfold bind at 1, modify. unfold bind at 1, gets.
  unfold bind at 1. simpl connections. rewrite for_each_sockets.
  unfold bind at 1. unfold bind at 1. unfold JSMap.entries.
  unfold bind at 1.
  change (pageRegistry
            (with_connections []
               (after (map EvSocketDestroy (connections s))
                  (with_cleaningUp true s)))) with (pageRegistry s).
  fold (sockets_destroyed s).
  match goal with
  | |- context [for_each (pageRegistry s) ?f (sockets_destroyed s)] =>
      change (for_each (pageRegistry s) f (sockets_destroyed s))
        with (for_each (pageRegistry s) (page_body E others) (sockets_destroyed s))
  end.
  rewrite Hp.
  unfold bind at 1. unfold bind at 1. unfold bind at 1.
  change (browserConnections (with_pageRegistry JSMap.empty s2))
    with (browserConnections s2).
  match goal with
  | |- context [for_each (JSMap.values (browserConnections s2)) ?f ?st] =>
      change (for_each (JSMap.values (browserConnections s2)) f st)
        with (for_each (JSMap.values (browserConnections s2)) (browser_body E others)
                (with_pageRegistry JSMap.empty s2))
  end.
  rewrite Hb.
  unfold bind at 1. unfold bind at 1.
  rewrite Hs. reflexivity.
Qed.

Lemma cleanup_under_steps others :
  for_each (pageRegistry s) (page_body E others) (sockets_destroyed s) = (Ok tt, s2) ->
  for_each (JSMap.values (browserConnections s2)) (browser_body E others)
    (with_pageRegistry JSMap.empty s2) = (Ok tt, s3) ->
  stopAll (with_browserConnections JSMap.empty s3) = (Ok tt, s4) ->
  cleanup_under E (never_ends others) s = (Ok false, after [EvServerClose] s4).
Proof.
  intros Hp Hb Hs. unfold cleanup_under.
  unfold bind at 1, gets. rewrite not_busy.
  unfold bind at 1, modify. unfold bind at 1, gets.
  unfold bind at 1. simpl connections. rewrite for_each_sockets.
  unfold bind at 1. unfold bind at 1. unfold JSMap.entries.
  change (pageRegistry
            (with_connections []
               (after (map EvSocketDestroy (connections s))
                  (with_cleaningUp true s)))) with (pageRegistry s).
  fold (sockets_destroyed s).
  rewrite (close_pages_never E others _ _ _ _ Hp).
  unfold bind at 1. unfold bind at 1.
  change (browserConnections (with_pageRegistry JSMap.empty s2))
    with (browserConnections s2).
  rewrite (close_browsers_never E others _ _ _ _ Hb).
  unfold bind at 1. unfold bind at 1.
  rewrite Hs. reflexivity.
Qed.
End Steps.

(** ** The pages a shutdown closes *)

Lemma nth_error_update_at_cases A (f : A -> A) (l : list A) i j :
  nth_error (update_at i f l) j = nth_error l j
  \/ exists a, nth_error l j = Some a /\ nth_error (update_at i f l) j = Some (f a).
Proof.
  destruct (Nat.eq_dec i j) as [->|Hne].
  - destruct (nth_error l j) as [a|] eqn:Hj.
    + right. exists a. split; [reflexivity|]. now apply nth_error_update_at_eq.
    + left. revert j Hj. induction l as [|b l IH]; intros [|j] Hj; simpl in *;
        try reflexivity; try discriminate. now apply IH.
  - left. now apply nth_error_update_at_ne.
Qed.

Lemma lookup_update_page_cases p p' f s :
  lookup_page p' (update_page p f s) = lookup_page p' s
  \/ exists q, lookup_page p' s = Some q
               /\ lookup_page p' (update_page p f s) = Some (f q).
Proof.
  unfold lookup_page, pages_of, contexts_of, update_page, update_context,
    update_browser. cbn [st_browsers with_browsers].
  match goal with
  | |- context [update_at (pr_browser p) ?F (st_browsers s)] =>
      destruct (nth_error_update_at_cases _ F (st_browsers s) (pr_browser p)
                  (pr_browser p')) as [->|(br & Hb & ->)]
  end; [now left|].
  rewrite Hb. cbn [br_contexts].
  match goal with
  | |- context [update_at (pr_context p) ?G (br_contexts br)] =>
      destruct (nth_error_update_at_cases _ G (br_contexts br) (pr_context p)
                  (pr_context p')) as [->|(cx & Hc & ->)]
  end; [now left|].
  rewrite Hc. cbn [cx_pages].
  destruct (nth_error_update_at_cases _ f (cx_pages cx) (pr_page p) (pr_page p'))
    as [->|(q & Hq & ->)]; [now left|].
  right. exists q. auto.
Qed.

(** Closing a page gives no page a listener it had not. *)
Lemma page_close_listeners E p s r s' :
  page_close E p s = (r, s') ->
  forall p' m, In m (listeners p' s') -> In m (listeners p' s).
Proof.
  unfold page_close. unfold bind at 1.
  cbv [outside bind now gets emit modify ret throw].
  destruct (throws E (length (st_trace s))) as [m0|].
  - intros H. end_state H. intros p' m Hm. exact Hm.
  - change (lookup_page p (with_trace (st_trace s ++ [EvPageClose p]) s))
      with (lookup_page p s).
    destruct (lookup_page p s) as [q|].
    + destruct (pg_closed q).
      * intros H. end_state H. intros p' m Hm. exact Hm.
      * rewrite forget_loop. intros H. end_state H. intros p' m.
        unfold listeners.
        change (lookup_page p'
                  (with_pageRegistry
                     (forget (pg_on_close q)
                        (pageRegistry
                           (update_page p mark_closed
                              (with_trace (st_trace s ++ [EvPageClose p]) s))))
                     (update_page p mark_closed
                        (with_trace (st_trace s ++ [EvPageClose p]) s))))
          with (lookup_page p' (update_page p mark_closed s)).
        destruct (lookup_update_page_cases p p' mark_closed s)
          as [->|(q0 & Hq0 & ->)]; [auto|].
        simpl. intros [].
    + intros H. end_state H. intros p' m Hm. exact Hm.
Qed.

Lemma has_forget_other names (m : JSMap.t PageEntry) k :
  (forall n, In n names -> n <> k) ->
  JSMap.has k (forget names m) = JSMap.has k m.
Proof.
  revert m. induction names as [|n names IH]; intros m Hall; cbn [forget fold_left];
    [reflexivity|].
  fold (forget names (JSMap.delete n m)).
  rewrite IH by (intros n0 Hn0; apply Hall; now right).
  unfold JSMap.has. rewrite JSMapFacts.get_delete_ne; [reflexivity|].
  apply Hall. now left.
Qed.

(** Every entry's page has no close listener but the one that removes the
    entry's own name, which is what [POST /pages] installs. *)
Definition own_listeners (s : St) : Prop :=
  forall n e m,
    In (n, e) (pageRegistry s) -> In m (listeners (page e) s) -> m = n.

Definition close_of (ne : string * PageEntry) : Event := EvPageClose (page (snd ne)).

Lemma page_loop_exact E l :
  forall s,
    NoDup (map fst l) ->
    (forall ne, In ne l -> JSMap.has (fst ne) (pageRegistry s) = true) ->
    (forall ne m, In ne l -> In m (listeners (page (snd ne)) s) -> m = fst ne) ->
    exists s',
      for_each l (page_body E (ret tt)) s = (Ok tt, s')
      /\ st_trace s' = (st_trace s ++ map close_of l)%list.
Proof.
  induction l as [|ne l IH]; intros s Hnd Hlive Hown; cbn [for_each map].
  - exists s. rewrite app_nil_r. split; reflexivity.
  - inversion Hnd as [|? ? Hnotin Hnd']; subst.
    unfold bind at 1. unfold page_body at 1, bind at 1, gets.
    rewrite (Hlive ne (or_introl eq_refl)).
    unfold try_catch, await.
    destruct (page_close E (page (snd ne)) s) as [r s1] eqn:Hc.
    cbn [ret].
    assert (Hnext : exists s', for_each l (page_body E (ret tt)) s1 = (Ok tt, s')
                               /\ st_trace s' = (st_trace s1 ++ map close_of l)%list).
    { destruct (page_close_cases E _ _ _ _ Hc) as (_ & Hreg).
      apply IH; [exact Hnd' | |].
      - intros ne' Hin'.
        assert (Hne : forall n, In n (listeners (page (snd ne)) s) -> n <> fst ne').
        { intros n Hn ->. apply Hnotin.
          rewrite <- (Hown ne _ (or_introl eq_refl) Hn).
          apply in_map. exact Hin'. }
        destruct r as [[]|m0].
        + destruct Hreg as [_ ->]. rewrite (has_forget_other _ _ _ Hne).
          apply Hlive. now right.
        + destruct Hreg as [_ ->]. apply Hlive. now right.
      - intros ne' m Hin' Hm. apply (Hown ne' m); [now right|].
        exact (page_close_listeners E _ _ _ _ Hc _ _ Hm). }
    destruct Hnext as (s' & Hrun & Htr).
    destruct (page_close_cases E _ _ _ _ Hc) as (Htr1 & _).
    exists s'. split.
    + destruct r as [[]|m0]; exact Hrun.
    + rewrite Htr, Htr1, <- app_assoc. reflexivity.
Qed.

Lemma In_has A (m : JSMap.t A) ne : In ne m -> JSMap.has (fst ne) m = true.
Proof.
  unfold JSMap.has. induction m as [|[k v] m IH]; simpl; [intros []|].
  intros [<-|Hin]; simpl.
  - now rewrite String.eqb_refl.
  - destruct (String.eqb (fst ne) k); [reflexivity | now apply IH].
Qed.

(** ** The processes a shutdown terminates *)

Definition termination_of (i : ChromeInstance) : list Event :=
  [EvKill (process i) SIGTERM; EvSetTimeout 3000].

(** The process of the instance exists and no signal was delivered to it. *)
Definition is_running (s : St) (i : ChromeInstance) : Prop :=
  exists p, nth_error (st_procs s) (process i) = Some p
            /\ cp_handle p = true /\ killed p = false.

(** Every tracked instance has a running process of its own. *)
Definition all_running (s : St) : Prop :=
  NoDup (map process (JSMap.values (workspaces s)))
  /\ forall i, In i (JSMap.values (workspaces s)) -> is_running s i.

Lemma killChrome_live i s :
  is_running s i ->
  exists s1,
    killChrome i s = (Ok tt, s1)
    /\ st_trace s1 = (st_trace s ++ termination_of i)%list
    /\ forall pid, pid <> process i ->
                   nth_error (st_procs s1) pid = nth_error (st_procs s) pid.
Proof.
  intros (p & Hp & Hh & Hk).
  unfold killChrome, proc_killed, proc_kill, bind, gets, emit, modify, ret.
  rewrite Hp, Hk. cbn [negb st_procs with_trace]. rewrite Hp, Hh.
  eexists. split; [reflexivity|]. simpl. split.
  - rewrite <- app_assoc. reflexivity.
  - intros pid Hne. apply nth_error_update_at_ne. congruence.
Qed.

Lemma kill_loop_exact l :
  forall s,
    NoDup (map process l) ->
    (forall i, In i l -> is_running s i) ->
    exists s',
      for_each l killChrome s = (Ok tt, s')
      /\ st_trace s' = (st_trace s ++ flat_map termination_of l)%list.
Proof.
  induction l as [|i l IH]; intros s Hnd Hrun; cbn [for_each flat_map map].
  - exists s. rewrite app_nil_r. split; reflexivity.
  - inversion Hnd as [|? ? Hnotin Hnd']; subst.
    destruct (killChrome_live i s (Hrun i (or_introl eq_refl)))
      as (s1 & Hk & Htr1 & Hother).
    unfold bind at 1. rewrite Hk.
    destruct (IH s1 Hnd') as (s' & Hloop & Htr).
    { intros j Hj. destruct (Hrun j (or_intror Hj)) as (p & Hp & Hh & Hkd).
      exists p. split; [|auto]. rewrite Hother; [exact Hp|].
      intros Heq. apply Hnotin. rewrite <- Heq. now apply in_map. }
    exists s'. split; [exact Hloop|].
    rewrite Htr, Htr1, <- app_assoc. reflexivity.
Qed.

Lemma stopAll_exact s s' :
  all_running s ->
  stopAll s = (Ok tt, s') ->
  st_trace s' = (st_trace s ++ flat_map termination_of (JSMap.values (workspaces s)))%list.
Proof.
  intros [Hnd Hrun] H.
  destruct (kill_loop_exact (JSMap.values (workspaces s)) s Hnd Hrun)
    as (s1 & Hloop & Htr).
  unfold stopAll in H. unfold bind at 1, gets in H. unfold bind at 1 in H.
  rewrite Hloop in H. cbv [bind modify] in H. end_state H. exact Htr.
Qed.

(** ** One shutdown, whatever is triggered meanwhile *)

Lemma signalHandler_busy E s :
  cleaningUp s = true -> signalHandler E s = (Ok true, after [EvExit 0] s).
Proof.
  intros H. unfold signalHandler, signalHandler_under, cleanup_under.
  unfold bind at 1. unfold bind at 1, gets. rewrite H. reflexivity.
Qed.

Lemma cleanup_under_busy E interrupt s :
  cleaningUp s = true -> cleanup_under E interrupt s = (Ok false, s).
Proof.
  intros H. unfold cleanup_under, bind, gets. now rewrite H.
Qed.

Lemma cleanup_run_detail E others s :
  idle_when_cleaning others ->
  cleaningUp s = false ->
  exists s' pages kills,
    cleanup_with E others s = (Ok tt, s')
    /\ cleanup_with E (ret tt) s = (Ok tt, s')
    /\ cleanup_under E (never_ends others) s = (Ok false, s')
    /\ cleaningUp s' = true
    /\ st_trace s'
       = (st_trace s ++ map EvSocketDestroy (connections s) ++ pages
            ++ map EvBrowserClose (JSMap.values (browserConnections s))
            ++ kills ++ [EvServerClose])%list
    /\ Forall (is_page_close_of (pageRegistry s)) pages
    /\ Forall is_termination kills
    /\ (NoDup (JSMap.keys (pageRegistry s)) -> own_listeners s ->
        pages = map close_of (pageRegistry s))
    /\ (all_running s ->
        kills = flat_map termination_of (JSMap.values (workspaces s))).
Proof.
  intros Hidle Hflag.
  destruct (page_loop_run E others Hidle (pageRegistry s) (sockets_destroyed s) eq_refl)
    as (s2 & P1 & P1' & PF & (pages & PT & PP)).
  destruct PF as (F1 & F2 & F3 & F4 & F5 & F6 & F7).
  assert (Hbc : browserConnections s2 = browserConnections s) by exact F2.
  destruct (browser_loop_run E others Hidle
              (JSMap.values (browserConnections s2)) (with_pageRegistry JSMap.empty s2))
    as (s3 & B1 & B1' & BF & BT & BR).
  { simpl. rewrite F7. reflexivity. }
  destruct BF as (G1 & G2 & G3 & G4 & G5 & G6 & G7).
  destruct (stopAll_run (with_browserConnections JSMap.empty s3))
    as (s4 & S1 & (kills & ST & SK) & S2 & S3 & S4 & S5 & S6 & S7).
  exists (after [EvServerClose] s4), pages, kills.
  splits.
  - exact (cleanup_with_steps E s s2 s3 s4 Hflag others P1 B1 S1).
  - exact (cleanup_with_steps E s s2 s3 s4 Hflag (ret tt) P1' B1' S1).
  - exact (cleanup_under_steps E s s2 s3 s4 Hflag others P1 B1 S1).
  - simpl. rewrite S2. simpl. rewrite G7. simpl. rewrite F7. reflexivity.
  - simpl. rewrite ST. simpl. rewrite BT. simpl. rewrite PT, Hbc.
    unfold sockets_destroyed; simpl. rewrite <- !app_assoc. reflexivity.
  - assumption.
  - assumption.
  - intros Hnd Hown.
    destruct (page_loop_exact E (pageRegistry s) (sockets_destroyed s))
      as (s2' & Hrun & Htr).
    + exact Hnd.
    + intros ne Hin. now apply In_has.
    + intros [n e] m Hin Hm. exact (Hown n e m Hin Hm).
    + rewrite P1' in Hrun. injection Hrun as <-.
      rewrite PT in Htr. now apply app_inv_head in Htr.
  - intros [Hnd Hrun].
    assert (Hw : workspaces (with_browserConnections JSMap.empty s3) = workspaces s).
    { simpl. rewrite G3. simpl. exact F3. }
    assert (Hp : st_procs (with_browserConnections JSMap.empty s3) = st_procs s).
    { simpl. rewrite G5. simpl. exact F5. }
    assert (Hall : all_running (with_browserConnections JSMap.empty s3)).
    { unfold all_running, is_running. rewrite Hw, Hp. split; assumption. }
    pose proof (stopAll_exact _ _ Hall S1) as Htr.
    rewrite ST, Hw in Htr. now apply app_inv_head in Htr.
Qed.


(** [cleanup_under] is [cleanup] as long as nothing ends the process. *)
Lemma cleanup_under_never E others s :
  exists s',
    cleanup_with E others s = (Ok tt, s')
    /\ cleanup_under E (never_ends others) s = (Ok false, s').
Proof.
  destruct (cleaningUp s) eqn:Hflag.
  - exists s. split; [now apply cleanup_with_busy | now apply cleanup_under_busy].
  - destruct (page_loop_returns E others (pageRegistry s) (sockets_destroyed s))
      as (s2 & Hp).
    destruct (browser_loop_returns E others (JSMap.values (browserConnections s2))
                (with_pageRegistry JSMap.empty s2)) as (s3 & Hb).
    destruct (stopAll_run (with_browserConnections JSMap.empty s3)) as (s4 & Hs & _).
    exists (after [EvServerClose] s4). split.
    + exact (cleanup_with_steps E s s2 s3 s4 Hflag others Hp Hb Hs).
    + exact (cleanup_under_steps E s s2 s3 s4 Hflag others Hp Hb Hs).
Qed.

(** A further termination signal that arrives while the shutdown is
    suspended at its first [await]: its handler ends the process, and the
    shutdown has then made no step after the close it was awaiting.  When
    nothing is tracked the shutdown is never suspended and runs to its
    end. *)
Lemma second_signal_cuts_the_shutdown_short E s :
  cleaningUp s = false ->
  (forall ne rest,
      pageRegistry s = ne :: rest ->
      exists s2,
        cleanup_under E (signalHandler E) s = (Ok true, s2)
        /\ st_trace s2
           = (st_trace s ++ map EvSocketDestroy (connections s)
                ++ [close_of ne; EvExit 0])%list
        /\ browserConnections s2 = browserConnections s
        /\ workspaces s2 = workspaces s
        /\ st_procs s2 = st_procs s)
  /\ (forall b rest,
        pageRegistry s = [] ->
        JSMap.values (browserConnections s) = b :: rest ->
        exists s2,
          cleanup_under E (signalHandler E) s = (Ok true, s2)
          /\ st_trace s2
             = (st_trace s ++ map EvSocketDestroy (connections s)
                  ++ [EvBrowserClose b; EvExit 0])%list
          /\ workspaces s2 = workspaces s
          /\ st_procs s2 = st_procs s)
  /\ (pageRegistry s = [] ->
      JSMap.values (browserConnections s) = [] ->
      exists s',
        cleanup_under E (signalHandler E) s = (Ok false, s')
        /\ cleanup E s = (Ok tt, s')).
Proof.
  intros Hflag.
  assert (Hunfold :
    cleanup_under E (signalHandler E) s
    = close_pages E (signalHandler E) (pageRegistry s)
        (modify (with_pageRegistry JSMap.empty) ;;;
         browsers <- gets (fun s0 => JSMap.values (browserConnections s0)) ;;
         close_browsers E (signalHandler E) browsers
           (modify (with_browserConnections JSMap.empty) ;;;
            stopAll ;;;
            emit EvServerClose ;;;
            ret false))
        (sockets_destroyed s)).
  { unfold cleanup_under. unfold bind at 1, gets. rewrite Hflag.
    unfold bind at 1, modify. unfold bind at 1, gets.
    unfold bind at 1. simpl connections. rewrite for_each_sockets.
    unfold bind at 1. unfold bind at 1. reflexivity. }
  split; [|split].
  - intros ne rest Hreg. rewrite Hunfold, Hreg. cbn [close_pages].
    unfold bind at 1, gets.
    assert (Hlive : JSMap.has (fst ne) (pageRegistry (sockets_destroyed s)) = true).
    { change (pageRegistry (sockets_destroyed s)) with (pageRegistry s).
      rewrite Hreg. apply In_has. now left. }
    rewrite Hlive. unfold await_then.
    destruct (page_close E (page (snd ne)) (sockets_destroyed s)) as [r s1] eqn:Hc.
    destruct (page_close_frame E _ _ _ _ Hc) as (_ & F2 & F3 & _ & F5 & _ & F7).
    destruct (page_close_cases E _ _ _ _ Hc) as (Htr & _).
    rewrite (signalHandler_busy E s1) by (rewrite F7; reflexivity).
    eexists. split; [reflexivity|]. simpl. rewrite Htr. simpl.
    rewrite <- !app_assoc. splits; auto.
  - intros b rest Hreg Hb. rewrite Hunfold, Hreg. cbn [close_pages].
    unfold bind at 1, modify. unfold bind at 1, gets.
    change (browserConnections (with_pageRegistry JSMap.empty (sockets_destroyed s)))
      with (browserConnections s).
    rewrite Hb. cbn [close_browsers]. unfold await_then.
    destruct (browser_close E b (with_pageRegistry JSMap.empty (sockets_destroyed s)))
      as [r s1] eqn:Hc.
    destruct (browser_close_frame E _ _ _ _ Hc) as (_ & _ & F3 & _ & F5 & _ & F7).
    destruct (browser_close_trace E _ _ _ _ Hc) as (Htr & _).
    rewrite (signalHandler_busy E s1) by (rewrite F7; reflexivity).
    eexists. split; [reflexivity|]. simpl. rewrite Htr. simpl.
    rewrite <- !app_assoc. splits; auto.
  - intros Hreg Hb. rewrite Hunfold, Hreg. cbn [close_pages].
    unfold bind at 1, modify. unfold bind at 1, gets.
    change (browserConnections (with_pageRegistry JSMap.empty (sockets_destroyed s)))
      with (browserConnections s).
    rewrite Hb. cbn [close_browsers].
    destruct (stopAll_run (with_browserConnections JSMap.empty
                             (with_pageRegistry JSMap.empty (sockets_destroyed s))))
      as (s4 & Hs & _).
    exists (after [EvServerClose] s4). split.
    + unfold bind at 1, modify. unfold bind at 1. rewrite Hs. reflexivity.
    + apply (cleanup_with_steps E s (sockets_destroyed s)
               (with_pageRegistry JSMap.empty (sockets_destroyed s)) s4 Hflag (ret tt)).
      * rewrite Hreg. reflexivity.
      * change (browserConnections (sockets_destroyed s)) with (browserConnections s).
        rewrite Hb. reflexivity.
      * exact Hs.
Qed.

(** ** Launches that overlap *)

Lemma launchChrome_after_display E o :
  launchChrome E o
  = match findChromeExecutable E with
    | None => throw ("Chrome executable not found for platform: " ++ platform E)
    | Some chromePath =>
        cached <- gets cachedVirtualDisplay ;;
        match cached with
        | None =>
            d <- ensureVirtualDisplay E ;;
            modify (with_cachedVirtualDisplay (Some d))
        | Some _ => ret tt
        end ;;;
        launch_after_display E chromePath o
    end.
Proof. reflexivity. Qed.

(** Cutting a launch at its first [await] and resuming it at once is the
    launch. *)
Lemma launchChrome_begin_resume E o s :
  (p <- launch_begin E ;; launch_resume E p o) s = launchChrome E o s.
Proof.
  unfold launch_begin, launch_resume. rewrite launchChrome_after_display.
  destruct (findChromeExecutable E) as [path|] eqn:Hf; [|reflexivity].
  generalize (launch_after_display E path o). intros K.
  unfold ensureVirtualDisplay.
  set (T := try_catch (bind (execAsync E display_create) _) _). clearbody T.
  cbv [bind gets ret].
  destruct (cachedVirtualDisplay s) as [x|] eqn:Hc.
  - cbv [bind gets ret]. rewrite ?Hc. reflexivity.
  - unfold getVirtualDisplayPosition.
    destruct (negb (platform E =? "darwin")) eqn:Hp.
    + cbv [bind gets ret]. rewrite ?Hc, ?Hp. reflexivity.
    + unfold execAsync.
      cbv [bind gets ret now emit modify try_catch throw]. simpl st_trace.
      destruct (exec_result E (length (st_trace s)) display_query) as [out|];
        [destruct (parse_displays out)|]; try reflexivity;
        destruct (T _) as [[a|m] s1]; reflexivity.
Qed.

Lemma findChromeExecutable_mac E :
  platform E = "darwin" ->
  findChromeExecutable E
  = Some "/Applications/Google Chrome.app/Contents/MacOS/Google Chrome".
Proof. intros Hp. unfold findChromeExecutable, CHROME_PATHS. rewrite Hp. reflexivity. Qed.

(** On macOS a launch that finds nothing cached gets as far as starting
    the display query, and is suspended there. *)
Lemma launch_begin_mac E s :
  platform E = "darwin" ->
  cachedVirtualDisplay s = None ->
  launch_begin E s
  = (Ok (awaiting_query (length (st_trace s))), after [EvExec display_query] s).
Proof.
  intros Hp Hc. unfold launch_begin. rewrite (findChromeExecutable_mac E Hp).
  cbv [bind gets ret now emit modify]. rewrite Hc, Hp. reflexivity.
Qed.

(** A launch resumed with a query that found a display caches it and goes
    on as a launch that finds it cached. *)
Lemma launch_resume_found E t d o s :
  platform E = "darwin" ->
  detect E t = Some d ->
  launch_resume E (awaiting_query t) o s
  = launchChrome E o (with_cachedVirtualDisplay (Some (Some d)) s).
Proof.
  intros Hp Hd. unfold launch_resume. rewrite launchChrome_after_display.
  rewrite (findChromeExecutable_mac E Hp).
  unfold detect in Hd. rewrite Hd. reflexivity.
Qed.

Lemma launch_resume_calm E p o : steps (emits no_signal) (launch_resume E p o).
Proof.
  destruct p as [t|]; [|apply launchChrome_calm].
  unfold launch_resume, launch_after_display, getVirtualDisplayPosition,
    buildChromeArgs, mkdirSync, spawn, waitForCDP, execAsync, sleep.
  calm_walk_with ltac:(apply waitForCDP_from_calm).
Qed.

(** The outcome of a call, as the caller that awaits it sees it. *)
Lemma settled_run A (c : M A) s :
  try_catch (i <- c ;; ret (Ok i)) (fun m => ret (Throw m)) s
  = (Ok (fst (c s)), snd (c s)).
Proof. unfold try_catch, bind, ret. destruct (c s) as [[a|m] s1]; reflexivity. Qed.

Lemma overlapping_launches_run E o1 o2 s :
  platform E = "darwin" ->
  cachedVirtualDisplay s = None ->
  overlapping_launches E o1 o2 s
  = (let s2 := after [EvExec display_query; EvExec display_query] s in
     let run1 := launch_resume E (awaiting_query (length (st_trace s))) o1 s2 in
     let run2 := launch_resume E (awaiting_query (length (st_trace s) + 1)) o2
                   (snd run1) in
     (Ok (fst run1, fst run2), snd run2)).
Proof.
  intros Hp Hc. unfold overlapping_launches.
  unfold bind at 1. rewrite (launch_begin_mac E s Hp Hc).
  unfold bind at 1. rewrite (launch_begin_mac E _ Hp) by exact Hc.
  unfold bind at 1. rewrite settled_run.
  unfold bind at 1. rewrite settled_run.
  replace (after [EvExec display_query] (after [EvExec display_query] s))
    with (after [EvExec display_query; EvExec display_query] s)
    by (unfold after; simpl; now rewrite <- app_assoc).
  replace (length (st_trace (after [EvExec display_query] s)))
    with (length (st_trace s) + 1)
    by (unfold after; simpl; now rewrite length_app).
  reflexivity.
Qed.

(** C8: two launches of which the second begins while the first is suspended
    at its display query, on macOS with no placement cached yet (two switch
    requests for workspaces that are not running, arriving together on a
    fresh server).  A launch cut at that [await] and resumed is
    [launchChrome]; both launches find [cachedVirtualDisplay] undefined, so
    the first two outside calls are two display queries, one per launch,
    whatever the utilities answer; and when both queries find a display the
    launches run no other utility and the placement left in the cache is the
    one the second launch found, written over the first launch's. *)
Theorem overlapping_launches_both_resolve E o1 o2 s :
  platform E = "darwin" ->
  cachedVirtualDisplay s = None ->
  (forall o s0, (p <- launch_begin E ;; launch_resume E p o) s0 = launchChrome E o s0)
  /\ (exists r1 r2 s' rest,
        overlapping_launches E o1 o2 s = (Ok (r1, r2), s')
        /\ st_trace s'
           = (st_trace s ++ EvExec display_query :: EvExec display_query :: rest)%list)
  /\ (forall d1 d2,
        detect E (length (st_trace s)) = Some d1 ->
        detect E (length (st_trace s) + 1) = Some d2 ->
        exists r1 r2 s1 s' rest,
          overlapping_launches E o1 o2 s = (Ok (r1, r2), s')
          /\ launchChrome E o1
               (with_cachedVirtualDisplay (Some (Some d1))
                  (after [EvExec display_query; EvExec display_query] s))
             = (r1, s1)
          /\ launchChrome E o2 (with_cachedVirtualDisplay (Some (Some d2)) s1)
             = (r2, s')
          /\ cachedVirtualDisplay s1 = Some (Some d1)
          /\ cachedVirtualDisplay s' = Some (Some d2)
          /\ st_trace s'
             = (st_trace s ++ EvExec display_query :: EvExec display_query :: rest)%list
          /\ filter is_exec rest = []).
Proof.
  intros Hp Hc. splits.
  - intros o s0. apply launchChrome_begin_resume.
  - rewrite (overlapping_launches_run E o1 o2 s Hp Hc). cbv zeta.
    set (s2 := after [EvExec display_query; EvExec display_query] s).
    destruct (launch_resume E (awaiting_query (length (st_trace s))) o1 s2)
      as [r1 s3] eqn:H1.
    cbn [fst snd].
    destruct (launch_resume E (awaiting_query (length (st_trace s) + 1)) o2 s3)
      as [r2 s4] eqn:H2.
    cbn [fst snd].
    destruct (launch_resume_calm E _ _ _ _ _ H1) as (n1 & T1 & _).
    destruct (launch_resume_calm E _ _ _ _ _ H2) as (n2 & T2 & _).
    exists r1, r2, s4, (n1 ++ n2)%list. split; [reflexivity|].
    rewrite T2, T1. unfold s2, after. simpl. rewrite <- !app_assoc. reflexivity.
  - intros d1 d2 Hd1 Hd2.
    rewrite (overlapping_launches_run E o1 o2 s Hp Hc). cbv zeta.
    set (s2 := after [EvExec display_query; EvExec display_query] s).
    rewrite (launch_resume_found E _ d1 o1 s2 Hp Hd1).
    destruct (launchChrome E o1 (with_cachedVirtualDisplay (Some (Some d1)) s2))
      as [r1 s3] eqn:H1.
    cbn [fst snd].
    rewrite (launch_resume_found E _ d2 o2 s3 Hp Hd2).
    destruct (launchChrome E o2 (with_cachedVirtualDisplay (Some (Some d2)) s3))
      as [r2 s4] eqn:H2.
    cbn [fst snd].
    destruct (launchChrome_reuses_cache E o1 _ _ _ H1 (Some d1) eq_refl)
      as (C1 & n1 & T1 & F1).
    destruct (launchChrome_reuses_cache E o2 _ _ _ H2 (Some d2) eq_refl)
      as (C2 & n2 & T2 & F2).
    exists r1, r2, s3, s4, (n1 ++ n2)%list. splits; try reflexivity; try assumption.
    + rewrite T2. simpl. rewrite T1. unfold s2, after. simpl.
      rewrite <- !app_assoc. reflexivity.
    + rewrite filter_app, F1, F2. reflexivity.
Qed.

(** * Concrete runs: shutdown, overlapping launches, a failed spawn *)


(** On the server of [serving], a termination signal that arrives while the
    shutdown waits for the page to close ends the process there: the pooled
    connection is not closed and the browser gets no SIGTERM. *)
Example second_signal_during_shutdown :
  cleanup_under mac_env (signalHandler mac_env) serving
  = (Ok true,
     snd (cleanup_under mac_env (signalHandler mac_env) serving))
  /\ skipn (length (st_trace serving))
       (st_trace (snd (cleanup_under mac_env (signalHandler mac_env) serving)))
     = [EvSocketDestroy 7;
        EvPageClose {| pr_browser := 0; pr_context := 0; pr_page := 0 |};
        EvExit 0].
Proof. vm_compute. split; reflexivity. Qed.

Lemma overlapping_launches_both_resolve_witness :
  platform mac_env = "darwin"
  /\ cachedVirtualDisplay initial = None
  /\ exists r1 r2 s',
      overlapping_launches mac_env launch_personal launch_work initial
      = (Ok (r1, r2), s')
      /\ filter is_exec (st_trace s')
         = [EvExec display_query; EvExec display_query]
      /\ cachedVirtualDisplay s'
         = Some (Some {| origin := {| px := 1512; py := 0 |};
                         resolution := {| width := 1920; height := 1080 |} |}).
Proof.
  split; [reflexivity|]. split; [reflexivity|].
  destruct (overlapping_launches_both_resolve mac_env launch_personal launch_work
              initial eq_refl eq_refl) as (_ & _ & Hfound).
  assert (D0 : detect mac_env (length (st_trace initial))
               = Some {| origin := {| px := 1512; py := 0 |};
                         resolution := {| width := 1920; height := 1080 |} |})
    by (vm_compute; reflexivity).
  assert (D1 : detect mac_env (length (st_trace initial) + 1)
               = Some {| origin := {| px := 1512; py := 0 |};
                         resolution := {| width := 1920; height := 1080 |} |})
    by (vm_compute; reflexivity).
  destruct (Hfound _ _ D0 D1)
    as (r1 & r2 & s1 & s' & rest & Hrun & _ & _ & _ & Hc & Htr & Hex).
  exists r1, r2, s'. split; [exact Hrun|]. split; [|exact Hc].
  rewrite Htr. cbn [st_trace initial app filter is_exec]. rewrite Hex. reflexivity.
Defined.

(** Where no utility answers, each of the two overlapping launches also
    tries to create the display. *)
Example overlapping_launches_both_create :
  filter is_exec
    (st_trace (snd (overlapping_launches no_display_env launch_personal launch_work
                      initial)))
  = [EvExec display_query; EvExec display_query;
     EvExec display_create; EvExec display_create].
Proof. vm_compute. reflexivity. Qed.

(** A workspace whose browser could not be spawned, the port being answered
    all the same, is reported running, with an endpoint and without a pid;
    one whose browser was spawned is reported with the pid of its child. *)
Example running_workspace_without_pid :
  option_map (map (fun w => (ws_name w, ws_status w, ws_pid w)))
    (match getWorkspaceStates DEFAULT_CONFIG (personal_running spawn_fails_env) with
     | (Ok states, _) => Some states
     | _ => None
     end)
  = Some [("personal", running, None); ("work", stopped, None)]
  /\ option_map (map (fun w => (ws_name w, ws_status w, ws_pid w)))
       (match getWorkspaceStates DEFAULT_CONFIG (personal_running mac_env) with
        | (Ok states, _) => Some states
        | _ => None
        end)
     = Some [("personal", running, Some 0); ("work", stopped, None)].
Proof. vm_compute. split; reflexivity. Qed.
